(* ===== verification/_CoqProject ===== *)
-Q . S2P
Prelude.v
Float64.v
JsValue.v
Format.v
DashboardView.v
ViewFacts.v
SwEvents.v
SwSettings.v
SwDedupe.v
SwDelivery.v
SwWorker.v
Feed.v
Connection.v
PageActions.v
Acceptance.v
AcceptanceFixture.v
AcceptanceRun.v
Utf8.v
PushPayload.v
PushStore.v
PushProcessor.v
PushDispatcher.v
Broadcast.v
GatewayLifecycle.v
ControllerCommands.v
NativeLeaves.v
JsonFields.v
StateFields.v
CerboLeaves.v
CerboOverlay.v
Notifications.v
OverlayState.v
OverlayFacts.v
DirectTelemetry.v
DirectFacts.v
PushSamples.v
PushTransport.v
PushRoutes.v
Settings.v
WaterControl.v
HomeAssistant.v
Configuration.v
GatewayCommands.v
MqttCommands.v
Dispatch.v
PagePayload.v
Access.v
GatewayBanners.v
