(* ===== verification/Prelude.v ===== *)
(** * Verification of inverter-dashboard-go: the root of the library

    The repository serves a dashboard for a Victron inverter installation: a Go
    server (MQTT, Home Assistant, push notifications, authentication), the
    classic JavaScript dashboard it embeds, a service worker for system
    notifications, and a browser acceptance harness.  This library models the
    JavaScript of the repository, which is everything the browser runs that is
    kept as source and the harness, and from the Go server the telemetry of the
    installation with the state that the page shows, the push notifications that
    the service worker receives, the commands of the page to the controller, the
    water devices, the gateway and Home Assistant, Home Assistant's entities, the
    dashboard's settings, access to the dashboard, and the broadcasts to the
    page.

    ** The parts and how they interact

    The page [internal/html/static/js/dashboard.js] holds one WebSocket.  Its
    messages are merged into a reactive state, from which the computed views are
    derived, and appended to five history arrays that a chart shows.  Timers,
    the page events [visibilitychange] and [online], and the socket's own events
    decide when to connect again.  The service worker
    [internal/html/vue-ui/notifications-sw.js] receives push events, validates
    them, and displays each at most once while delivery is enabled; its settings
    and its dedupe claims live in IndexedDB and are shared by every tab.  The
    push events come from the server's [internal/push]: a processor turns
    observations of the installation into events, a store keeps subscriptions
    and a queue of deliveries, a dispatcher works the queue off.  The page's
    socket is fed by [triggerHandler] of [internal/mqtt] with the state that
    [internal/mqtt] keeps: messages of the Cerbo's devices go into a cache of
    leaves, [cerboOverlay] reduces the cache to the dashboard's fields, and the
    fields that devices have claimed are out of reach for the frames of the
    controller that are merged in between.  A gateway's snapshot goes through
    the same reducer, and the samples of the leaves feed the push processor.
    The page's messages go through [handleMessage] of [internal/websocket] to
    their owner: [internal/mqtt] publishes what concerns the controller, over
    MQTT or, with a gateway in use, through [internal/gateway];
    [internal/homeassistant] is asked for configured entities.  What the page is
    sent merges the three in [buildPayload].  The
    harness [scripts/browser-acceptance.cjs] verifies the embedded frontend
    against its recorded inventory, serves it, and plays the backend.

    ** The files

    - [Prelude]: boolean guards, runs of labelled transition systems, maps in
      insertion order, bounded enumeration.
    - [Float64]: IEEE binary64 arithmetic as the language defines it, on exact
      rationals with rounding to nearest even.  Zero has no sign.
    - [JsValue]: values, truthiness, property access, conversions, the number
      and string operations and the object operations that the source uses.
      [None] stands for a thrown TypeError.
    - [Format]: [formatPower], [formatDuration], [formatUptime], [formatKey],
      [formatSemverLabel] of dashboard.js.
    - [DashboardView]: the initial state and the computed views of dashboard.js;
      [ViewFacts]: their theorems.
    - [Feed]: the data part of [ws.onmessage] and the chart's data.
    - [Connection]: [connect], the socket handlers, the heartbeat, the page
      events, [send], mounting and unmounting, as a transition system whose
      steps are the tasks of the event loop.
    - [PageActions]: [toggleTheme] and [checkOrUpdate].
    - [SwEvents]: [normalizedEvent] of the worker; [SwSettings]: [settings] and
      [changeSettings]; [SwDedupe]: [claimEvent], [pruneEvents],
      [releaseClaim]; [SwDelivery]: [deliver], one step per awaited operation,
      interleaved with everything else; [SwWorker]: the [message], [push] and
      [notificationclick] listeners.
    - [Acceptance]: inventory and server of the harness; [AcceptanceFixture]:
      its WebSocket fixture, [trackMockSocket] and [eventually];
      [AcceptanceRun]: the provenance record, the guards on the network, the
      scenarios and [main], in a monad over an environment that answers each
      call to the browser.
    - [Utf8]: strings as UTF-8 bytes and their runes, as Go converts them.
    - [PushPayload]: [model.go] of internal/push: [makePayload], [eventKey],
      [persistedValid], [current], the JSON text they measure and hash.
    - [PushStore]: [store.go] and the queue operations of [sender.go]: the
      changes of the durable state, [mutate], [pending], [current], [finish].
    - [PushProcessor]: [processor.go]: [Reset], [Observe], [transition], against
      the interface [EventStore], which the store of [PushStore] implements.
    - [PushDispatcher]: [run] and [deliver] of [sender.go] as a transition
      system over the store: one step per critical section or request.
    - [Broadcast]: [triggerHandler] of [internal/mqtt/client.go], one step per
      atomic operation of any number of callers and the handler's goroutine.
    - [ControllerCommands]: [internal/state/controller_commands.go] and the
      receipts and acknowledgements of [internal/mqtt/controller_commands.go].
    - [NativeLeaves]: [native_notification.go] and [notification.go] of
      internal/state: levels, flags, dates and slot keys of native leaves.
    - [JsonFields]: decoding a JSON value into a typed field, as the language's
      [encoding/json] does it, with partial results and errors; [StateFields]:
      the fields of [internal/state/state.go] with their types, keys that match
      without regard to case, [clearStateField].
    - [CerboLeaves]: the accessors of leaves and devices at the top of
      [internal/mqtt/cerbo.go]; [CerboOverlay]: [cerboOverlay] with
      [applyEVOverlay] and [applyESSOverlay], one definition per group of
      fields; [OverlayFacts]: their theorems.
    - [OverlayState]: [handleCerboDevice], [applyCerboOverlays],
      [mergeDaemonState], [ApplyControllerSnapshot], expiry and resets, as steps
      on one client; [DirectTelemetry]: the invariant [coherent] and its
      preservation by every step; [DirectFacts]: the theorems.
    - [PushSamples]: [NativePushSamples] and [applyCerboDeviceMessage];
      [PushTransport]: [internal/push/transport.go]; [PushRoutes]: [routes.go]
      and [service.go] of internal/push, the API of subscribers over the store
      and the processor; [WaterControl]: [internal/mqtt/water.go]; [Settings]: [internal/settings/settings.go].
    - [Notifications]: [internal/mqtt/notifications.go]: the banners, the slots
      and the alarm values, callbacks that may finish late, and the resets of
      [client.go] and [push.go].
    - [GatewayLifecycle]: [internal/gateway/client.go]: [Start], [Stop], the poll
      loop and the commands in progress, one step per critical section, request
      or callback; [GatewayCommands]: [commands.go] and [PostCommand] of
      internal/gateway with the checks of a snapshot, the validation of tariffs
      and ESS modes of internal/state.
    - [MqttCommands]: [PublishCommand] of [internal/mqtt/client.go],
      [publishControllerCommand] and what they ask of the state; each look at the
      client is a state of its own.
    - [HomeAssistant]: [internal/homeassistant]: which fields it owns, a poll and
      its commit, the rich display, the service calls.
    - [Configuration]: [internal/config]: the switches of the configuration file,
      the poll interval, the choice of the source at startup.
    - [Dispatch]: [handleMessage] of [internal/websocket/handler.go] with its
      handlers, as programs whose calls to the clients are answered by an
      environment; they see Home Assistant through the class [HomeClient], which
      [HomeAssistant] implements.  [PagePayload]: [buildPayload] and
      [mergeStates] of the same file.
    - [Access]: [internal/auth], [internal/httpendpoint], and the URLs and
      credentials of the gateway's and Home Assistant's clients.
    - [GatewayBanners]: [mapNotifications] of [internal/gateway/map.go], the
      same banners from one snapshot.

    ** What the theorems show

    - Connection: the page can always come back ([connection_recovers]), an open
      connection is shown and watched as long as no event of a replaced socket
      intervenes ([open_is_monitored]), there is never a second heartbeat
      ([single_heartbeat]), sending needs an open socket
      ([send_only_when_open]).  Two theorems describe defects of the code:
      [stale_close_blinds] and [unmount_reconnects].
    - Worker: an event key is displayed at most once ([shown_at_most_once]); a
      delivery that was overtaken by a disable is not displayed
      ([display_not_fenced], [disabled_is_quiet]); the generation number counts
      disables exactly and stale enables are refused; messages from elsewhere
      do nothing and answers are truthful; the dedupe store is bounded and
      evicts exactly the excess and the expired; every run of [deliver] comes to
      an end whatever fails.
    - Telemetry: a field that the devices have claimed shows what their leaves
      reduce to, or is blank and marked so ([claimed_fields_truthful],
      [frame_cannot_override], [lost_connection_blanks]); every field keeps its
      type ([state_stays_typed]); MQTT and the gateway agree
      ([gateway_agrees]); the reduction does not depend on the order of map
      iteration ([overlay_deterministic]), an authoritative null is not
      replaced ([authoritative_null]), totals add what is there
      ([totals_are_sums]).  Nothing panics but one kind of frame
      ([only_null_availability_panics], [null_availability_panics]); a sum that
      overflows blanks all of it ([overflow_blanks_telemetry]).
    - Samples, water, settings, transport: a device's message queues a push
      notification only for its own reading ([device_message_admits]); a water
      command follows a live observation of the mode ([water_command_sound]); a
      settings patch is applied and durable as a whole, and the masked settings
      can be posted back ([apply_durable], [masked_settings_roundtrip],
      [settings_stay_typed], [saved_defaults_pin_broker]); only public addresses
      of known services are dialed ([dials_only_public], [public_addresses]),
      which valid endpoints name ([endpoint_dialable]), and keys have one form
      ([canonical_form]).
    - Push: [makePayload] ends and yields payloads the store accepts again
      ([makePayload_valid]); what the server holds for valid and current is
      accepted by the worker ([server_payload_accepted]); every sequence of
      store operations, with the disk failing at any point, keeps a state that
      loading accepts ([store_stays_loadable]); a delivery retired in the
      meantime is not dispatched ([retired_not_dispatched]); mutations are
      atomic ([mutate_atomic]); an event is admitted once, for exactly the
      subscriptions that want it ([enqueue_once]); the unlocked precheck
      changes nothing ([precheck_is_optimisation]).  The processor queues only
      what is fresh and caused by the observation ([observe_admits]), it does
      queue what is fresh ([fresh_notification_queued]), and keeps one baseline
      per kind ([baselines_follow_selection]).  However the dispatcher's parts
      interleave, an attempt is sent at most once and there are at most three
      ([attempts_sent_once]).  The API's answers are true of the store
      ([answers_truthful]), ten tests are accepted in a minute
      ([tests_rate_limited]), the diagnostics stay exact
      ([failures_stay_exact]); [bad_key_is_unavailable] describes a defect.
    - Broadcasts: no change is lost and the handler never overlaps itself
      ([no_change_is_lost]); every schedule settles ([broadcasts_settle]).
    - Commands: an override is confirmed only by a live frame after its
      publication with its identifier and exact value
      ([override_confirmed_sound]), and the controller's answer does settle it
      ([echo_settles]); integers are exact ([int32Value_exact]).
    - The page's messages: each causes at most one command, which goes to its
      owner with the consent it needs ([commands_reach_owner]), and the page is
      told the truth about it ([results_truthful]); what goes out over MQTT is
      valid and follows live telemetry ([command_publication_sound]), what is
      posted to a gateway is of the documented form and backed by a snapshot
      ([posted_commands_proper], [normalize_idempotent]), and the page's bodies
      fit it ([page_commands_fit_gateway]).
    - Home Assistant: a request names a configured entity with a fresh
      observation, a number is within its bounds ([service_call_sound],
      [page_requests_sound]), and what is offered can be set
      ([displayed_number_settable]); the overlay leaves MQTT's fields alone
      ([overlay_not_mqtt], [home_cannot_override]), and nothing of a lost
      connection is shown as current ([lost_home_leaves_nothing],
      [button_states_known]); durations are bounded ([seconds_bounded]).
    - Configuration: the page's buttons are those of the file, in its order
      ([buttons_in_file_order]), the poller's ticker never panics
      ([poll_interval_positive]), and the source at startup is there
      ([startup_source_available]).
    - Gateway: a stopped gateway stays silent ([stop_is_final]) and stopping
      ends ([stop_returns]).
    - Access: with a secret only its holder gets past the open paths
      ([secret_guards]), pages of other origins are refused
      ([cross_origin_refused]), and the settings cannot redirect Home
      Assistant's credentials ([settings_keep_target]).
    - Banners: what the MQTT client maintains message by message is what the
      gateway rebuilds from a snapshot, both refine one abstract slot
      ([reducers_agree]); the list is bounded, without duplicates and current
      ([banners_current]); a retired session stays silent
      ([retired_callbacks_silent]); a level is accepted by its exact value
      ([level_exact]); the two ways to write an alarm's name agree
      ([alarm_names_agree]).
    - Views: no sequence of well-typed messages makes a view throw
      ([views_never_throw]); the load list is the filtered, stably sorted list
      of loads ([sortedLoads_spec]); the history is a sliding window
      ([history_window]); messages merge into the state ([on_data_merges]).
    - Formats: durations read back to the second, power is exact below a
      kilowatt and rounded to a tenth above, for every double in range.
    - Page actions: every update request follows a confirmation and a failed
      update releases the button; the theme survives a reload.
    - Harness: after a successful verification only inventoried bytes are
      served; the close handshake is forwarded once; polling ends; evidence of
      a run exists only when every scenario passed, whatever the browser does
      ([acceptance_sound]).

    ** Bounds and fuel

    [poll] takes fuel 201: ten seconds in delays of at least 50 ms, which
    [eventually_ends] proves sufficient; [poll_until] takes 202, and
    [eventually_fuel] proves that more changes nothing.  [on_close] takes fuel 2: a nested
    callback finds the socket gone, which [close_forwarded_once] proves for any
    number of nested callbacks.  [shown_at_most_once] assumes at most
    [MAX_EVENTS] pushes within the retention time: beyond that the store evicts
    claims by design.  The format theorems assume doubles below 2^53 (2^52 for
    power), where the quotients cannot round up to the next integer.  [shrink]
    takes fuel 1001, one more than the runes of a bounded body, which
    [makePayload_valid] proves sufficient.  [store_stays_loadable] assumes that
    an event's key is not in the queue when it is admitted: a queued key is
    remembered until 4096 later events evict it.  [TrimSpace] takes the length
    of the text: each round removes a byte.  [reducers_agree] assumes that no
    two leaf names mean one field (they could with leading zeros) and that at
    most a hundred native banners exist.  [banners_current] leaves out
    snapshots, which are not bounded, and controller messages that use the
    prefix of native identifiers.  [claimed_fields_truthful] and what follows
    from it assume receipt times between 0 and 2^53 milliseconds, which a
    float64 holds exactly.  [tests_rate_limited] assumes that the clock does not
    go back.  [overlay_deterministic] assumes that no two keys spell one instance
    ("1" and "01"), since [sort.Slice] leaves the order of equal keys open.

    The order of map iteration is the variable [iterate], of which theorems
    assume that it visits every key; what converting a float64 out of range to
    an int gives is the variable [overflow].  The file of the settings is the
    object that its JSON holds.  A slice keeps no hidden elements behind its
    length, so decoding into a shorter slice does not bring old elements back.

    ** What is not modelled

    Of the Go server: the push store's file format and lock, the key pair,
    encryption, the page of the API's status; MQTT's connection, portal
    discovery, keepalive, subscriptions, console and camera, and the command
    buffer (which nothing calls); HTTP requests and their cancellation,
    [TurnEntity] and the buttons of booleans of Home Assistant's client; the
    registry and the deadlines of the page's sockets; routing, the reading of
    environment and configuration files, logging, metrics and tracing; the
    decoding of JSON text.  Further the built Vue frontend under vue-ui/assets,
    which is minified output of another repository; the templates and style
    sheets; uPlot and the DOM calls of
    [initChart]; the IndexedDB requests themselves, whose transactions are
    atomic steps that succeed or fail; the text of a displayed notification;
    what Playwright and the page do in the acceptance scenarios, which is the
    environment of the run.  URL parsing, hashing, collation and Playwright's
    acknowledgements are variables of the sections that use them.

    ** What is left

    The file of the push store, and portal discovery and keepalive as timed
    steps, are the parts that could still be modelled; what remains beyond them
    is glue around the network and the platform. *)

From Stdlib Require Import ZArith Lia List Bool String.
From stdpp Require Import base list option strings.

(** ** Boolean guards *)

(** Turns the boolean guards among the hypotheses into propositions. *)
Ltac bool_hyps :=
  repeat match goal with
  | H : negb _ = false |- _ => apply negb_false_iff in H
  | H : negb _ = true |- _ => apply negb_true_iff in H
  | H : (_ || _)%bool = false |- _ => apply orb_false_iff in H as [? ?]
  | H : (_ && _)%bool = true |- _ => apply andb_true_iff in H as [? ?]
  | H : Z.eqb _ _ = true |- _ => apply Z.eqb_eq in H
  | H : Z.eqb _ _ = false |- _ => apply Z.eqb_neq in H
  | H : Z.leb _ _ = true |- _ => apply Z.leb_le in H
  | H : Z.leb _ _ = false |- _ => apply Z.leb_gt in H
  | H : Z.ltb _ _ = true |- _ => apply Z.ltb_lt in H
  | H : Z.ltb _ _ = false |- _ => apply Z.ltb_ge in H
  | H : Nat.ltb _ _ = false |- _ => apply Nat.ltb_ge in H
  | H : Nat.ltb _ _ = true |- _ => apply Nat.ltb_lt in H
  | H : String.eqb _ _ = false |- _ => apply String.eqb_neq in H
  | H : String.eqb _ _ = true |- _ => apply String.eqb_eq in H
  end.

(** The same, splitting the disjunctive guards too. *)
Ltac bool_cases :=
  repeat (bool_hyps;
    match goal with
    | H : (_ || _)%bool = true |- _ => apply orb_true_iff in H as [?|?]
    | H : (_ && _)%bool = false |- _ => apply andb_false_iff in H as [?|?]
    end); bool_hyps.

(** ** Bounded enumeration of integers *)

Fixpoint zrange_from (z : Z) (n : nat) : list Z :=
  match n with O => nil | S n' => z :: zrange_from (z + 1)%Z n' end.

Definition zrange (n : Z) : list Z := zrange_from 0 (Z.to_nat n).

Lemma zrange_from_In z a n : (a <= z < a + Z.of_nat n)%Z -> In z (zrange_from a n).
Proof.
  revert a; induction n; intros a H; [lia|]. simpl.
  destruct (Z.eq_dec a z); [now left | right; apply IHn; lia].
Qed.

(** A boolean property checked on [0 .. n-1] holds for every integer in that range. *)
Lemma zrange_forall (f : Z -> bool) (n z : Z) :
  forallb f (zrange n) = true -> (0 <= z < n)%Z -> f z = true.
Proof.
  intros H Hz. rewrite forallb_forall in H. apply H. apply zrange_from_In. lia.
Qed.

(** ** Runs of a labelled transition system

    A component whose steps are a partial function of a label and a state runs
    through the labels of a list, all of which must be enabled. *)

Section runs.
Context {label state : Type}.
Variable exec : label -> state -> option state.

Fixpoint run_steps (ls : list label) (s : state) : option state :=
  match ls with
  | nil => Some s
  | l :: ls' => match exec l s with Some s' => run_steps ls' s' | None => None end
  end.

(** A property that every step preserves holds at the end of a run. *)
Lemma run_steps_ind (P : state -> Prop) :
  (forall l s s', exec l s = Some s' -> P s -> P s') ->
  forall ls s s', run_steps ls s = Some s' -> P s -> P s'.
Proof.
  intros Hstep ls; induction ls as [|l ls IH]; simpl; intros s s' H Hs.
  - now injection H as <-.
  - destruct (exec l s) as [s1|] eqn:E; [|discriminate].
    apply (IH s1 s' H). now apply (Hstep l s s1 E).
Qed.

(** The same for steps whose labels satisfy a condition. *)
Lemma run_steps_ind_if (Q : label -> Prop) (P : state -> Prop) :
  (forall l s s', exec l s = Some s' -> Q l -> P s -> P s') ->
  forall ls s s', run_steps ls s = Some s' -> Forall Q ls -> P s -> P s'.
Proof.
  intros Hstep ls; induction ls as [|l ls IH]; simpl; intros s s' H HQ Hs.
  - now injection H as <-.
  - destruct (exec l s) as [s1|] eqn:E; [|discriminate]. inversion HQ; subst.
    apply (IH s1 s' H); [assumption|]. now apply (Hstep l s s1 E).
Qed.

Lemma run_steps_app ls1 ls2 s s1 :
  run_steps ls1 s = Some s1 -> run_steps (ls1 ++ ls2) s = run_steps ls2 s1.
Proof.
  revert s; induction ls1 as [|l ls1 IH]; simpl; intros s H; [now injection H as <-|].
  destruct (exec l s) as [s'|]; [|discriminate]. now apply IH.
Qed.
End runs.

(** A loop keeps what each of its rounds keeps. *)
Lemma foldl_inv {A B} (P : A -> Prop) (f : A -> B -> A) (l : list B) (a : A) :
  (∀ a x, x ∈ l -> P a -> P (f a x)) -> P a -> P (foldl f a l).
Proof.
  revert a. induction l as [|x l IH]; intros a Hf Ha; [exact Ha|]. simpl. apply IH.
  - intros b y Hy. apply Hf. by right.
  - apply Hf; [by left|exact Ha].
Qed.

(** ** Lists updated by index *)
Lemma elem_of_update {A} (l : list A) i x y : y ∈ <[i := x]> l -> y = x ∨ y ∈ l.
Proof.
  intros H. apply list_elem_of_lookup in H as [j Hj]. apply list_lookup_insert_Some in Hj as [(_ & -> & _)|[_ Hj]];
    [by left|right]. apply list_elem_of_lookup. by exists j.
Qed.

Lemma elem_of_removed {A} (l : list A) i y : y ∈ delete i l -> y ∈ l.
Proof. intros H. by eapply elem_of_submseteq, submseteq_delete. Qed.

Lemma removed_elem {A} (l : list A) i x y : l !! i = Some x -> y ∈ l -> y = x ∨ y ∈ delete i l.
Proof. intros H Hy. rewrite (delete_Permutation _ _ _ H) in Hy. by apply elem_of_cons in Hy. Qed.

Lemma fmap_update {A B} (f : A -> B) (l : list A) i x y :
  l !! i = Some x -> f y = f x -> f <$> <[i := y]> l = f <$> l.
Proof.
  intros H E. rewrite list_fmap_insert, E. apply list_insert_id. by rewrite list_lookup_fmap, H.
Qed.

Lemma update_keeps {A} (l : list A) i x y z : l !! i = Some y -> x ∈ l -> x ≠ y -> x ∈ <[i := z]> l.
Proof.
  intros Hi Hx Hne. apply list_elem_of_lookup in Hx as [j Hj]. apply list_elem_of_lookup. exists j.
  rewrite list_lookup_insert_ne; [done|]. intros <-. congruence.
Qed.

Lemma update_elem {A} (l : list A) i y z : l !! i = Some y -> z ∈ <[i := z]> l.
Proof.
  intros H. apply list_elem_of_lookup. exists i. apply list_lookup_insert_eq. by eapply lookup_lt_Some.
Qed.

Lemma sum_list_update {A} (f : A -> nat) (l : list A) i x y :
  l !! i = Some x -> (sum_list (f <$> <[i := y]> l) + f x = sum_list (f <$> l) + f y)%nat.
Proof.
  revert i; induction l as [|z l IH]; intros [|i] H; csimpl in *; simplify_eq; [lia|]. specialize (IH i H). lia.
Qed.

Lemma sum_list_delete {A} (f : A -> nat) (l : list A) i x :
  l !! i = Some x -> sum_list (f <$> l) = (f x + sum_list (f <$> delete i l))%nat.
Proof.
  revert i; induction l as [|z l IH]; intros [|i] H; csimpl in *; simplify_eq; [done|]. rewrite (IH i H). lia.
Qed.

Lemma sum_list_zero {A} (f : A -> nat) (l : list A) x : sum_list (f <$> l) = 0%nat -> x ∈ l -> f x = 0%nat.
Proof.
  intros H Hx. induction Hx as [y l|x y l Hx IH]; csimpl in *; [lia|]. apply IH. lia.
Qed.

Lemma filter_sublist {A} (f : A -> bool) (l : list A) : List.filter f l `sublist_of` l.
Proof. induction l as [|x l IH]; simpl; [constructor|]. destruct (f x); by constructor. Qed.

#[global] Instance list_filter_Permutation {A} (f : A -> bool) :
  Proper (Permutation ==> Permutation) (List.filter f).
Proof.
  induction 1 as [|x l l' Hl IH|x y l|l1 l2 l3 H1 IH1 H2 IH2]; simpl.
  - done.
  - destruct (f x); [by constructor|done].
  - destruct (f x), (f y); try done. apply Permutation_swap.
  - by etransitivity.
Qed.

(** ** Strings *)

(** [s] has the text [part] somewhere: [s.includes(part)], [strings.Contains(s, part)]. *)
Fixpoint contains (part s : string) : bool :=
  String.prefix part s || match s with ""%string => false | String _ s' => contains part s' end.

Lemma existsb_eqb (x : string) (l : list string) : existsb (String.eqb x) l = true ↔ x ∈ l.
Proof.
  rewrite existsb_exists, list_elem_of_In. split.
  - intros (y & Hy & ->%String.eqb_eq). done.
  - intros H. exists x. by rewrite String.eqb_refl.
Qed.

Lemma append_nil_r (s : string) : s +:+ "" = s.
Proof. induction s; [reflexivity|]. change (String a s +:+ "") with (String a (s +:+ "")). congruence. Qed.

(** ** Maps in insertion order

    Objects and Maps of JavaScript: keys in the order of their creation. *)

Section insertion_order.
Context {V : Type}.
Implicit Types (k : string) (m : list (string * V)).

Fixpoint assoc (k : string) (m : list (string * V)) : option V :=
  match m with
  | [] => None
  | (k', v) :: m' => if String.eqb k k' then Some v else assoc k m'
  end.

(** [m[k] = v]: overwrite in place, or append. *)
Fixpoint set_prop (k : string) (v : V) (m : list (string * V)) : list (string * V) :=
  match m with
  | [] => [(k, v)]
  | (k', v') :: m' => if String.eqb k k' then (k', v) :: m' else (k', v') :: set_prop k v m'
  end.

(** Sets the entries one after the other. *)
Definition set_props (m entries : list (string * V)) : list (string * V) :=
  foldl (λ m e, set_prop e.1 e.2 m) m entries.

Lemma assoc_set_prop k k' v m :
  assoc k (set_prop k' v m) = if String.eqb k k' then Some v else assoc k m.
Proof.
  induction m as [|[k1 v1] m IH]; simpl; [done|].
  destruct (String.eqb_spec k' k1) as [->|Hne]; simpl; [by destruct (String.eqb k k1)|].
  destruct (String.eqb_spec k k1) as [->|]; [|done].
  by destruct (String.eqb_spec k1 k') as [<-|].
Qed.

Lemma assoc_is_Some k m : is_Some (assoc k m) ↔ k ∈ m.*1.
Proof.
  induction m as [|[k1 v1] m IH]; csimpl; [split; [by intros []|by intros ?%elem_of_nil]|].
  rewrite elem_of_cons, <- IH. destruct (String.eqb_spec k k1) as [->|Hne].
  - split; [by left|by eexists].
  - split; [by right|by intros [?|?]].
Qed.

Lemma assoc_None k m : assoc k m = None ↔ k ∉ m.*1.
Proof. by rewrite <- assoc_is_Some, eq_None_not_Some. Qed.

Lemma assoc_elem k v m : assoc k m = Some v -> (k, v) ∈ m.
Proof.
  induction m as [|[k1 v1] m IH]; simpl; [done|].
  destruct (String.eqb_spec k k1) as [->|]; [intros [= ->]; left|right; by apply IH].
Qed.

Lemma elem_assoc k v m : NoDup m.*1 -> (k, v) ∈ m -> assoc k m = Some v.
Proof.
  induction m as [|[k1 v1] m IH]; csimpl; intros Hnd Hin; [by apply elem_of_nil in Hin|].
  apply NoDup_cons in Hnd as [Hk Hnd]. apply elem_of_cons in Hin as [Heq|Hin].
  - simplify_eq. by rewrite String.eqb_refl.
  - destruct (String.eqb_spec k k1) as [->|]; [|by apply IH].
    exfalso. apply Hk. apply list_elem_of_fmap. by exists (k1, v).
Qed.

Lemma assoc_perm k m m' : m ≡ₚ m' -> NoDup m.*1 -> assoc k m = assoc k m'.
Proof.
  intros P Hnd. assert (Hnd' : NoDup m'.*1) by by rewrite <- P.
  destruct (assoc k m) as [v|] eqn:E.
  - symmetry. apply elem_assoc; [done|]. rewrite <- P. by apply assoc_elem.
  - symmetry. apply assoc_None. rewrite <- P. by apply assoc_None.
Qed.

Lemma assoc_set_props k m entries :
  NoDup entries.*1 ->
  assoc k (set_props m entries)
  = match assoc k entries with Some v => Some v | None => assoc k m end.
Proof.
  unfold set_props.
  revert m; induction entries as [|[k1 v1] entries IH]; csimpl; intros m Hnd; [done|].
  apply NoDup_cons in Hnd as [Hk Hnd]. rewrite IH, assoc_set_prop by done.
  destruct (String.eqb_spec k k1) as [->|Hne]; [|done].
  by apply assoc_None in Hk as ->.
Qed.

Lemma set_prop_keys k v m :
  (set_prop k v m).*1 = if decide (k ∈ m.*1) then m.*1 else m.*1 ++ [k].
Proof.
  induction m as [|[k1 v1] m IH]; csimpl; [done|].
  destruct (String.eqb_spec k k1) as [->|Hne]; csimpl.
  - rewrite decide_True; [done|left].
  - rewrite IH.
    destruct (decide (k ∈ m.*1)) as [H1|H1], (decide (k ∈ k1 :: m.*1)) as [H2|H2]; try done; exfalso.
    + apply H2. by right.
    + by apply elem_of_cons in H2 as [?|?].
Qed.

Lemma set_prop_NoDup k v m : NoDup m.*1 -> NoDup (set_prop k v m).*1.
Proof.
  intros H. rewrite set_prop_keys. case_decide as E; [done|]. apply NoDup_app. split; [done|].
  split; [|apply NoDup_singleton]. intros x Hx Hs. apply list_elem_of_singleton in Hs. by subst.
Qed.

Lemma set_props_NoDup m entries : NoDup m.*1 -> NoDup (set_props m entries).*1.
Proof.
  revert m; induction entries as [|[k v] entries IH]; intros m H; [done|]. simpl. apply IH.
  by apply set_prop_NoDup.
Qed.
End insertion_order.

(** Renaming keys injectively and mapping values commute with insertion. *)
Lemma set_props_fmap {V W} (f : string -> string) (g : string -> V -> W) (m entries : list (string * V)) :
  Inj (=) (=) f ->
  set_props ((λ e, (f e.1, g e.1 e.2)) <$> m) ((λ e, (f e.1, g e.1 e.2)) <$> entries)
  = (λ e, (f e.1, g e.1 e.2)) <$> set_props m entries.
Proof.
  intros Hf. unfold set_props.
  assert (Hset : ∀ k v (m : list (string * V)),
    set_prop (f k) (g k v) ((λ e, (f e.1, g e.1 e.2)) <$> m) = (λ e, (f e.1, g e.1 e.2)) <$> set_prop k v m).
  { intros k v m'. induction m' as [|[k1 v1] m' IH]; csimpl; [done|].
    destruct (String.eqb_spec k k1) as [->|Hne]; [by rewrite String.eqb_refl|].
    rewrite (proj2 (String.eqb_neq _ _)); [|by intros ?%Hf]. csimpl. by rewrite IH. }
  revert m; induction entries as [|[k v] entries IH]; intros m; [done|]. csimpl. by rewrite Hset, IH.
Qed.

Lemma assoc_fmap {V W} (f : string -> string) (g : string -> V -> W) (m : list (string * V)) k :
  Inj (=) (=) f -> assoc (f k) ((λ e, (f e.1, g e.1 e.2)) <$> m) = g k <$> assoc k m.
Proof.
  intros Hf. induction m as [|[k1 v1] m IH]; csimpl; [done|].
  destruct (String.eqb_spec k k1) as [->|Hne]; [by rewrite String.eqb_refl|].
  rewrite (proj2 (String.eqb_neq _ _)); [done|by intros ?%Hf].
Qed.
