(* ===== verification/Float64.v ===== *)
(** * Binary64 numbers of the JavaScript sources

    A finite number is the exact rational value of a double, and every
    operation computes the exact rational result and rounds it once (nearest,
    ties to even), as IEEE 754 and ECMAScript prescribe.  The sign of a zero
    is not represented: nothing in the modelled code observes it. *)

From Stdlib Require Import ZArith QArith Qround Qabs Qpower Qreduction Lia Lqa Bool.

Module F64.

#[local] Open Scope Q_scope.

(** ** Definitions *)

Inductive num : Type :=
| NaN
| PInf
| NInf
| Fin (q : Q).

(** The exponent [e] with [2^e <= q < 2^(e+1)], for [q > 0]. *)
Definition qlog2 (q : Q) : Z :=
  let k := (Z.log2 (Qnum q) - Z.log2 (Zpos (Qden q)))%Z in
  if Qle_bool (2 ^ k) q then k else (k - 1)%Z.

(** Round to the nearest integer, ties to even. *)
Definition rne (q : Q) : Z :=
  let f := Qfloor q in
  match ((q - inject_Z f) ?= (1 # 2))%Q with
  | Lt => f
  | Gt => (f + 1)%Z
  | Eq => if Z.even f then f else (f + 1)%Z
  end.

(** The exponent of the unit in the last place at magnitude [q > 0]: 53 bits
    of precision, and the subnormal floor [2^-1074]. *)
Definition ulp_exp (q : Q) : Z := Z.max (qlog2 q - 52) (-1074).

(** The nearest double to a non-negative rational, before the overflow test. *)
Definition round_mag (q : Q) : Q :=
  let u := ulp_exp q in inject_Z (rne (q / 2 ^ u)) * 2 ^ u.

Definition round (q : Q) : num :=
  match (q ?= 0)%Q with
  | Eq => Fin 0
  | Gt => let r := round_mag q in
          if Qle_bool (2 ^ 1024) r then PInf else Fin (Qred r)
  | Lt => let r := round_mag (- q) in
          if Qle_bool (2 ^ 1024) r then NInf else Fin (Qred (- r))
  end.

Definition of_Z (z : Z) : num := round (inject_Z z).

Definition add (x y : num) : num :=
  match x, y with
  | NaN, _ | _, NaN => NaN
  | PInf, NInf | NInf, PInf => NaN
  | PInf, _ | _, PInf => PInf
  | NInf, _ | _, NInf => NInf
  | Fin a, Fin b => round (a + b)
  end.

Definition opp (x : num) : num :=
  match x with
  | NaN => NaN
  | PInf => NInf
  | NInf => PInf
  | Fin a => Fin (Qred (- a))
  end.

Definition sub (x y : num) : num := add x (opp y).

Definition sgn (x : num) : Z :=
  match x with
  | NaN => 0%Z
  | PInf => 1%Z
  | NInf => (-1)%Z
  | Fin a => Z.sgn (Qnum a)
  end.

Definition inf_of_sign (s : Z) : num :=
  match s with Z0 => NaN | Zpos _ => PInf | Zneg _ => NInf end.

Definition mul (x y : num) : num :=
  match x, y with
  | NaN, _ | _, NaN => NaN
  | Fin a, Fin b => round (a * b)
  | _, _ => inf_of_sign (sgn x * sgn y)
  end.

(** Division; a zero divisor counts as [+0]. *)
Definition div (x y : num) : num :=
  match x, y with
  | NaN, _ | _, NaN => NaN
  | Fin a, Fin b => if Qeq_bool b 0 then inf_of_sign (sgn x) else round (a / b)
  | Fin _, _ => Fin 0
  | _, Fin b => if Qle_bool 0 b then x else opp x
  | _, _ => NaN
  end.

Definition Qtrunc (q : Q) : Z := if Qle_bool 0 q then Qfloor q else Qceiling q.

(** The [%] operator: the exact remainder of truncating division. *)
Definition rem (x y : num) : num :=
  match x, y with
  | Fin a, Fin b =>
      if Qeq_bool b 0 then NaN else Fin (Qred (a - b * inject_Z (Qtrunc (a / b))))
  | Fin a, PInf | Fin a, NInf => Fin a
  | _, _ => NaN
  end.

(** [Math.floor] and [Math.abs] are exact. *)
Definition floor (x : num) : num :=
  match x with
  | Fin a => Fin (inject_Z (Qfloor a))
  | _ => x
  end.

Definition abs (x : num) : num :=
  match x with
  | NaN => NaN
  | PInf | NInf => PInf
  | Fin a => Fin (Qred (Qabs a))
  end.

(** The abstract relational comparison [x < y]; every comparison with NaN is false. *)
Definition ltb (x y : num) : bool :=
  match x, y with
  | NaN, _ | _, NaN => false
  | Fin a, Fin b => negb (Qle_bool b a)
  | NInf, NInf | PInf, PInf => false
  | NInf, _ | _, PInf => true
  | _, _ => false
  end.

Definition eqb (x y : num) : bool :=
  match x, y with
  | Fin a, Fin b => Qeq_bool a b
  | PInf, PInf | NInf, NInf => true
  | _, _ => false
  end.

Definition leb (x y : num) : bool := ltb x y || eqb x y.

Definition is_nan (x : num) : bool := match x with NaN => true | _ => false end.

(** A value that a double can hold: [m * 2^e] with at most 53 bits. *)
Definition representable (q : Q) : Prop :=
  exists m e : Z, (Z.abs m < 2 ^ 53)%Z /\ (-1074 <= e)%Z /\ q == inject_Z m * 2 ^ e.

Definition is_integer (q : Q) : bool := Qeq_bool q (inject_Z (Qfloor q)).

(** [Number.isSafeInteger]. *)
Definition max_safe : Z := (2 ^ 53 - 1)%Z.

Definition is_safe_integer (x : num) : bool :=
  match x with
  | Fin q => is_integer q && (Z.abs (Qfloor q) <=? max_safe)%Z
  | _ => false
  end.

(** ** Powers of two *)

Lemma pow2_pos (e : Z) : 0 < 2 ^ e.
Proof. apply Qpower_0_lt; lra. Qed.

Lemma pow2_neq (e : Z) : ~ 2 ^ e == 0.
Proof. pose proof (pow2_pos e); lra. Qed.

Lemma pow2_add (e f : Z) : 2 ^ (e + f) == 2 ^ e * 2 ^ f.
Proof. apply Qpower_plus; lra. Qed.

Lemma pow2_succ (e : Z) : 2 ^ (e + 1) == 2 * 2 ^ e.
Proof. rewrite pow2_add. change (2 ^ 1) with 2. ring. Qed.

Lemma pow2_Z (e : Z) : (0 <= e)%Z -> 2 ^ e == inject_Z (2 ^ e).
Proof. intros; symmetry; apply (Zpower_Qpower 2 e); assumption. Qed.

Lemma pow2_le (e f : Z) : (e <= f)%Z -> 2 ^ e <= 2 ^ f.
Proof. intros; apply Qpower_le_compat_l; [assumption | lra]. Qed.

Lemma pow2_lt_inv (e f : Z) : 2 ^ e < 2 ^ f -> (e < f)%Z.
Proof. intros; apply (Qpower_lt_compat_l_inv 2); [assumption | lra]. Qed.

Lemma pow2_div (q : Q) (e : Z) : q / 2 ^ e * 2 ^ e == q.
Proof. field. apply pow2_neq. Qed.

Lemma inject_lt (a b : Z) : (a < b)%Z -> inject_Z a < inject_Z b.
Proof. intros; now rewrite <- Zlt_Qlt. Qed.

Lemma inject_le (a b : Z) : (a <= b)%Z -> inject_Z a <= inject_Z b.
Proof. intros; now rewrite <- Zle_Qle. Qed.

Lemma inject_succ (a : Z) : inject_Z (a + 1) == inject_Z a + 1.
Proof. rewrite inject_Z_plus. reflexivity. Qed.

(** ** The binary logarithm of a positive rational *)

Lemma qlog2_spec (q : Q) : 0 < q -> 2 ^ qlog2 q <= q < 2 ^ (qlog2 q + 1).
Proof.
  intros Hq. destruct q as [[|n|n] d]; try (cbv in Hq; discriminate).
  set (a := Z.log2 (Zpos n)). set (b := Z.log2 (Zpos d)).
  destruct (Z.log2_spec (Zpos n) eq_refl) as [Hn1 Hn2]. fold a in Hn1, Hn2.
  destruct (Z.log2_spec (Zpos d) eq_refl) as [Hd1 Hd2]. fold b in Hd1, Hd2.
  assert (Ha : (0 <= a)%Z) by apply Z.log2_nonneg.
  assert (Hb : (0 <= b)%Z) by apply Z.log2_nonneg.
  assert (Hqd : (Zpos n # d) * inject_Z (Zpos d) == inject_Z (Zpos n))
    by (unfold Qeq; simpl; lia).
  apply inject_le in Hn1, Hd1. apply inject_lt in Hn2, Hd2.
  rewrite <- (pow2_Z a) in Hn1 by lia. rewrite <- (pow2_Z b) in Hd1 by lia.
  rewrite <- (pow2_Z (Z.succ a)) in Hn2 by lia.
  rewrite <- (pow2_Z (Z.succ b)) in Hd2 by lia.
  unfold Z.succ in Hn2, Hd2. rewrite pow2_succ in Hn2, Hd2.
  assert (Eab : 2 ^ a == 2 ^ (a - b) * 2 ^ b)
    by (rewrite <- pow2_add; now replace (a - b + b)%Z with a by lia).
  assert (Ek : 2 ^ (a - b) == 2 * 2 ^ (a - b - 1))
    by (rewrite <- pow2_succ; now replace (a - b - 1 + 1)%Z with (a - b)%Z by lia).
  pose proof (pow2_pos b) as Pb. pose proof (pow2_pos (a - b - 1)) as Pk.
  unfold qlog2. simpl Qnum. simpl Qden. fold a b.
  set (q := Zpos n # d) in *. set (D := inject_Z (Zpos d)) in *.
  destruct (Qle_bool (2 ^ (a - b)) q) eqn:E.
  - apply Qle_bool_iff in E. split; [exact E|]. rewrite pow2_succ. nra.
  - assert (E' : q < 2 ^ (a - b)).
    { apply Qnot_le_lt. intros H. apply Qle_bool_iff in H. congruence. }
    replace (a - b - 1 + 1)%Z with (a - b)%Z by lia. split; [|exact E'].
    apply Qnot_lt_le. intros H. nra.
Qed.

(** ** Rounding to an integer *)

Lemma rne_half (q : Q) : q - (1 # 2) <= inject_Z (rne q) <= q + (1 # 2).
Proof.
  unfold rne. pose proof (Qfloor_le q). pose proof (Qlt_floor q) as H1.
  rewrite inject_succ in H1.
  destruct (Qcompare_spec (q - inject_Z (Qfloor q)) (1 # 2)) as [E|E|E];
    [destruct (Z.even (Qfloor q))| |]; rewrite ?inject_succ; lra.
Qed.

Lemma rne_ge (z : Z) (q : Q) : inject_Z z <= q -> (z <= rne q)%Z.
Proof.
  intros H. pose proof (rne_half q) as [H1 _].
  assert (inject_Z z < inject_Z (rne q + 1)) by (rewrite inject_succ; lra).
  rewrite <- Zlt_Qlt in H0. lia.
Qed.

Lemma rne_le (z : Z) (q : Q) : q <= inject_Z z -> (rne q <= z)%Z.
Proof.
  intros H. pose proof (rne_half q) as [_ H1].
  assert (inject_Z (rne q) < inject_Z (z + 1)) by (rewrite inject_succ; lra).
  rewrite <- Zlt_Qlt in H0. lia.
Qed.

Lemma rne_int (z : Z) (q : Q) : q == inject_Z z -> rne q = z.
Proof.
  intros H. apply Z.le_antisymm; [apply rne_le | apply rne_ge]; lra.
Qed.

(** ** Rounding to binary64 *)

#[global] Instance qlog2_proper_arg : Proper (Qeq ==> iff) (fun q => 0 < q).
Proof. intros x y H; split; intros; lra. Qed.

Lemma round_mag_err (q : Q) :
  q - 2 ^ ulp_exp q * (1 # 2) <= round_mag q <= q + 2 ^ ulp_exp q * (1 # 2).
Proof.
  unfold round_mag. set (u := ulp_exp q).
  pose proof (rne_half (q / 2 ^ u)) as [H1 H2].
  pose proof (pow2_div q u) as E. pose proof (pow2_pos u). split; nra.
Qed.

(** Between two multiples of the unit in the last place, rounding stays between them. *)
Lemma round_mag_ge (z : Z) (q : Q) :
  inject_Z z * 2 ^ ulp_exp q <= q -> inject_Z z * 2 ^ ulp_exp q <= round_mag q.
Proof.
  intros H. unfold round_mag. set (u := ulp_exp q) in *.
  assert (Hz : (z <= rne (q / 2 ^ u))%Z).
  { apply rne_ge. apply Qle_shift_div_l; [apply pow2_pos | exact H]. }
  apply inject_le in Hz. pose proof (pow2_pos u). nra.
Qed.

Lemma round_mag_le (z : Z) (q : Q) :
  q <= inject_Z z * 2 ^ ulp_exp q -> round_mag q <= inject_Z z * 2 ^ ulp_exp q.
Proof.
  intros H. unfold round_mag. set (u := ulp_exp q) in *.
  assert (Hz : (rne (q / 2 ^ u) <= z)%Z).
  { apply rne_le. apply Qle_shift_div_r; [apply pow2_pos | exact H]. }
  apply inject_le in Hz. pose proof (pow2_pos u). nra.
Qed.

(** A representable magnitude rounds to itself. *)
Lemma round_mag_exact (q : Q) (m e : Z) :
  0 < q -> (m < 2 ^ 53)%Z -> (-1074 <= e)%Z -> q == inject_Z m * 2 ^ e ->
  round_mag q == q.
Proof.
  intros Hq Hm He E. set (u := ulp_exp q).
  assert (Hue : (u <= e)%Z).
  { unfold u, ulp_exp. destruct (qlog2_spec q Hq) as [H1 _].
    apply Z.max_lub; [|exact He].
    assert (qlog2 q < e + 53)%Z; [|lia].
    apply pow2_lt_inv. apply Qle_lt_trans with q; [exact H1|].
    rewrite pow2_add, (pow2_Z 53) by lia. rewrite E.
    apply inject_lt in Hm. pose proof (pow2_pos e). nra. }
  assert (Em : q == inject_Z (m * 2 ^ (e - u)) * 2 ^ u).
  { rewrite inject_Z_mult, <- pow2_Z by lia. rewrite <- Qmult_assoc, <- pow2_add.
    now replace (e - u + u)%Z with e by lia. }
  apply Qle_antisym.
  - rewrite Em at 2. apply round_mag_le. fold u. lra.
  - rewrite Em at 1. apply round_mag_ge. fold u. lra.
Qed.

Lemma Qred_inject (z : Z) : Qred (inject_Z z) = inject_Z z.
Proof.
  unfold Qred, inject_Z.
  pose proof (Z.ggcd_gcd z 1) as G. pose proof (Z.ggcd_correct_divisors z 1) as D.
  destruct (Z.ggcd z 1) as [g [r s]]. simpl in *.
  rewrite Z.gcd_1_r in G. subst g. destruct D as [-> Hs].
  assert (s = 1%Z) by lia. subst s. simpl. f_equal. destruct r; reflexivity.
Qed.

Lemma Qred_eq_inject (q : Q) (z : Z) : q == inject_Z z -> Qred q = inject_Z z.
Proof. intros H. rewrite <- (Qred_inject z). now apply Qred_complete. Qed.

Lemma Qcompare_pos (q : Q) : 0 < q -> (q ?= 0) = Gt.
Proof. intros H. now apply Qgt_alt. Qed.

Lemma Qcompare_neg (q : Q) : q < 0 -> (q ?= 0) = Lt.
Proof. intros H. exact (proj1 (Qlt_alt q 0) H). Qed.

Lemma Qle_bool_false (a b : Q) : b < a -> Qle_bool a b = false.
Proof.
  intros H. destruct (Qle_bool a b) eqn:E; [|reflexivity].
  apply Qle_bool_iff in E. lra.
Qed.

Lemma round_pos (q : Q) :
  0 < q -> round_mag q < 2 ^ 1024 -> round q = Fin (Qred (round_mag q)).
Proof.
  intros Hq Hb. unfold round. rewrite (Qcompare_pos q Hq).
  now rewrite (Qle_bool_false _ _ Hb).
Qed.

Lemma round_neg (q : Q) :
  q < 0 -> round_mag (- q) < 2 ^ 1024 -> round q = Fin (Qred (- round_mag (- q))).
Proof.
  intros Hq Hb. unfold round.
  rewrite (Qcompare_neg q Hq). now rewrite (Qle_bool_false _ _ Hb).
Qed.

Lemma pow2_1024_big (z : Z) : (z <= 2 ^ 53)%Z -> inject_Z z < 2 ^ 1024.
Proof.
  intros H. rewrite (pow2_Z 1024) by lia. apply inject_lt.
  eapply Z.le_lt_trans; [exact H|]. apply Z.pow_lt_mono_r; lia.
Qed.

(** Every integer of magnitude at most [2^53] is a double. *)
Lemma round_Z (z : Z) (q : Q) :
  q == inject_Z z -> (Z.abs z <= 2 ^ 53)%Z -> round q = Fin (inject_Z z).
Proof.
  assert (Hmag : forall z q, q == inject_Z z -> (0 < z <= 2 ^ 53)%Z ->
            round_mag q == inject_Z z).
  { clear. intros z q E Hz. rewrite <- E.
    assert (0 < q) by (rewrite E; apply (inject_lt 0); lia).
    destruct (Z.eq_dec z (2 ^ 53)) as [->|Hne].
    - apply (round_mag_exact q 1 53); [assumption|lia|lia|].
      rewrite E, (pow2_Z 53) by lia. reflexivity.
    - apply (round_mag_exact q z 0); [assumption|lia|lia|].
      rewrite E. change (2 ^ 0) with 1. ring. }
  intros E Hz. destruct (Z.lt_trichotomy z 0) as [Hn|[->|Hp]].
  - assert (En : - q == inject_Z (- z)) by (rewrite inject_Z_opp, E; reflexivity).
    specialize (Hmag (- z)%Z (- q) En ltac:(lia)).
    rewrite round_neg.
    + f_equal. apply Qred_eq_inject. rewrite Hmag, inject_Z_opp. ring.
    + rewrite E. apply (inject_lt z 0 Hn).
    + rewrite Hmag. apply pow2_1024_big. lia.
  - unfold round. replace (q ?= 0) with Eq by (symmetry; now apply Qeq_alt). reflexivity.
  - specialize (Hmag z q E ltac:(lia)). rewrite round_pos.
    + f_equal. now apply Qred_eq_inject.
    + rewrite E. apply (inject_lt 0 z Hp).
    + rewrite Hmag. apply pow2_1024_big. lia.
Qed.

Lemma of_Z_exact (z : Z) : (Z.abs z <= 2 ^ 53)%Z -> of_Z z = Fin (inject_Z z).
Proof. now apply round_Z. Qed.

(** ** Division by an integer and [Math.floor] *)

Lemma qlog2_lt (q : Q) (e : Z) : 0 < q -> q < 2 ^ e -> (qlog2 q < e)%Z.
Proof.
  intros Hq H. apply pow2_lt_inv. destruct (qlog2_spec q Hq). lra.
Qed.

(** A double below [2^53] is a multiple of a power of two at most one. *)
Lemma representable_small (x : Q) :
  representable x -> 0 <= x -> x < 2 ^ 53 ->
  exists m e : Z, (0 <= m < 2 ^ 53)%Z /\ (-1074 <= e <= 0)%Z /\ x == inject_Z m * 2 ^ e.
Proof.
  intros (m & e & Hm & He & E) H0 H53.
  assert (Hm0 : (0 <= m)%Z).
  { rewrite Zle_Qle. change (inject_Z 0) with 0. pose proof (pow2_pos e).
    apply Qnot_lt_le. intros Hneg. nra. }
  destruct (Z.le_gt_cases e 0) as [Hle|Hgt].
  - exists m, e. repeat split; try lia. exact E.
  - assert (E' : x == inject_Z (m * 2 ^ e)) by (rewrite inject_Z_mult, <- pow2_Z by lia; exact E).
    exists (m * 2 ^ e)%Z, 0%Z. split; [split; [lia|]|split; [lia|]].
    + rewrite Zlt_Qlt, <- E', <- (pow2_Z 53) by lia. exact H53.
    + rewrite E'. change (2 ^ 0) with 1. ring.
Qed.

Lemma representable_Z (z : Z) : (Z.abs z < 2 ^ 53)%Z -> representable (inject_Z z).
Proof.
  intros H. exists z, 0%Z. repeat split; [assumption | lia |]. change (2 ^ 0) with 1. ring.
Qed.

Lemma ulp_exp_small (q : Q) : 0 < q -> q < 2 ^ 53 -> (ulp_exp q <= 0)%Z.
Proof.
  intros Hq Hlt. pose proof (qlog2_lt q 53 Hq Hlt). unfold ulp_exp. lia.
Qed.

Lemma inject_shift (z e : Z) : (e <= 0)%Z -> inject_Z (z * 2 ^ (- e)) * 2 ^ e == inject_Z z.
Proof.
  intros He. rewrite inject_Z_mult, <- pow2_Z by lia.
  rewrite <- Qmult_assoc, <- pow2_add.
  replace (- e + e)%Z with 0%Z by lia. change (2 ^ 0) with 1. ring.
Qed.

(** Small positive magnitudes round to a finite number. *)
Lemma round_small (q : Q) : 0 < q -> q < 2 ^ 53 -> exists r, round q = Fin r.
Proof.
  intros Hq Hb. eexists. apply round_pos; [exact Hq|].
  pose proof (ulp_exp_small q Hq Hb) as Hu. pose proof (inject_shift (2 ^ 53) (ulp_exp q) Hu) as E.
  apply Qle_lt_trans with (inject_Z (2 ^ 53)); [|apply pow2_1024_big; lia].
  rewrite <- E. apply round_mag_le. rewrite E. apply Qlt_le_weak. exact Hb.
Qed.

Lemma round_mag_between (q : Q) (k : Z) :
  0 < q -> q < 2 ^ 53 -> inject_Z k <= q <= inject_Z (k + 1) ->
  inject_Z k <= round_mag q <= inject_Z (k + 1).
Proof.
  intros Hq Hlt [H1 H2]. pose proof (ulp_exp_small q Hq Hlt) as Hu. split.
  - rewrite <- (inject_shift k _ Hu). apply round_mag_ge. now rewrite inject_shift.
  - rewrite <- (inject_shift (k + 1) _ Hu). apply round_mag_le. now rewrite inject_shift.
Qed.

Lemma Qfloor_unique (q : Q) (z : Z) : inject_Z z <= q -> q < inject_Z z + 1 -> Qfloor q = z.
Proof.
  intros H1 H2. pose proof (Qfloor_le q). pose proof (Qlt_floor q) as H3.
  rewrite inject_succ in H3.
  assert (inject_Z z < inject_Z (Qfloor q + 1)) as A by (rewrite inject_succ; lra).
  assert (inject_Z (Qfloor q) < inject_Z (z + 1)) as B by (rewrite inject_succ; lra).
  rewrite <- Zlt_Qlt in A, B. lia.
Qed.

Lemma div_Z (x : Q) (d : Z) :
  (0 < d <= 2 ^ 53)%Z -> div (Fin x) (of_Z d) = round (x / inject_Z d).
Proof.
  intros Hd. rewrite of_Z_exact by lia. unfold div.
  destruct (Qeq_bool (inject_Z d) 0) eqn:E; [|reflexivity].
  apply Qeq_bool_iff in E. apply (inject_Z_injective d 0) in E. lia.
Qed.

(** The distance from [m * 2^e / d] to the next integer is at least [2^e / d]. *)
Lemma next_integer_gap (x : Q) (m e d : Z) :
  (e <= 0)%Z -> (0 < d)%Z -> x == inject_Z m * 2 ^ e ->
  x + 2 ^ e <= (inject_Z (Qfloor (x / inject_Z d)) + 1) * inject_Z d.
Proof.
  intros He Hd E. set (k := Qfloor (x / inject_Z d)).
  assert (Hd' : 0 < inject_Z d) by (apply (inject_lt 0); lia).
  assert (Hlt : x < inject_Z ((k + 1) * d)).
  { pose proof (Qlt_floor (x / inject_Z d)) as H. fold k in H.
    rewrite inject_Z_mult. rewrite <- (Qmult_div_r x (inject_Z d)) by lra.
    rewrite Qmult_comm. apply Qmult_lt_compat_r; assumption. }
  pose proof (inject_shift ((k + 1) * d) e He) as Ez.
  pose proof (pow2_pos e) as Hp. set (p := 2 ^ e) in *. clearbody p.
  set (z := ((k + 1) * d * 2 ^ (- e))%Z) in *.
  rewrite <- inject_succ, <- inject_Z_mult, <- Ez.
  assert (Hmz : (m < z)%Z) by (rewrite Zlt_Qlt; nra).
  assert (Hz1 : inject_Z (m + 1) <= inject_Z z) by (apply inject_le; lia).
  rewrite inject_succ in Hz1. rewrite E. nra.
Qed.

(** The rounded quotient stays below the next integer. *)
Lemma quotient_below_next (x : Q) (d : Z) :
  representable x -> 0 < x -> x < 2 ^ 53 -> (0 < d <= 2 ^ 53)%Z ->
  let q := x / inject_Z d in round_mag q < inject_Z (Qfloor q) + 1.
Proof.
  intros Hx H0 H53 Hd q.
  destruct (representable_small x Hx ltac:(lra) H53) as (m & e & Hm & He & E).
  assert (Hd' : 0 < inject_Z d) by (apply (inject_lt 0); lia).
  assert (Eq : q * inject_Z d == x) by (unfold q; field; lra).
  assert (Hq : 0 < q) by (unfold q; apply Qlt_shift_div_l; lra).
  pose proof (next_integer_gap x m e d ltac:(lia) ltac:(lia) E) as Hgap. fold q in Hgap.
  pose proof (round_mag_err q) as [_ Herr].
  destruct (qlog2_spec q Hq) as [Hlo Hhi].
  pose proof (inject_lt m (2 ^ 53) ltac:(lia)) as Hm53.
  change (inject_Z (2 ^ 53)) with (9007199254740992 # 1) in Hm53.
  unfold ulp_exp in Herr.
  destruct (Z.max_spec (qlog2 q - 52) (-1074)) as [[Hsub EM]|[_ EM]]; rewrite EM in Herr.
  - assert (Hq1 : q < 1 # 4).
    { apply Qlt_le_trans with (2 ^ (qlog2 q + 1)); [exact Hhi|].
      change (1 # 4) with (2 ^ (-2)). apply pow2_le. lia. }
    assert (Hfl : Qfloor q = 0%Z)
      by (apply Qfloor_unique; change (inject_Z 0) with 0; lra).
    rewrite Hfl. change (inject_Z 0) with 0.
    assert (Hs : 2 ^ (-1074) <= 1 # 4) by (change (1 # 4) with (2 ^ (-2)); apply pow2_le; lia).
    lra.
  - replace (qlog2 q - 52)%Z with (qlog2 q + -52)%Z in Herr by lia.
    rewrite pow2_add in Herr. change (2 ^ (-52)) with (1 # 4503599627370496) in Herr.
    pose proof (pow2_pos e) as Hp. set (p := 2 ^ e) in *. clearbody p.
    set (w := 2 ^ qlog2 q) in *. clearbody w. apply Qnot_le_lt. intros Hbad.
    assert (Hwd : w * inject_Z d <= x) by nra.
    set (F := inject_Z (Qfloor q)) in *. clearbody F.
    assert (H1 : (F + 1) * inject_Z d <= x + w * inject_Z d * (1 # 9007199254740992)) by nra.
    nra.
Qed.

(** [Math.floor(x / d)] is the mathematical floor of the quotient: the double
    nearest to [x / d] never reaches the next integer. *)
Theorem floor_div (x : Q) (d : Z) :
  representable x -> 0 <= x -> x < 2 ^ 53 -> (0 < d <= 2 ^ 53)%Z ->
  floor (div (Fin x) (of_Z d)) = Fin (inject_Z (Qfloor (x / inject_Z d))).
Proof.
  intros Hx H0 H53 Hd. rewrite div_Z by assumption. set (q := x / inject_Z d).
  assert (Hd1 : 1 <= inject_Z d) by (apply (inject_le 1); lia).
  destruct (Qlt_le_dec 0 x) as [Hpos|Hneg].
  - assert (Eq : q * inject_Z d == x) by (unfold q; field; lra).
    assert (Hq : 0 < q) by (unfold q; apply Qlt_shift_div_l; lra).
    assert (Hqs : q < 2 ^ 53) by nra.
    pose proof (quotient_below_next x d Hx Hpos H53 Hd) as Hlt. cbv zeta in Hlt. fold q in Hlt.
    assert (Hb : inject_Z (Qfloor q) <= round_mag q).
    { apply (round_mag_between q (Qfloor q) Hq Hqs). split; [apply Qfloor_le|].
      apply Qlt_le_weak, Qlt_floor. }
    rewrite round_pos; [|assumption|].
    + unfold floor. do 2 f_equal. rewrite Qred_correct. now apply Qfloor_unique.
    + apply Qlt_le_trans with (inject_Z (Qfloor q + 1)); [now rewrite inject_succ|].
      apply Qlt_le_weak, pow2_1024_big.
      assert ((Qfloor q < 2 ^ 53)%Z); [|lia]. rewrite Zlt_Qlt, <- (pow2_Z 53) by lia.
      apply Qle_lt_trans with q; [apply Qfloor_le | exact Hqs].
  - assert (E : q == 0) by (unfold q, Qdiv; rewrite (Qle_antisym x 0) by assumption; ring).
    unfold round. replace (q ?= 0) with Eq by (symmetry; now apply Qeq_alt).
    rewrite (Qfloor_comp q 0 E). reflexivity.
Qed.

(** The absolute error of a quotient of integers is less than [1/d]. *)
Lemma quotient_err (s d : Z) :
  (0 < s < 2 ^ 53)%Z -> (0 < d <= 2 ^ 53)%Z ->
  let q := inject_Z s / inject_Z d in
  inject_Z s - 1 < round_mag q * inject_Z d /\ round_mag q * inject_Z d < inject_Z s + 1.
Proof.
  intros Hs Hd q.
  assert (Hd' : 0 < inject_Z d) by (apply (inject_lt 0); lia).
  assert (Hs' : 1 <= inject_Z s) by (apply (inject_le 1); lia).
  assert (Eq : q * inject_Z d == inject_Z s) by (unfold q; field; lra).
  assert (Hq : 0 < q) by (unfold q; apply Qlt_shift_div_l; lra).
  destruct (qlog2_spec q Hq) as [Hlo _]. pose proof (round_mag_err q) as [E1 E2].
  pose proof (inject_lt s (2 ^ 53) ltac:(lia)) as Hs53.
  pose proof (inject_le d (2 ^ 53) ltac:(lia)) as Hd53.
  change (inject_Z (2 ^ 53)) with (9007199254740992 # 1) in Hs53, Hd53.
  assert (Hu : 2 ^ ulp_exp q * (1 # 2) * inject_Z d < 1).
  { unfold ulp_exp. destruct (Z.max_spec (qlog2 q - 52) (-1074)) as [[_ ->]|[_ ->]].
    - assert (2 ^ (-1074) <= 2 ^ (-53)) by (apply pow2_le; lia).
      change (2 ^ (-53)) with (1 # 9007199254740992) in *. nra.
    - replace (qlog2 q - 52)%Z with (qlog2 q + -52)%Z by lia.
      rewrite pow2_add. change (2 ^ (-52)) with (1 # 4503599627370496).
      assert (2 ^ qlog2 q * inject_Z d <= inject_Z s) by nra. nra. }
  set (h := 2 ^ ulp_exp q) in *. clearbody h. set (r := round_mag q) in *. clearbody r.
  split; nra.
Qed.

Definition Qmod (x : Q) (d : Z) : Q := x - inject_Z d * inject_Z (Qfloor (x / inject_Z d)).

Lemma Qmod_bound (x : Q) (d : Z) : (0 < d)%Z -> 0 <= Qmod x d /\ Qmod x d < inject_Z d.
Proof.
  intros Hd. unfold Qmod. assert (Hd' : 0 < inject_Z d) by (apply (inject_lt 0); lia).
  pose proof (Qfloor_le (x / inject_Z d)) as H1. pose proof (Qlt_floor (x / inject_Z d)) as H2.
  rewrite inject_succ in H2.
  pose proof (Qmult_div_r x (inject_Z d) ltac:(lra)) as E.
  set (k := inject_Z (Qfloor (x / inject_Z d))) in *. set (q := x / inject_Z d) in *.
  clearbody k q. split; nra.
Qed.

(** The remainder by a positive integer is exact. *)
Lemma rem_Z (x : Q) (d : Z) :
  0 <= x -> (0 < d <= 2 ^ 53)%Z -> rem (Fin x) (of_Z d) = Fin (Qred (Qmod x d)).
Proof.
  intros H0 Hd. rewrite of_Z_exact by lia. unfold rem.
  assert (Hd' : 0 < inject_Z d) by (apply (inject_lt 0); lia).
  destruct (Qeq_bool (inject_Z d) 0) eqn:E.
  { apply Qeq_bool_iff in E. lra. }
  unfold Qtrunc. assert (Hq : 0 <= x / inject_Z d) by (apply Qle_shift_div_l; lra).
  apply Qle_bool_iff in Hq. rewrite Hq. reflexivity.
Qed.

Lemma Qfloor_div (x : Q) (d : Z) : (0 < d)%Z -> Qfloor (x / inject_Z d) = (Qfloor x / d)%Z.
Proof.
  intros Hd. assert (Hd' : 0 < inject_Z d) by (apply (inject_lt 0); lia).
  pose proof (Qfloor_le x) as L. pose proof (Qlt_floor x) as U. rewrite inject_succ in U.
  pose proof (Z.div_mod (Qfloor x) d ltac:(lia)) as E.
  pose proof (Z.mod_pos_bound (Qfloor x) d Hd) as B.
  set (k := (Qfloor x / d)%Z) in *.
  assert (H1 : inject_Z (k * d) <= inject_Z (Qfloor x)) by (apply inject_le; nia).
  assert (H2 : inject_Z (Qfloor x + 1) <= inject_Z ((k + 1) * d)) by (apply inject_le; nia).
  rewrite inject_Z_mult in H1. rewrite inject_Z_mult, !inject_Z_plus in H2.
  change (inject_Z 1) with 1 in H2. apply Qfloor_unique.
  - apply Qle_shift_div_l; lra.
  - apply Qlt_shift_div_r; lra.
Qed.

Lemma Qfloor_mod (x : Q) (d : Z) : (0 < d)%Z -> Qfloor (Qmod x d) = (Qfloor x mod d)%Z.
Proof.
  intros Hd. unfold Qmod. rewrite Qfloor_div by assumption.
  pose proof (Qfloor_le x) as L. pose proof (Qlt_floor x) as U. rewrite inject_succ in U.
  rewrite Z.mod_eq by lia. set (k := (Qfloor x / d)%Z).
  assert (E : inject_Z (Qfloor x - d * k) == inject_Z (Qfloor x) - inject_Z d * inject_Z k).
  { unfold Z.sub. rewrite inject_Z_plus, inject_Z_opp, inject_Z_mult. reflexivity. }
  apply Qfloor_unique; rewrite E; lra.
Qed.

(** Floor quotient and floor remainder computed in doubles. *)
Lemma floor_div_floor (x : Q) (d : Z) :
  representable x -> 0 <= x -> x < 2 ^ 53 -> (0 < d <= 2 ^ 53)%Z ->
  floor (div (Fin x) (of_Z d)) = Fin (inject_Z (Qfloor x / d)).
Proof. intros. rewrite floor_div by assumption. now rewrite Qfloor_div by lia. Qed.

Lemma floor_rem (x : Q) (d : Z) :
  0 <= x -> (0 < d <= 2 ^ 53)%Z ->
  floor (rem (Fin x) (of_Z d)) = Fin (inject_Z (Qfloor x mod d)).
Proof.
  intros. rewrite rem_Z by assumption. unfold floor. rewrite Qred_correct.
  now rewrite Qfloor_mod by lia.
Qed.

Lemma representable_comp (a b : Q) : a == b -> representable a -> representable b.
Proof. intros E (m & e & ? & ? & H). exists m, e. repeat split; try assumption. now rewrite <- E. Qed.

Lemma representable_mod (x : Q) (d : Z) :
  representable x -> 0 <= x -> x < 2 ^ 53 -> (0 < d)%Z -> representable (Qmod x d).
Proof.
  intros Hx H0 H53 Hd.
  destruct (representable_small x Hx H0 H53) as (m & e & Hm & He & E).
  destruct (Qmod_bound x d Hd) as [Hr0 _]. set (k := Qfloor (x / inject_Z d)).
  assert (Hk : (0 <= k)%Z).
  { unfold k. apply (Qfloor_resp_le 0). apply Qle_shift_div_l; [apply (inject_lt 0); lia|lra]. }
  assert (Er : Qmod x d == inject_Z (m - d * k * 2 ^ (- e)) * 2 ^ e).
  { unfold Qmod. fold k. unfold Z.sub. rewrite inject_Z_plus, inject_Z_opp.
    assert (S : inject_Z d * inject_Z k == inject_Z (d * k * 2 ^ (- e)) * 2 ^ e)
      by (rewrite inject_shift by lia; rewrite inject_Z_mult; reflexivity).
    rewrite S, E. ring. }
  exists (m - d * k * 2 ^ (- e))%Z, e. split; [|split; [lia|exact Er]].
  assert (Hp : (0 < 2 ^ (- e))%Z) by (apply Z.pow_pos_nonneg; lia).
  assert (0 <= m - d * k * 2 ^ (- e))%Z; [|nia].
  rewrite Zle_Qle. change (inject_Z 0) with 0. pose proof (pow2_pos e).
  apply Qnot_lt_le. intros Hneg. rewrite Er in Hr0. nra.
Qed.

Lemma floor_div_rem (x : Q) (d e : Z) :
  representable x -> 0 <= x -> x < 2 ^ 53 -> (0 < d <= 2 ^ 53)%Z -> (0 < e <= 2 ^ 53)%Z ->
  floor (div (rem (Fin x) (of_Z d)) (of_Z e)) = Fin (inject_Z (Qfloor x mod d / e)).
Proof.
  intros Hx H0 H53 Hd He. rewrite rem_Z by assumption.
  destruct (Qmod_bound x d ltac:(lia)) as [M0 M1].
  pose proof (inject_le d (2 ^ 53) ltac:(lia)) as Hd'. rewrite <- (pow2_Z 53) in Hd' by lia.
  rewrite floor_div_floor; try assumption.
  - rewrite Qred_correct. now rewrite Qfloor_mod by lia.
  - apply (representable_comp (Qmod x d)); [symmetry; apply Qred_correct|].
    apply representable_mod; (assumption || lia).
  - now rewrite Qred_correct.
  - rewrite Qred_correct. apply Qlt_le_trans with (inject_Z d); assumption.
Qed.

(** ** Comparison and subtraction *)

Lemma ltb_Fin (a b : Q) : ltb (Fin a) (Fin b) = true <-> a < b.
Proof.
  unfold ltb. rewrite negb_true_iff. split; intros H.
  - apply Qnot_le_lt. intros H'. apply Qle_bool_iff in H'. congruence.
  - now apply Qle_bool_false.
Qed.

Lemma ltb_Z (a b : Z) :
  (Z.abs a <= 2 ^ 53)%Z -> (Z.abs b <= 2 ^ 53)%Z -> ltb (of_Z a) (of_Z b) = (a <? b)%Z.
Proof.
  intros Ha Hb. rewrite !of_Z_exact by assumption. apply eq_true_iff_eq.
  rewrite ltb_Fin, Z.ltb_lt, Zlt_Qlt. reflexivity.
Qed.

Lemma Qnum_sgn_pos (q : Q) : 0 < q -> Z.sgn (Qnum q) = 1%Z.
Proof. destruct q as [[|n|n] d]; cbv; congruence. Qed.

Lemma Qnum_sgn_neg (q : Q) : q < 0 -> Z.sgn (Qnum q) = (-1)%Z.
Proof. destruct q as [[|n|n] d]; cbv; congruence. Qed.

Lemma sgn_Fin_pos (q : Q) : 0 < q -> sgn (Fin (Qred q)) = 1%Z.
Proof. intros H. apply Qnum_sgn_pos. now rewrite Qred_correct. Qed.

Lemma sgn_Fin_neg (q : Q) : q < 0 -> sgn (Fin (Qred q)) = (-1)%Z.
Proof. intros H. apply Qnum_sgn_neg. now rewrite Qred_correct. Qed.

(** Rounding a magnitude of at least the smallest subnormal does not underflow to zero. *)
Lemma round_mag_pos (q : Q) : 2 ^ (-1074) <= q -> 0 < round_mag q.
Proof.
  intros H. assert (Hq : 0 < q) by (pose proof (pow2_pos (-1074)); lra).
  assert (H1 : inject_Z 1 * 2 ^ ulp_exp q <= q).
  { change (inject_Z 1) with 1. rewrite Qmult_1_l. unfold ulp_exp.
    destruct (Z.max_spec (qlog2 q - 52) (-1074)) as [[_ ->]|[_ ->]]; [exact H|].
    destruct (qlog2_spec q Hq). apply Qle_trans with (2 ^ qlog2 q); [apply pow2_le; lia|lra]. }
  apply round_mag_ge in H1. pose proof (pow2_pos (ulp_exp q)).
  change (inject_Z 1) with 1 in H1. lra.
Qed.

Lemma round_sgn_pos (q : Q) : 2 ^ (-1074) <= q -> sgn (round q) = 1%Z.
Proof.
  intros H. pose proof (round_mag_pos q H) as Hp. unfold round.
  rewrite (Qcompare_pos q) by (pose proof (pow2_pos (-1074)); lra).
  destruct (Qle_bool _ _); [reflexivity | now apply sgn_Fin_pos].
Qed.

Lemma round_sgn_neg (q : Q) : q <= - 2 ^ (-1074) -> sgn (round q) = (-1)%Z.
Proof.
  intros H. pose proof (pow2_pos (-1074)) as Hm.
  pose proof (round_mag_pos (- q) ltac:(lra)) as Hp. unfold round.
  rewrite (Qcompare_neg q) by lra.
  destruct (Qle_bool _ _); [reflexivity | apply sgn_Fin_neg; lra].
Qed.

Lemma representable_multiple (q : Q) :
  representable q -> exists k : Z, q == inject_Z k * 2 ^ (-1074).
Proof.
  intros (m & e & _ & He & E). exists (m * 2 ^ (e + 1074))%Z.
  rewrite inject_Z_mult, <- pow2_Z by lia. rewrite <- Qmult_assoc, <- pow2_add.
  now replace (e + 1074 + -1074)%Z with e by lia.
Qed.

(** Subtraction of doubles has the sign of the exact difference: gradual
    underflow never collapses two different doubles. *)
Lemma sgn_sub (a b : Q) :
  representable a -> representable b ->
  sgn (sub (Fin a) (Fin b)) = match a ?= b with Lt => (-1)%Z | Eq => 0%Z | Gt => 1%Z end.
Proof.
  intros Ha Hb. unfold sub, opp, add.
  destruct (representable_multiple a Ha) as [i Ei].
  destruct (representable_multiple b Hb) as [j Ej].
  assert (Ed : a + Qred (- b) == inject_Z (i - j) * 2 ^ (-1074)).
  { rewrite Qred_correct, Ei, Ej. unfold Z.sub. rewrite inject_Z_plus, inject_Z_opp. ring. }
  pose proof (round_sgn_neg (a + Qred (- b))) as Hneg.
  pose proof (round_sgn_pos (a + Qred (- b))) as Hpos.
  pose proof (pow2_pos (-1074)) as Hp.
  pose proof (Qred_correct (- b)) as Hr.
  set (p := 2 ^ (-1074)) in *. clearbody p.
  destruct (Qcompare_spec a b) as [E|E|E].
  - unfold round. replace (a + Qred (- b) ?= 0) with Eq; [reflexivity|].
    symmetry; apply Qeq_alt. rewrite Hr. lra.
  - apply Hneg. rewrite Ed. apply Qnot_lt_le. intros Hlt.
    assert (Hk : (i < j)%Z) by (rewrite Zlt_Qlt; nra).
    pose proof (inject_le (i - j) (-1) ltac:(lia)) as Hk'.
    change (inject_Z (-1)) with (-1) in Hk'. nra.
  - apply Hpos. rewrite Ed. apply Qnot_lt_le. intros Hlt.
    assert (Hk : (j < i)%Z) by (rewrite Zlt_Qlt; nra).
    pose proof (inject_le 1 (i - j) ltac:(lia)) as Hk'.
    change (inject_Z 1) with 1 in Hk'. nra.
Qed.

(** Every result of rounding is representable. *)
Lemma round_mag_representable (q : Q) :
  0 < q -> exists m e : Z, (0 <= m < 2 ^ 53)%Z /\ (-1074 <= e)%Z /\ round_mag q == inject_Z m * 2 ^ e.
Proof.
  intros Hq. unfold round_mag. set (u := ulp_exp q). set (k := rne (q / 2 ^ u)).
  assert (Hu : (-1074 <= u)%Z) by (unfold u, ulp_exp; lia).
  assert (Hk0 : (0 <= k)%Z).
  { apply rne_ge. apply Qle_shift_div_l; [apply pow2_pos|]. change (inject_Z 0) with 0. lra. }
  assert (Hk : (k <= 2 ^ 53)%Z).
  { apply rne_le. apply Qle_shift_div_r; [apply pow2_pos|].
    destruct (qlog2_spec q Hq) as [_ H]. apply Qlt_le_weak.
    apply Qlt_le_trans with (2 ^ (qlog2 q + 1)); [exact H|].
    rewrite <- (pow2_Z 53), <- pow2_add by lia. apply pow2_le. unfold u, ulp_exp. lia. }
  destruct (Z.eq_dec k (2 ^ 53)) as [->|Hne].
  - exists (2 ^ 52)%Z, (u + 1)%Z. split; [lia|]. split; [lia|].
    rewrite pow2_succ. change (inject_Z (2 ^ 53)) with (2 * inject_Z (2 ^ 52)). ring.
  - exists k, u. split; [lia|]. split; [lia|]. reflexivity.
Qed.

Lemma round_representable (q r : Q) : round q = Fin r -> representable r.
Proof.
  unfold round. destruct (Qcompare_spec q 0) as [E|E|E].
  - intros [= <-]. exists 0%Z, 0%Z. split; [lia|]. split; [lia|]. reflexivity.
  - destruct (Qle_bool _ _); [discriminate|]. intros Hr.
    assert (r = Qred (- round_mag (- q))) as -> by congruence.
    destruct (round_mag_representable (- q)) as (m & e & Hm & He & Er); [lra|].
    exists (- m)%Z, e. split; [lia|]. split; [exact He|].
    rewrite Qred_correct. rewrite Er, inject_Z_opp. ring.
  - destruct (Qle_bool _ _); [discriminate|]. intros Hr.
    assert (r = Qred (round_mag q)) as -> by congruence.
    destruct (round_mag_representable q) as (m & e & Hm & He & Er); [lra|].
    exists m, e. split; [lia|]. split; [exact He|].
    rewrite Qred_correct. exact Er.
Qed.

End F64.
