(* ===== verification/JsValue.v ===== *)
(** * JavaScript values: the part of the language the sources use

    Values, coercions, the operators [||], [+], [>] and [===], property
    access, [Number] formatting and parsing, [Object.entries], stable
    [Array.prototype.sort] and [slice].  Strings are byte strings holding the
    UTF-8 form of the JavaScript string; an object is the list of its own
    properties in creation order. *)

From Stdlib Require Import ZArith QArith Qround Qabs Qreduction.
From Stdlib Require Import Ascii String DecimalString DecimalZ Decimal Sorted Lia.
From stdpp Require Import base list strings.
From S2P Require Import Prelude Float64.

Import F64.

#[local] Open Scope string_scope.
#[local] Open Scope list_scope.
#[local] Open Scope Z_scope.

(** ** Values *)

#[local] Set Warnings "-register-all".

Inductive val : Type :=
| VUndef
| VNull
| VBool (b : bool)
| VNum (n : num)
| VStr (s : string)
| VArr (l : list val)
| VObj (o : list (string * val)).

Definition VInt (z : Z) : val := VNum (of_Z z).

#[global] Arguments VInt : simpl never.

(** [v.k]; [None] is the TypeError thrown for undefined and null. *)
Definition getp (v : val) (k : string) : option val :=
  match v with
  | VUndef | VNull => None
  | VObj o => Some (default VUndef (assoc k o))
  | _ => Some VUndef
  end.

(** Property of a record known to be an object ([state], a literal). *)
Definition field (o : list (string * val)) (k : string) : val := default VUndef (assoc k o).

Definition truthy (v : val) : bool :=
  match v with
  | VUndef | VNull => false
  | VBool b => b
  | VNum NaN => false
  | VNum (Fin q) => negb (Qeq_bool q 0)
  | VNum _ => true
  | VStr s => negb (String.eqb s "")
  | VArr _ | VObj _ => true
  end.

(** [v || w]. *)
Definition or_else (v w : val) : val := if truthy v then v else w.

(** ** Decimal text of numbers *)

Definition dec (z : Z) : string := NilZero.string_of_int (Z.to_int z).

Fixpoint repeat_char (n : nat) (c : ascii) : string :=
  match n with O => "" | S n' => String c (repeat_char n' c) end.

(** [s.padStart(n, c)]. *)
Definition pad_start (n : nat) (c : ascii) (s : string) : string :=
  repeat_char (n - String.length s) c +:+ s.

(** [floor (log10 q)] for [q > 0], from the binary logarithm. *)
Definition qlog10 (q : Q) : Z :=
  let g := (qlog2 q * 30103) / 100000 in
  if Qle_bool (10 ^ (g + 1))%Q q then g + 1
  else if Qle_bool (10 ^ g)%Q q then g else g - 1.

(** The [k]-digit decimal closest to [q] that reads back as [q], if any:
    [Some s] stands for [s * 10^(n-k)] with [n = qlog10 q + 1]. *)
Definition digits_at (q : Q) (n k : Z) : option Z :=
  let scale := (10 ^ (n - k))%Q in
  let lo := Qfloor (q / scale) in
  let back s := F64.eqb (round (inject_Z s * scale)) (Fin q) in
  let near := if Qle_bool (q / scale - inject_Z lo) (1 # 2) then lo else lo + 1 in
  let far := 2 * lo + 1 - near in
  if back near then Some near else if back far then Some far else None.

Fixpoint shortest_from (q : Q) (n : Z) (k : Z) (fuel : nat) : Z * Z :=
  match fuel with
  | O => (default 0 (digits_at q n 17), 17)
  | S f => match digits_at q n k with
           | Some s => (s, k)
           | None => shortest_from q n (k + 1) f
           end
  end.

Definition drop_string (n : nat) (s : string) : string :=
  substring n (String.length s - n) s.

(** [Number::toString] for a positive finite double.  Integers up to [2^53]
    are printed exactly; others by their shortest digits. *)
Definition num_to_string_pos (q : Q) : string :=
  if is_integer q && Qle_bool q (inject_Z (2 ^ 53)) then dec (Qfloor q)
  else
    let n := qlog10 q + 1 in
    let '(s, k) := shortest_from q n 1 16 in
    let d := dec s in
    if (k <=? n) && (n <=? 21) then d +:+ repeat_char (Z.to_nat (n - k)) "0"
    else if (0 <? n) && (n <=? 21) then
      substring 0 (Z.to_nat n) d +:+ "." +:+ drop_string (Z.to_nat n) d
    else if (-6 <? n) && (n <=? 0) then
      "0." +:+ repeat_char (Z.to_nat (- n)) "0" +:+ d
    else
      let e := n - 1 in
      let mantissa := if k =? 1 then d else substring 0 1 d +:+ "." +:+ drop_string 1 d in
      mantissa +:+ "e" +:+ (if e <? 0 then "-" else "+") +:+ dec (Z.abs e).

Definition num_to_string (x : num) : string :=
  match x with
  | NaN => "NaN"
  | PInf => "Infinity"
  | NInf => "-Infinity"
  | Fin q =>
      match (q ?= 0)%Q with
      | Eq => "0"
      | Gt => num_to_string_pos q
      | Lt => "-" +:+ num_to_string_pos (- q)%Q
      end
  end.

(** [n / 10^f] written with [f] decimals. *)
Definition fixed_digits (f : nat) (n : Z) : string :=
  match f with
  | O => dec n
  | _ => dec (n / 10 ^ Z.of_nat f) +:+ "." +:+
         pad_start f "0" (dec (n mod 10 ^ Z.of_nat f))
  end.

(** The integer [n] of [Number.prototype.toFixed]: [n / 10^f] is closest to
    [q >= 0], the larger one of two. *)
Definition fixed_int (f : nat) (q : Q) : Z :=
  Qfloor (q * inject_Z (10 ^ Z.of_nat f) + (1 # 2))%Q.

Definition to_fixed (f : nat) (x : num) : string :=
  match x with
  | Fin q =>
      if Qle_bool (inject_Z (10 ^ 21)) (Qabs q) then num_to_string x
      else if negb (Qle_bool 0 q) then "-" +:+ fixed_digits f (fixed_int f (- q)%Q)
      else fixed_digits f (fixed_int f q)
  | _ => num_to_string x
  end.

(** ** Text to number *)

Definition is_space (c : ascii) : bool :=
  let n := nat_of_ascii c in
  Nat.eqb n 32 || (Nat.leb 9 n && Nat.leb n 13).

Fixpoint trim_left (s : string) : string :=
  match s with
  | String c s' => if is_space c then trim_left s' else s
  | EmptyString => ""
  end.

Fixpoint rev_string_onto (s acc : string) : string :=
  match s with
  | String c s' => rev_string_onto s' (String c acc)
  | EmptyString => acc
  end.

Definition rev_string (s : string) : string := rev_string_onto s "".

(** [s.trim()] (ASCII white space). *)
Definition trim (s : string) : string := rev_string (trim_left (rev_string (trim_left s))).

Definition digit_val (c : ascii) : option Z :=
  let n := Z.of_nat (nat_of_ascii c) in
  if (48 <=? n) && (n <=? 57) then Some (n - 48) else None.

(** Leading decimal digits: value so far, how many, and the rest. *)
Fixpoint take_digits (s : string) (acc count : Z) : Z * Z * string :=
  match s with
  | String c s' =>
      match digit_val c with
      | Some d => take_digits s' (10 * acc + d) (count + 1)
      | None => (acc, count, s)
      end
  | EmptyString => (acc, count, s)
  end.

Definition take_sign (s : string) : bool * string :=
  match s with
  | String "-" s' => (true, s')
  | String "+" s' => (false, s')
  | _ => (false, s)
  end.

(** An exponent part, when one is complete. *)
Definition take_exponent (s : string) : Z * string :=
  match s with
  | String c s' =>
      if Ascii.eqb c "e" || Ascii.eqb c "E" then
        let '(neg, s1) := take_sign s' in
        let '(e, n, rest) := take_digits s1 0 0 in
        if n =? 0 then (0, s) else (if neg then - e else e, rest)
      else (0, s)
  | EmptyString => (0, s)
  end.

(** The longest prefix that is a StrDecimalLiteral, and the rest. *)
Definition decimal_prefix (s : string) : option (num * string) :=
  let '(neg, s1) := take_sign s in
  let signed x := if neg then opp x else x in
  if String.prefix "Infinity" s1 then Some (signed PInf, drop_string 8 s1)
  else
    let '(ip, ni, s2) := take_digits s1 0 0 in
    let '(m, nf, s3) :=
      match s2 with
      | String "." s' => take_digits s' ip 0
      | _ => (ip, 0, s2)
      end in
    if ni + nf =? 0 then None
    else
      let '(e, rest) := take_exponent s3 in
      Some (signed (round (inject_Z m * 10 ^ (e - nf))%Q), rest).

(** [parseFloat] on text. *)
Definition parse_float_text (s : string) : num :=
  match decimal_prefix (trim_left s) with
  | Some (x, _) => x
  | None => NaN
  end.

(** [Number(s)] on decimal text; the empty string is zero. *)
Definition string_to_number (s : string) : num :=
  let t := trim s in
  if String.eqb t "" then Fin 0%Q
  else match decimal_prefix t with
       | Some (x, EmptyString) => x
       | _ => NaN
       end.

(** ** Coercions *)

Fixpoint join (sep : string) (l : list string) : string :=
  match l with
  | [] => ""
  | [x] => x
  | x :: l' => x +:+ sep +:+ join sep l'
  end.

Fixpoint to_string (v : val) : string :=
  match v with
  | VUndef => "undefined"
  | VNull => "null"
  | VBool b => if b then "true" else "false"
  | VNum n => num_to_string n
  | VStr s => s
  | VArr l =>
      join "," (List.map (fun x => match x with
                                   | VUndef | VNull => ""
                                   | _ => to_string x
                                   end) l)
  | VObj _ => "[object Object]"
  end.

Definition to_number (v : val) : num :=
  match v with
  | VUndef => NaN
  | VNull => Fin 0%Q
  | VBool b => Fin (if b then 1%Q else 0%Q)
  | VNum n => n
  | VStr s => string_to_number s
  | VArr _ | VObj _ => string_to_number (to_string v)
  end.

Definition is_textual (v : val) : bool :=
  match v with VStr _ | VArr _ | VObj _ => true | _ => false end.

(** The operator [+]. *)
Definition js_add (v w : val) : val :=
  if is_textual v || is_textual w then VStr (to_string v +:+ to_string w)
  else VNum (add (to_number v) (to_number w)).

(** The operator [<]; text against text compares by code unit. *)
Definition js_lt (v w : val) : bool :=
  if is_textual v && is_textual w then
    match String.compare (to_string v) (to_string w) with Lt => true | _ => false end
  else ltb (to_number v) (to_number w).

(** The operator [===]; two array or object values are never the same reference here. *)
Definition strict_eq (v w : val) : bool :=
  match v, w with
  | VUndef, VUndef | VNull, VNull => true
  | VBool a, VBool b => Bool.eqb a b
  | VNum a, VNum b => F64.eqb a b
  | VStr a, VStr b => String.eqb a b
  | _, _ => false
  end.

Definition is_str (v : val) (s : string) : bool := strict_eq v (VStr s).

(** [parseFloat(v)]. *)
Definition parse_float (v : val) : num := parse_float_text (to_string v).

(** [v.toFixed(f)]: only numbers have the method. *)
Definition call_to_fixed (f : nat) (v : val) : option string :=
  match v with VNum n => Some (to_fixed f n) | _ => None end.

(** ** Arrays and objects *)

(** [v.slice(0, n)] on arrays and text; nothing else has the method. *)
Definition call_slice (n : nat) (v : val) : option val :=
  match v with
  | VArr l => Some (VArr (take n l))
  | VStr s => Some (VStr (substring 0 n s))
  | _ => None
  end.

(** [v[i]] for a position that is a natural number. *)
Definition index (v : val) (i : nat) : option val :=
  match v with
  | VUndef | VNull => None
  | VArr l => Some (default VUndef (l !! i))
  | VStr s => Some (match String.get i s with Some c => VStr (String c "") | None => VUndef end)
  | VObj o => Some (field o (dec (Z.of_nat i)))
  | _ => Some VUndef
  end.

(** The elements of a value that has the array methods. *)
Definition elements_of (v : val) : option (list val) :=
  match v with VArr l => Some l | _ => None end.

(** A canonical array index: a decimal numeral below [2^32 - 1]. *)
Definition array_index (k : string) : option Z :=
  let '(z, n, rest) := take_digits k 0 0 in
  if String.eqb rest "" && (0 <? n) && String.eqb (dec z) k && (z <? 2 ^ 32 - 1)
  then Some z else None.

Section StableSort.
Context {A : Type} (after : A -> A -> bool).

(** Insertion before the first element that must not come earlier: the
    comparator asks for [x] after [y] exactly when [after x y]. *)
Fixpoint sort_insert (x : A) (l : list A) : list A :=
  match l with
  | [] => [x]
  | y :: l' => if after x y then y :: sort_insert x l' else x :: l
  end.

Definition stable_sort (l : list A) : list A := foldr sort_insert [] l.
End StableSort.

(** [Object.entries(o)]: index keys in ascending order, then the others in
    creation order. *)
Definition object_entries (o : list (string * val)) : list (string * val) :=
  let key e := array_index (fst e) in
  let indexed := List.filter (fun e => match key e with Some _ => true | None => false end) o in
  let named := List.filter (fun e => match key e with Some _ => false | None => true end) o in
  stable_sort (fun a b => default 0 (key b) <? default 0 (key a)) indexed ++ named.

Fixpoint number_from (i : Z) (l : list val) : list (string * val) :=
  match l with
  | [] => []
  | v :: l' => (dec i, v) :: number_from (i + 1) l'
  end.

(** [Object.entries(v)] of any value that is neither undefined nor null. *)
Definition entries (v : val) : option (list (string * val)) :=
  match v with
  | VUndef | VNull => None
  | VObj o => Some (object_entries o)
  | VArr l => Some (number_from 0 l)
  | VStr s => Some (number_from 0 (List.map (fun c => VStr (String c "")) (list_ascii_of_string s)))
  | _ => Some []
  end.

(** [Object.assign(target, v)]. *)
Definition object_assign (target : list (string * val)) (v : val) : list (string * val) :=
  set_props target (default [] (entries v)).

(** ** Reading back decimal text *)

Fixpoint uint_value (d : Decimal.uint) (acc : Z) : Z :=
  match d with
  | Nil => acc
  | D0 d => uint_value d (10 * acc)
  | D1 d => uint_value d (10 * acc + 1)
  | D2 d => uint_value d (10 * acc + 2)
  | D3 d => uint_value d (10 * acc + 3)
  | D4 d => uint_value d (10 * acc + 4)
  | D5 d => uint_value d (10 * acc + 5)
  | D6 d => uint_value d (10 * acc + 6)
  | D7 d => uint_value d (10 * acc + 7)
  | D8 d => uint_value d (10 * acc + 8)
  | D9 d => uint_value d (10 * acc + 9)
  end.

Lemma uint_value_acc d p : uint_value d (Zpos p) = Zpos (Pos.of_uint_acc d p).
Proof. revert p. induction d; intros p; simpl; try reflexivity; rewrite <- IHd; f_equal; lia. Qed.

Lemma uint_value_of_uint d : uint_value d 0 = Z.of_uint d.
Proof.
  unfold Z.of_uint. induction d; simpl in *; try reflexivity; try assumption;
    apply (uint_value_acc d).
Qed.

Definition starts_with_digit (s : string) : bool :=
  match s with String c _ => match digit_val c with Some _ => true | None => false end | _ => false end.

Lemma triple_eq {A B C} (a a' : A) (b b' : B) (c : C) :
  a = a' -> b = b' -> (a, b, c) = (a', b', c).
Proof. congruence. Qed.

Lemma take_digits_uint d rest acc n :
  starts_with_digit rest = false ->
  take_digits (NilEmpty.string_of_uint d +:+ rest) acc n
  = (uint_value d acc, n + Z.of_nat (String.length (NilEmpty.string_of_uint d)), rest).
Proof.
  intros Hr. revert acc n. induction d; intros acc n.
  { simpl. rewrite Z.add_0_r. destruct rest as [|c r]; [reflexivity|].
    unfold starts_with_digit in Hr. simpl. destruct (digit_val c); [discriminate|reflexivity]. }
  all: etransitivity; [exact (IHd _ (n + 1))|]; cbn [NilEmpty.string_of_uint uint_value String.length];
    apply triple_eq; [apply (f_equal (uint_value d)); cbv -[Z.add Z.mul Z.sub]; lia | lia].
Qed.

Lemma take_digits_dec z rest :
  0 <= z -> starts_with_digit rest = false ->
  exists n, 0 < n /\ take_digits (dec z +:+ rest) 0 0 = (z, n, rest).
Proof.
  intros Hz Hr. exists (Z.of_nat (String.length (dec z))).
  assert (E : exists d, d <> Nil /\ dec z = NilEmpty.string_of_uint d /\ Z.of_uint d = z).
  { unfold dec. pose proof (DecimalZ.of_to z) as Hoz.
    destruct z as [|p|p]; [|simpl in *|lia].
    - exists (D0 Nil). repeat split. discriminate.
    - exists (Pos.to_uint p). repeat split; [|destruct (Pos.to_uint p) eqn:E|exact Hoz];
        try discriminate; try reflexivity;
        intros; destruct (Pos.to_uint p) eqn:E' ; try discriminate; cbv in Hoz; discriminate. }
  destruct E as (d & Hd & Ed & Ez). rewrite Ed, (take_digits_uint d rest 0 0 Hr).
  rewrite uint_value_of_uint, Ez. split; [|f_equal; f_equal; lia].
  destruct d; simpl; try lia; congruence.
Qed.

(** ** Stable sorting by a numeric key, largest first *)

Section SortFacts.
Context {A : Type} (after : A -> A -> bool).

Lemma sort_insert_perm x l : sort_insert after x l ≡ₚ x :: l.
Proof.
  induction l as [|y l IH]; simpl; [done|]. destruct (after x y); [|done].
  rewrite IH. apply Permutation_swap.
Qed.

Lemma stable_sort_perm l : stable_sort after l ≡ₚ l.
Proof. induction l as [|x l IH]; simpl; [done|]. by rewrite sort_insert_perm, IH. Qed.

(** Sortedness for any transitive relation the comparator decides. *)
Section Sortedness.
Context (P : A -> Prop) (R : A -> A -> Prop) `{!Transitive R}.
Hypothesis after_true : ∀ x y, P x -> P y -> after x y = true -> R y x.
Hypothesis after_false : ∀ x y, P x -> P y -> after x y = false -> R x y.

Lemma sort_insert_sorted x l :
  P x -> Forall P l -> StronglySorted R l -> StronglySorted R (sort_insert after x l).
Proof.
  intros Hx Hl. induction l as [|y l IH]; simpl; intros S; [repeat constructor|].
  inversion Hl as [|? ? Hy Hl']; subst. inversion S as [|? ? S' F]; subst.
  destruct (after x y) eqn:E.
  - constructor; [by apply IH|]. rewrite sort_insert_perm. constructor; [by apply after_true|done].
  - constructor; [done|]. constructor; [by apply after_false|].
    eapply Forall_impl; [exact F|]. intros z Hz. transitivity y; [by apply after_false|done].
Qed.

Lemma stable_sort_sorted l : Forall P l -> StronglySorted R (stable_sort after l).
Proof.
  induction 1 as [|x l Hx Hl IH]; simpl; [constructor|].
  apply sort_insert_sorted; [done| |done]. by rewrite stable_sort_perm.
Qed.
End Sortedness.

(** Stability for a comparator that compares a numeric key. *)
Context (P : A -> Prop) (key : A -> Q).
Hypothesis after_key : ∀ x y, P x -> P y -> after x y = negb (Qle_bool (key y) (key x)).

Definition heavier_first (x y : A) : Prop := (key y <= key x)%Q.

#[local] Instance heavier_first_trans : Transitive heavier_first.
Proof. intros x y z. unfold heavier_first. intros. by apply Qle_trans with (key y). Qed.

Lemma stable_sort_heavier l : Forall P l -> StronglySorted heavier_first (stable_sort after l).
Proof.
  apply stable_sort_sorted; [apply _| |]; intros x y Hx Hy; rewrite after_key by done; intros E.
  - apply negb_true_iff in E. apply Qlt_le_weak, Qnot_le_lt. intros H.
    apply Qle_bool_iff in H. congruence.
  - by apply negb_false_iff, Qle_bool_iff in E.
Qed.

Definition weighs (w : Q) (x : A) : bool := Qeq_bool (key x) w.

Lemma sort_insert_filter w x l :
  P x -> Forall P l ->
  List.filter (weighs w) (sort_insert after x l) = List.filter (weighs w) (x :: l).
Proof.
  intros Hx Hl. induction Hl as [|y l Hy Hl IH]; simpl; [done|].
  rewrite after_key by done. destruct (Qle_bool (key y) (key x)) eqn:E; simpl; [done|].
  rewrite IH. simpl. unfold weighs.
  destruct (Qeq_bool (key x) w) eqn:Ex, (Qeq_bool (key y) w) eqn:Ey; try done.
  exfalso. apply Qeq_bool_iff in Ex, Ey.
  assert (key y <= key x)%Q as H by (rewrite Ex, Ey; apply Qle_refl).
  apply Qle_bool_iff in H. congruence.
Qed.

(** Elements of equal weight keep their relative order. *)
Lemma stable_sort_stable w l :
  Forall P l -> List.filter (weighs w) (stable_sort after l) = List.filter (weighs w) l.
Proof.
  induction 1 as [|x l Hx Hl IH]; simpl; [done|].
  rewrite sort_insert_filter; [|done|by rewrite stable_sort_perm]. simpl. by rewrite IH.
Qed.
End SortFacts.

Lemma filter_split_perm {A} (f : A -> bool) l :
  List.filter f l ++ List.filter (λ x, negb (f x)) l ≡ₚ l.
Proof.
  induction l as [|x l IH]; simpl; [done|]. destruct (f x); simpl; [by rewrite IH|].
  by rewrite <- Permutation_middle, IH.
Qed.

(** [Object.entries] lists every own property once. *)
Lemma object_entries_perm o : object_entries o ≡ₚ o.
Proof.
  unfold object_entries. rewrite stable_sort_perm.
  rewrite <- (filter_split_perm (λ e, match array_index (fst e) with Some _ => true | None => false end) o) at 3.
  apply Permutation_app; [done|]. erewrite List.filter_ext; [done|].
  intros [k v]; simpl. by destruct (array_index k).
Qed.
