(* ===== verification/Format.v ===== *)
(** * Text formatting of the legacy dashboard

    [formatPower], [formatDuration], [formatUptime], [formatKey] and
    [formatSemverLabel] of [internal/html/static/js/dashboard.js]. *)

From Stdlib Require Import ZArith QArith Qround Qabs Qreduction Lqa Lia.
From Stdlib Require Import Ascii String.
From stdpp Require Import base list strings.
From S2P Require Import Prelude Float64 JsValue.

Import F64.

#[local] Open Scope string_scope.
#[local] Open Scope Z_scope.

(** ** The functions *)

(** [w >= k] for a number [w]. *)
Definition num_geb (x : num) (k : Z) : bool := leb (of_Z k) x.

(** [s <= 0] for any value. *)
Definition js_le_zero (v : val) : bool := leb (to_number v) (of_Z 0).

Definition formatPower (w : val) : string :=
  let v := abs (floor (to_number (or_else w (VInt 0)))) in
  let sign := if js_lt w (VInt 0) then "-" else "" in
  if num_geb v 1000 then sign +:+ to_fixed 1 (div v (of_Z 1000)) +:+ "kW"
  else sign +:+ num_to_string v +:+ "W".

Definition floor_div_val (x : num) (d : Z) : num := floor (div x (of_Z d)).

Definition padded2 (x : num) : string := pad_start 2 "0" (num_to_string x).

Definition formatDuration (s : val) : string :=
  if negb (truthy s) || js_le_zero s then "0:00"
  else
    let x := to_number s in
    let h := floor_div_val x 3600 in
    let m := floor_div_val (rem x (of_Z 3600)) 60 in
    let sec := floor (rem x (of_Z 60)) in
    if ltb (of_Z 0) h then
      num_to_string h +:+ ":" +:+ padded2 m +:+ ":" +:+ padded2 sec
    else num_to_string m +:+ ":" +:+ padded2 sec.

Definition formatUptime (s : val) : string :=
  let x := to_number s in
  if ltb x (of_Z 60) then to_string (js_add s (VStr "s"))
  else if ltb x (of_Z 3600) then num_to_string (floor_div_val x 60) +:+ "m"
  else
    let h := floor_div_val x 3600 in
    let m := floor_div_val (rem x (of_Z 3600)) 60 in
    num_to_string h +:+ "h " +:+ num_to_string m +:+ "m".

(** [toUpperCase] on ASCII letters. *)
Definition upper_char (c : ascii) : ascii :=
  let n := nat_of_ascii c in
  if Nat.leb 97 n && Nat.leb n 122 then ascii_of_nat (n - 32) else c.

Fixpoint map_string (f : ascii -> ascii) (s : string) : string :=
  match s with EmptyString => "" | String c s' => String (f c) (map_string f s') end.

Definition formatKey (k : string) : string :=
  map_string upper_char (map_string (fun c => if Ascii.eqb c "_" then " "%char else c) k).

Definition is_digit (c : ascii) : bool :=
  match digit_val c with Some _ => true | None => false end.

(** [/^v[0-9]/i]. *)
Definition v_then_digit (s : string) : bool :=
  match s with
  | String c (String d _) => (Ascii.eqb c "v" || Ascii.eqb c "V") && is_digit d
  | _ => false
  end.

Definition formatSemverLabel (ver : val) : string :=
  if negb (truthy ver) || is_str ver "?" || is_str ver "" then "?"
  else
    let s := trim (to_string ver) in
    if v_then_digit s then s
    else if starts_with_digit s then "v" +:+ s
    else s.

(** ** Reading a formatted duration back *)

(** [h:mm:ss] or [m:ss] in seconds; minutes and seconds that follow a colon
    are two digits below sixty. *)
Definition read_clock (s : string) : option Z :=
  let '(a, na, r1) := take_digits s 0 0 in
  match r1 with
  | String ":" r1 =>
      let '(b, nb, r2) := take_digits r1 0 0 in
      if (0 <? na) && (nb =? 2) && (b <? 60) then
        match r2 with
        | "" => Some (a * 60 + b)
        | String ":" r2 =>
            let '(c, nc, r3) := take_digits r2 0 0 in
            if (nc =? 2) && (c <? 60) && String.eqb r3 "" then Some (a * 3600 + b * 60 + c)
            else None
        | _ => None
        end
      else None
  | _ => None
  end.

(** ** Lemmas *)

Lemma num_to_string_Z (z : Z) :
  0 <= z <= 2 ^ 53 -> num_to_string (Fin (inject_Z z)) = dec z.
Proof.
  intros Hz. unfold num_to_string.
  destruct (Z.eq_dec z 0) as [->|Hne]; [reflexivity|].
  rewrite Qcompare_pos by (apply (inject_lt 0); lia).
  unfold num_to_string_pos, is_integer. rewrite Qfloor_Z.
  replace (Qeq_bool (inject_Z z) (inject_Z z)) with true
    by (symmetry; apply Qeq_bool_iff; reflexivity).
  replace (Qle_bool (inject_Z z) (inject_Z (2 ^ 53))) with true; [reflexivity|].
  symmetry; apply Qle_bool_iff, inject_le; lia.
Qed.

Lemma take_digits_app (s rest : string) (acc n : Z) :
  forallb is_digit (list_ascii_of_string s) = true -> starts_with_digit rest = false ->
  take_digits (s +:+ rest) acc n =
  let '(z, k, _) := take_digits s acc n in (z, k, rest).
Proof.
  intros Hs Hr. revert acc n Hs; induction s as [|c s IH]; intros acc n Hs.
  - simpl. destruct rest as [|c r]; [reflexivity|].
    unfold starts_with_digit in Hr. simpl. destruct (digit_val c); [discriminate|reflexivity].
  - simpl in Hs. apply andb_true_iff in Hs as [Hc Hs]. unfold is_digit in Hc.
    change (String c s +:+ rest) with (String c (s +:+ rest)). simpl.
    destruct (digit_val c); [now apply IH | discriminate].
Qed.

Definition padded2_check (z : Z) : bool :=
  forallb is_digit (list_ascii_of_string (pad_start 2 "0" (dec z))) &&
  (let '(a, n, _) := take_digits (pad_start 2 "0" (dec z)) 0 0 in (a =? z) && (n =? 2)).

Lemma padded2_read (z : Z) (rest : string) :
  0 <= z < 60 -> starts_with_digit rest = false ->
  take_digits (pad_start 2 "0" (dec z) +:+ rest) 0 0 = (z, 2, rest).
Proof.
  intros Hz Hr.
  pose proof (zrange_forall padded2_check 60 z eq_refl Hz) as C. unfold padded2_check in C.
  apply andb_true_iff in C as [C1 C2]. rewrite (take_digits_app _ _ _ _ C1 Hr).
  destruct (take_digits (pad_start 2 "0" (dec z)) 0 0) as [[a n] r].
  apply andb_true_iff in C2 as [Ca Cn]. apply Z.eqb_eq in Ca, Cn. now subst.
Qed.

(** A double in the range where clocks and wattages live. *)
Definition double_in (lo hi : Q) (x : Q) : Prop := representable x /\ (lo <= x)%Q /\ (x < hi)%Q.

Lemma duration_fields (x : Q) :
  double_in 0 (2 ^ 53) x ->
  let s := Qfloor x in
  floor_div_val (Fin x) 3600 = Fin (inject_Z (s / 3600)) /\
  floor_div_val (rem (Fin x) (of_Z 3600)) 60 = Fin (inject_Z (s mod 3600 / 60)) /\
  floor (rem (Fin x) (of_Z 60)) = Fin (inject_Z (s mod 60)).
Proof.
  intros (Hx & H0 & H53) s. unfold floor_div_val.
  rewrite floor_div_floor, floor_div_rem, floor_rem by (assumption || lia). auto.
Qed.

Lemma Qfloor_range (x : Q) : double_in 0 (2 ^ 53) x -> 0 <= Qfloor x < 2 ^ 53.
Proof.
  intros (_ & H0 & H53). split.
  - apply (Qfloor_resp_le 0 x H0).
  - rewrite Zlt_Qlt, <- (pow2_Z 53) by lia. eapply Qle_lt_trans; [apply Qfloor_le|exact H53].
Qed.

Lemma ltb_zero_Z (z : Z) : 0 <= z <= 2 ^ 53 -> ltb (of_Z 0) (Fin (inject_Z z)) = (0 <? z).
Proof. intros Hz. rewrite <- (of_Z_exact z) by lia. apply ltb_Z; lia. Qed.

Lemma truthy_pos (x : Q) : (0 < x)%Q -> truthy (VNum (Fin x)) = true /\ js_le_zero (VNum (Fin x)) = false.
Proof.
  intros H. split.
  - simpl. apply negb_true_iff. destruct (Qeq_bool x 0) eqn:E; [|reflexivity].
    apply Qeq_bool_iff in E. lra.
  - unfold js_le_zero, leb, to_number. rewrite of_Z_exact by lia. apply orb_false_iff. split.
    + simpl. apply negb_false_iff, Qle_bool_iff. change (inject_Z 0) with 0%Q. lra.
    + simpl. destruct (Qeq_bool x (inject_Z 0)) eqn:E; [|reflexivity].
      apply Qeq_bool_iff in E. change (inject_Z 0) with 0%Q in E. lra.
Qed.

Lemma padded2_read_end (z : Z) :
  0 <= z < 60 -> take_digits (pad_start 2 "0" (dec z)) 0 0 = (z, 2, "").
Proof.
  intros Hz. rewrite <- (padded2_read z "" Hz eq_refl). now rewrite append_nil_r.
Qed.

(** The text of [h] hours, [m] minutes and [s] seconds reads back as that time. *)
Lemma read_clock_hms (h m s : Z) :
  0 <= h -> 0 <= m < 60 -> 0 <= s < 60 ->
  read_clock (dec h +:+ ":" +:+ pad_start 2 "0" (dec m) +:+ ":" +:+ pad_start 2 "0" (dec s))
  = Some (h * 3600 + m * 60 + s).
Proof.
  intros Hh Hm Hs. unfold read_clock.
  destruct (take_digits_dec h (":" +:+ pad_start 2 "0" (dec m) +:+ ":" +:+ pad_start 2 "0" (dec s)))
    as (n & Hn & ->); [assumption | reflexivity |].
  change (":" +:+ ?x) with (String ":" x). cbv iota.
  rewrite (padded2_read m) by (assumption || reflexivity).
  rewrite (proj2 (Z.ltb_lt 0 n) Hn), (proj2 (Z.ltb_lt m 60)) by lia. cbn [andb Z.eqb Pos.eqb].
  change (":" +:+ ?x) with (String ":" x). cbv iota.
  rewrite (padded2_read_end s) by assumption.
  now rewrite (proj2 (Z.ltb_lt s 60)) by lia.
Qed.

Lemma read_clock_ms (m s : Z) :
  0 <= m -> 0 <= s < 60 ->
  read_clock (dec m +:+ ":" +:+ pad_start 2 "0" (dec s)) = Some (m * 60 + s).
Proof.
  intros Hm Hs. unfold read_clock.
  destruct (take_digits_dec m (":" +:+ pad_start 2 "0" (dec s)))
    as (n & Hn & ->); [assumption | reflexivity |].
  change (":" +:+ ?x) with (String ":" x). cbv iota.
  rewrite (padded2_read_end s) by assumption.
  now rewrite (proj2 (Z.ltb_lt 0 n) Hn), (proj2 (Z.ltb_lt s 60)) by lia.
Qed.

Lemma hms_split (s : Z) : s = s / 3600 * 3600 + s mod 3600 / 60 * 60 + s mod 60.
Proof.
  pose proof (Z.div_mod s 3600 ltac:(lia)) as A.
  pose proof (Z.div_mod (s mod 3600) 60 ltac:(lia)) as B.
  rewrite (Z.mod_mod_divide s 3600 60) in B by (now exists 60).
  set (a := s / 3600) in *. set (b := s mod 3600) in *. set (c := b / 60) in *.
  set (d := s mod 60) in *. clearbody a b c d. lia.
Qed.

(** ** Properties *)

(** A duration survives formatting: the text of any positive double below
    [2^53] is a well-formed clock that reads back as its whole seconds. *)
Theorem formatDuration_roundtrip (x : Q) :
  double_in 0 (2 ^ 53) x -> (0 < x)%Q ->
  read_clock (formatDuration (VNum (Fin x))) = Some (Qfloor x).
Proof.
  intros Hx Hpos. destruct (truthy_pos x Hpos) as [T L].
  destruct (duration_fields x Hx) as (Eh & Em & Es). pose proof (Qfloor_range x Hx) as R.
  set (s := Qfloor x) in *.
  assert (Hh : 0 <= s / 3600 <= s) by (split; [apply Z.div_pos|apply Z.div_le_upper_bound]; lia).
  assert (Hm : 0 <= s mod 3600 / 60 < 60)
    by (pose proof (Z.mod_pos_bound s 3600); split; [apply Z.div_pos|apply Z.div_lt_upper_bound]; lia).
  assert (Hs : 0 <= s mod 60 < 60) by (apply Z.mod_pos_bound; lia).
  assert (Split : s = s / 3600 * 3600 + s mod 3600 / 60 * 60 + s mod 60) by apply hms_split.
  unfold formatDuration. rewrite T, L. cbn [negb orb to_number]. rewrite Eh, Em, Es.
  unfold padded2. rewrite !num_to_string_Z by lia. rewrite ltb_zero_Z by lia.
  destruct (0 <? s / 3600) eqn:Z0.
  - rewrite read_clock_hms by lia. congruence.
  - rewrite read_clock_ms by lia. apply Z.ltb_ge in Z0. f_equal. lia.
Qed.

Lemma formatDuration_roundtrip_witness :
  read_clock (formatDuration (VNum (Fin (7325 # 2)))) = Some 3662.
Proof.
  apply (formatDuration_roundtrip (7325 # 2)); [|reflexivity].
  repeat split; [exists 7325, (-1); repeat split; discriminate|discriminate].
Defined.

Lemma leb_Z (a b : Z) : Z.abs a <= 2 ^ 53 -> Z.abs b <= 2 ^ 53 ->
  leb (of_Z a) (Fin (inject_Z b)) = (a <=? b).
Proof.
  intros Ha Hb. unfold leb. rewrite <- (of_Z_exact b) by assumption. rewrite ltb_Z by assumption.
  rewrite !of_Z_exact by assumption. apply eq_true_iff_eq.
  rewrite orb_true_iff, Z.ltb_lt, Z.leb_le. simpl. rewrite Qeq_bool_iff.
  split; intros H; [destruct H as [H|H]; [lia|apply (proj1 (inject_Z_injective a b)) in H; lia]|].
  destruct (Z.eq_dec a b) as [->|]; [right; reflexivity | left; lia].
Qed.

(** One decimal of [v / 1000] for an integer [v]: rounded to the nearest
    hundred, halves either way. *)
Lemma kilo_digits (v : Z) :
  0 < v < 2 ^ 53 ->
  exists n, 0 <= n /\ Z.abs (100 * n - v) <= 50 /\
    to_fixed 1 (div (Fin (inject_Z v)) (of_Z 1000)) = dec (n / 10) +:+ "." +:+ dec (n mod 10).
Proof.
  intros Hv. rewrite div_Z by lia. set (q := (inject_Z v / inject_Z 1000)%Q).
  assert (Hq : (0 < q)%Q).
  { apply Qlt_shift_div_l; [reflexivity|]. pose proof (inject_lt 0 v ltac:(lia)).
    change (inject_Z 0) with 0%Q in *. lra. }
  destruct (quotient_err v 1000 ltac:(lia) ltac:(lia)) as [E1 E2]. fold q in E1, E2.
  set (r := round_mag q) in *. change (inject_Z 1000) with (1000 # 1)%Q in E1, E2.
  pose proof (inject_lt v (2 ^ 53) ltac:(lia)) as Hv53.
  pose proof (inject_le 1 v ltac:(lia)) as Hv1. change (inject_Z 1) with 1%Q in Hv1.
  change (inject_Z (2 ^ 53)) with (9007199254740992 # 1)%Q in Hv53.
  assert (Hr0 : (0 <= r)%Q) by lra.
  rewrite round_pos; [|assumption|].
  2:{ apply Qlt_trans with (inject_Z (2 ^ 53)); [|apply pow2_1024_big; lia].
      change (inject_Z (2 ^ 53)) with (9007199254740992 # 1)%Q. fold r. lra. }
  fold r. unfold to_fixed.
  replace (Qle_bool (inject_Z (10 ^ 21)) (Qabs (Qred r))) with false.
  2:{ symmetry. apply Qle_bool_false. rewrite Qred_correct, Qabs_pos by assumption.
      change (inject_Z (10 ^ 21)) with (1000000000000000000000 # 1)%Q. lra. }
  replace (Qle_bool 0 (Qred r)) with true
    by (symmetry; apply Qle_bool_iff; rewrite Qred_correct; assumption).
  cbn [negb]. set (n := fixed_int 1 (Qred r)). exists n.
  assert (Hn : (inject_Z n <= 10 * r + (1 # 2))%Q /\ (10 * r + (1 # 2) < inject_Z n + 1)%Q).
  { unfold n, fixed_int. change (inject_Z (10 ^ Z.of_nat 1)) with (10 # 1)%Q.
    pose proof (Qfloor_le (Qred r * (10 # 1) + (1 # 2))) as A.
    pose proof (Qlt_floor (Qred r * (10 # 1) + (1 # 2))) as B.
    rewrite inject_succ in B. pose proof (Qred_correct r). split; lra. }
  assert (Hup : 100 * n < v + 51).
  { rewrite Zlt_Qlt, inject_Z_mult, inject_Z_plus.
    change (inject_Z 100) with (100 # 1)%Q. change (inject_Z 51) with (51 # 1)%Q. lra. }
  assert (Hlo : v - 51 < 100 * n).
  { rewrite Zlt_Qlt, inject_Z_mult. unfold Z.sub. rewrite inject_Z_plus.
    change (inject_Z 100) with (100 # 1)%Q. change (inject_Z (- (51))) with (- 51 # 1)%Q. lra. }
  split; [lia|]. split; [lia|]. unfold fixed_digits. change (10 ^ Z.of_nat 1) with 10.
  pose proof (Z.mod_pos_bound n 10 ltac:(lia)) as Hd.
  pose proof (zrange_forall (fun d => String.eqb (pad_start 1 "0" (dec d)) (dec d)) 10 _ eq_refl Hd) as P.
  apply String.eqb_eq in P. now rewrite P.
Qed.

(** The sign and magnitude [formatPower] works with. *)
Lemma power_parts (w : Q) :
  abs (floor (to_number (or_else (VNum (Fin w)) (VInt 0)))) = Fin (inject_Z (Z.abs (Qfloor w))) /\
  js_lt (VNum (Fin w)) (VInt 0) = negb (Qle_bool 0 w).
Proof.
  split; [|reflexivity]. unfold or_else.
  assert (A : abs (floor (Fin w)) = Fin (inject_Z (Z.abs (Qfloor w)))).
  { unfold floor, abs. f_equal. now apply Qred_eq_inject. }
  destruct (truthy (VNum (Fin w))) eqn:T; [exact A|].
  simpl in T. apply negb_false_iff, Qeq_bool_iff in T.
  rewrite (Qfloor_comp w 0 T). reflexivity.
Qed.

(** A wattage is shown whole below a kilowatt and, from there on, in tenths of
    a kilowatt that are within 50 W of the floored value. *)
Theorem formatPower_accuracy (w : Q) :
  double_in (- (2 ^ 52)) (2 ^ 52) w ->
  let v := Z.abs (Qfloor w) in
  let sign := if Qle_bool 0 w then "" else "-" in
  (v < 1000 -> formatPower (VNum (Fin w)) = sign +:+ dec v +:+ "W") /\
  (1000 <= v -> exists n, Z.abs (100 * n - v) <= 50 /\
     formatPower (VNum (Fin w)) = sign +:+ (dec (n / 10) +:+ "." +:+ dec (n mod 10)) +:+ "kW").
Proof.
  intros (_ & Hlo & Hhi) v sign. destruct (power_parts w) as [A B].
  assert (Hv : v <= 2 ^ 52).
  { unfold v. rewrite (pow2_Z 52) in Hlo, Hhi by lia.
    rewrite <- inject_Z_opp in Hlo.
    pose proof (Qfloor_resp_le _ _ Hlo) as L. rewrite Qfloor_Z in L.
    pose proof (Qfloor_resp_le _ _ (Qlt_le_weak _ _ Hhi)) as U. rewrite Qfloor_Z in U. lia. }
  assert (Hv0 : 0 <= v) by apply Z.abs_nonneg.
  unfold formatPower. rewrite A, B. fold v. unfold num_geb. rewrite leb_Z by lia.
  replace (if negb (Qle_bool 0 w) then "-" else "") with sign
    by (unfold sign; now destruct (Qle_bool 0 w)).
  split; intros Hk.
  - rewrite (proj2 (Z.leb_gt 1000 v)) by lia. now rewrite num_to_string_Z by lia.
  - rewrite (proj2 (Z.leb_le 1000 v)) by lia.
    destruct (kilo_digits v ltac:(lia)) as (n & _ & Hn & ->). now exists n.
Qed.

Lemma formatPower_accuracy_witness :
  formatPower (VNum (Fin (- (847 # 2)))) = "-424W" /\
  exists n, Z.abs (100 * n - 1234) <= 50 /\
    formatPower (VNum (Fin 1234)) = "" +:+ (dec (n / 10) +:+ "." +:+ dec (n mod 10)) +:+ "kW".
Proof.
  split.
  - apply (formatPower_accuracy (- (847 # 2))); [|reflexivity].
    repeat split; [exists (-847), (-1); repeat split; discriminate|discriminate].
  - apply (formatPower_accuracy 1234); [|discriminate].
    repeat split; [exists 1234, 0; repeat split; discriminate|discriminate].
Defined.

(** Uptime below a minute is printed as it is, below an hour in whole minutes,
    and from then on in whole hours and minutes. *)
Theorem formatUptime_branches (x : Q) :
  double_in 0 (2 ^ 53) x ->
  let s := Qfloor x in
  formatUptime (VNum (Fin x)) =
    if s <? 60 then num_to_string (Fin x) +:+ "s"
    else if s <? 3600 then dec (s / 60) +:+ "m"
    else dec (s / 3600) +:+ "h " +:+ dec (s mod 3600 / 60) +:+ "m".
Proof.
  intros Hx s. destruct (duration_fields x Hx) as (Eh & Em & _).
  pose proof (Qfloor_range x Hx) as R. fold s in R, Eh, Em. destruct Hx as (Hx & H0 & H53).
  assert (Hcmp : forall k, 0 <= k <= 3600 -> ltb (Fin x) (of_Z k) = (s <? k)).
  { intros k Hk. rewrite of_Z_exact by lia. apply eq_true_iff_eq. rewrite ltb_Fin, Z.ltb_lt.
    pose proof (Qfloor_le x) as L. pose proof (Qlt_floor x) as U. fold s in L, U. split; intros H.
    - rewrite Zlt_Qlt. apply Qle_lt_trans with x; assumption.
    - apply Qlt_le_trans with (inject_Z (s + 1)); [exact U | apply inject_le; lia]. }
  unfold formatUptime. cbn [to_number]. rewrite !Hcmp by lia.
  assert (0 <= s / 3600 <= s) by (split; [apply Z.div_pos|apply Z.div_le_upper_bound]; lia).
  assert (0 <= s / 60 <= s) by (split; [apply Z.div_pos|apply Z.div_le_upper_bound]; lia).
  assert (0 <= s mod 3600 / 60 < 60)
    by (pose proof (Z.mod_pos_bound s 3600); split; [apply Z.div_pos|apply Z.div_lt_upper_bound]; lia).
  destruct (s <? 60); [reflexivity|]. rewrite Eh, Em.
  unfold floor_div_val. rewrite floor_div_floor by (assumption || lia). fold s.
  now rewrite !num_to_string_Z by lia.
Qed.

Lemma formatUptime_branches_witness : formatUptime (VNum (Fin 90061)) = "25h 1m".
Proof.
  apply (formatUptime_branches 90061).
  repeat split; [exists 90061, 0; repeat split; discriminate|discriminate].
Defined.
