(* ===== verification/DashboardView.v ===== *)
(** * Computed views of the legacy dashboard

    The reactive [state] object of [internal/html/static/js/dashboard.js] and
    the computed values derived from it.  [None] stands for a TypeError thrown
    while a view is computed. *)

From Stdlib Require Import ZArith QArith Ascii String.
From stdpp Require Import base list option strings.
From S2P Require Import Prelude Float64 JsValue Format.

Import F64.

#[local] Open Scope string_scope.
#[local] Open Scope list_scope.
#[local] Open Scope Z_scope.

Abbreviation obj := (list (string * val)).

Definition MAX_HOME_SLOTS : nat := 5.
Definition MAX_HEADER_SLOTS : nat := 7.

(** The [reactive] object as [setup] creates it. *)
Definition initial_state : obj := [
  ("booleans", VObj []); ("features", VObj []); ("ui_config", VObj []);
  ("limits", VObj [("min", VInt (-2300)); ("max", VInt 2250)]);
  ("daily_stats", VObj []); ("mppt_individual", VArr []); ("tasmota_individual", VArr []);
  ("mppt_chargers", VArr []); ("batteries", VArr []); ("solar_sources", VArr []);
  ("loads", VObj []); ("water_level", VInt 0); ("water_valve", VBool false);
  ("pump_switch", VBool false); ("dry_run", VBool false);
  ("dishwasher_running", VBool false); ("dishwasher_duration", VInt 0);
  ("dishwasher_time", VInt 0); ("dishwasher_active", VBool false);
  ("car_soc", VInt 0); ("ev_charging_kw", VInt 0); ("ev_power", VInt 0);
  ("washer_time", VInt 0); ("washer_power", VBool false);
  ("dryer_time", VInt 0); ("dryer_power", VBool false)
].

Definition on_off (b : bool) : string := if b then "on" else "off".

(** ** Buttons *)

Definition getButtonState (state : obj) (btn : val) : option string :=
  key ← getp btn "state_key";
  id ← getp btn "id";
  Some (on_off (truthy (field state (to_string (or_else key (js_add (VStr "home_") id)))))).

Definition ui_config (state : obj) : val := or_else (field state "ui_config") (VObj []).

Definition home_buttons (state : obj) : option val :=
  buttons ← getp (ui_config state) "home_buttons";
  call_slice MAX_HOME_SLOTS (or_else buttons (VArr [])).

Definition getHomeButton (state : obj) (i : nat) : option val :=
  buttons ← home_buttons state;
  btn ← index buttons i;
  Some (or_else btn VNull).

Definition getHomeButtonState (state : obj) (i : nat) : option string :=
  buttons ← home_buttons state;
  btn ← index buttons i;
  if truthy btn then
    key ← getp btn "state_key";
    Some (if truthy key then on_off (truthy (field state (to_string key))) else "off")
  else Some "off".

Definition toggle (id label entity : string) : val :=
  VObj [("id", VStr id); ("label", VStr label); ("entity", VStr entity); ("state_key", VStr id)].

Definition default_toggles : list val := [
  toggle "only_charging" "ONLY CHARGING" "input_boolean.only_charging";
  toggle "no_feed" "NO FEED" "input_boolean.no_feed";
  toggle "house_support" "HOUSE SUPPORT" "input_boolean.house_support";
  toggle "charge_battery" "CHARGE BATTERY" "input_boolean.charge_battery";
  toggle "do_not_supply_charger" "DO NOT SUPPLY EV" "input_boolean.do_not_supply_charger";
  toggle "set_limit_to_ev_charger" "LIMIT TO EV" "input_boolean.set_limit_to_ev_charger";
  toggle "minimize_charging" "MINIMIZE CHARGING" "input_boolean.minimize_charging"
].

(** [v.length]. *)
Definition js_length (v : val) : option val :=
  match v with
  | VArr l => Some (VInt (Z.of_nat (List.length l)))
  | VStr s => Some (VInt (Z.of_nat (String.length s)))
  | _ => getp v "length"
  end.

Definition headerToggles (state : obj) : option val :=
  buttons ← getp (ui_config state) "boolean_buttons";
  if truthy buttons then
    n ← js_length buttons;
    call_slice MAX_HEADER_SLOTS (if js_lt (VInt 0) n then buttons else VArr default_toggles)
  else call_slice MAX_HEADER_SLOTS (VArr default_toggles).

Definition getHeaderToggle (state : obj) (i : nat) : option val :=
  toggles ← headerToggles state;
  btn ← index toggles i;
  Some (or_else btn VNull).

(** ** ESS mode, totals and EV *)

Definition essClass (state : obj) : option string :=
  let m := field state "ess_mode" in
  if truthy m then
    name ← getp m "mode_name";
    if truthy name then
      Some (if is_str name "Off" || is_str name "Charger only" then "off" else "on")
    else Some "off"
  else Some "off".

Definition essText (state : obj) : option val :=
  let m := field state "ess_mode" in
  if truthy m then
    external ← getp m "is_external";
    name ← getp m "mode_name";
    Some (if truthy external then VStr "External" else or_else name (VStr "ESS"))
  else Some (VStr "ESS").

(** [(v || []).reduce((a, b) => a + b, 0)]. *)
Definition js_sum (v : val) : option val :=
  l ← elements_of (or_else v (VArr []));
  Some (foldl js_add (VInt 0) l).

Definition mpptTotal (state : obj) : option val := js_sum (field state "mppt_individual").
Definition tasmotaTotal (state : obj) : option val := js_sum (field state "tasmota_individual").

Definition evCharging (state : obj) : string :=
  let kw := parse_float (field state "ev_charging_kw") in
  let kw := if truthy (VNum kw) then kw else of_Z 0 in
  if ltb (of_Z 0) kw then to_fixed 1 kw +:+ "kW" else "0".

Definition evPower (state : obj) : string :=
  formatPower (or_else (field state "ev_power") (VInt 0)).

(** ** Loads *)

(** [hidden.includes(name)]. *)
Definition js_includes (hidden : val) (name : string) : option bool :=
  match hidden with
  | VArr l => Some (existsb (fun v => is_str v name) l)
  | VStr s => Some (match String.index 0 name s with Some _ => true | None => false end)
  | _ => None
  end.

Definition load_visible (hidden min_watts : val) (e : string * val) : option bool :=
  if js_lt min_watts (snd e) then negb <$> js_includes hidden (fst e) else Some false.

(** [filter] whose predicate may throw. *)
Fixpoint filter_opt {A} (f : A -> option bool) (l : list A) : option (list A) :=
  match l with
  | [] => Some []
  | x :: l' =>
      b ← f x;
      r ← filter_opt f l';
      Some (if b : bool then x :: r else r)
  end.

(** The comparator [(a, b) => b[1] - a[1]]: [a] goes after [b] when it is positive. *)
Definition load_after (a b : string * val) : bool :=
  sgn (sub (to_number (snd b)) (to_number (snd a))) =? 1.

Definition hidden_loads (state : obj) : option val :=
  loads_config ← getp (ui_config state) "loads";
  hidden ← getp (or_else loads_config (VObj [])) "hidden";
  Some (or_else hidden (VArr [VStr "solar_shed"])).

Definition min_watts (state : obj) : option val :=
  loads_config ← getp (ui_config state) "loads";
  m ← getp (or_else loads_config (VObj [])) "min_watts";
  Some (or_else m (VInt 10)).

Definition sortedLoads (state : obj) : option (list (string * val)) :=
  hidden ← hidden_loads state;
  m ← min_watts state;
  all ← entries (or_else (field state "loads") (VObj []));
  visible ← filter_opt (load_visible hidden m) all;
  Some (stable_sort load_after visible).

(** ** Batteries and solar sources *)

Definition battery_row (b : val) : option val :=
  name ← getp b "name"; voltage ← getp b "voltage"; current ← getp b "current";
  power ← getp b "power"; soc ← getp b "soc"; st ← getp b "state"; ttg ← getp b "time_to_go";
  Some (VObj [("name", or_else name (VStr "Battery")); ("voltage", or_else voltage (VInt 0));
              ("current", current); ("power", power); ("soc", or_else soc (VInt 0));
              ("state", or_else st (VStr "Unknown")); ("time_to_go", or_else ttg (VStr ""))]).

Definition batteries (state : obj) : option (list val) :=
  l ← elements_of (or_else (field state "batteries") (VArr []));
  mapM battery_row l.

Definition charger_row (m : val) : option val :=
  name ← getp m "name"; pv ← getp m "pv_voltage"; current ← getp m "current"; power ← getp m "power";
  Some (VObj [("name", or_else name (VStr "MPPT")); ("pv_voltage", or_else pv (VInt 0));
              ("current", or_else current (VInt 0)); ("power", or_else power (VInt 0))]).

Definition pv_inverter_row (i : nat) (power : val) : val :=
  VObj [("name", VStr ("PV Inverter " +:+ dec (Z.of_nat i + 1))); ("power", or_else power (VInt 0))].

Definition solarSources (state : obj) : option (list val) :=
  chargers ← elements_of (or_else (field state "mppt_chargers") (VArr []));
  rows ← mapM charger_row chargers;
  inverters ← elements_of (or_else (field state "tasmota_individual") (VArr []));
  Some (rows ++ imap pv_inverter_row inverters).

(** ** Daily statistics *)

Definition quote : string := String (ascii_of_nat 34) "".

Definition span (cls text : string) : string :=
  "<span class=" +:+ quote +:+ cls +:+ quote +:+ ">" +:+ text +:+ "</span>".

(** [(ds.k || 0).toFixed(f)]. *)
Definition stat_fixed (ds : val) (f : nat) (k : string) : option string :=
  v ← getp ds k;
  call_to_fixed f (or_else v (VInt 0)).

(** [(parseFloat(a) - parseFloat(b)).toFixed(f)]. *)
Definition text_delta (f : nat) (a b : string) : string :=
  to_fixed f (sub (parse_float_text a) (parse_float_text b)).

(** [daily.forEach(v => { if (v > 0) parts.push(v.toFixed(2)); })]. *)
Fixpoint positive_parts (l : list val) : option (list string) :=
  match l with
  | [] => Some []
  | v :: l' =>
      if js_lt (VInt 0) v then
        p ← call_to_fixed 2 v;
        ps ← positive_parts l';
        Some (p :: ps)
      else positive_parts l'
  end.

(** The solar part: positive inverter readings, then the MPPT total with its parts. *)
Definition solar_parts (ds : val) : option (list string) :=
  tasmota ← getp ds "tasmota_daily";
  mppt ← getp ds "mppt_daily";
  total ← getp ds "pv_total_daily";
  tasmota_l ← elements_of (or_else tasmota (VArr []));
  parts ← positive_parts tasmota_l;
  total_text ← call_to_fixed 2 (or_else total (VInt 0));
  mppt_l ← elements_of (or_else mppt (VArr []));
  mppt_text ← mapM (call_to_fixed 2) mppt_l;
  Some (parts ++ [total_text +:+ "(" +:+ join "+" mppt_text +:+ ")"]).

Definition dailyStatsHtml (state : obj) : option string :=
  let ds := or_else (field state "daily_stats") (VObj []) in
  prod ← stat_fixed ds 2 "produced_today";
  dollars ← stat_fixed ds 2 "produced_dollars";
  grid ← stat_fixed ds 2 "grid_kwh";
  let grid_cost := to_fixed 2 (mul (parse_float_text grid) (round (31 # 100))) in
  bat_in ← stat_fixed ds 2 "battery_in";
  bat_out ← stat_fixed ds 2 "battery_out";
  bat_in_y ← stat_fixed ds 1 "battery_in_yesterday";
  bat_out_y ← stat_fixed ds 1 "battery_out_yesterday";
  let bat_delta := text_delta 2 bat_in bat_out in
  let bat_delta_y := text_delta 1 bat_in_y bat_out_y in
  parts ← solar_parts ds;
  Some (span "highlight" ("☀️ " +:+ prod +:+ "kWh") +:+ " " +:+
        span "detail" (join "+" parts) +:+ " " +:+
        span "money" ("($" +:+ dollars +:+ ")") +:+ " | Grid: " +:+ grid +:+ "kWh " +:+
        span "money" ("($" +:+ grid_cost +:+ ")") +:+ " | " +:+
        "🔋 I: " +:+ bat_in +:+ "kWh " +:+ span "dim" ("(" +:+ bat_in_y +:+ ")") +:+
        ", O: " +:+ bat_out +:+ "kWh " +:+ span "dim" ("(" +:+ bat_out_y +:+ ")") +:+
        "; Δ: " +:+ bat_delta +:+ "kWh " +:+ span "dim" ("(" +:+ bat_delta_y +:+ ")")).

(** ** Update button *)

Definition hasUpdate (state : obj) : bool :=
  let latest := field state "latest_version" in
  let current := field state "dashboard_version" in
  truthy latest && truthy current && negb (strict_eq latest current).

Definition updateBtnText (updating : bool) (state : obj) : string :=
  if updating then "UPDATING..."
  else if hasUpdate state then "v" +:+ to_string (field state "latest_version")
  else "v" +:+ to_string (or_else (field state "dashboard_version") (VStr "?")).

Definition updateTitle (state : obj) : string :=
  if hasUpdate state then "Update to v" +:+ to_string (field state "latest_version")
  else "Check for updates".
