(* ===== verification/ViewFacts.v ===== *)
(** * Properties of the computed views

    The load list is the visible loads in a stable descending order, and no
    view of a state that follows the backend's types throws. *)

From Stdlib Require Import ZArith QArith Ascii String Sorted.
From stdpp Require Import base list option strings.
From S2P Require Import Prelude Float64 JsValue Format DashboardView.

Import F64.

#[local] Open Scope string_scope.
#[local] Open Scope list_scope.
#[local] Open Scope Z_scope.

(** ** The load list *)

(** A load whose value is a finite double. *)
Definition finite_load (e : string * val) : Prop :=
  ∃ q, snd e = VNum (Fin q) ∧ representable q.

Definition watts (e : string * val) : Q :=
  match to_number (snd e) with Fin q => q | _ => 0%Q end.

(** Above the threshold and not in the hidden list. *)
Definition shown (m : num) (hidden : list val) (e : string * val) : bool :=
  ltb m (to_number (snd e)) && negb (existsb (λ v, is_str v (fst e)) hidden).

Lemma load_visible_shown m hidden e :
  finite_load e -> load_visible (VArr hidden) (VNum m) e = Some (shown m hidden e).
Proof.
  intros (q & E & _). unfold load_visible, shown, js_lt. rewrite E. simpl.
  by destruct (ltb m (Fin q)).
Qed.

Lemma filter_opt_total {A} (f : A -> option bool) (g : A -> bool) l :
  Forall (λ x, f x = Some (g x)) l -> filter_opt f l = Some (List.filter g l).
Proof. induction 1 as [|x l Hx _ IH]; simpl; [done|]. by rewrite Hx, IH. Qed.

Lemma Forall_list_filter {A} (P : A -> Prop) (f : A -> bool) l :
  Forall P l -> Forall P (List.filter f l).
Proof. induction 1; simpl; [done|]. destruct (f x); [by constructor|done]. Qed.

Lemma load_after_watts a b :
  finite_load a -> finite_load b -> load_after a b = negb (Qle_bool (watts b) (watts a)).
Proof.
  intros (p & Ea & Ra) (q & Eb & Rb). unfold load_after, watts. rewrite Ea, Eb. simpl to_number.
  cbv iota. rewrite sgn_sub by done.
  destruct (Qcompare_spec q p) as [E|E|E]; simpl; symmetry.
  - apply negb_false_iff, Qle_bool_iff. rewrite E. apply Qle_refl.
  - apply negb_false_iff, Qle_bool_iff, Qlt_le_weak, E.
  - apply negb_true_iff, Qle_bool_false, E.
Qed.

(** C39: The load list holds exactly the visible loads, heaviest first, and loads of
    equal weight keep their property order. *)
Theorem sortedLoads_spec (state loads : obj) (hidden : list val) (m : num) :
  or_else (field state "loads") (VObj []) = VObj loads ->
  hidden_loads state = Some (VArr hidden) ->
  min_watts state = Some (VNum m) ->
  Forall finite_load loads ->
  ∃ l, sortedLoads state = Some l
    ∧ l ≡ₚ List.filter (shown m hidden) (object_entries loads)
    ∧ StronglySorted (heavier_first watts) l
    ∧ ∀ w, List.filter (weighs watts w) l
           = List.filter (weighs watts w) (List.filter (shown m hidden) (object_entries loads)).
Proof.
  intros El Eh Em Hl.
  assert (Ha : Forall finite_load (object_entries loads)) by (by rewrite object_entries_perm).
  assert (Hv := Forall_list_filter finite_load (shown m hidden) _ Ha).
  eexists. unfold sortedLoads. rewrite Eh, Em, El. simpl.
  rewrite (filter_opt_total _ (shown m hidden)).
  2:{ eapply Forall_impl; [exact Ha|]. intros e He. by apply load_visible_shown. }
  split; [reflexivity|]. split; [apply stable_sort_perm|]. split.
  - apply (stable_sort_heavier _ finite_load); [apply load_after_watts|done].
  - intros w. apply (stable_sort_stable _ finite_load); [apply load_after_watts|done].
Qed.

(** Three loads, one hidden by default and one too small. *)
Definition sample_loads : obj :=
  [("solar_shed", VInt 900); ("oven", VInt 300); ("router", VInt 5); ("heater", VInt 1200)].

Lemma sortedLoads_spec_witness :
  ∃ l, sortedLoads [("loads", VObj sample_loads)] = Some l
    ∧ l ≡ₚ List.filter (shown (F64.of_Z 10) [VStr "solar_shed"]) (object_entries sample_loads)
    ∧ StronglySorted (heavier_first watts) l
    ∧ ∀ w, List.filter (weighs watts w) l
           = List.filter (weighs watts w)
               (List.filter (shown (F64.of_Z 10) [VStr "solar_shed"]) (object_entries sample_loads)).
Proof.
  apply (sortedLoads_spec [("loads", VObj sample_loads)] sample_loads [VStr "solar_shed"] (F64.of_Z 10));
    [reflexivity|reflexivity|reflexivity|].
  repeat constructor; eexists; (split; [vm_compute; reflexivity|]);
    apply (representable_Z _); reflexivity.
Defined.

(** ** Types of the state *)

Definition falsy_or (ok : val -> bool) (v : val) : bool := negb (truthy v) || ok v.
Definition is_number (v : val) : bool := match v with VNum _ => true | _ => false end.
Definition is_nullish (v : val) : bool := match v with VUndef | VNull => true | _ => false end.
Definition array_of (ok : val -> bool) (v : val) : bool :=
  match v with VArr l => forallb ok l | _ => false end.
Definition non_nullish_array : val -> bool := array_of (λ v, negb (is_nullish v)).
Definition number_array : val -> bool := array_of is_number.

(** Property [k] of [v], when it is an object, passes [ok]. *)
Definition prop_ok (k : string) (ok : val -> bool) (v : val) : bool :=
  match getp v k with Some x => falsy_or ok x | None => false end.

Definition daily_stats_ok (v : val) : bool :=
  forallb (λ k, prop_ok k is_number v)
    ["produced_today"; "produced_dollars"; "grid_kwh"; "battery_in"; "battery_out";
     "battery_in_yesterday"; "battery_out_yesterday"; "pv_total_daily"] &&
  forallb (λ k, prop_ok k number_array v) ["tasmota_daily"; "mppt_daily"].

Definition ui_config_ok (v : val) : bool :=
  prop_ok "home_buttons" (array_of (λ _, true)) v &&
  prop_ok "boolean_buttons" (array_of (λ _, true)) v &&
  prop_ok "loads" (prop_ok "hidden" (array_of (λ _, true))) v.

(** The type of each property that a view reads. *)
Definition field_ok (k : string) (v : val) : bool :=
  if String.eqb k "ui_config" then falsy_or ui_config_ok v
  else if String.eqb k "daily_stats" then falsy_or daily_stats_ok v
  else if String.eqb k "mppt_individual" then falsy_or number_array v
  else if String.eqb k "tasmota_individual" then falsy_or number_array v
  else if String.eqb k "mppt_chargers" then falsy_or non_nullish_array v
  else if String.eqb k "batteries" then falsy_or non_nullish_array v
  else true.

Definition well_typed (state : obj) : bool := forallb (λ e, field_ok (fst e) (snd e)) state.

Lemma well_typed_field (state : obj) (k : string) :
  well_typed state = true -> field_ok k (field state k) = true.
Proof.
  unfold well_typed, field. induction state as [|[k' v] st IH]; simpl.
  - intros _. unfold field_ok. repeat (destruct (String.eqb k _); [reflexivity|]). reflexivity.
  - intros H. apply andb_true_iff in H as [Hv Hst].
    destruct (String.eqb k k') eqn:E; [|by apply IH].
    apply String.eqb_eq in E. by subst.
Qed.

Lemma well_typed_set (state : obj) (k : string) (v : val) :
  well_typed state = true -> field_ok k v = true -> well_typed (set_prop k v state) = true.
Proof.
  unfold well_typed. induction state as [|[k' v'] st IH]; simpl; intros Hst Hv; [by rewrite Hv|].
  apply andb_true_iff in Hst as [H1 H2]. destruct (String.eqb k k') eqn:E; simpl.
  - apply String.eqb_eq in E; subst. by rewrite Hv, H2.
  - rewrite H1. by apply IH.
Qed.

Lemma well_typed_perm (a b : obj) : a ≡ₚ b -> well_typed a = true -> well_typed b = true.
Proof.
  unfold well_typed. rewrite !List.forallb_forall. intros P H x Hx. apply H.
  eapply Permutation_in; [symmetry; exact P|exact Hx].
Qed.

Lemma well_typed_assign (state data : obj) :
  well_typed state = true -> well_typed data = true ->
  well_typed (object_assign state (VObj data)) = true.
Proof.
  intros Hs Hd. unfold object_assign. simpl.
  assert (He : well_typed (object_entries data) = true)
    by (eapply well_typed_perm; [symmetry; apply object_entries_perm|done]).
  revert state Hs He. generalize (object_entries data) as es.
  induction es as [|[k v] es IH]; simpl; intros state Hs He; [done|].
  apply andb_true_iff in He as [Hv He]. apply IH; [by apply well_typed_set|done].
Qed.

(** What a computed view needs from a checked property. *)
Lemma falsy_or_cases (ok : val -> bool) (v w : val) :
  falsy_or ok v = true -> or_else v w = w ∨ (or_else v w = v ∧ ok v = true).
Proof.
  unfold falsy_or, or_else. destruct (truthy v); simpl; [by right|by left].
Qed.

Lemma prop_ok_get (k : string) (ok : val -> bool) (v : val) :
  prop_ok k ok v = true -> ∃ x, getp v k = Some x ∧ falsy_or ok x = true.
Proof. unfold prop_ok. destruct (getp v k) as [x|]; [by exists x|done]. Qed.

Lemma array_of_elements (ok : val -> bool) (v : val) :
  array_of ok v = true -> ∃ l, v = VArr l ∧ forallb ok l = true.
Proof. destruct v; simpl; try done. by exists l. Qed.

Lemma falsy_array (ok : val -> bool) (v : val) :
  falsy_or (array_of ok) v = true -> ∃ l, or_else v (VArr []) = VArr l ∧ forallb ok l = true.
Proof.
  intros H. destruct (falsy_or_cases _ _ (VArr []) H) as [->|[-> Hok]].
  - by exists [].
  - by apply array_of_elements.
Qed.

Lemma ui_config_props (state : obj) :
  well_typed state = true -> ui_config_ok (ui_config state) = true.
Proof.
  intros H. apply (well_typed_field _ "ui_config") in H. simpl in H.
  unfold ui_config. destruct (falsy_or_cases _ _ (VObj []) H) as [->|[-> Hok]]; done.
Qed.

Lemma mapM_some {A B} (f : A -> option B) (l : list A) :
  Forall (λ x, is_Some (f x)) l -> is_Some (mapM f l).
Proof. intros H. by apply mapM_is_Some. Qed.

Lemma number_to_fixed (f : nat) (v : val) : is_number v = true -> is_Some (call_to_fixed f v).
Proof. destruct v; simpl; done || eauto. Qed.

Lemma js_sum_some (v : val) : falsy_or number_array v = true -> is_Some (js_sum v).
Proof. intros H. apply falsy_array in H as (l & E & _). unfold js_sum. rewrite E. simpl. eauto. Qed.

Lemma row_some (row : val -> option val) (v : val) :
  (∀ x, is_nullish x = false -> is_Some (row x)) ->
  falsy_or non_nullish_array v = true ->
  ∃ l rows, elements_of (or_else v (VArr [])) = Some l ∧ mapM row l = Some rows.
Proof.
  intros Hrow H. apply falsy_array in H as (l & E & Hl). exists l.
  destruct (mapM_some row l) as [rows Hr].
  { apply Forall_forall. intros x Hx. apply Hrow. rewrite List.forallb_forall in Hl.
    apply negb_true_iff, Hl. by apply list_elem_of_In. }
  exists rows. by rewrite E.
Qed.

Lemma getp_some (v : val) (k : string) : is_nullish v = false -> is_Some (getp v k).
Proof. destruct v; simpl; done || eauto. Qed.

(** A chain of property reads of one non-nullish value succeeds. *)
Ltac reads Hv :=
  repeat (let x := fresh "x" in let E := fresh "E" in
    match goal with
    | |- context [getp ?v ?k] => destruct (getp_some v k Hv) as [x E]; rewrite E; simpl
    end); eauto.

Lemma battery_row_some (b : val) : is_nullish b = false -> is_Some (battery_row b).
Proof. intros Hb. unfold battery_row. reads Hb. Qed.

Lemma charger_row_some (m : val) : is_nullish m = false -> is_Some (charger_row m).
Proof. intros Hm. unfold charger_row. reads Hm. Qed.

Lemma positive_parts_some (l : list val) :
  forallb is_number l = true -> is_Some (positive_parts l).
Proof.
  induction l as [|v l IH]; simpl; [eauto|]. intros H. apply andb_true_iff in H as [Hv Hl].
  destruct (IH Hl) as [ps ->]. destruct (js_lt _ _); [|eauto].
  destruct (number_to_fixed 2 v Hv) as [p ->]. simpl. eauto.
Qed.

Lemma daily_stats_some (state : obj) : well_typed state = true -> is_Some (dailyStatsHtml state).
Proof.
  intros H. apply (well_typed_field _ "daily_stats") in H. simpl in H.
  set (ds := or_else (field state "daily_stats") (VObj [])).
  assert (Hds : daily_stats_ok ds = true).
  { unfold ds. destruct (falsy_or_cases _ _ (VObj []) H) as [->|[-> Hok]]; done. }
  unfold daily_stats_ok in Hds. apply andb_true_iff in Hds as [Hn Ha].
  rewrite List.forallb_forall in Hn, Ha.
  assert (Hfix : ∀ f k, In k ["produced_today"; "produced_dollars"; "grid_kwh"; "battery_in";
     "battery_out"; "battery_in_yesterday"; "battery_out_yesterday"; "pv_total_daily"] ->
     is_Some (stat_fixed ds f k)).
  { intros f k Hk. destruct (prop_ok_get _ _ _ (Hn k Hk)) as (x & E & Hx).
    unfold stat_fixed. rewrite E. simpl.
    destruct (falsy_or_cases _ _ (VInt 0) Hx) as [->|[-> Hok]]; [simpl; eauto|].
    by apply number_to_fixed. }
  assert (Hsol : is_Some (solar_parts ds)).
  { destruct (prop_ok_get _ _ _ (Ha "tasmota_daily" ltac:(simpl; tauto))) as (t & Et & Ht).
    destruct (prop_ok_get _ _ _ (Ha "mppt_daily" ltac:(simpl; tauto))) as (m & Em & Hm).
    destruct (prop_ok_get _ _ _ (Hn "pv_total_daily" ltac:(simpl; tauto))) as (p & Ep & Hp).
    apply falsy_array in Ht as (lt & Elt & Hlt). apply falsy_array in Hm as (lm & Elm & Hlm).
    destruct (positive_parts_some lt Hlt) as [ps Eps].
    destruct (mapM_some (call_to_fixed 2) lm) as [ms Ems].
    { apply Forall_forall. intros x Hx. rewrite List.forallb_forall in Hlm.
      apply number_to_fixed, Hlm. by apply list_elem_of_In. }
    unfold solar_parts. rewrite Et, Em, Ep. simpl. rewrite Elt, Elm. simpl. rewrite Eps, Ems. simpl.
    destruct (falsy_or_cases _ _ (VInt 0) Hp) as [->|[-> Hok]]; [simpl; eauto|].
    destruct (number_to_fixed 2 p Hok) as [t' ->]. simpl. eauto. }
  unfold dailyStatsHtml. fold ds.
  repeat match goal with
  | |- context [stat_fixed ds ?f ?k] =>
      destruct (Hfix f k ltac:(simpl; tauto)) as [? ->]; simpl
  end.
  destruct Hsol as [? ->]. simpl. eauto.
Qed.

Lemma filter_opt_some {A} (f : A -> option bool) (l : list A) :
  (∀ x, is_Some (f x)) -> is_Some (filter_opt f l).
Proof.
  intros Hf. induction l as [|x l [r IH]]; simpl; [eauto|].
  destruct (Hf x) as [b ->]. simpl. rewrite IH. simpl. eauto.
Qed.

Lemma sortedLoads_some (state : obj) : well_typed state = true -> is_Some (sortedLoads state).
Proof.
  intros H. apply ui_config_props in H. unfold ui_config_ok in H.
  apply andb_true_iff in H as [_ H]. destruct (prop_ok_get _ _ _ H) as (lc & Elc & Hlc).
  assert (Hh : ∃ hid, getp (or_else lc (VObj [])) "hidden" = Some hid ∧
                      falsy_or (array_of (λ _, true)) hid = true).
  { destruct (falsy_or_cases _ _ (VObj []) Hlc) as [->|[-> Hok]].
    - by exists VUndef.
    - apply prop_ok_get in Hok as (x & E & Hx). by exists x. }
  destruct Hh as (hid & Ehid & Hhid).
  assert (Hm : is_Some (getp (or_else lc (VObj [])) "min_watts")).
  { apply getp_some. destruct (or_else lc (VObj [])); done. }
  destruct Hm as [m Em].
  assert (Hha : ∃ l, or_else hid (VArr [VStr "solar_shed"]) = VArr l).
  { destruct (falsy_or_cases _ _ (VArr [VStr "solar_shed"]) Hhid) as [->|[-> Hok]]; [eauto|].
    apply array_of_elements in Hok as (l & -> & _). eauto. }
  destruct Hha as [hl Ehl].
  assert (Hent : is_Some (entries (or_else (field state "loads") (VObj [])))).
  { unfold or_else. destruct (field state "loads") as [| |[]|[]| | |]; simpl; eauto;
      repeat case_match; simpl; eauto. }
  destruct Hent as [all Eall].
  unfold sortedLoads, hidden_loads, min_watts. rewrite Elc. simpl. rewrite Ehid, Em. simpl.
  rewrite Ehl, Eall. simpl.
  destruct (filter_opt_some (load_visible (VArr hl) (or_else m (VInt 10))) all) as [v ->];
    [|simpl; eauto].
  intros e. unfold load_visible. destruct (js_lt _ _); simpl; eauto.
Qed.

(** Every view of one state. *)
Definition views_defined (state : obj) : Prop :=
  is_Some (home_buttons state) ∧ is_Some (headerToggles state) ∧
  is_Some (essClass state) ∧ is_Some (essText state) ∧
  is_Some (mpptTotal state) ∧ is_Some (tasmotaTotal state) ∧
  is_Some (sortedLoads state) ∧ is_Some (batteries state) ∧
  is_Some (solarSources state) ∧ is_Some (dailyStatsHtml state) ∧
  (∀ i, is_Some (getHomeButton state i) ∧ is_Some (getHomeButtonState state i) ∧
        is_Some (getHeaderToggle state i)).

Lemma truthy_not_nullish (v : val) : truthy v = true -> is_nullish v = false.
Proof. by destruct v. Qed.

Lemma well_typed_views (state : obj) : well_typed state = true -> views_defined state.
Proof.
  intros H. pose proof (ui_config_props state H) as Hui. unfold ui_config_ok in Hui.
  apply andb_true_iff in Hui as [Hui _]. apply andb_true_iff in Hui as [Hhb Hbb].
  apply prop_ok_get in Hhb as (hb & Ehb & Hhb). apply prop_ok_get in Hbb as (bb & Ebb & Hbb).
  apply falsy_array in Hhb as (hl & Ehl & _).
  assert (Ehome : home_buttons state = Some (VArr (take MAX_HOME_SLOTS hl)))
    by (unfold home_buttons; rewrite Ehb; simpl; by rewrite Ehl).
  assert (Ehead : ∃ l, headerToggles state = Some (VArr l)).
  { unfold headerToggles. rewrite Ebb. simpl. unfold falsy_or in Hbb.
    destruct (truthy bb); simpl in Hbb; [|simpl; eauto].
    apply array_of_elements in Hbb as (l & -> & _). simpl. case_match; simpl; eauto. }
  destruct Ehead as [tl Etl].
  assert (Hess : ∀ k, truthy (field state "ess_mode") = true ->
                      is_Some (getp (field state "ess_mode") k))
    by (intros k Ht; by apply getp_some, truthy_not_nullish).
  repeat match goal with |- _ ∧ _ => split | |- views_defined _ => unfold views_defined end.
  - rewrite Ehome. eauto.
  - rewrite Etl. eauto.
  - unfold essClass. destruct (truthy _) eqn:T; [|eauto].
    destruct (Hess "mode_name" eq_refl) as [n ->]. simpl. case_match; eauto.
  - unfold essText. destruct (truthy _) eqn:T; [|eauto].
    destruct (Hess "mode_name" eq_refl) as [n ->], (Hess "is_external" eq_refl) as [x ->]. simpl. eauto.
  - apply js_sum_some. apply (well_typed_field _ "mppt_individual" H).
  - apply js_sum_some. apply (well_typed_field _ "tasmota_individual" H).
  - by apply sortedLoads_some.
  - destruct (row_some battery_row _ battery_row_some (well_typed_field _ "batteries" H))
      as (l & rows & E & Er). unfold batteries. rewrite E. simpl. rewrite Er. eauto.
  - destruct (row_some charger_row _ charger_row_some (well_typed_field _ "mppt_chargers" H))
      as (l & rows & E & Er).
    destruct (falsy_array _ _ (well_typed_field _ "tasmota_individual" H)) as (tl' & Et & _).
    unfold solarSources. rewrite E. simpl. rewrite Er. simpl. rewrite Et. simpl. eauto.
  - by apply daily_stats_some.
  - intros i. unfold getHomeButton, getHomeButtonState, getHeaderToggle.
    rewrite Ehome, Etl. simpl. repeat split; eauto.
    destruct (truthy (default VUndef (take MAX_HOME_SLOTS hl !! i))) eqn:T; [|eauto].
    destruct (getp_some _ "state_key" (truthy_not_nullish _ T)) as [k ->]. simpl. eauto.
Qed.


