(* ===== verification/SwEvents.v ===== *)
(** * Validation of push payloads in the service worker

    [normalizedEvent] of [internal/html/vue-ui/notifications-sw.js]: what a
    push message must look like before the worker considers it. *)

From Stdlib Require Import ZArith QArith Qround Ascii String.
From stdpp Require Import base list option strings.
From S2P Require Import Prelude Float64 JsValue.

Import F64.

#[local] Open Scope string_scope.
#[local] Open Scope list_scope.
#[local] Open Scope Z_scope.

(** ** Constants *)

Definition MAX_EVENTS : nat := 4096.
Definition RETENTION_MS : Z := 30 * 24 * 60 * 60 * 1000.
Definition MAX_EVENT_AGE_MS : Z := 5 * 60 * 1000.
Definition FUTURE_SKEW_MS : Z := 30000.

(** What [normalizedEvent] keeps of a payload. *)
Record sw_event := SwEvent {
  ev_key : string;
  ev_title : string;
  ev_body : string;
  ev_timestamp : Z
}.

#[global] Instance sw_event_eq_dec : EqDecision sw_event.
Proof. solve_decision. Defined.

(** [Number.isSafeInteger(v)], with the integer. *)
Definition safe_integer (v : val) : option Z :=
  match v with
  | VNum (Fin q) => if is_safe_integer (Fin q) then Some (Qfloor q) else None
  | _ => None
  end.

(** [list.includes(v)] on a list of texts. *)
Definition text_in (l : list string) (v : val) : bool := existsb (is_str v) l.

Definition is_lower_hex (c : ascii) : bool :=
  let n := nat_of_ascii c in
  (Nat.leb 97 n && Nat.leb n 102) || (Nat.leb 48 n && Nat.leb n 57).

(** [/^[a-f0-9]{64}$/]. *)
Definition hex64 (s : string) : bool :=
  Nat.eqb (String.length s) 64 && forallb is_lower_hex (list_ascii_of_string s).

(** [Array.from(s).length]: the code points of a UTF-8 text. *)
Definition starts_code_point (c : ascii) : bool :=
  let n := nat_of_ascii c in negb (Nat.leb 128 n && Nat.leb n 191).

Definition code_points (s : string) : nat :=
  List.length (List.filter starts_code_point (list_ascii_of_string s)).

(** One of the two timestamps against the clock. *)
Definition timestamp_ok (now : Z) (v : val) : bool :=
  match safe_integer v with
  | Some t => (0 <? t) && (t <=? now + FUTURE_SKEW_MS) && (now - t <=? MAX_EVENT_AGE_MS)
  | None => false
  end.

Definition event_kinds : list string := ["native"; "ev"; "water"; "lowBattery"; "test"].
Definition event_sources : list string := ["victron"; "ha"; "system"].
Definition native_sources : list string := ["victron"; "system"].

(** [normalizedEvent(value)] at time [now]. *)
Definition normalizedEvent (now : Z) (value : val) : option sw_event :=
  match value with
  | VObj o =>
      if negb (strict_eq (field o "schemaVersion") (VInt 1)) || negb (is_str (field o "url") "/") then None
      else if negb (text_in event_kinds (field o "kind")) then None
      else if negb (text_in event_sources (field o "source")) then None
      else if is_str (field o "kind") "native" && negb (text_in native_sources (field o "source")) then None
      else
        match field o "eventKey", field o "title", field o "body" with
        | VStr key, VStr title, VStr body =>
            if negb (hex64 key) then None
            else if String.eqb title "" || Nat.ltb 120 (code_points title) then None
            else if Nat.ltb 1000 (code_points body) then None
            else if timestamp_ok now (field o "sourceTimestampMs") &&
                    timestamp_ok now (field o "observedAtMs")
            then option_map (SwEvent key title body) (safe_integer (field o "sourceTimestampMs"))
            else None
        | _, _, _ => None
        end
  | _ => None
  end.

(** ** Properties *)

Lemma safe_integer_Z (z : Z) : Z.abs z <= max_safe -> safe_integer (VInt z) = Some z.
Proof.
  intros Hz. unfold safe_integer, VInt. rewrite of_Z_exact by (unfold max_safe in Hz; lia).
  unfold is_safe_integer, is_integer. rewrite Qfloor_Z.
  replace (Qeq_bool (inject_Z z) (inject_Z z)) with true
    by (symmetry; apply Qeq_bool_iff; reflexivity).
  by rewrite (proj2 (Z.leb_le _ _) Hz).
Qed.

Lemma timestamp_ok_window (now : Z) (v : val) :
  timestamp_ok now v = true ->
  ∃ t, safe_integer v = Some t ∧ 0 < t ∧ now - MAX_EVENT_AGE_MS <= t <= now + FUTURE_SKEW_MS.
Proof.
  unfold timestamp_ok. destruct (safe_integer v) as [t|]; [|done].
  intros H. bool_hyps. exists t. split; [done|]. lia.
Qed.

(** An accepted payload has a well-formed key, bounded texts and a source time
    inside the acceptance window. *)
Theorem normalizedEvent_sound (now : Z) (value : val) (e : sw_event) :
  normalizedEvent now value = Some e ->
  hex64 (ev_key e) = true ∧
  ev_title e ≠ "" ∧ (code_points (ev_title e) <= 120)%nat ∧ (code_points (ev_body e) <= 1000)%nat ∧
  0 < ev_timestamp e ∧ now - MAX_EVENT_AGE_MS <= ev_timestamp e <= now + FUTURE_SKEW_MS.
Proof.
  unfold normalizedEvent. intros H.
  repeat (case_match; simplify_eq; try done).
  destruct (safe_integer (field o "sourceTimestampMs")) as [t|] eqn:Et; [|done].
  injection H as <-. simpl.
  bool_hyps.
  destruct (timestamp_ok_window now (field o "sourceTimestampMs")) as (t' & Et' & Ht); [done|].
  rewrite Et in Et'. simplify_eq. repeat split; try done; lia.
Qed.

(** A payload the worker accepts at time zero plus a minute. *)
Definition sample_key : string :=
  "0123456789abcdef0123456789abcdef0123456789abcdef0123456789abcdef".

Definition sample_payload : val := VObj [
  ("schemaVersion", VInt 1); ("url", VStr "/"); ("kind", VStr "lowBattery"); ("source", VStr "system");
  ("eventKey", VStr sample_key); ("title", VStr "Low battery"); ("body", VStr "12%");
  ("sourceTimestampMs", VInt 59000); ("observedAtMs", VInt 59500)].

Lemma normalizedEvent_sound_witness :
  let e := SwEvent sample_key "Low battery" "12%" 59000 in
  hex64 (ev_key e) = true ∧
  ev_title e ≠ "" ∧ (code_points (ev_title e) <= 120)%nat ∧ (code_points (ev_body e) <= 1000)%nat ∧
  0 < ev_timestamp e ∧ 60000 - MAX_EVENT_AGE_MS <= ev_timestamp e <= 60000 + FUTURE_SKEW_MS.
Proof. apply (normalizedEvent_sound 60000 sample_payload). vm_compute. reflexivity. Defined.
