(* ===== verification/SwSettings.v ===== *)
(** * Delivery settings of the service worker

    The [settings] store of [internal/html/vue-ui/notifications-sw.js]: one
    record under the key [delivery], read and changed in one IndexedDB
    transaction.  A generation number fences concurrent changes: disabling
    always advances it, and enabling is accepted only with the current one. *)

From Stdlib Require Import ZArith QArith Qround Ascii String.
From stdpp Require Import base list option strings.
From S2P Require Import Prelude Float64 JsValue SwEvents.

Import F64.

#[local] Open Scope string_scope.
#[local] Open Scope list_scope.
#[local] Open Scope Z_scope.

Record settings := Settings { enabled : bool; generation : Z }.

#[global] Instance settings_eq_dec : EqDecision settings.
Proof. solve_decision. Defined.

Definition DEFAULT_SETTINGS : val := VObj [("enabled", VBool false); ("generation", VInt 0)].

(** The record a [put] stores. *)
Definition stored_settings (s : settings) : val :=
  VObj [("enabled", VBool (enabled s)); ("generation", VInt (generation s))].

(** [current] of the transaction: anything malformed reads as disabled or as
    generation zero.  [stored] is [VUndef] when the key is absent. *)
Definition read_settings (stored : val) : settings :=
  let saved := or_else stored DEFAULT_SETTINGS in
  let prop k := default VUndef (getp saved k) in
  Settings (strict_eq (prop "enabled") (VBool true)) (default 0 (safe_integer (prop "generation"))).

(** One transaction: the new store and [{...(next || current), applied}]. *)
Definition settings_tx (update : option (settings -> option settings)) (stored : val)
  : val * (settings * bool) :=
  let current := read_settings stored in
  match update with
  | None => (stored, (current, true))
  | Some f =>
      match f current with
      | Some next => (stored_settings next, (next, true))
      | None => (stored, (current, false))
      end
  end.

(** A settings message: its type, [enabled] and [generation]. *)
Record change_request := ChangeRequest {
  req_begin : bool;         (* notification-settings-begin, else -set *)
  req_enabled : val;
  req_generation : val
}.

(** The update function of [changeSettings]. *)
Definition change_update (r : change_request) (current : settings) : option settings :=
  let stale :=
    match safe_integer (req_generation r) with
    | Some g => negb (g =? generation current)
    | None => true
    end in
  if (req_begin r || strict_eq (req_enabled r) (VBool true)) && stale then None
  else if req_begin r || strict_eq (req_enabled r) (VBool false) then
    if max_safe <=? generation current then None
    else Some (Settings false (generation current + 1))
  else Some (Settings true (generation current)).

Definition changeSettings (r : change_request) (stored : val) : val * (settings * bool) :=
  settings_tx (Some (change_update r)) stored.

(** ** Properties *)

Definition gen_of (stored : val) : Z := generation (read_settings stored).
Definition enabled_in (stored : val) : bool := enabled (read_settings stored).
Definition applied (r : change_request) (stored : val) : bool := snd (snd (changeSettings r stored)).

(** A request that turns delivery off when it is applied. *)
Definition disables (r : change_request) : bool :=
  req_begin r || strict_eq (req_enabled r) (VBool false).

Lemma read_stored (s : settings) :
  Z.abs (generation s) <= max_safe -> read_settings (stored_settings s) = s.
Proof.
  intros Hs. destruct s as [b g]. pose proof (safe_integer_Z g Hs) as E.
  unfold read_settings, stored_settings. cbn -[safe_integer VInt]. rewrite E. by destruct b.
Qed.

Lemma safe_integer_bound (v : val) (z : Z) : safe_integer v = Some z -> Z.abs z <= max_safe.
Proof.
  destruct v as [| | |[| | |q]| | |]; try discriminate. unfold safe_integer.
  destruct (is_safe_integer (Fin q)) eqn:E; [|discriminate]. intros [= <-].
  unfold is_safe_integer in E. apply andb_true_iff in E as [_ E]. by apply Z.leb_le.
Qed.

Lemma gen_of_bound (stored : val) : Z.abs (gen_of stored) <= max_safe.
Proof.
  unfold gen_of, read_settings. simpl.
  destruct (safe_integer _) as [z|] eqn:E; simpl; [by eapply safe_integer_bound|].
  unfold max_safe. lia.
Qed.

(** What one change does to the settings the next transaction reads. *)
Lemma change_cases (r : change_request) (stored : val) :
  let '(stored', (_, ok)) := changeSettings r stored in
  if ok then
    if disables r then enabled_in stored' = false ∧ gen_of stored' = gen_of stored + 1
    else enabled_in stored' = true ∧ gen_of stored' = gen_of stored
  else stored' = stored.
Proof.
  unfold changeSettings, settings_tx, gen_of, enabled_in.
  pose proof (gen_of_bound stored) as B. unfold gen_of in B.
  set (c := read_settings stored) in *. clearbody c.
  destruct (change_update r c) as [next|] eqn:E; [|done].
  unfold change_update in E. fold (disables r) in E.
  destruct (_ && _) eqn:Hst; [done|]. destruct (disables r).
  - destruct (max_safe <=? _) eqn:Hm; simplify_eq. apply Z.leb_gt in Hm.
    rewrite read_stored; [done|]. cbn [generation]. lia.
  - simplify_eq. by rewrite read_stored.
Qed.

(** The answer of a change carries the settings that are now stored. *)
Lemma change_result (r : change_request) (stored : val) :
  let '(stored', (s, _)) := changeSettings r stored in s = read_settings stored'.
Proof.
  unfold changeSettings, settings_tx. pose proof (gen_of_bound stored) as B.
  unfold gen_of in B. destruct (change_update r (read_settings stored)) as [next|] eqn:E; [|done].
  set (c := read_settings stored) in *. clearbody c.
  unfold change_update in E. destruct (_ && _); [done|]. destruct (_ || _).
  - destruct (max_safe <=? _) eqn:Hm; simplify_eq. apply Z.leb_gt in Hm.
    rewrite read_stored; [done|]. cbn [generation]. lia.
  - simplify_eq. by rewrite read_stored.
Qed.

(** An applied enable presented the current generation. *)
Lemma change_enable_current (r : change_request) (stored : val) :
  applied r stored = true -> disables r = false -> strict_eq (req_enabled r) (VBool true) = true ->
  safe_integer (req_generation r) = Some (gen_of stored).
Proof.
  unfold applied, changeSettings, settings_tx, change_update. intros Ha Hd He.
  rewrite He, orb_true_r in Ha. simpl in Ha.
  destruct (safe_integer (req_generation r)) as [g|]; [|done].
  destruct (g =? _) eqn:E; [|done]. apply Z.eqb_eq in E. by subst.
Qed.

(** ** Sequences of changes *)

Definition change_step (stored : val) (r : change_request) : val := fst (changeSettings r stored).

Definition run_changes (rs : list change_request) (stored : val) : val := foldl change_step stored rs.

(** How many applied requests of the sequence turned delivery off. *)
Fixpoint applied_disables (rs : list change_request) (stored : val) : Z :=
  match rs with
  | [] => 0
  | r :: rs' =>
      (if applied r stored && disables r then 1 else 0) + applied_disables rs' (change_step stored r)
  end.

Lemma applied_disables_nonneg rs stored : 0 <= applied_disables rs stored.
Proof.
  revert stored; induction rs as [|r rs IH]; simpl; intros stored; [done|].
  specialize (IH (change_step stored r)). destruct (_ && _); lia.
Qed.

Lemma change_step_gen (stored : val) (r : change_request) :
  gen_of (change_step stored r) = gen_of stored + (if applied r stored && disables r then 1 else 0).
Proof.
  pose proof (change_cases r stored) as H. unfold change_step, applied.
  destruct (changeSettings r stored) as [stored' [s ok]]. simpl.
  destruct ok; simpl; [|subst; lia]. destruct (disables r); destruct H as [_ ->]; lia.
Qed.

(** The generation counts the applied disables, and nothing else moves it. *)
Theorem generation_counts_disables (rs : list change_request) (stored : val) :
  gen_of (run_changes rs stored) = gen_of stored + applied_disables rs stored.
Proof.
  revert stored; induction rs as [|r rs IH]; simpl; intros stored; [lia|].
  unfold run_changes in *. simpl. rewrite IH, change_step_gen. lia.
Qed.

(** Enabling, or beginning a change, with the generation of an earlier state is
    refused once any tab has disabled delivery since. *)
Theorem stale_enable_refused (r : change_request) (rs : list change_request) (stored : val) :
  req_begin r || strict_eq (req_enabled r) (VBool true) = true ->
  safe_integer (req_generation r) = Some (gen_of stored) ->
  0 < applied_disables rs stored ->
  changeSettings r (run_changes rs stored)
  = (run_changes rs stored, (read_settings (run_changes rs stored), false)).
Proof.
  intros Hr Hg Hd. pose proof (generation_counts_disables rs stored) as G.
  unfold changeSettings, settings_tx. set (st := run_changes rs stored) in *.
  assert (E : change_update r (read_settings st) = None); [|by rewrite E].
  unfold change_update. rewrite Hr, Hg. fold (gen_of st). rewrite (proj2 (Z.eqb_neq _ _)) by lia. done.
Qed.

Lemma stale_enable_refused_witness :
  let stored := VUndef in
  let off := ChangeRequest false (VBool false) VUndef in
  let enable := ChangeRequest false (VBool true) (VInt 0) in
  changeSettings enable (run_changes [off] stored)
  = (run_changes [off] stored, (read_settings (run_changes [off] stored), false)).
Proof.
  intros stored off enable. apply (stale_enable_refused enable [off] stored); reflexivity.
Defined.
