(* ===== verification/SwDedupe.v ===== *)
(** * Notification deduplication in the service worker

    The [events] store of [internal/html/vue-ui/notifications-sw.js]: one
    expiring claim per event key.  [claimEvent] takes a claim, [pruneEvents]
    bounds the store, [releaseClaim] gives a claim back. *)

From Stdlib Require Import ZArith Ascii String Sorted.
From stdpp Require Import base list option strings gmap.
From S2P Require Import Prelude JsValue SwEvents.

#[local] Open Scope string_scope.
#[local] Open Scope list_scope.
#[local] Open Scope Z_scope.

(** Claims by key, with their expiry time. *)
Abbreviation claims := (gmap string Z).

(** The [expires] index: by expiry, then by primary key. *)
Definition claim_after (a b : string * Z) : bool :=
  if snd a =? snd b then
    match String.compare (fst a) (fst b) with Gt => true | _ => false end
  else snd b <? snd a.

Definition index_order (m : claims) : list (string * Z) :=
  stable_sort claim_after (map_to_list m).

(** The cursor loop of [pruneEvents]; [clock] is the sequence of [Date.now()]
    readings, one per cursor position. *)
Fixpoint prune_loop (clock : nat -> Z) (cursor : list (string * Z)) (excess : Z) (m : claims)
  : claims :=
  match cursor with
  | [] => m
  | (key, expires) :: rest =>
      if (0 <? excess) || (expires <=? clock O) then
        prune_loop (fun i => clock (S i)) rest (excess - 1) (delete key m)
      else m
  end.

Definition pruneEvents (clock : nat -> Z) (m : claims) : claims :=
  prune_loop clock (index_order m) (Z.max 0 (Z.of_nat (size m) - Z.of_nat MAX_EVENTS)) m.

(** [claimEvent(event)] at time [now]: the new store and whether the caller
    obtained the claim. *)
Definition claimEvent (now : Z) (clock : nat -> Z) (key : string) (m : claims) : claims * bool :=
  match m !! key with
  | Some _ => (pruneEvents clock m, false)
  | None => (pruneEvents clock (<[key := now + RETENTION_MS]> m), true)
  end.

Definition releaseClaim (key : string) (m : claims) : claims := delete key m.

(** ** Lemmas *)

Lemma index_order_perm (m : claims) : index_order m ≡ₚ map_to_list m.
Proof. apply stable_sort_perm. Qed.

Lemma index_order_nodup (m : claims) : NoDup (index_order m).*1.
Proof. rewrite index_order_perm. apply NoDup_fst_map_to_list. Qed.

Lemma index_order_lookup (m : claims) k e : (k, e) ∈ index_order m ↔ m !! k = Some e.
Proof. rewrite index_order_perm. apply elem_of_map_to_list. Qed.

Lemma prune_loop_subseteq clock cursor excess m : prune_loop clock cursor excess m ⊆ m.
Proof.
  revert clock excess m; induction cursor as [|[k e] rest IH]; intros clock excess m; simpl; [done|].
  destruct (_ || _); [|done]. etransitivity; [apply IH|apply delete_subseteq].
Qed.

(** Pruning only removes claims. *)
Lemma pruneEvents_subseteq clock m : pruneEvents clock m ⊆ m.
Proof. apply prune_loop_subseteq. Qed.

Lemma prune_loop_size clock cursor excess (m : claims) :
  NoDup cursor.*1 -> (∀ k e, (k, e) ∈ cursor -> m !! k = Some e) ->
  Z.of_nat (length cursor) >= excess ->
  Z.of_nat (size (prune_loop clock cursor excess m)) <= Z.of_nat (size m) - Z.max 0 excess.
Proof.
  revert clock excess m; induction cursor as [|[k e] rest IH]; intros clock excess m Hnd Hin Hlen;
    simpl in *; [lia|].
  apply NoDup_cons in Hnd as [Hk Hnd].
  assert (Hm : m !! k = Some e) by (apply Hin; left).
  destruct (_ || _) eqn:E.
  - assert (Hsz : size m = S (size (delete k m))).
    { rewrite <- (insert_delete_id m k e Hm) at 1. apply map_size_insert_None, lookup_delete_eq. }
    specialize (IH (fun i => clock (S i)) (excess - 1) (delete k m) Hnd).
    ospecialize (IH _ _).
    + intros k' e' Hin'. rewrite lookup_delete_ne; [apply Hin; by right|].
      intros ->. apply Hk. apply list_elem_of_fmap. by exists (k', e').
    + lia.
    + lia.
  - apply orb_false_iff in E as [E _]. apply Z.ltb_ge in E. lia.
Qed.

(** The store never holds more than [MAX_EVENTS] claims after a prune. *)
Theorem pruneEvents_bounded (clock : nat -> Z) (m : claims) :
  (size (pruneEvents clock m) <= MAX_EVENTS)%nat.
Proof.
  unfold pruneEvents.
  pose proof (prune_loop_size clock (index_order m) (Z.max 0 (Z.of_nat (size m) - Z.of_nat MAX_EVENTS)) m
    (index_order_nodup m)) as H.
  ospecialize (H _ _).
  - intros k e Hin. by apply index_order_lookup.
  - rewrite (Permutation_length (index_order_perm m)), length_map_to_list. lia.
  - lia.
Qed.

(** Exactly what a prune does: it removes a prefix of the index, as long as
    the entry is in excess of [MAX_EVENTS] or expired at its clock reading. *)
Definition pruned_at (clock : nat -> Z) (excess : Z) (i : nat) (expires : Z) : Prop :=
  Z.of_nat i < excess ∨ expires <= clock i.

Lemma foldr_delete_comm (k : string) (ks : list string) (m : claims) :
  foldr delete (delete k m) ks = delete k (foldr delete m ks).
Proof. induction ks as [|x ks IH]; simpl; [done|]. rewrite IH. apply delete_delete. Qed.

Lemma prune_loop_prefix clock cursor excess (m : claims) :
  NoDup cursor.*1 -> (∀ k e, (k, e) ∈ cursor -> m !! k = Some e) ->
  ∃ n, prune_loop clock cursor excess m = foldr delete m (take n cursor).*1
    ∧ (∀ i k e, (i < n)%nat -> cursor !! i = Some (k, e) -> pruned_at clock excess i e)
    ∧ (∀ k e, cursor !! n = Some (k, e) -> ¬ pruned_at clock excess n e).
Proof.
  unfold pruned_at.
  revert clock excess m; induction cursor as [|[k e] rest IH]; intros clock excess m Hnd Hin; simpl.
  { exists O. split; [done|]. split; [lia|done]. }
  apply NoDup_cons in Hnd as [Hk Hnd]. destruct (_ || _) eqn:E.
  - destruct (IH (fun i => clock (S i)) (excess - 1) (delete k m) Hnd) as (n & En & Hlt & Hn).
    { intros k' e' Hin'. rewrite lookup_delete_ne; [apply Hin; by right|].
      intros ->. apply Hk. apply list_elem_of_fmap. by exists (k', e'). }
    exists (S n). split; [|split].
    + rewrite En. apply foldr_delete_comm.
    + intros [|i] k' e' Hi Hl; simpl in Hl.
      * simplify_eq. apply orb_true_iff in E as [E|E]; [left|right];
          [apply Z.ltb_lt in E; lia | by apply Z.leb_le in E].
      * destruct (Hlt i k' e') as [H|H]; [lia|done|left; lia|by right].
    + intros k' e' Hl. simpl in Hl. intros [H|H]; apply (Hn k' e' Hl); [left; lia|by right].
  - apply orb_false_iff in E as [E1 E2]. apply Z.ltb_ge in E1. apply Z.leb_gt in E2.
    exists O. split; [done|]. split; [lia|]. intros k' e' Hl. simplify_eq/=. lia.
Qed.

(** The index is in order of expiry. *)
Lemma index_order_sorted (m : claims) :
  StronglySorted (λ a b, snd a <= snd b) (index_order m).
Proof.
  apply (stable_sort_sorted claim_after (λ _, True)).
  - intros a b c. lia.
  - intros a b _ _. unfold claim_after. destruct (Z.eqb_spec (snd a) (snd b)); [lia|].
    intros H. apply Z.ltb_lt in H. lia.
  - intros a b _ _. unfold claim_after. destruct (Z.eqb_spec (snd a) (snd b)); [lia|].
    intros H. apply Z.ltb_ge in H. lia.
  - apply Forall_true. done.
Qed.

(** Nothing is removed from a store within its bound whose claims are all live. *)
Lemma pruneEvents_id (clock : nat -> Z) (m : claims) :
  (size m <= MAX_EVENTS)%nat -> (∀ k e, m !! k = Some e -> clock O < e) ->
  pruneEvents clock m = m.
Proof.
  intros Hs Hlive. unfold pruneEvents.
  replace (Z.max 0 _) with 0 by lia. destruct (index_order m) as [|[k e] rest] eqn:E; [done|].
  simpl. assert (m !! k = Some e) as Hk by (apply index_order_lookup; rewrite E; left).
  specialize (Hlive k e Hk). by rewrite (proj2 (Z.leb_gt _ _)) by lia.
Qed.

Lemma StronglySorted_lookup_lt {A} (R : A -> A -> Prop) (l : list A) i j a b :
  StronglySorted R l -> l !! i = Some a -> l !! j = Some b -> (i < j)%nat -> R a b.
Proof.
  intros S; revert i j; induction S as [|x l S IH F]; intros i j Hi Hj Hij; [done|].
  destruct j as [|j]; [lia|]. destruct i as [|i]; simpl in *.
  - simplify_eq. rewrite Forall_forall in F. apply F. by eapply list_elem_of_lookup_2.
  - eapply IH; [done|done|lia].
Qed.

Lemma foldr_delete_lookup (ks : list string) (m : claims) k :
  foldr delete m ks !! k = if decide (k ∈ ks) then None else m !! k.
Proof.
  induction ks as [|x ks IH]; [done|]. cbn [foldr].
  destruct (decide (k = x)) as [->|Hne].
  - rewrite lookup_delete_eq. destruct (decide (x ∈ x :: ks)) as [|Hn]; [done|]. exfalso. apply Hn. left.
  - rewrite lookup_delete_ne by done. rewrite IH.
    destruct (decide (k ∈ ks)) as [H1|H1], (decide (k ∈ x :: ks)) as [H2|H2]; try done; exfalso.
    + apply H2. by right.
    + by apply elem_of_cons in H2 as [?|?].
Qed.

Definition excess_of (m : claims) : Z := Z.max 0 (Z.of_nat (size m) - Z.of_nat MAX_EVENTS).

(** The claims that survive a prune are exactly those behind a prefix of the
    index; the prefix holds the excess and the expired entries, and the first
    survivor is neither. *)
Theorem pruneEvents_spec (clock : nat -> Z) (m : claims) :
  ∃ n, (∀ k, pruneEvents clock m !! k
             = if decide (k ∈ (take n (index_order m)).*1) then None else m !! k)
    ∧ (∀ i k e, (i < n)%nat -> index_order m !! i = Some (k, e) -> pruned_at clock (excess_of m) i e)
    ∧ (∀ k e, index_order m !! n = Some (k, e) -> ¬ pruned_at clock (excess_of m) n e).
Proof.
  destruct (prune_loop_prefix clock (index_order m) (excess_of m) m (index_order_nodup m))
    as (n & En & H1 & H2); [by intros k e; rewrite index_order_lookup|].
  exists n. split; [|done]. intros k. unfold pruneEvents. fold (excess_of m). rewrite En.
  apply foldr_delete_lookup.
Qed.

(** A claim that was just granted survives the prune of its own transaction,
    unless a full store holds only claims of the same millisecond. *)
Theorem fresh_claim_survives (now : Z) (clock : nat -> Z) (key : string) (m m' : claims) :
  claimEvent now clock key m = (m', true) ->
  (∀ i, clock i < now + RETENTION_MS) ->
  (size m <= MAX_EVENTS)%nat ->
  (size m < MAX_EVENTS)%nat ∨ (∃ k e, m !! k = Some e ∧ e < now + RETENTION_MS) ->
  m' !! key = Some (now + RETENTION_MS).
Proof.
  unfold claimEvent. destruct (m !! key) eqn:Ek; [done|]. intros [= <-] Hclock Hsize Hother.
  set (m1 := <[key := now + RETENTION_MS]> m).
  assert (Hs1 : size m1 = S (size m)) by by apply map_size_insert_None.
  assert (Hk1 : m1 !! key = Some (now + RETENTION_MS)) by apply lookup_insert_eq.
  destruct (pruneEvents_spec clock m1) as (n & Hlk & Hpre & _). rewrite Hlk.
  rewrite decide_False; [done|]. intros Hin.
  apply list_elem_of_fmap in Hin as ([k e] & Heq & Hin). simpl in Heq. subst k.
  apply elem_of_take in Hin as (j & Hj & Hjn).
  assert (He : e = now + RETENTION_MS).
  { assert (m1 !! key = Some e) by (apply index_order_lookup; by eapply list_elem_of_lookup_2). congruence. }
  destruct (Hpre j key e Hjn Hj) as [Hx|Hx]; [|specialize (Hclock j); lia].
  unfold excess_of in Hx. assert (j = O /\ size m = MAX_EVENTS) as [-> Hfull] by lia.
  destruct Hother as [?|(k & e' & Hk & He')]; [lia|].
  assert (Hin : (k, e') ∈ index_order m1).
  { apply index_order_lookup. unfold m1. rewrite lookup_insert_ne; [done|]. congruence. }
  apply list_elem_of_lookup in Hin as [[|j'] Hj'].
  - rewrite Hj in Hj'. simplify_eq.
  - pose proof (StronglySorted_lookup_lt _ _ O (S j') _ _ (index_order_sorted m1) Hj Hj') as Hs.
    simpl in Hs. specialize (Hs ltac:(lia)). lia.
Qed.

Lemma fresh_claim_survives_witness :
  (fst (claimEvent 1000 (λ _, 1000) "k" {["old" := 5]})) !! "k" = Some (1000 + RETENTION_MS).
Proof.
  apply (fresh_claim_survives 1000 (λ _, 1000) "k" {["old" := 5]}).
  - vm_compute. reflexivity.
  - intros _. reflexivity.
  - vm_compute. lia.
  - left. vm_compute. lia.
Defined.

(** While a claim is stored nobody else obtains it. *)
Lemma claim_taken (now : Z) (clock : nat -> Z) (key : string) (m : claims) e :
  m !! key = Some e -> snd (claimEvent now clock key m) = false.
Proof. intros H. unfold claimEvent. by rewrite H. Qed.

(** With room in the store and no expired claim, claiming adds exactly one entry. *)
Lemma claim_fresh (now : Z) (clock : nat -> Z) (key : string) (m : claims) :
  m !! key = None -> (size m < MAX_EVENTS)%nat ->
  (∀ k e, m !! k = Some e -> clock O < e) -> clock O < now + RETENTION_MS ->
  claimEvent now clock key m = (<[key := now + RETENTION_MS]> m, true).
Proof.
  intros Hk Hs Hlive Hnow. unfold claimEvent. rewrite Hk. f_equal. apply pruneEvents_id.
  - rewrite map_size_insert_None by done. lia.
  - intros k e He. destruct (decide (k = key)) as [->|Hne].
    + rewrite lookup_insert_eq in He. by simplify_eq.
    + rewrite lookup_insert_ne in He by done. by eapply Hlive.
Qed.
