(* ===== verification/SwDelivery.v ===== *)
(** * Delivery of push events, interleaved

    [deliver] of [internal/html/vue-ui/notifications-sw.js] as a transition
    system.  Each step of a run is one awaited operation; between two steps
    other push events, settings messages of any tab and time may intervene.
    IndexedDB serialises the transactions, so each of them is one step. *)

From Stdlib Require Import ZArith Ascii String.
From stdpp Require Import base list option strings gmap fin_maps.
From S2P Require Import Prelude JsValue SwEvents SwSettings SwDedupe.

#[local] Open Scope string_scope.
#[local] Open Scope list_scope.
#[local] Open Scope Z_scope.

(** ** States *)

(** Where one call of [deliver] is: what it awaits, or how it ended. *)
Inductive run_state : Type :=
| Reading (ev : sw_event)                       (* the first settings() *)
| Claiming (ev : sw_event) (config : settings)  (* claimEvent(event) *)
| Confirming (ev : sw_event) (config : settings) (* the second settings() *)
| Displaying (ev : sw_event)                    (* showNotification *)
| Releasing (ev : sw_event)                     (* releaseClaim, after a failed display *)
| Delivered (ev : sw_event)                     (* returned true *)
| Declined                                      (* returned false without a claim *)
| Suppressed (ev : sw_event)                    (* returned false, claim kept *)
| Broken (held : option sw_event).              (* threw; the claim still stored, if any *)

Record world := World {
  stored : val;                        (* the settings record *)
  events : claims;                     (* the dedupe store *)
  runs : gmap nat run_state;           (* calls of deliver *)
  shown : list (nat * sw_event);       (* notifications displayed, in order *)
  time : Z
}.

Definition initial_world (stored : val) (t : Z) : world := World stored ∅ ∅ [] t.

(** One step; [ok] says whether the awaited operation succeeded. *)
Inductive label : Type :=
| Push (id : nat) (value : val)
| ReadSettings (id : nat) (ok : bool)
| Claim (id : nat) (ok : bool)
| Confirm (id : nat) (ok : bool)
| Display (id : nat) (ok : bool)
| Release (id : nat) (ok : bool)
| Change (r : change_request)
| Advance (ms : Z).

Definition set_run (id : nat) (p : run_state) (w : world) : world :=
  World (stored w) (events w) (<[id := p]> (runs w)) (shown w) (time w).

Definition set_events (m : claims) (w : world) : world :=
  World (stored w) m (runs w) (shown w) (time w).

(** ** Steps *)

Definition step_push (id : nat) (value : val) (w : world) : option world :=
  match runs w !! id with
  | Some _ => None
  | None =>
      Some (set_run id (match normalizedEvent (time w) value with
                        | Some ev => Reading ev
                        | None => Declined
                        end) w)
  end.

Definition step_read (id : nat) (ok : bool) (w : world) : option world :=
  match runs w !! id with
  | Some (Reading ev) =>
      let config := read_settings (stored w) in
      Some (set_run id (if negb ok then Broken None
                        else if enabled config then Claiming ev config else Declined) w)
  | _ => None
  end.

Definition step_claim (id : nat) (ok : bool) (w : world) : option world :=
  match runs w !! id with
  | Some (Claiming ev config) =>
      if negb ok then Some (set_run id (Broken None) w)
      else
        let '(m, claimed) := claimEvent (time w) (fun _ => time w) (ev_key ev) (events w) in
        Some (set_run id (if claimed then Confirming ev config else Declined) (set_events m w))
  | _ => None
  end.

Definition step_confirm (id : nat) (ok : bool) (w : world) : option world :=
  match runs w !! id with
  | Some (Confirming ev config) =>
      let current := read_settings (stored w) in
      Some (set_run id (if negb ok then Broken (Some ev)
                        else if negb (enabled current) || negb (generation current =? generation config)
                        then Suppressed ev else Displaying ev) w)
  | _ => None
  end.

Definition step_display (id : nat) (ok : bool) (w : world) : option world :=
  match runs w !! id with
  | Some (Displaying ev) =>
      if ok then
        Some (World (stored w) (events w) (<[id := Delivered ev]> (runs w))
                    (shown w ++ [(id, ev)]) (time w))
      else Some (set_run id (Releasing ev) w)
  | _ => None
  end.

Definition step_release (id : nat) (ok : bool) (w : world) : option world :=
  match runs w !! id with
  | Some (Releasing ev) =>
      if ok then Some (set_run id (Broken None) (set_events (releaseClaim (ev_key ev) (events w)) w))
      else Some (set_run id (Broken (Some ev)) w)
  | _ => None
  end.

Definition step_change (r : change_request) (w : world) : world :=
  World (change_step (stored w) r) (events w) (runs w) (shown w) (time w).

Definition step_advance (ms : Z) (w : world) : option world :=
  if 0 <=? ms then Some (World (stored w) (events w) (runs w) (shown w) (time w + ms)) else None.

Definition exec (l : label) (w : world) : option world :=
  match l with
  | Push id value => step_push id value w
  | ReadSettings id ok => step_read id ok w
  | Claim id ok => step_claim id ok w
  | Confirm id ok => step_confirm id ok w
  | Display id ok => step_display id ok w
  | Release id ok => step_release id ok w
  | Change r => Some (step_change r w)
  | Advance ms => step_advance ms w
  end.

Abbreviation execs := (run_steps exec).

(** ** General facts about steps *)

(** Splits a successful step into the cases of its definition. *)
Ltac step_inv H :=
  simpl in H;
  unfold step_push, step_read, step_claim, step_confirm, step_display, step_release,
         step_change, step_advance in H;
  repeat (case_match; try discriminate H);
  injection H as <-.

Ltac step_cases H :=
  match type of H with exec ?l _ = Some _ => destruct l end; step_inv H.

(** Looks a run up after the step that may have set it. *)
Ltac run_lookup id id0 :=
  destruct (decide (id = id0)) as [->|?];
  [rewrite ?lookup_insert_eq in * | rewrite ?(lookup_insert_ne _ id0 id) in * by done].

Lemma exec_runs_grow l w w' : exec l w = Some w' -> dom (runs w) ⊆ dom (runs w').
Proof. intros H. step_cases H; simpl; set_solver. Qed.

Lemma exec_time l w w' : exec l w = Some w' -> time w <= time w'.
Proof. intros H. step_cases H; simpl; lia. Qed.

Lemma execs_bounds ls w w' :
  execs ls w = Some w' -> (size (runs w) <= size (runs w'))%nat ∧ time w <= time w'.
Proof.
  intros H. pattern w'. eapply run_steps_ind; [|exact H|]; [|lia].
  intros l w1 w2 E [H1 H2]. split.
  - apply exec_runs_grow, subseteq_size in E. rewrite !size_dom in E. lia.
  - apply exec_time in E. lia.
Qed.

(** The settings messages of a sequence, in order. *)
Definition changes (ls : list label) : list change_request :=
  omap (λ l, match l with Change r => Some r | _ => None end) ls.

Lemma execs_stored ls w w' : execs ls w = Some w' -> stored w' = run_changes (changes ls) (stored w).
Proof.
  revert w; induction ls as [|l ls IH]; intros w H; simpl in H; [by simplify_eq|].
  destruct (exec l w) as [w1|] eqn:E; [|done]. simpl in H. rewrite (IH _ H).
  clear -E. step_cases E; done.
Qed.

(** ** Disabling fences deliveries *)

(** A run past its first read carries the configuration [c] it read, as long as
    it matters. *)
Definition settled (c : settings) (p : run_state) : Prop :=
  match p with
  | Reading _ => False
  | Claiming _ c' | Confirming _ c' => c' = c
  | _ => True
  end.

Definition run_settled (id : nat) (c : settings) (w : world) : Prop :=
  ∃ p, runs w !! id = Some p ∧ settled c p.

Lemma exec_settled id c l w w' : exec l w = Some w' -> run_settled id c w -> run_settled id c w'.
Proof.
  intros H (p & Hp & Hc). unfold run_settled.
  step_cases H; simpl; try (by exists p); run_lookup id id0; try (by exists p);
    simplify_eq; eexists; (split; [reflexivity|]); repeat case_match; done.
Qed.

Lemma read_settles id w w1 :
  exec (ReadSettings id true) w = Some w1 ->
  stored w1 = stored w ∧ run_settled id (read_settings (stored w)) w1.
Proof.
  intros H. step_inv H; (split; [done|]); eexists; (split; [apply lookup_insert_eq|]); done.
Qed.

Lemma confirm_displays id w w' ev :
  exec (Confirm id true) w = Some w' -> runs w' !! id = Some (Displaying ev) ->
  ∃ c, runs w !! id = Some (Confirming ev c) ∧ enabled_in (stored w) = true ∧
       gen_of (stored w) = generation c.
Proof.
  intros H Hev. step_inv H; simpl in Hev; rewrite lookup_insert_eq in Hev; simplify_eq.
  exists config. bool_hyps. done.
Qed.

(** C16: A run that gets to display its event saw no applied disable between its two
    reads of the settings, whatever else was interleaved. *)
Theorem display_not_fenced (id : nat) (w0 w1 w2 w3 : world) (ls : list label) (ev : sw_event) :
  exec (ReadSettings id true) w0 = Some w1 ->
  execs ls w1 = Some w2 ->
  exec (Confirm id true) w2 = Some w3 ->
  runs w3 !! id = Some (Displaying ev) ->
  applied_disables (changes ls) (stored w1) = 0 ∧ enabled_in (stored w2) = true.
Proof.
  intros H0 Hls H2 Hev.
  destruct (confirm_displays _ _ _ _ H2 Hev) as (c & Hrun & Hen & Hgen).
  destruct (read_settles _ _ _ H0) as [Est Hset].
  assert (Hk : run_settled id (read_settings (stored w0)) w2).
  { pattern w2. eapply run_steps_ind; [|exact Hls|exact Hset]. intros ???. apply exec_settled. }
  destruct Hk as (p & Hp & Hk). rewrite Hrun in Hp. simplify_eq. simpl in Hk. subst c.
  split; [|done]. pose proof (generation_counts_disables (changes ls) (stored w1)) as G.
  rewrite <- (execs_stored _ _ _ Hls) in G. rewrite Hgen, Est in G. unfold gen_of in G.
  rewrite Est. lia.
Qed.

(** A worker at work: delivery enabled at generation 3, the sample payload. *)
Definition sample_stored : val := stored_settings (Settings true 3).
Definition sample_world : world := initial_world sample_stored 60000.
Definition sample_event : sw_event := SwEvent sample_key "Low battery" "12%" 59000.
Definition after (ls : list label) (w : world) : world := default w (execs ls w).

Lemma display_not_fenced_witness :
  let w0 := after [Push 1 sample_payload] sample_world in
  let w1 := after [ReadSettings 1 true] w0 in
  let ls := [Claim 1 true; Advance 40; Change (ChangeRequest false (VBool true) (VInt 2))] in
  applied_disables (changes ls) (stored w1) = 0 ∧ enabled_in (stored (after ls w1)) = true.
Proof.
  intros w0 w1 ls.
  apply (display_not_fenced 1 w0 w1 (after ls w1) (after [Confirm 1 true] (after ls w1)) ls sample_event);
    vm_compute; reflexivity.
Defined.

(** ** Disabled means quiet *)

Definition disabled (w : world) : Prop := enabled_in (stored w) = false.

(** Runs that were confirmed before. *)
Definition confirmed (p : run_state) : option sw_event :=
  match p with Displaying ev | Releasing ev | Delivered ev => Some ev | _ => None end.

Definition confirmed_in (w : world) (id : nat) (ev : sw_event) : Prop :=
  ∃ p, runs w !! id = Some p ∧ confirmed p = Some ev.

Definition only_disables (l : label) : Prop :=
  match l with Change r => disables r = true | _ => True end.

Lemma exec_stays_disabled l w w' :
  exec l w = Some w' -> only_disables l -> disabled w -> disabled w'.
Proof.
  unfold disabled. intros H Hl Hd. step_cases H; try done. simpl in *.
  pose proof (change_cases r (stored w)) as C. unfold change_step.
  destruct (changeSettings r (stored w)) as [st [s ok]]. simpl. rewrite Hl in C.
  destruct ok; [by destruct C as [? _]|by subst].
Qed.

Lemma exec_no_new_confirm l w w' id ev :
  exec l w = Some w' -> disabled w -> confirmed_in w' id ev -> confirmed_in w id ev.
Proof.
  unfold disabled, enabled_in. intros H Hd (p & Hp & Hc). unfold confirmed_in.
  step_cases H; simpl in Hp; try (by exists p); run_lookup id id0; try (by exists p);
    simplify_eq; simpl in Hc; repeat case_match; simplify_eq; simpl in *; simplify_eq;
    try (eexists; split; [done|done]).
  all: rewrite Hd in *; done.
Qed.

(** While delivery is disabled and nobody enables it, no run is confirmed: what
    is displayed afterwards had been confirmed before. *)
Theorem disabled_is_quiet (ls : list label) (w w' : world) :
  execs ls w = Some w' -> disabled w -> Forall only_disables ls ->
  ∀ id ev, confirmed_in w' id ev -> confirmed_in w id ev.
Proof.
  intros H Hd Hall id ev. revert w H Hd. induction Hall as [|l ls Hl _ IH]; intros w H Hd; simpl in H.
  - by simplify_eq.
  - destruct (exec l w) as [w1|] eqn:E; [|done]. simpl in H. intros Hc.
    eapply exec_no_new_confirm; [exact E|done|]. eapply IH; [exact H| |done].
    by eapply exec_stays_disabled.
Qed.

Lemma disabled_is_quiet_witness :
  let before := [Push 1 sample_payload; ReadSettings 1 true; Claim 1 true; Confirm 1 true] in
  let w := after (before ++ [Change (ChangeRequest false (VBool false) VUndef)]) sample_world in
  confirmed_in w 1 sample_event.
Proof.
  intros before w.
  apply (disabled_is_quiet [Push 2 sample_payload; Display 1 true]
           w (after [Push 2 sample_payload; Display 1 true] w)).
  - vm_compute. reflexivity.
  - vm_compute. reflexivity.
  - repeat constructor.
  - exists (Delivered sample_event). split; vm_compute; reflexivity.
Defined.

(** ** At most one notification per event key *)

(** The key whose claim a run holds. *)
Definition owned (p : run_state) : option string :=
  match p with
  | Confirming ev _ | Displaying ev | Releasing ev | Delivered ev | Suppressed ev
  | Broken (Some ev) => Some (ev_key ev)
  | _ => None
  end.

Definition owns (w : world) (id : nat) (k : string) : Prop :=
  ∃ p, runs w !! id = Some p ∧ owned p = Some k.

(** The ownership invariant: claims and owners correspond one to one, claims
    are live until [t0 + RETENTION_MS], and what was shown belongs to
    different runs that own its key. *)
Record ownership (t0 : Z) (w : world) : Prop := {
  own_stored : ∀ id k, owns w id k -> is_Some (events w !! k);
  own_unique : ∀ id id' k, owns w id k -> owns w id' k -> id = id';
  own_claimed : ∀ k e, events w !! k = Some e -> ∃ id, owns w id k;
  own_live : ∀ k e, events w !! k = Some e -> t0 + RETENTION_MS <= e;
  own_time : t0 <= time w;
  own_shown_runs : NoDup (shown w).*1;
  own_shown : ∀ id ev, (id, ev) ∈ shown w -> runs w !! id = Some (Delivered ev)
}.

Lemma ownership_initial (st : val) (t0 : Z) : ownership t0 (initial_world st t0).
Proof.
  constructor; simpl; try done.
  - intros id k (p & Hp & _). simpl in Hp. by rewrite lookup_empty in Hp.
  - intros id id' k (p & Hp & _). simpl in Hp. by rewrite lookup_empty in Hp.
  - constructor.
  - intros id ev Hin. by apply elem_of_nil in Hin.
Qed.

Lemma length_omap_le {A B} (f : A -> option B) (l : list A) : (length (omap f l) <= length l)%nat.
Proof. induction l as [|x l IH]; csimpl; [done|]. destruct (f x); csimpl; lia. Qed.

(** Fewer claims than runs when some run owns nothing. *)
Lemma claims_below_runs (t0 : Z) (w : world) id p :
  ownership t0 w -> runs w !! id = Some p -> owned p = None ->
  (size (events w) < size (runs w))%nat.
Proof.
  intros O Hp Hn.
  set (ks := omap (owned ∘ snd) (map_to_list (delete id (runs w)))).
  assert (Hsub : (map_to_list (events w)).*1 ⊆+ ks).
  { apply NoDup_submseteq; [apply NoDup_fst_map_to_list|]. intros k Hk.
    apply list_elem_of_fmap in Hk as ([k' e] & -> & He). apply elem_of_map_to_list in He.
    destruct (own_claimed _ _ O _ _ He) as (id' & q & Hq & Ho).
    apply list_elem_of_omap. exists (id', q). split; [|done].
    apply elem_of_map_to_list. rewrite lookup_delete_ne; [done|]. intros ->.
    rewrite Hp in Hq. simplify_eq. }
  apply submseteq_length in Hsub. rewrite length_fmap, length_map_to_list in Hsub.
  assert (Hks : (length ks <= size (delete id (runs w)))%nat).
  { unfold ks. rewrite <- length_map_to_list. apply length_omap_le. }
  assert (size (runs w) = S (size (delete id (runs w)))); [|lia].
  rewrite <- (insert_delete_id (runs w) id p Hp) at 1. apply map_size_insert_None, lookup_delete_eq.
Qed.

(** A step of run [id] that leaves what it owns unchanged, and every step that
    touches no run, keeps the correspondence. *)
Lemma owns_insert (w : world) id p m sh t i k :
  owns (World (stored w) m (<[id := p]> (runs w)) sh t) i k ↔
  (i = id ∧ owned p = Some k) ∨ (i ≠ id ∧ owns w i k).
Proof.
  unfold owns; simpl. split.
  - intros (q & Hq & Ho). destruct (decide (i = id)) as [->|Hne].
    + rewrite lookup_insert_eq in Hq. simplify_eq. by left.
    + rewrite lookup_insert_ne in Hq by done. right. split; [done|]. by exists q.
  - intros [[-> Ho]|(Hne & q & Hq & Ho)].
    + exists p. by rewrite lookup_insert_eq.
    + exists q. by rewrite lookup_insert_ne by done.
Qed.

Lemma ownership_same (t0 : Z) (w : world) id p q :
  ownership t0 w -> runs w !! id = Some q -> owned p = owned q ->
  (∀ ev, q ≠ Delivered ev) ->
  ownership t0 (set_run id p w).
Proof.
  intros O Hq Ho Hnd.
  assert (Hown : ∀ i k, owns (set_run id p w) i k ↔ owns w i k).
  { intros i k. unfold set_run. rewrite owns_insert. rewrite Ho. split.
    - intros [[-> H]|[_ H]]; [by exists q|done].
    - intros (q' & Hq' & H). destruct (decide (i = id)) as [->|]; [left|right]; [|split; [done|by exists q']].
      split; [done|congruence]. }
  destruct O as [O1 O2 O3 O4 O5 O6 O7]. constructor; simpl; try done.
  - intros i k H. eapply O1. by apply Hown.
  - intros i i' k H1 H2. eapply O2; by apply Hown.
  - intros k e He. destruct (O3 k e He) as [i Hi]. exists i. by apply Hown.
  - intros i ev Hin. specialize (O7 i ev Hin). rewrite lookup_insert_ne; [done|].
    intros ->. rewrite Hq in O7. simplify_eq. by eapply Hnd.
Qed.

(** A new run owns nothing. *)
Lemma ownership_push (t0 : Z) (w : world) id p :
  ownership t0 w -> runs w !! id = None -> owned p = None -> ownership t0 (set_run id p w).
Proof.
  intros [O1 O2 O3 O4 O5 O6 O7] Hid Hp. unfold set_run.
  constructor; simpl; try done.
  - intros i k H. apply owns_insert in H as [[_ H]|[_ H]]; [congruence|by eapply O1].
  - intros i i' k H1 H2. apply owns_insert in H1 as [[_ H1]|[_ H1]]; [congruence|].
    apply owns_insert in H2 as [[_ H2]|[_ H2]]; [congruence|by eapply O2].
  - intros k e He. destruct (O3 k e He) as [i Hi]. exists i. apply owns_insert. right.
    split; [|done]. intros ->. destruct Hi as (q & Hq & _). congruence.
  - intros i ev Hin. rewrite lookup_insert_ne; [by apply O7|]. intros ->. apply O7 in Hin. congruence.
Qed.

(** Granting a claim that nobody holds. *)
Lemma ownership_claim (t0 : Z) (w : world) id ev c :
  ownership t0 w -> runs w !! id = Some (Claiming ev c) -> events w !! ev_key ev = None ->
  ownership t0 (set_run id (Confirming ev c)
                 (set_events (<[ev_key ev := time w + RETENTION_MS]> (events w)) w)).
Proof.
  intros [O1 O2 O3 O4 O5 O6 O7] Hid Hk. unfold set_run, set_events. simpl.
  assert (Hfree : ∀ i, ¬ owns w i (ev_key ev)).
  { intros i H. destruct (O1 _ _ H) as [e He]. congruence. }
  constructor; simpl; try done.
  - intros i k H. apply owns_insert in H as [[_ H]|[_ H]]; simpl in H.
    + simplify_eq. rewrite lookup_insert_eq. eauto.
    + destruct (O1 _ _ H) as [e He]. rewrite lookup_insert_ne; [eauto|]. intros Heq. congruence.
  - intros i i' k H1 H2. apply owns_insert in H1 as [[-> H1]|[_ H1]];
      apply owns_insert in H2 as [[-> H2]|[_ H2]]; simpl in *; simplify_eq; try done;
      try (exfalso; by eapply Hfree). by eapply O2.
  - intros k e He. destruct (decide (k = ev_key ev)) as [->|Hne].
    + exists id. apply owns_insert. by left.
    + rewrite lookup_insert_ne in He by done. destruct (O3 k e He) as [i Hi]. exists i.
      apply owns_insert. right. split; [|done]. intros ->. destruct Hi as (q & Hq & Ho). by simplify_eq.
  - intros k e He. destruct (decide (k = ev_key ev)) as [->|Hne].
    + rewrite lookup_insert_eq in He. simplify_eq. lia.
    + rewrite lookup_insert_ne in He by done. by eapply O4.
  - intros i ev' Hin. specialize (O7 i ev' Hin). rewrite lookup_insert_ne; [done|]. intros ->. congruence.
Qed.

(** Giving a claim back. *)
Lemma ownership_release (t0 : Z) (w : world) id ev :
  ownership t0 w -> runs w !! id = Some (Releasing ev) ->
  ownership t0 (set_run id (Broken None) (set_events (releaseClaim (ev_key ev) (events w)) w)).
Proof.
  intros [O1 O2 O3 O4 O5 O6 O7] Hid. unfold set_run, set_events, releaseClaim. simpl.
  assert (Hmine : owns w id (ev_key ev)) by (by exists (Releasing ev)).
  constructor; simpl; try done.
  - intros i k H. apply owns_insert in H as [[_ H]|[Hne H]]; [done|].
    rewrite lookup_delete_ne; [by eapply O1|]. intros <-. by apply Hne, (O2 i id (ev_key ev)).
  - intros i i' k H1 H2. apply owns_insert in H1 as [[_ H1]|[_ H1]]; [done|].
    apply owns_insert in H2 as [[_ H2]|[_ H2]]; [done|]. by eapply O2.
  - intros k e He. apply lookup_delete_Some in He as [Hne He]. destruct (O3 k e He) as [i Hi].
    exists i. apply owns_insert. right. split; [|done]. intros ->.
    destruct Hi as (q & Hq & Ho). simplify_eq. simpl in Ho. congruence.
  - intros k e He. apply lookup_delete_Some in He as [_ He]. by eapply O4.
  - intros i ev' Hin. specialize (O7 i ev' Hin). rewrite lookup_insert_ne; [done|]. intros ->. congruence.
Qed.

(** Displaying an event records it for its run. *)
Lemma ownership_display (t0 : Z) (w : world) id ev :
  ownership t0 w -> runs w !! id = Some (Displaying ev) ->
  ownership t0 (World (stored w) (events w) (<[id := Delivered ev]> (runs w))
                      (shown w ++ [(id, ev)]) (time w)).
Proof.
  intros O Hid.
  assert (Hnew : id ∉ (shown w).*1).
  { intros Hin. apply list_elem_of_fmap in Hin as ([i e] & -> & Hin).
    apply (own_shown _ _ O) in Hin. simpl in Hid. congruence. }
  destruct (ownership_same t0 w id (Delivered ev) (Displaying ev) O Hid eq_refl ltac:(done))
    as [O1 O2 O3 O4 O5 O6 O7].
  constructor; simpl in *; try done.
  - rewrite fmap_app. simpl. apply NoDup_app. split; [done|]. split.
    + intros i Hi. rewrite list_elem_of_singleton. by intros ->.
    + apply NoDup_singleton.
  - intros i e Hin. apply elem_of_app in Hin as [Hin|Hin]; [by apply O7|].
    apply list_elem_of_singleton in Hin. simplify_eq. apply lookup_insert_eq.
Qed.

Lemma ownership_stored (t0 : Z) (w : world) st t :
  ownership t0 w -> t0 <= t -> ownership t0 (World st (events w) (runs w) (shown w) t).
Proof. intros [O1 O2 O3 O4 O5 O6 O7] Ht. by constructor. Qed.

(** Every step keeps the correspondence, while the store has room and no claim
    can have expired. *)
Lemma exec_ownership (t0 : Z) l w w' :
  exec l w = Some w' -> (size (runs w) <= MAX_EVENTS)%nat -> time w < t0 + RETENTION_MS ->
  ownership t0 w -> ownership t0 w'.
Proof.
  intros H Hsize Htime O. step_cases H; try (eapply ownership_push; done);
    try (eapply ownership_same; [done|done|done|intros ?; done]).
  - (* a claim is granted *)
    match goal with G : claimEvent _ _ _ _ = _ |- _ => rename G into Ec end.
    pose proof (claims_below_runs t0 w id _ O ltac:(done) eq_refl) as Hlt.
    destruct (events w !! ev_key ev) as [e|] eqn:Ek; [unfold claimEvent in Ec; by rewrite Ek in Ec|].
    rewrite claim_fresh in Ec; [|done|lia| |unfold RETENTION_MS; lia].
    + injection Ec as <-. by apply ownership_claim.
    + intros k e' He. pose proof (own_live _ _ O _ _ He). lia.
  - (* a claim is refused *)
    match goal with G : claimEvent _ _ _ _ = _ |- _ => rename G into Ec end.
    pose proof (claims_below_runs t0 w id _ O ltac:(done) eq_refl) as Hlt.
    unfold claimEvent in Ec.
    destruct (events w !! ev_key ev) as [e|] eqn:Ek; [|done]. injection Ec as <-.
    rewrite pruneEvents_id; [|lia|].
    + eapply (ownership_same t0 w); done.
    + intros k e' He. pose proof (own_live _ _ O _ _ He). lia.
  - by apply ownership_display.
  - by apply ownership_release.
  - apply ownership_stored; [done|]. apply (own_time _ _ O).
  - apply ownership_stored; [done|]. pose proof (own_time _ _ O). lia.
Qed.

(** C2: No event key is displayed twice: from an empty store, as long as at most
    [MAX_EVENTS] push events arrived and less than the retention time passed,
    whatever the interleaving, the failures and the settings changes. *)
Theorem shown_at_most_once (st : val) (t0 : Z) (ls : list label) (w : world) :
  execs ls (initial_world st t0) = Some w ->
  (size (runs w) <= MAX_EVENTS)%nat ->
  time w < t0 + RETENTION_MS ->
  NoDup (ev_key ∘ snd <$> shown w).
Proof.
  intros H Hsize Htime.
  assert (O : ownership t0 w).
  { generalize (ownership_initial st t0). revert H. generalize (initial_world st t0) as w0.
    induction ls as [|l ls IH]; intros w0 H O; simpl in H; [by simplify_eq|].
    destruct (exec l w0) as [w1|] eqn:E; [|done]. simpl in H. apply (IH w1 H).
    assert (Hb := execs_bounds (l :: ls) w0 w). simpl in Hb. rewrite E in Hb.
    destruct (Hb H) as [Hb1 Hb2]. eapply exec_ownership; [exact E|lia|lia|done]. }
  destruct O as [_ O2 _ _ _ O6 O7]. apply NoDup_alt. intros i j k Hi Hj.
  rewrite list_lookup_fmap in Hi, Hj.
  destruct (shown w !! i) as [[a ea]|] eqn:Ea; [|done].
  destruct (shown w !! j) as [[b eb]|] eqn:Eb; [|done]. simpl in Hi, Hj. simplify_eq.
  assert (Ha : owns w a (ev_key ea)).
  { exists (Delivered ea). split; [|done]. apply O7. by eapply list_elem_of_lookup_2. }
  assert (Hbk : owns w b (ev_key ea)).
  { exists (Delivered eb). split; [|simpl; congruence]. apply O7. by eapply list_elem_of_lookup_2. }
  assert (a = b) as -> by (by eapply O2).
  eapply NoDup_lookup; [exact O6| |]; rewrite list_lookup_fmap; [by rewrite Ea|by rewrite Eb].
Qed.

Lemma shown_at_most_once_witness :
  let run id := [Push id sample_payload; ReadSettings id true; Claim id true] in
  let w := after (run 1%nat ++ run 2%nat ++ [Confirm 1 true; Display 1 true]) sample_world in
  NoDup (ev_key ∘ snd <$> shown w).
Proof.
  intros run w.
  apply (shown_at_most_once sample_stored 60000 (run 1%nat ++ run 2%nat ++ [Confirm 1 true; Display 1 true]) w).
  - vm_compute. reflexivity.
  - apply Nat.leb_le. vm_compute. reflexivity.
  - vm_compute. reflexivity.
Defined.

(** ** Progress *)

(** Steps a run still needs, at most. *)
Definition remaining (p : run_state) : nat :=
  match p with
  | Reading _ => 5
  | Claiming _ _ => 4
  | Confirming _ _ => 3
  | Displaying _ => 2
  | Releasing _ => 1
  | _ => 0
  end.

Definition step_of (p : run_state) (id : nat) (ok : bool) : option label :=
  match p with
  | Reading _ => Some (ReadSettings id ok)
  | Claiming _ _ => Some (Claim id ok)
  | Confirming _ _ => Some (Confirm id ok)
  | Displaying _ => Some (Display id ok)
  | Releasing _ => Some (Release id ok)
  | _ => None
  end.

(** A run that has not ended can always take its next step, whether the awaited
    operation succeeds or fails, and the step brings it closer to its end. *)
Theorem delivery_progress (w : world) (id : nat) (p : run_state) (ok : bool) :
  runs w !! id = Some p -> (0 < remaining p)%nat ->
  ∃ l w' p', step_of p id ok = Some l ∧ exec l w = Some w' ∧
             runs w' !! id = Some p' ∧ (remaining p' < remaining p)%nat.
Proof.
  intros Hp Hr. destruct p as [ev|ev c|ev c|ev|ev| | | |]; simpl in Hr; try lia;
    [destruct (enabled (read_settings (stored w))) eqn:E
    |destruct (claimEvent (time w) (λ _, time w) (ev_key ev) (events w)) as [m []] eqn:E
    |destruct (negb (enabled (read_settings (stored w))) ||
               negb (generation (read_settings (stored w)) =? generation c)) eqn:E| |];
    destruct ok; do 3 eexists; (split; [reflexivity|]); simpl;
    unfold step_read, step_claim, step_confirm, step_display, step_release; rewrite Hp;
    cbn [negb]; rewrite ?E; (split; [reflexivity|]); simpl; rewrite lookup_insert_eq;
    (split; [reflexivity|]); simpl; lia.
Qed.

Lemma delivery_progress_witness :
  let w := after [Push 1 sample_payload; ReadSettings 1 true] sample_world in
  ∃ l w' p', step_of (Claiming sample_event (Settings true 3)) 1 false = Some l ∧ exec l w = Some w' ∧
             runs w' !! 1%nat = Some p' ∧
             (remaining p' < remaining (Claiming sample_event (Settings true 3)))%nat.
Proof.
  intros w. apply (delivery_progress w 1 (Claiming sample_event (Settings true 3)) false).
  - vm_compute. reflexivity.
  - simpl. lia.
Defined.

#[local] Arguments enabled : simpl never.
#[local] Arguments generation : simpl never.

(** With delivery enabled, no failures and nothing interleaved, a valid event
    with a fresh key is displayed. *)
Theorem deliver_alone (w : world) (id : nat) (value : val) (ev : sw_event) :
  normalizedEvent (time w) value = Some ev ->
  enabled_in (stored w) = true -> runs w !! id = None -> events w !! ev_key ev = None ->
  ∃ w', execs [Push id value; ReadSettings id true; Claim id true; Confirm id true; Display id true] w = Some w'
    ∧ shown w' = shown w ++ [(id, ev)] ∧ runs w' !! id = Some (Delivered ev) ∧ stored w' = stored w.
Proof.
  intros Hev Hen Hid Hkey. unfold enabled_in in Hen.
  cbn [run_steps exec]. unfold step_push. rewrite Hid, Hev. simpl.
  unfold step_read. simpl. rewrite lookup_insert_eq. simpl.
  set (c := read_settings (stored w)) in *. rewrite Hen. simpl.
  unfold step_claim. simpl. rewrite lookup_insert_eq. simpl. unfold claimEvent. rewrite Hkey. simpl.
  unfold step_confirm. simpl. rewrite lookup_insert_eq. simpl. fold c. rewrite Hen, Z.eqb_refl. simpl.
  unfold step_display. simpl. rewrite lookup_insert_eq. simpl.
  eexists. split; [reflexivity|]. simpl. rewrite lookup_insert_eq. done.
Qed.

Lemma deliver_alone_witness :
  ∃ w', execs [Push 1 sample_payload; ReadSettings 1 true; Claim 1 true; Confirm 1 true; Display 1 true]
              sample_world = Some w'
    ∧ shown w' = shown sample_world ++ [(1%nat, sample_event)]
    ∧ runs w' !! 1%nat = Some (Delivered sample_event) ∧ stored w' = stored sample_world.
Proof. apply (deliver_alone sample_world 1 sample_payload sample_event); vm_compute; reflexivity. Defined.
