(* ===== verification/SwWorker.v ===== *)
(** * Event listeners of the service worker

    The [message], [push] and [notificationclick] listeners of
    [internal/html/vue-ui/notifications-sw.js].  Parsing of URLs belongs to the
    web platform: it is a variable of the section. *)

From Stdlib Require Import ZArith Ascii String.
From stdpp Require Import base list option strings gmap.
From S2P Require Import Prelude JsValue SwEvents SwSettings SwDedupe SwDelivery.

#[local] Open Scope string_scope.
#[local] Open Scope list_scope.
#[local] Open Scope Z_scope.

(** What [new URL(text)] gives the listeners. *)
Record url := Url { url_origin : string; url_pathname : string }.

(** A window client, by its id and URL. *)
Record client := Client { client_id : nat; client_url : string }.

(** A [message] event: [source_url] is [event.source?.url], absent or not, and
    [has_port] says whether [event.ports] is non-empty. *)
Record message := Message {
  msg_origin : string;
  source_url : option string;
  msg_data : val;
  has_port : bool
}.

(** What a listener does to the outside. *)
Inductive effect : Type :=
| NotifyWindow (c : client)                    (* { type: 'notification-settings-changed' } *)
| ReplyOk (result : settings * bool)
| ReplyError.

Inductive click_action : Type :=
| Focus (c : client)
| OpenWindow (path : string)
| ClickFailed.                                 (* a client URL did not parse *)

Section worker.
Variable self_origin : string.
Variable parse_url : string -> option url.   (* None: the constructor throws *)

(** The two checks that open the [message] listener.  A source URL that does
    not parse makes the listener throw, which also ends it. *)
Definition accepts (m : message) : bool :=
  String.eqb (msg_origin m) self_origin &&
  match source_url m with
  | None | Some "" => false
  | Some text =>
      match parse_url text with
      | Some u => String.eqb (url_origin u) self_origin
      | None => false
      end
  end.

(** [request?.key]. *)
Definition request_prop (request : val) (key : string) : val := default VUndef (getp request key).

Definition reply (m : message) (e : effect) : list effect := if has_port m then [e] else [].

(** A set or begin request whose type was recognised.  [storage] says whether
    the IndexedDB transaction completes, [windows] is what [matchAll]
    resolves to, [None] when it rejects. *)
Definition handle_change (storage : bool) (windows : option (list client)) (m : message)
    (begin : bool) (stored : val) : val * list effect :=
  let enabled := request_prop (msg_data m) "enabled" in
  if negb begin && negb (match enabled with VBool _ => true | _ => false end) then (stored, [])
  else if negb storage then (stored, reply m ReplyError)
  else
    let request := ChangeRequest begin enabled (request_prop (msg_data m) "generation") in
    let '(stored', result) := changeSettings request stored in
    if snd result then
      match windows with
      | Some ws => (stored', (NotifyWindow <$> ws) ++ reply m (ReplyOk result))
      | None => (stored', reply m ReplyError)
      end
    else (stored', reply m (ReplyOk result)).

(** The [message] listener on the stored settings. *)
Definition handle_message (storage : bool) (windows : option (list client)) (m : message)
    (stored : val) : val * list effect :=
  if negb (accepts m) then (stored, [])
  else
    let type := request_prop (msg_data m) "type" in
    if is_str type "notification-settings-get" then
      if storage then (stored, reply m (ReplyOk (snd (settings_tx None stored))))
      else (stored, reply m ReplyError)
    else if is_str type "notification-settings-set" then
      handle_change storage windows m false stored
    else if is_str type "notification-settings-begin" then
      handle_change storage windows m true stored
    else (stored, []).

(** The value the [push] listener hands to [deliver]: [data] is absent, or
    parses as JSON or not.  [None]: [json()] throws and the catch ends the
    event. *)
Definition push_value (data : option (option val)) : option val :=
  match data with
  | None => Some VUndef
  | Some parsed => parsed
  end.

(** The [push] listener starts a run of [deliver]; nothing it does throws. *)
Definition handle_push (id : nat) (data : option (option val)) (w : world) : option world :=
  match push_value data with
  | Some value => step_push id value w
  | None => match runs w !! id with
            | Some _ => None
            | None => Some (set_run id (Broken None) w)
            end
  end.

(** [windows.find(...)]: [None] when a URL fails to parse before a match. *)
Fixpoint find_dashboard (windows : list client) : option (option client) :=
  match windows with
  | [] => Some None
  | c :: rest =>
      match parse_url (client_url c) with
      | None => None
      | Some u =>
          if String.eqb (url_origin u) self_origin && String.eqb (url_pathname u) "/"
          then Some (Some c) else find_dashboard rest
      end
  end.

Definition handle_click (windows : list client) : click_action :=
  match find_dashboard windows with
  | Some (Some c) => Focus c
  | Some None => OpenWindow "/"
  | None => ClickFailed
  end.

(** ** Properties *)

(** The client shows this origin's dashboard. *)
Definition shows_dashboard (c : client) : Prop :=
  ∃ u, parse_url (client_url c) = Some u ∧ url_origin u = self_origin ∧ url_pathname u = "/".

Definition shows_other (c : client) : Prop :=
  ∃ u, parse_url (client_url c) = Some u ∧ ¬ (url_origin u = self_origin ∧ url_pathname u = "/").

(** Every message whose listener changes the settings or answers comes from a
    same-origin window of the dashboard. *)
Theorem foreign_message_ignored storage windows m stored :
  handle_message storage windows m stored ≠ (stored, []) ->
  msg_origin m = self_origin ∧
  ∃ text u, source_url m = Some text ∧ parse_url text = Some u ∧ url_origin u = self_origin.
Proof.
  unfold handle_message. destruct (accepts m) eqn:E; [|done]. intros _.
  unfold accepts in E. apply andb_true_iff in E as [E1 E2]. apply String.eqb_eq in E1.
  split; [done|]. destruct (source_url m) as [text|]; [|done].
  destruct (parse_url text) as [u|] eqn:Eu.
  - exists text, u. split; [done|]. split; [done|]. apply String.eqb_eq. by destruct text.
  - by destruct text.
Qed.

(** What a message may do to the settings: nothing, or a disable that advances
    the generation, or an enable that presented the current one. *)
Definition permitted (m : message) (stored stored' : val) : Prop :=
  stored' = stored ∨
  (enabled_in stored' = false ∧ gen_of stored' = gen_of stored + 1) ∨
  (enabled_in stored' = true ∧ gen_of stored' = gen_of stored ∧
   safe_integer (request_prop (msg_data m) "generation") = Some (gen_of stored)).

(** A successful answer carries the settings that are now stored, and comes
    after every window was told of an applied change. *)
Definition truthful (windows : option (list client)) (stored stored' : val) (effects : list effect)
  : Prop :=
  ∀ result, ReplyOk result ∈ effects ->
    fst result = read_settings stored' ∧
    (stored' ≠ stored -> ∃ ws, windows = Some ws ∧ effects = (NotifyWindow <$> ws) ++ [ReplyOk result]).

Lemma reply_no_ok m stored stored' windows : truthful windows stored stored' (reply m ReplyError).
Proof.
  intros result Hin. unfold reply in Hin.
  destruct (has_port m); [by apply list_elem_of_singleton in Hin|by apply elem_of_nil in Hin].
Qed.

Lemma reply_same m stored windows result :
  fst result = read_settings stored -> truthful windows stored stored (reply m (ReplyOk result)).
Proof.
  intros H r. unfold reply. intros Hin. destruct (has_port m); [|by apply elem_of_nil in Hin].
  apply list_elem_of_singleton in Hin. by simplify_eq.
Qed.

Lemma handle_change_spec storage windows m begin stored :
  let '(stored', effects) := handle_change storage windows m begin stored in
  permitted m stored stored' ∧ truthful windows stored stored' effects.
Proof.
  unfold handle_change. destruct (negb begin && _) eqn:Hbool.
  { split; [by left|]. intros r Hin. by apply elem_of_nil in Hin. }
  destruct storage; simpl; [|split; [by left|apply reply_no_ok]].
  set (request := ChangeRequest _ _ _).
  pose proof (change_cases request stored) as C. pose proof (change_result request stored) as R.
  pose proof (change_enable_current request stored) as N. unfold applied in N.
  destruct (changeSettings request stored) as [stored' [s ok]]. simpl in *.
  assert (Hp : permitted m stored stored').
  { destruct ok; [|by left]. right. unfold disables in *. simpl in *.
    destruct begin; simpl in *; [by left|].
    destruct (request_prop (msg_data m) "enabled") as [| |[]| | | |]; simpl in *; try done;
      [right|by left].
    destruct C. split; [done|]. split; [done|]. by apply N. }
  destruct ok.
  - destruct windows as [ws|]; [|split; [done|apply reply_no_ok]]. split; [done|].
    intros r Hin. apply elem_of_app in Hin as [Hin|Hin].
    + apply list_elem_of_fmap in Hin as (c & ? & _). done.
    + unfold reply in *. destruct (has_port m); [|by apply elem_of_nil in Hin].
      apply list_elem_of_singleton in Hin. simplify_eq. split; [done|]. intros _. by exists ws.
  - subst stored'. split; [done|]. by apply reply_same.
Qed.

(** The settings change only in the permitted ways, and a successful answer
    is truthful. *)
Theorem message_effects storage windows m stored stored' effects :
  handle_message storage windows m stored = (stored', effects) ->
  permitted m stored stored' ∧ truthful windows stored stored' effects.
Proof.
  unfold handle_message. intros H.
  assert (Hnil : ∀ v, truthful windows stored v []) by (intros v r Hin; by apply elem_of_nil in Hin).
  destruct (accepts m); simpl in H; [|simplify_eq; split; [by left|done]].
  destruct (is_str _ "notification-settings-get").
  { destruct storage; simplify_eq; (split; [by left|]); [by apply reply_same|apply reply_no_ok]. }
  destruct (is_str _ "notification-settings-set").
  { pose proof (handle_change_spec storage windows m false stored) as S. by rewrite H in S. }
  destruct (is_str _ "notification-settings-begin").
  { pose proof (handle_change_spec storage windows m true stored) as S. by rewrite H in S. }
  simplify_eq. split; [by left|done].
Qed.

Lemma find_dashboard_spec (windows : list client) :
  match find_dashboard windows with
  | Some (Some c) => ∃ before after, windows = before ++ c :: after ∧
                       Forall shows_other before ∧ shows_dashboard c
  | Some None => Forall shows_other windows
  | None => ∃ before c after, windows = before ++ c :: after ∧
              Forall shows_other before ∧ parse_url (client_url c) = None
  end.
Proof.
  induction windows as [|c rest IH]; simpl; [constructor|].
  destruct (parse_url (client_url c)) as [u|] eqn:Eu; [|by exists [], c, rest].
  destruct (String.eqb_spec (url_origin u) self_origin), (String.eqb_spec (url_pathname u) "/");
    cbn [andb]; [exists [], rest; split; [done|]; split; [done|by exists u]| | | ];
    (assert (Hc : shows_other c) by (exists u; split; [done|]; intros [? ?]; done);
     destruct (find_dashboard rest) as [[d|]|];
     [destruct IH as (b & a & -> & Hb & Hd); exists (c :: b), a; split; [done|]; split; [by constructor|done]
     |by constructor
     |destruct IH as (b & d & a & -> & Hb & Hd); exists (c :: b), d, a; split; [done|];
      split; [by constructor|done]]).
Qed.

(** Clicking a notification focuses the first window that shows this origin's
    dashboard, and opens one exactly when no window does. *)
Theorem click_reaches_dashboard (windows : list client) :
  Forall (λ c, is_Some (parse_url (client_url c))) windows ->
  (∃ before c after, windows = before ++ c :: after ∧ Forall shows_other before ∧
     shows_dashboard c ∧ handle_click windows = Focus c) ∨
  (Forall shows_other windows ∧ handle_click windows = OpenWindow "/").
Proof.
  intros Hp. unfold handle_click. pose proof (find_dashboard_spec windows) as S.
  destruct (find_dashboard windows) as [[c|]|].
  - left. destruct S as (b & a & ? & ? & ?). by exists b, c, a.
  - by right.
  - destruct S as (b & c & a & -> & _ & Hc). apply Forall_app in Hp as [_ Hp].
    apply Forall_cons in Hp as [Hp _]. rewrite Hc in Hp. by destruct Hp.
Qed.
End worker.

(** A platform with one origin, for concrete messages. *)
Definition sample_parse (text : string) : option url :=
  if String.eqb text "https://home/" then Some (Url "https://home" "/")
  else if String.eqb text "https://home/docs" then Some (Url "https://home" "/docs") else None.

Definition sample_message (data : list (string * val)) : message :=
  Message "https://home" (Some "https://home/") (VObj data) true.

Definition sample_enable : message :=
  sample_message [("type", VStr "notification-settings-set"); ("enabled", VBool true); ("generation", VInt 0)].

Lemma foreign_message_ignored_witness :
  msg_origin sample_enable = "https://home" ∧
  ∃ text u, source_url sample_enable = Some text ∧ sample_parse text = Some u ∧ url_origin u = "https://home".
Proof.
  apply (foreign_message_ignored "https://home" sample_parse true (Some []) sample_enable VUndef).
  vm_compute. discriminate.
Defined.

Lemma message_effects_witness :
  let windows := Some [Client 7 "https://home/"] in
  let r := handle_message "https://home" sample_parse true windows sample_enable VUndef in
  permitted sample_enable VUndef (fst r) ∧ truthful windows VUndef (fst r) (snd r).
Proof.
  intros windows r.
  apply (message_effects "https://home" sample_parse true windows sample_enable VUndef (fst r) (snd r)).
  reflexivity.
Defined.

Lemma click_reaches_dashboard_witness :
  let windows := [Client 1 "https://home/docs"; Client 2 "https://home/"] in
  (∃ before c after, windows = before ++ c :: after ∧
     Forall (shows_other "https://home" sample_parse) before ∧
     shows_dashboard "https://home" sample_parse c ∧
     handle_click "https://home" sample_parse windows = Focus c) ∨
  (Forall (shows_other "https://home" sample_parse) windows ∧
   handle_click "https://home" sample_parse windows = OpenWindow "/").
Proof.
  intros windows. apply (click_reaches_dashboard "https://home" sample_parse windows).
  repeat constructor; eexists; reflexivity.
Defined.
