(* ===== verification/Feed.v ===== *)
(** * The data feed of the dashboard

    What [ws.onmessage] of [internal/html/static/js/dashboard.js] does with a
    message: it merges the data into the reactive state, appends one sample to
    the five history arrays, bounds them and hands them to the chart. *)

From Stdlib Require Import ZArith Ascii String.
From stdpp Require Import base list option strings.
From S2P Require Import Prelude Float64 JsValue DashboardView.

#[local] Open Scope string_scope.
#[local] Open Scope list_scope.
#[local] Open Scope Z_scope.

(** ** State *)

Record history := History {
  timestamps : list val;
  grid : list val;
  solar : list val;
  battery : list val;
  setpoint : list val
}.

Definition empty_history : history := History [] [] [] [] [].

Definition HISTORY_LIMIT : nat := 1800.

(** The reactive state, the MQTT flag, the history, and what the chart shows
    ([None] when there is no chart). *)
Record feed := Feed {
  feed_state : obj;
  mqttConnected : bool;
  historyData : history;
  chart : option history
}.

Definition initial_feed : feed := Feed initial_state false empty_history None.

(** ** Operations *)

(** [initChart()]: [found] says whether the chart element exists. *)
Definition initChart (found : bool) (f : feed) : feed :=
  Feed (feed_state f) (mqttConnected f) (historyData f)
       (if found then Some empty_history else chart f).

Definition updateChart (f : feed) : feed :=
  Feed (feed_state f) (mqttConnected f) (historyData f)
       (match chart f with Some _ => Some (historyData f) | None => None end).

(** [data.key || 0]. *)
Definition sample (data : val) (key : string) : val :=
  or_else (default VUndef (getp data key)) (VInt 0).

Definition shift_all (h : history) : history :=
  History (tail (timestamps h)) (tail (grid h)) (tail (solar h)) (tail (battery h)) (tail (setpoint h)).

(** The pushes and the bound; the boolean says whether the handler ran to its
    end: reading a property of [null] throws after the timestamp was pushed. *)
Definition push_sample (now : val) (data : val) (h : history) : history * bool :=
  match getp data "gt" with
  | None => (History (timestamps h ++ [now]) (grid h) (solar h) (battery h) (setpoint h), false)
  | Some _ =>
      let h' := History (timestamps h ++ [now])
                        (grid h ++ [sample data "gt"])
                        (solar h ++ [sample data "solar_total"])
                        (battery h ++ [sample data "battery_power"])
                        (setpoint h ++ [sample data "setpoint"]) in
      (if Nat.ltb HISTORY_LIMIT (length (timestamps h')) then shift_all h' else h', true)
  end.

(** [Date.now() / 1000]. *)
Definition seconds (ms : Z) : val := VNum (F64.div (F64.of_Z ms) (F64.of_Z 1000)).

(** The body of [onmessage] after [JSON.parse]; [None]: the text did not parse. *)
Definition on_data (ms : Z) (data : option val) (f : feed) : feed :=
  match data with
  | None => f
  | Some data =>
      let state' := object_assign (feed_state f) data in
      let '(h, completed) := push_sample (seconds ms) data (historyData f) in
      let f' := Feed state' true h (chart f) in
      if completed then updateChart f' else f'
  end.

(** ** The history is a sliding window *)

Definition lastn {A} (n : nat) (l : list A) : list A := drop (length l - n) l.

Lemma lastn_length {A} n (l : list A) : length (lastn n l) = Nat.min n (length l).
Proof. unfold lastn. rewrite length_drop. lia. Qed.

(** Appending to a window and dropping its head when it overflows. *)
Lemma lastn_snoc {A} n (l : list A) (x : A) :
  (0 < n)%nat ->
  lastn n (l ++ [x]) = (if Nat.ltb n (length (lastn n l ++ [x])) then tail else id) (lastn n l ++ [x]).
Proof.
  intros Hn. rewrite length_app, lastn_length. simpl. unfold lastn. rewrite length_app. simpl.
  destruct (Nat.ltb_spec n (Nat.min n (length l) + 1)).
  - replace (tail (drop (length l - n) l ++ [x])) with (drop 1 (drop (length l - n) l ++ [x])) by done.
    rewrite <- (drop_app_le l [x]) by lia. rewrite drop_drop. f_equal. lia.
  - replace (length l + 1 - n)%nat with O by lia. replace (length l - n)%nat with O by lia. done.
Qed.

(** The history that the samples [ms] should leave. *)
Definition window (ms : list (Z * val)) : history :=
  History (lastn HISTORY_LIMIT ((λ m, seconds m.1) <$> ms))
          (lastn HISTORY_LIMIT ((λ m, sample m.2 "gt") <$> ms))
          (lastn HISTORY_LIMIT ((λ m, sample m.2 "solar_total") <$> ms))
          (lastn HISTORY_LIMIT ((λ m, sample m.2 "battery_power") <$> ms))
          (lastn HISTORY_LIMIT ((λ m, sample m.2 "setpoint") <$> ms)).

Definition feed_run (ms : list (Z * val)) (f : feed) : feed :=
  foldl (λ f m, on_data m.1 (Some m.2) f) f ms.

(** Not [null]. *)
Definition has_properties (v : val) : Prop := is_Some (getp v "gt").

Lemma push_sample_window (ms : list (Z * val)) (t : Z) (data : val) :
  has_properties data ->
  push_sample (seconds t) data (window ms) = (window (ms ++ [(t, data)]), true).
Proof.
  intros [g Hg]. unfold push_sample. rewrite Hg. f_equal. unfold window.
  cbn [timestamps grid solar battery setpoint]. rewrite !fmap_app. cbn [list_fmap fmap fst snd].
  rewrite !lastn_snoc by (unfold HISTORY_LIMIT; lia).
  rewrite !length_app, !lastn_length, !length_fmap. by destruct (Nat.ltb _ _).
Qed.

(** After any run of messages, each array holds its samples of the last
    [HISTORY_LIMIT] messages in order: the arrays stay aligned and bounded, and
    a chart shows exactly them. *)
Theorem history_window (ms : list (Z * val)) :
  Forall (λ m, has_properties m.2) ms ->
  historyData (feed_run ms initial_feed) = window ms ∧
  (∀ found, chart (feed_run ms (initChart found initial_feed))
            = if found then Some (window ms) else None).
Proof.
  intros Hall.
  enough (G : ∀ found, let f := feed_run ms (initChart found initial_feed) in
              historyData f = window ms ∧ chart f = if found then Some (window ms) else None).
  { split; [apply (G false)|]. intros found. apply G. }
  intros found. cbv zeta. induction ms as [|[t data] ms IH] using rev_ind; [by destruct found|].
  apply Forall_app in Hall as [Hall Hd]. apply Forall_cons in Hd as [Hd _].
  destruct (IH Hall) as [Eh Ec]. unfold feed_run in *. rewrite foldl_app. cbn [foldl fst snd].
  set (f0 := foldl _ _ ms) in *. clearbody f0. unfold on_data. rewrite Eh, push_sample_window by done.
  unfold updateChart. cbn [historyData chart]. split; [done|]. rewrite Ec. by destruct found.
Qed.

Lemma history_window_witness :
  let ms := [(1000, VObj [("gt", VInt 420); ("setpoint", VInt 25)]); (2000, VObj [("solar_total", VInt 7)])] in
  historyData (feed_run ms initial_feed) = window ms ∧
  (∀ found, chart (feed_run ms (initChart found initial_feed))
            = if found then Some (window ms) else None).
Proof.
  intros ms. apply (history_window ms). repeat constructor; eexists; reflexivity.
Defined.

(** ** Messages are merged *)

(** A message overwrites the properties it carries and leaves the others as
    they were: the state is merged, not replaced. *)
Theorem on_data_merges (ms : Z) (data : obj) (f : feed) (k : string) :
  NoDup data.*1 ->
  field (feed_state (on_data ms (Some (VObj data)) f)) k
  = match assoc k data with Some v => v | None => field (feed_state f) k end.
Proof.
  intros Hnd. unfold on_data. destruct (push_sample _ _ _) as [h c].
  transitivity (field (object_assign (feed_state f) (VObj data)) k); [by destruct c|].
  unfold field, object_assign. cbn [entries default].
  rewrite assoc_set_props by (by rewrite object_entries_perm).
  rewrite <- (assoc_perm k data) by (done || symmetry; apply object_entries_perm).
  by destruct (assoc k data).
Qed.

Lemma on_data_merges_witness :
  field (feed_state (on_data 0 (Some (VObj [("ev_power", VInt 11)])) initial_feed)) "car_soc" = VInt 0.
Proof.
  transitivity (match assoc "car_soc" [("ev_power", VInt 11)] with
                | Some v => v | None => field (feed_state initial_feed) "car_soc" end); [|reflexivity].
  apply (on_data_merges 0 [("ev_power", VInt 11)] initial_feed "car_soc"). apply NoDup_singleton.
Defined.
