(* ===== verification/Connection.v ===== *)
(** * The dashboard's WebSocket connection

    The connection logic of [internal/html/static/js/dashboard.js]: [connect]
    and the socket's handlers, the heartbeat, the page events, [send], mounting
    and unmounting.  A step is one task of the browser's event loop; sockets and
    timers live in stores indexed by identity, so a handler that runs for an old
    socket still acts on the variable [ws] of the moment. *)

From Stdlib Require Import ZArith Ascii String.
From stdpp Require Import base list option strings gmap fin_maps.
From S2P Require Import Prelude JsValue DashboardView Feed.

#[local] Open Scope string_scope.
#[local] Open Scope list_scope.
#[local] Open Scope Z_scope.

(** ** State *)

Inductive ready_state : Type := CONNECTING | OPEN | CLOSING | CLOSED.

#[global] Instance ready_state_eq_dec : EqDecision ready_state.
Proof. solve_decision. Defined.

(** What a timer runs: [connect], once, or the heartbeat, repeatedly. *)
Inductive callback : Type := RunConnect | RunHeartbeat.

#[global] Instance callback_eq_dec : EqDecision callback.
Proof. solve_decision. Defined.

Record timer := Timer { due : Z; runs_callback : callback }.

Record conn := Conn {
  sockets : gmap nat ready_state;      (* every WebSocket ever created *)
  ws : option nat;
  timers : gmap nat timer;             (* pending timers of the page *)
  reconnectTimer : option nat;
  heartbeatTimer : option nat;
  lastMessageTime : Z;
  wsConnected : bool;
  page_feed : feed;
  sent : list (nat * obj);             (* messages written, by socket *)
  next_id : nat;                       (* identities not yet used *)
  clock : Z
}.

Definition initial_conn (t : Z) : conn :=
  Conn ∅ None ∅ None None t false initial_feed [] 0 t.

Definition with_sockets v (c : conn) : conn :=
  Conn v (ws c) (timers c) (reconnectTimer c) (heartbeatTimer c) (lastMessageTime c)
       (wsConnected c) (page_feed c) (sent c) (next_id c) (clock c).
Definition with_timers v (c : conn) : conn :=
  Conn (sockets c) (ws c) v (reconnectTimer c) (heartbeatTimer c) (lastMessageTime c)
       (wsConnected c) (page_feed c) (sent c) (next_id c) (clock c).
Definition with_reconnectTimer v (c : conn) : conn :=
  Conn (sockets c) (ws c) (timers c) v (heartbeatTimer c) (lastMessageTime c)
       (wsConnected c) (page_feed c) (sent c) (next_id c) (clock c).
Definition with_heartbeatTimer v (c : conn) : conn :=
  Conn (sockets c) (ws c) (timers c) (reconnectTimer c) v (lastMessageTime c)
       (wsConnected c) (page_feed c) (sent c) (next_id c) (clock c).
Definition with_lastMessageTime v (c : conn) : conn :=
  Conn (sockets c) (ws c) (timers c) (reconnectTimer c) (heartbeatTimer c) v
       (wsConnected c) (page_feed c) (sent c) (next_id c) (clock c).
Definition with_wsConnected v (c : conn) : conn :=
  Conn (sockets c) (ws c) (timers c) (reconnectTimer c) (heartbeatTimer c) (lastMessageTime c)
       v (page_feed c) (sent c) (next_id c) (clock c).
Definition with_page_feed v (c : conn) : conn :=
  Conn (sockets c) (ws c) (timers c) (reconnectTimer c) (heartbeatTimer c) (lastMessageTime c)
       (wsConnected c) v (sent c) (next_id c) (clock c).
Definition with_sent v (c : conn) : conn :=
  Conn (sockets c) (ws c) (timers c) (reconnectTimer c) (heartbeatTimer c) (lastMessageTime c)
       (wsConnected c) (page_feed c) v (next_id c) (clock c).
Definition with_clock v (c : conn) : conn :=
  Conn (sockets c) (ws c) (timers c) (reconnectTimer c) (heartbeatTimer c) (lastMessageTime c)
       (wsConnected c) (page_feed c) (sent c) (next_id c) v.

(** ** The platform *)

(** [ws.readyState]; [None] when [ws] is null. *)
Definition readyState (c : conn) : option ready_state := s ← ws c; sockets c !! s.

(** [new WebSocket(...)], assigned to [ws]. *)
Definition open_socket (c : conn) : conn :=
  Conn (<[next_id c := CONNECTING]> (sockets c)) (Some (next_id c)) (timers c) (reconnectTimer c)
       (heartbeatTimer c) (lastMessageTime c) (wsConnected c) (page_feed c) (sent c)
       (S (next_id c)) (clock c).

(** [if (ws) ws.close()]. *)
Definition ws_close (c : conn) : conn :=
  match ws c with
  | Some s =>
      match sockets c !! s with
      | Some CONNECTING | Some OPEN => with_sockets (<[s := CLOSING]> (sockets c)) c
      | _ => c
      end
  | None => c
  end.

(** [setTimeout] and [setInterval]; the new identity is [next_id c]. *)
Definition set_timer (delay : Z) (k : callback) (c : conn) : conn :=
  Conn (sockets c) (ws c) (<[next_id c := Timer (clock c + delay) k]> (timers c)) (reconnectTimer c)
       (heartbeatTimer c) (lastMessageTime c) (wsConnected c) (page_feed c) (sent c)
       (S (next_id c)) (clock c).

(** [if (id) clearTimeout(id)]. *)
Definition clear_timer (id : option nat) (c : conn) : conn :=
  match id with
  | Some t => with_timers (delete t (timers c)) c
  | None => c
  end.

(** ** The program *)

(** [connect()]; [ok] says whether the constructor succeeds or throws. *)
Definition connect (ok : bool) (c : conn) : conn :=
  if decide (readyState c = Some OPEN) then c
  else
    let c := clear_timer (reconnectTimer c) c in
    if ok then open_socket c
    else
      let c := with_wsConnected false c in
      with_reconnectTimer (Some (next_id c)) (set_timer 2000 RunConnect c).

Definition stopHeartbeat (c : conn) : conn :=
  match heartbeatTimer c with
  | Some t => with_heartbeatTimer None (clear_timer (Some t) c)
  | None => c
  end.

Definition startHeartbeat (c : conn) : conn :=
  let c := stopHeartbeat c in
  with_heartbeatTimer (Some (next_id c)) (set_timer 5000 RunHeartbeat c).

Definition onopen (c : conn) : conn :=
  startHeartbeat (with_lastMessageTime (clock c) (with_wsConnected true c)).

Definition onclose (c : conn) : conn :=
  let c := stopHeartbeat (with_wsConnected false c) in
  with_reconnectTimer (Some (next_id c)) (set_timer 2000 RunConnect c).

Definition onerror (c : conn) : conn := ws_close (with_wsConnected false c).

Definition onmessage (data : option val) (c : conn) : conn :=
  with_page_feed (on_data (clock c) data (page_feed c)) (with_lastMessageTime (clock c) c).

Definition heartbeat (c : conn) : conn :=
  if 15000 <? clock c - lastMessageTime c then ws_close c else c.

Definition on_visible (ok : bool) (c : conn) : conn :=
  if decide (readyState c = Some OPEN) then c else connect ok c.

Definition on_online (c : conn) : conn := set_timer 500 RunConnect (ws_close c).

Definition send (action : string) (payload : obj) (c : conn) : conn :=
  match ws c with
  | Some s =>
      if decide (sockets c !! s = Some OPEN) then
        with_sent (sent c ++ [(s, object_assign [("action", VStr action)] (VObj payload))]) c
      else c
  | None => c
  end.

Definition on_mounted (found ok : bool) (c : conn) : conn :=
  connect ok (with_page_feed (initChart found (page_feed c)) c).

Definition on_unmounted (c : conn) : conn :=
  let c := stopHeartbeat (ws_close c) in clear_timer (reconnectTimer c) c.

(** ** Tasks *)

Inductive label : Type :=
| Mount (found ok : bool)
| Opened (s : nat)                       (* a connection is established *)
| Lost (s : nat) (failed : bool)         (* it is closed, after an error or not *)
| Received (s : nat) (data : option val) (* None: the text is not JSON *)
| TimerFires (t : nat) (ok : bool)
| BecameVisible (ok : bool)
| WentOnline
| Send (action : string) (payload : obj)
| Unmount
| Elapse (ms : Z).

Definition exec (l : label) (c : conn) : option conn :=
  match l with
  | Mount found ok => Some (on_mounted found ok c)
  | Opened s =>
      match sockets c !! s with
      | Some CONNECTING => Some (onopen (with_sockets (<[s := OPEN]> (sockets c)) c))
      | _ => None
      end
  | Lost s failed =>
      match sockets c !! s with
      | Some CLOSED | None => None
      | Some _ =>
          let c := with_sockets (<[s := CLOSED]> (sockets c)) c in
          Some (onclose (if failed then onerror c else c))
      end
  | Received s data =>
      match sockets c !! s with
      | Some OPEN => Some (onmessage data c)
      | _ => None
      end
  | TimerFires t ok =>
      match timers c !! t with
      | Some (Timer d k) =>
          if d <=? clock c then
            Some match k with
                 | RunConnect => connect ok (with_timers (delete t (timers c)) c)
                 | RunHeartbeat =>
                     heartbeat (with_timers (<[t := Timer (clock c + 5000) RunHeartbeat]> (timers c)) c)
                 end
          else None
      | None => None
      end
  | BecameVisible ok => Some (on_visible ok c)
  | WentOnline => Some (on_online c)
  | Send action payload => Some (send action payload c)
  | Unmount => Some (on_unmounted c)
  | Elapse ms => if 0 <=? ms then Some (with_clock (clock c + ms) c) else None
  end.

Abbreviation execs := (run_steps exec).

(** ** Well-formed states *)

Definition pending (c : conn) (t : nat) (k : callback) : Prop :=
  ∃ d, timers c !! t = Some (Timer d k).

(** Identities are fresh when they are handed out, [ws] is a socket, the pending
    heartbeat is the one the variable names, and the variable of the reconnect
    timer never names a heartbeat. *)
Record wf (c : conn) : Prop := {
  wf_timers : ∀ t tm, timers c !! t = Some tm -> (t < next_id c)%nat;
  wf_sockets : ∀ s st, sockets c !! s = Some st -> (s < next_id c)%nat;
  wf_ws : ∀ s, ws c = Some s -> is_Some (sockets c !! s);
  wf_heartbeat : ∀ t, pending c t RunHeartbeat ↔ heartbeatTimer c = Some t;
  wf_reconnect : ∀ t, reconnectTimer c = Some t ->
                   (t < next_id c)%nat ∧ ¬ pending c t RunHeartbeat
}.

Create HintDb conn.

Lemma wf_initial t : wf (initial_conn t).
Proof.
  constructor; simpl; intros *; rewrite ?lookup_empty; try done.
  split; [|done]. intros [d Hd]. simpl in Hd. by rewrite lookup_empty in Hd.
Qed.

Lemma wf_with_sockets m c :
  (∀ s, is_Some (m !! s) ↔ is_Some (sockets c !! s)) -> wf c -> wf (with_sockets m c).
Proof.
  intros Hm [H1 H2 H3 H4 H5]. constructor; simpl; try done.
  - intros s st Hs. destruct (proj1 (Hm s) (mk_is_Some _ _ Hs)) as [st' Hs']. by eapply H2.
  - intros s Hs. by apply Hm, H3.
Qed.

Lemma insert_is_Some {V} (m : gmap nat V) s v s' :
  is_Some (m !! s) -> is_Some (<[s := v]> m !! s') ↔ is_Some (m !! s').
Proof.
  intros Hs. rewrite lookup_insert_is_Some. destruct (decide (s = s')) as [->|Hne]; [by split; [|left]|].
  split; [by intros [?|[_ ?]]|by right].
Qed.

(** [ws.close()] touches the sockets only: none appears or disappears, none
    becomes open, and the closed ones are the same. *)
Lemma ws_close_sockets c :
  ∃ m, ws_close c = with_sockets m c ∧ (∀ s, is_Some (m !! s) ↔ is_Some (sockets c !! s)) ∧
       (∀ s, m !! s = Some OPEN -> sockets c !! s = Some OPEN ∧ ws c ≠ Some s) ∧
       (∀ s, m !! s = Some CLOSED ↔ sockets c !! s = Some CLOSED).
Proof.
  unfold ws_close. destruct (ws c) as [s|] eqn:Ews.
  2: { exists (sockets c). destruct c; simpl in *. naive_solver. }
  destruct (sockets c !! s) as [[]|] eqn:Es;
    [exists (<[s := CLOSING]> (sockets c))|exists (<[s := CLOSING]> (sockets c))
    |exists (sockets c)|exists (sockets c)|exists (sockets c)].
  1,2: split; [done|]; split; [intros s'; apply insert_is_Some; by rewrite Es|];
    split; intros s'; (destruct (decide (s = s')) as [<-|Hne];
      [rewrite lookup_insert_eq|rewrite lookup_insert_ne by done]); naive_solver.
  all: destruct c; simpl in *; naive_solver.
Qed.

Lemma wf_ws_close c : wf c -> wf (ws_close c).
Proof. destruct (ws_close_sockets c) as (m & -> & Hm & _). by apply wf_with_sockets. Qed.

Lemma wf_clear_reconnect c : wf c -> wf (clear_timer (reconnectTimer c) c).
Proof.
  intros W. destruct (reconnectTimer c) as [r|] eqn:Er; [|done].
  destruct (wf_reconnect c W r Er) as [_ Hr]. destruct W as [H1 H2 H3 H4 H5].
  constructor; simpl; try done.
  - intros t tm Ht. apply lookup_delete_Some in Ht as [_ Ht]. by eapply H1.
  - intros t. rewrite <- H4. unfold pending; simpl. split; intros [d Hd]; exists d; simpl in *.
    + by apply lookup_delete_Some in Hd as [_ Hd].
    + rewrite lookup_delete_ne; [done|]. intros ->. apply Hr. by exists d.
  - intros t Ht. destruct (H5 t Ht) as [? Hp]. split; [done|]. intros [d Hd]. apply Hp. simpl in Hd.
    apply lookup_delete_Some in Hd as [_ Hd]. by exists d.
Qed.

Lemma wf_set_connect delay c :
  wf c -> wf (set_timer delay RunConnect c).
Proof.
  intros [H1 H2 H3 H4 H5]. 
  assert (Hf : timers c !! next_id c = None).
  { destruct (timers c !! next_id c) eqn:E; [|done]. apply H1 in E. lia. }
  assert (Hp : ∀ t, pending (set_timer delay RunConnect c) t RunHeartbeat ↔ pending c t RunHeartbeat).
  { intros t. unfold pending; simpl. split; intros [d Hd]; exists d.
    - apply lookup_insert_Some in Hd as [[_ ?]|[_ ?]]; [done|done].
    - rewrite lookup_insert_ne; [done|]. intros <-. congruence. }
  constructor; simpl; try done.
  - intros t tm Ht. apply lookup_insert_Some in Ht as [[<- _]|[_ Ht]]; [lia|]. apply H1 in Ht. lia.
  - intros s st Hs. apply H2 in Hs. lia.
  - intros t. by rewrite Hp, H4.
  - intros t Ht. rewrite Hp. destruct (H5 t Ht). split; [lia|done].
Qed.

(** [reconnectTimer = setTimeout(connect, delay)]. *)
Lemma wf_arm_reconnect delay c :
  wf c -> wf (with_reconnectTimer (Some (next_id c)) (set_timer delay RunConnect c)).
Proof.
  intros W. destruct (wf_set_connect delay c W) as [H1 H2 H3 H4 H5].
  constructor; simpl in *; try done. intros t [= <-]. split; [lia|].
  intros [d Hd]. simpl in Hd. rewrite lookup_insert_eq in Hd. done.
Qed.

Lemma wf_open_socket c : wf c -> wf (open_socket c).
Proof.
  intros [H1 H2 H3 H4 H5]. constructor; simpl; try done.
  - intros t tm Ht. apply H1 in Ht. lia.
  - intros s st Hs. apply lookup_insert_Some in Hs as [[<- _]|[_ Hs]]; [lia|]. apply H2 in Hs. lia.
  - intros s [= <-]. rewrite lookup_insert_eq. eauto.
  - intros t Ht. destruct (H5 t Ht). split; [lia|done].
Qed.

(** Fields that the invariant does not mention. *)
Lemma wf_with_wsConnected v c : wf c -> wf (with_wsConnected v c).
Proof. by intros [H1 H2 H3 H4 H5]. Qed.
Lemma wf_with_lastMessageTime v c : wf c -> wf (with_lastMessageTime v c).
Proof. by intros [H1 H2 H3 H4 H5]. Qed.
Lemma wf_with_page_feed v c : wf c -> wf (with_page_feed v c).
Proof. by intros [H1 H2 H3 H4 H5]. Qed.
Lemma wf_with_sent v c : wf c -> wf (with_sent v c).
Proof. by intros [H1 H2 H3 H4 H5]. Qed.
Lemma wf_with_clock v c : wf c -> wf (with_clock v c).
Proof. by intros [H1 H2 H3 H4 H5]. Qed.

#[export] Hint Resolve wf_ws_close wf_clear_reconnect wf_set_connect wf_arm_reconnect wf_open_socket
  wf_with_wsConnected wf_with_lastMessageTime wf_with_page_feed wf_with_sent wf_with_clock : conn.

Lemma wf_connect ok c : wf c -> wf (connect ok c).
Proof.
  intros W. unfold connect. case_decide; [done|]. destruct ok; [auto with conn|].
  apply wf_arm_reconnect. auto with conn.
Qed.

(** After [stopHeartbeat] no heartbeat is pending. *)
Lemma wf_stopHeartbeat c :
  wf c -> wf (stopHeartbeat c) ∧ heartbeatTimer (stopHeartbeat c) = None.
Proof.
  intros [H1 H2 H3 H4 H5]. unfold stopHeartbeat. destruct (heartbeatTimer c) as [h|] eqn:Eh;
    [|split; [by constructor; try rewrite Eh|done]].
  split; [|done].
  assert (Hp : ∀ t, ¬ pending (with_heartbeatTimer None (clear_timer (Some h) c)) t RunHeartbeat).
  { intros t [d Hd]. simpl in Hd. apply lookup_delete_Some in Hd as [Hne Hd].
    assert (Some h = Some t) by (apply H4; by exists d). congruence. }
  constructor; simpl; try done.
  - intros t tm Ht. apply lookup_delete_Some in Ht as [_ Ht]. by eapply H1.
  - intros t. split; [|done]. intros H. by apply Hp in H.
  - intros t Ht. destruct (H5 t Ht). split; [done|apply Hp].
Qed.

Lemma wf_startHeartbeat c : wf c -> wf (startHeartbeat c).
Proof.
  intros W. destruct (wf_stopHeartbeat c W) as [[H1 H2 H3 H4 H5] Hh]. unfold startHeartbeat.
  set (c' := stopHeartbeat c) in *. clearbody c'.
  assert (Hnone : ∀ t, ¬ pending c' t RunHeartbeat) by (intros t; rewrite H4, Hh; done).
  constructor; simpl; try done.
  - intros t tm Ht. apply lookup_insert_Some in Ht as [[<- _]|[_ Ht]]; [lia|]. apply H1 in Ht. lia.
  - intros s st Hs. apply H2 in Hs. lia.
  - intros t. unfold pending; simpl. split.
    + intros [d Hd]. apply lookup_insert_Some in Hd as [[<- _]|[_ Hd]]; [done|].
      exfalso. apply (Hnone t). by exists d.
    + intros [= <-]. rewrite lookup_insert_eq. eauto.
  - intros t Ht. destruct (H5 t Ht) as [Hl _]. split; [lia|]. intros [d Hd]. simpl in Hd.
    rewrite lookup_insert_ne in Hd by lia. apply (Hnone t). by exists d.
Qed.

Lemma wf_stop c : wf c -> wf (stopHeartbeat c).
Proof. intros W. by apply wf_stopHeartbeat. Qed.

#[export] Hint Resolve wf_connect wf_startHeartbeat wf_stop : conn.

(** Splits a successful step into the cases of its definition. *)
Ltac conn_step H :=
  match type of H with exec ?l _ = Some _ => destruct l end; simpl in H;
  repeat (case_match; try discriminate H); simplify_eq.

Lemma wf_socket_event s st c :
  is_Some (sockets c !! s) -> wf c -> wf (with_sockets (<[s := st]> (sockets c)) c).
Proof. intros Hs. apply wf_with_sockets. intros s'. by apply insert_is_Some. Qed.

(** A [connect] timer that fires is gone; a heartbeat that fires stays. *)
Lemma wf_fire_connect t d c :
  timers c !! t = Some (Timer d RunConnect) -> wf c -> wf (with_timers (delete t (timers c)) c).
Proof.
  intros Ht [H1 H2 H3 H4 H5].
  assert (Hp : ∀ u, pending (with_timers (delete t (timers c)) c) u RunHeartbeat ↔ pending c u RunHeartbeat).
  { intros u. unfold pending; simpl. split; intros [e He]; exists e.
    - by apply lookup_delete_Some in He as [_ He].
    - rewrite lookup_delete_ne; [done|]. intros ->. congruence. }
  constructor; simpl; try done.
  - intros u tm Hu. apply lookup_delete_Some in Hu as [_ Hu]. by eapply H1.
  - intros u. by rewrite Hp.
  - intros u Hu. rewrite Hp. by apply H5.
Qed.

Lemma wf_fire_heartbeat t d e c :
  timers c !! t = Some (Timer d RunHeartbeat) -> wf c ->
  wf (with_timers (<[t := Timer e RunHeartbeat]> (timers c)) c).
Proof.
  intros Ht [H1 H2 H3 H4 H5].
  assert (Hp : ∀ u, pending (with_timers (<[t := Timer e RunHeartbeat]> (timers c)) c) u RunHeartbeat
                    ↔ pending c u RunHeartbeat).
  { intros u. unfold pending; simpl. destruct (decide (t = u)) as [<-|Hne].
    - rewrite lookup_insert_eq. split; intros _; eauto.
    - by rewrite lookup_insert_ne by done. }
  constructor; simpl; try done.
  - intros u tm Hu. apply lookup_insert_Some in Hu as [[<- _]|[_ Hu]]; by eapply H1.
  - intros u. by rewrite Hp.
  - intros u Hu. rewrite Hp. by apply H5.
Qed.

Lemma wf_onclose c : wf c -> wf (onclose c).
Proof. intros W. unfold onclose. auto with conn. Qed.

Lemma wf_onopen c : wf c -> wf (onopen c).
Proof. intros W. unfold onopen. auto with conn. Qed.

Lemma wf_onerror c : wf c -> wf (onerror c).
Proof. intros W. unfold onerror. auto with conn. Qed.

#[export] Hint Resolve wf_onclose wf_onopen wf_onerror : conn.

Lemma wf_exec l c c' : exec l c = Some c' -> wf c -> wf c'.
Proof.
  intros H W. conn_step H;
    unfold on_mounted, onmessage, heartbeat, on_visible, on_online, send, on_unmounted;
    repeat case_match; eauto using wf_socket_event, wf_fire_connect, wf_fire_heartbeat with conn.
Qed.

Lemma wf_execs t ls c : execs ls (initial_conn t) = Some c -> wf c.
Proof. intros H. eapply run_steps_ind; [exact wf_exec|exact H|apply wf_initial]. Qed.

(** At any moment at most one heartbeat is pending, and it is the one that
    [heartbeatTimer] names, so that stopping it leaves none. *)
Theorem single_heartbeat (t0 : Z) (ls : list label) (c : conn) :
  execs ls (initial_conn t0) = Some c ->
  (∀ t, pending c t RunHeartbeat ↔ heartbeatTimer c = Some t) ∧
  (∀ t, ¬ pending (stopHeartbeat c) t RunHeartbeat).
Proof.
  intros H. assert (W : wf c) by by eapply wf_execs. split; [apply W|].
  destruct (wf_stopHeartbeat c W) as [[_ _ _ Hp _] Hn]. intros t. rewrite Hp, Hn. done.
Qed.

Definition after (ls : list label) (c : conn) : conn := default c (execs ls c).

Lemma single_heartbeat_witness :
  let c := after [Mount false true; Opened 0; Received 0 None] (initial_conn 0) in
  (∀ t, pending c t RunHeartbeat ↔ heartbeatTimer c = Some t) ∧
  (∀ t, ¬ pending (stopHeartbeat c) t RunHeartbeat).
Proof.
  intros c. apply (single_heartbeat 0 [Mount false true; Opened 0; Received 0 None] c).
  vm_compute. reflexivity.
Defined.

(** ** The page is never stuck *)

Definition connect_due (c : conn) : Prop :=
  ∃ t d, timers c !! t = Some (Timer d RunConnect) ∧ d <= clock c + 2000.

Definition ws_live (c : conn) : Prop := ∃ st, readyState c = Some st ∧ st ≠ CLOSED.

(** Either a connection attempt is due within two seconds, or the current socket
    has not been lost, so that its loss will make one due. *)
Definition alive (c : conn) : Prop := connect_due c ∨ ws_live c.

Lemma wf_fresh_timer c : wf c -> timers c !! next_id c = None.
Proof. intros [H1 _ _ _ _]. destruct (timers c !! next_id c) eqn:E; [|done]. apply H1 in E. lia. Qed.

Lemma alive_set_timer delay k c : wf c -> alive c -> alive (set_timer delay k c).
Proof.
  intros W [(t & d & Ht & Hd)|Hs]; [|by right]. left. exists t, d. simpl. split; [|done].
  rewrite lookup_insert_ne; [done|]. intros <-. by rewrite wf_fresh_timer in Ht.
Qed.

Lemma alive_ws_close c : alive c -> alive (ws_close c).
Proof.
  destruct (ws_close_sockets c) as (m & -> & Hm & _ & Hc).
  intros [(t & d & ?)|(st & Hst & Hne)]; [by left; exists t, d|]. right.
  unfold ws_live, readyState in *; simpl. destruct (ws c) as [s|]; [|done]. simpl in *.
  destruct (proj2 (Hm s) ltac:(by rewrite Hst)) as [st' Hst']. exists st'. split; [done|].
  intros ->. apply Hc in Hst'. congruence.
Qed.

Lemma alive_stopHeartbeat c : wf c -> alive c -> alive (stopHeartbeat c).
Proof.
  intros W [(t & d & Ht & Hd)|Hs]; unfold stopHeartbeat; destruct (heartbeatTimer c) as [h|] eqn:Eh.
  - left. exists t, d. split; [|done]. simpl. rewrite lookup_delete_ne; [done|]. intros ->.
    apply (wf_heartbeat c W) in Eh as [e He]. congruence.
  - left. by exists t, d.
  - right. done.
  - by right.
Qed.

Lemma alive_startHeartbeat c : wf c -> alive c -> alive (startHeartbeat c).
Proof.
  intros W A. destruct (alive_set_timer 5000 RunHeartbeat (stopHeartbeat c)) as [H|H];
    [auto with conn|by apply alive_stopHeartbeat|by left|by right].
Qed.

Lemma alive_connect ok c : wf c -> alive (connect ok c).
Proof.
  intros W. unfold connect. case_decide as Ho; [right; by exists OPEN|]. destruct ok.
  - right. exists CONNECTING. split; [|done]. unfold readyState; simpl. apply lookup_insert_eq.
  - left. eexists _, _. split; [simpl; apply lookup_insert_eq|]. simpl. lia.
Qed.

Lemma alive_onclose c : alive (onclose c).
Proof. left. eexists _, _. split; [simpl; apply lookup_insert_eq|]. simpl. lia. Qed.

Lemma alive_opened s c :
  sockets c !! s = Some CONNECTING -> alive c ->
  alive (with_sockets (<[s := OPEN]> (sockets c)) c).
Proof.
  intros Hs [(t & d & H)|(st & Hst & Hne)]; [by left; exists t, d|right].
  unfold ws_live, readyState in *. simpl. destruct (ws c) as [s'|]; [|done]. simpl in *.
  destruct (decide (s = s')) as [<-|Hss]; [exists OPEN; by rewrite lookup_insert_eq|].
  exists st. by rewrite lookup_insert_ne.
Qed.

Lemma alive_fire_heartbeat t d e c :
  timers c !! t = Some (Timer d RunHeartbeat) -> alive c ->
  alive (with_timers (<[t := Timer e RunHeartbeat]> (timers c)) c).
Proof.
  intros Ht [(u & d' & Hu & Hd)|H]; [left|by right]. exists u, d'. split; [|done]. simpl.
  rewrite lookup_insert_ne; [done|]. intros <-. congruence.
Qed.

Lemma alive_elapse ms c : 0 <= ms -> alive c -> alive (with_clock (clock c + ms) c).
Proof.
  intros Hms [(t & d & Ht & Hd)|H]; [left|by right]. exists t, d. split; [done|]. simpl. lia.
Qed.

#[export] Hint Resolve alive_set_timer alive_ws_close alive_startHeartbeat alive_connect
  alive_onclose alive_opened alive_fire_heartbeat alive_elapse : conn.

Definition not_unmount (l : label) : Prop := l ≠ Unmount.

Lemma alive_exec l c c' :
  exec l c = Some c' -> not_unmount l -> wf c ∧ alive c -> wf c' ∧ alive c'.
Proof.
  intros H Hl [W A]. split; [by eapply wf_exec|]. conn_step H; try apply alive_onclose.
  - unfold on_mounted. auto with conn.
  - unfold onopen. apply alive_startHeartbeat.
    + apply wf_with_lastMessageTime, wf_with_wsConnected, wf_socket_event; [by eexists|done].
    + by apply (alive_opened s c).
  - done.
  - apply alive_connect. by eapply wf_fire_connect.
  - unfold heartbeat. simpl. case_match; [apply alive_ws_close|]; by eapply alive_fire_heartbeat.
  - unfold on_visible. case_match; auto with conn.
  - unfold on_online. auto with conn.
  - unfold send. by repeat case_match.
  - by destruct Hl.
  - apply alive_elapse; [by apply Z.leb_le|done].
Qed.

Lemma alive_execs t0 found ok ls c :
  execs (Mount found ok :: ls) (initial_conn t0) = Some c -> Forall not_unmount ls -> wf c ∧ alive c.
Proof.
  cbn [run_steps exec]. intros H Hall.
  eapply (run_steps_ind_if exec not_unmount _ alive_exec); [exact H|exact Hall|].
  assert (W : wf (with_page_feed (initChart found initial_feed) (initial_conn t0)))
    by apply wf_with_page_feed, wf_initial.
  unfold on_mounted. auto with conn.
Qed.

Lemma readyState_startHeartbeat c : readyState (startHeartbeat c) = readyState c.
Proof. unfold startHeartbeat, stopHeartbeat. by destruct (heartbeatTimer c). Qed.

Definition up (c : conn) : Prop := readyState c = Some OPEN ∧ wsConnected c = true.

Lemma recover_connecting c :
  readyState c = Some CONNECTING -> ∃ s c', exec (Opened s) c = Some c' ∧ up c'.
Proof.
  unfold readyState. destruct (ws c) as [s|] eqn:Ews; [|done]. simpl. intros Hs.
  eexists s, _. split; [simpl; by rewrite Hs|]. unfold up, onopen.
  rewrite readyState_startHeartbeat. split.
  - unfold readyState; simpl. rewrite Ews. simpl. apply lookup_insert_eq.
  - unfold startHeartbeat, stopHeartbeat; simpl. by destruct (heartbeatTimer c).
Qed.

Lemma recover_due c :
  wf c -> connect_due c -> readyState c ≠ Some OPEN ->
  ∃ t s c', execs [Elapse 2000; TimerFires t true; Opened s] c = Some c' ∧ up c'.
Proof.
  intros W (t & d & Ht & Hd) Hs.
  set (c1 := with_timers (delete t (timers c)) (with_clock (clock c + 2000) c)).
  destruct (recover_connecting (connect true c1)) as (s & c' & Hx & Hup).
  { unfold connect. rewrite decide_False by done. unfold readyState; simpl. apply lookup_insert_eq. }
  exists t, s, c'. split; [|done]. cbn [run_steps exec]. replace (0 <=? 2000) with true by done.
  cbn [with_clock timers clock]. rewrite Ht, (proj2 (Z.leb_le _ _) Hd). fold c1.
  unfold exec in Hx. by rewrite Hx.
Qed.

(** C1: A mounted page can always recover: from every state that any sequence of
    socket, timer and page events reaches, at most four further events, the
    network permitting, bring up a connection. *)
Theorem connection_recovers (t0 : Z) (found ok : bool) (ls : list label) (c : conn) :
  execs (Mount found ok :: ls) (initial_conn t0) = Some c -> Forall not_unmount ls ->
  readyState c ≠ Some OPEN ->
  ∃ ls' c', (length ls' <= 4)%nat ∧ execs ls' c = Some c' ∧
            readyState c' = Some OPEN ∧ wsConnected c' = true.
Proof.
  intros H Hall Hs. destruct (alive_execs _ _ _ _ _ H Hall) as [W A].
  destruct (decide (readyState c = Some CONNECTING)) as [Hc|Hc].
  { destruct (recover_connecting c Hc) as (s & c' & Hx & Hup). exists [Opened s], c'.
    split; [simpl; lia|]. cbn [run_steps]. by rewrite Hx. }
  destruct (decide (readyState c = Some CLOSING)) as [Hg|Hg].
  - unfold readyState in Hg. destruct (ws c) as [s|] eqn:Ews; [|done]. simpl in Hg.
    destruct (exec (Lost s false) c) as [c1|] eqn:E; [|simpl in E; by rewrite Hg in E].
    assert (W1 : wf c1) by by eapply wf_exec. simpl in E. rewrite Hg in E. simplify_eq.
    destruct (recover_due _ W1) as (t & s' & c' & Hx & Hup).
    + eexists _, _. split; [simpl; apply lookup_insert_eq|]. simpl. lia.
    + unfold onclose, stopHeartbeat, readyState; simpl.
      destruct (heartbeatTimer c); simpl; rewrite Ews; simpl; by rewrite lookup_insert_eq.
    + exists [Lost s false; Elapse 2000; TimerFires t true; Opened s'], c'.
      split; [simpl; lia|]. cbn [run_steps] in *. simpl exec at 1. by rewrite Hg.
  - destruct A as [A|(st & Hst & Hne)]; [|by destruct st].
    destruct (recover_due _ W A Hs) as (t & s & c' & Hx & Hup). eexists _, c'.
    split; [|split; [exact Hx|done]]. simpl. lia.
Qed.

Lemma connection_recovers_witness :
  let c := after [Mount false true; Opened 0; Lost 0 true] (initial_conn 0) in
  ∃ ls' c', (length ls' <= 4)%nat ∧ execs ls' c = Some c' ∧
            readyState c' = Some OPEN ∧ wsConnected c' = true.
Proof.
  intros c. apply (connection_recovers 0 false true [Opened 0; Lost 0 true] c).
  - vm_compute. reflexivity.
  - repeat constructor; discriminate.
  - vm_compute. discriminate.
Defined.

(** ** The connection flag *)

(** The socket events of the label, if any, concern the current socket. *)
Definition current (l : label) (c : conn) : Prop :=
  match l with
  | Opened s | Lost s _ | Received s _ => ws c = Some s
  | _ => True
  end.

(** States reached without an event of a socket that was already replaced. *)
Inductive undisturbed (t0 : Z) : conn -> Prop :=
| undisturbed_initial : undisturbed t0 (initial_conn t0)
| undisturbed_step l c c' :
    undisturbed t0 c -> current l c -> exec l c = Some c' -> undisturbed t0 c'.

Lemma undisturbed_wf t0 c : undisturbed t0 c -> wf c.
Proof. induction 1; [apply wf_initial|by eapply wf_exec]. Qed.

Definition monitored (c : conn) : Prop :=
  readyState c = Some OPEN -> wsConnected c = true ∧ is_Some (heartbeatTimer c).

Lemma ws_close_not_open c : readyState (ws_close c) ≠ Some OPEN.
Proof.
  destruct (ws_close_sockets c) as (m & -> & _ & Hm & _). unfold readyState; simpl.
  destruct (ws c) as [s|] eqn:Ews; [|done]. simpl. intros Ho. by apply Hm in Ho as [_ ?].
Qed.

Lemma readyState_stopHeartbeat c : readyState (stopHeartbeat c) = readyState c.
Proof. unfold stopHeartbeat. by destruct (heartbeatTimer c). Qed.

Lemma readyState_clear id c : readyState (clear_timer id c) = readyState c.
Proof. by destruct id. Qed.

(** Only an open socket keeps the flag and the heartbeat relevant. *)
Lemma monitored_not_open c : readyState c ≠ Some OPEN -> monitored c.
Proof. by intros H ?. Qed.

Lemma monitored_connect ok c : monitored c -> monitored (connect ok c).
Proof.
  intros M. unfold connect. case_decide as Ho; [done|]. apply monitored_not_open. destruct ok.
  - unfold readyState; simpl. by rewrite lookup_insert_eq.
  - change (readyState (clear_timer (reconnectTimer c) c) ≠ Some OPEN).
    by rewrite readyState_clear.
Qed.

Lemma monitored_onopen c : monitored (onopen c).
Proof.
  intros _. unfold onopen, startHeartbeat, stopHeartbeat; simpl.
  by destruct (heartbeatTimer c).
Qed.

Lemma closed_not_open s c : ws c = Some s -> readyState (with_sockets (<[s := CLOSED]> (sockets c)) c) ≠ Some OPEN.
Proof. intros Hs. unfold readyState; simpl. rewrite Hs. simpl. by rewrite lookup_insert_eq. Qed.

Lemma monitored_onclose c : readyState c ≠ Some OPEN -> monitored (onclose c).
Proof.
  intros H. apply monitored_not_open. unfold onclose.
  change (readyState (stopHeartbeat (with_wsConnected false c)) ≠ Some OPEN).
  by rewrite readyState_stopHeartbeat.
Qed.

Lemma monitored_exec l c c' : exec l c = Some c' -> current l c -> monitored c -> monitored c'.
Proof.
  intros H Hl M.
  assert (Hclose : ∀ s f, ws c = Some s ->
            monitored (onclose (if f : bool then onerror (with_sockets (<[s:=CLOSED]> (sockets c)) c)
                                else with_sockets (<[s:=CLOSED]> (sockets c)) c))).
  { intros s f Hs. apply monitored_onclose. destruct f; [apply ws_close_not_open|by apply closed_not_open]. }
  conn_step H; try apply monitored_onopen; try by apply (Hclose s true) || by apply (Hclose s false).
  - by apply monitored_connect.
  - done.
  - by apply monitored_connect.
  - unfold heartbeat. case_match; [apply monitored_not_open, ws_close_not_open|done].
  - unfold on_visible. case_match; [done|by apply monitored_connect].
  - apply monitored_not_open. unfold on_online.
    change (readyState (ws_close c) ≠ Some OPEN). apply ws_close_not_open.
  - unfold send. by repeat case_match.
  - apply monitored_not_open. unfold on_unmounted. rewrite readyState_clear, readyState_stopHeartbeat.
    apply ws_close_not_open.
  - done.
Qed.

(** C23: As long as no event of a replaced socket intervenes, an open connection is
    shown as connected and watched by a pending heartbeat, and the heartbeat
    closes it once nothing has been received for more than fifteen seconds. *)
Theorem open_is_monitored (t0 : Z) (c : conn) :
  undisturbed t0 c -> readyState c = Some OPEN ->
  wsConnected c = true ∧
  ∃ h d, timers c !! h = Some (Timer d RunHeartbeat) ∧
    (∀ ok, d <= clock c -> 15000 < clock c - lastMessageTime c ->
       ∃ c', exec (TimerFires h ok) c = Some c' ∧ readyState c' = Some CLOSING).
Proof.
  intros U Ho. assert (M : monitored c).
  { clear Ho. induction U as [|l c c' U IH Hl Hx]; [done|by eapply monitored_exec]. }
  destruct (M Ho) as [Hc [h Hh]]. split; [done|].
  apply (wf_heartbeat c (undisturbed_wf t0 c U)) in Hh as [d Hd]. exists h, d. split; [done|].
  intros ok Hdue Hs. eexists. split.
  - simpl. rewrite Hd, (proj2 (Z.leb_le _ _) Hdue). reflexivity.
  - unfold heartbeat. simpl. rewrite (proj2 (Z.ltb_lt _ _) Hs). unfold readyState, ws_close in *. simpl.
    destruct (ws c) as [s|] eqn:Ews; [|done]. simpl in *. rewrite Ho. simpl. rewrite Ews. simpl.
    apply lookup_insert_eq.
Qed.

Lemma open_is_monitored_witness :
  let c := after [Mount false true; Opened 0] (initial_conn 0) in
  wsConnected c = true ∧
  ∃ h d, timers c !! h = Some (Timer d RunHeartbeat) ∧
    (∀ ok, d <= clock c -> 15000 < clock c - lastMessageTime c ->
       ∃ c', exec (TimerFires h ok) c = Some c' ∧ readyState c' = Some CLOSING).
Proof.
  intros c. apply (open_is_monitored 0 c); [|vm_compute; reflexivity].
  apply (undisturbed_step 0 (Opened 0) (after [Mount false true] (initial_conn 0)));
    [|vm_compute; reflexivity|vm_compute; reflexivity].
  apply (undisturbed_step 0 (Mount false true) (initial_conn 0));
    [apply undisturbed_initial|exact I|reflexivity].
Defined.

(** ** What events of replaced sockets do *)

(** Data flows on an open socket, yet the page says it is disconnected and
    nothing watches the connection. *)
Definition blind (c : conn) : Prop :=
  readyState c = Some OPEN ∧ wsConnected c = false ∧ heartbeatTimer c = None.

(** The page goes online, reconnects after half a second, and then the old
    socket's close event arrives. *)
Definition stale_close : list label :=
  [Mount false true; Opened 0; WentOnline; Elapse 500; TimerFires 2 true; Opened 3;
   Lost 0 false; Elapse 2000; TimerFires 5 true].

Definition heals (l : label) : Prop :=
  match l with Opened _ | Lost _ _ | WentOnline | Unmount => True | _ => False end.

(** A stale close event leaves the page blind without any timer that could
    repair it, and it stays so through messages, timers and visibility changes
    until a socket event or a network change occurs. *)
Theorem stale_close_blinds :
  (∃ c, execs stale_close (initial_conn 0) = Some c ∧ blind c ∧ timers c = ∅) ∧
  (∀ t0 ls l c c', execs ls (initial_conn t0) = Some c ->
     blind c -> exec l c = Some c' -> ¬ heals l -> blind c').
Proof.
  split.
  { eexists. split; [vm_compute; reflexivity|]. split; [|by vm_compute]. by vm_compute. }
  intros t0 ls l c c' H (Ho & Hc & Hh) Hx Hl. assert (W : wf c) by by eapply wf_execs.
  assert (Hconn : ∀ ok c1, readyState c1 = readyState c -> connect ok c1 = c1).
  { intros ok c1 E. unfold connect. rewrite decide_True; [done|]. by rewrite E. }
  unfold blind. conn_step Hx; try by destruct Hl.
  - unfold on_mounted. by rewrite Hconn.
  - done.
  - by rewrite Hconn.
  - exfalso. assert (heartbeatTimer c = Some t) by (apply W; by eexists). congruence.
  - unfold on_visible. by rewrite decide_True.
  - unfold send. by repeat case_match.
  - done.
Qed.

Lemma stale_close_blinds_witness :
  let c := after stale_close (initial_conn 0) in blind (onmessage None c).
Proof.
  intros c. destruct stale_close_blinds as [_ H].
  apply (H 0 stale_close (Received 3 None) c (onmessage None c)).
  - vm_compute. reflexivity.
  - repeat split; vm_compute; reflexivity.
  - vm_compute. reflexivity.
  - intros [].
Defined.

(** The page is unmounted, then its socket's close event arrives and time passes. *)
Definition unmounted_page : list label :=
  [Mount false true; Opened 0; Unmount; Lost 0 false; Elapse 2000; TimerFires 2 true].

(** Unmounting closes the socket, and the close event arms the reconnect timer
    again: two seconds later the page opens a new connection. *)
Theorem unmount_reconnects :
  ∃ c, execs unmounted_page (initial_conn 0) = Some c ∧ readyState c = Some CONNECTING.
Proof. eexists. split; [vm_compute; reflexivity|by vm_compute]. Qed.

(** ** Sending *)

(** [send] writes exactly one message when the current socket is open, and
    nothing otherwise; the payload wins over the action argument. *)
Theorem send_only_when_open (action : string) (payload : obj) (c : conn) :
  NoDup payload.*1 ->
  (readyState c = Some OPEN ->
   ∃ s m, ws c = Some s ∧ sent (send action payload c) = sent c ++ [(s, m)] ∧
     ∀ k, assoc k m = match assoc k payload with
                      | Some v => Some v
                      | None => if String.eqb k "action" then Some (VStr action) else None
                      end) ∧
  (readyState c ≠ Some OPEN -> send action payload c = c).
Proof.
  intros Hnd. unfold send, readyState. destruct (ws c) as [s|]; simpl; [|done]. split.
  - intros Ho. rewrite decide_True by done. eexists s, _. split; [done|]. split; [reflexivity|].
    intros k. unfold object_assign. cbn [entries default].
    rewrite assoc_set_props by (by rewrite object_entries_perm).
    rewrite <- (assoc_perm k payload) by (done || symmetry; apply object_entries_perm). done.
  - intros Hn. by rewrite decide_False.
Qed.

Lemma send_only_when_open_witness :
  let c := after [Mount false true; Opened 0] (initial_conn 0) in
  let payload := [("name", VStr "pump")] in
  (readyState c = Some OPEN ->
   ∃ s m, ws c = Some s ∧ sent (send "toggle" payload c) = sent c ++ [(s, m)] ∧
     ∀ k, assoc k m = match assoc k payload with
                      | Some v => Some v
                      | None => if String.eqb k "action" then Some (VStr "toggle") else None
                      end) ∧
  (readyState c ≠ Some OPEN -> send "toggle" payload c = c).
Proof.
  intros c payload. apply (send_only_when_open "toggle" payload c). apply NoDup_singleton.
Defined.
