(* ===== verification/PageActions.v ===== *)
(** * Theme and software update of the dashboard

    [toggleTheme] and [checkOrUpdate] of
    [internal/html/static/js/dashboard.js].  [checkOrUpdate] awaits the server:
    a click and the arrival of a response are separate steps, between which
    other clicks and state messages may come. *)

From Stdlib Require Import ZArith Ascii String.
From stdpp Require Import base list option strings gmap fin_maps.
From S2P Require Import Prelude JsValue DashboardView Feed.

#[local] Open Scope string_scope.
#[local] Open Scope list_scope.
#[local] Open Scope Z_scope.

(** ** Theme *)

(** [isDark], the [light] class of the body, and the stored theme. *)
Record theme := Theme { isDark : bool; body_light : bool; stored_theme : option string }.

(** What the page sets up from local storage. *)
Definition load_theme (storage : option string) : theme :=
  let dark := match storage with Some s => String.eqb s "dark" | None => false end in
  Theme dark (negb dark) storage.

Definition toggleTheme (t : theme) : theme :=
  let dark := negb (isDark t) in
  Theme dark (negb dark) (Some (if dark then "dark" else "light")).

(** However often the theme is toggled, the page and the body agree, and a
    reload brings back the same theme. *)
Theorem theme_survives_reload (storage : option string) (n : nat) :
  let t := Nat.iter n toggleTheme (load_theme storage) in
  body_light t = negb (isDark t) ∧ load_theme (stored_theme t) = t ∧
  isDark t = xorb (Nat.odd n) (isDark (load_theme storage)).
Proof.
  induction n as [|n IH]; [done|]. cbn [Nat.iter nat_rect] in *.
  change (nat_rect (λ _ : nat, theme) (load_theme storage) (λ _ : nat, toggleTheme) n)
    with (Nat.iter n toggleTheme (load_theme storage)).
  set (t := Nat.iter n toggleTheme (load_theme storage)) in *. cbv zeta in *.
  destruct IH as (_ & _ & Hd). split; [done|]. split.
  - unfold toggleTheme, load_theme. simpl. by destruct (isDark t).
  - change (isDark (toggleTheme t)) with (negb (isDark t)).
    rewrite Hd, Nat.odd_succ, <- Nat.negb_odd. generalize (isDark (load_theme storage)).
    by intros []; destruct (Nat.odd n).
Qed.

(** ** Update *)

Inductive request : Type := UpdateRequest | CheckRequest.

(** What the two awaits give: a rejection with its message, or the JSON value. *)
Inductive response : Type :=
| Rejected (message : string)
| Json (data : val).

Inductive action : Type :=
| Confirm (text : string) (answer : bool)
| Post (path : string)
| Alert (text : string)
| ScheduleReload (ms : Z).

Record page := Page {
  state : obj;
  updating : bool;
  in_flight : gmap nat request;
  actions : list action;           (* what the page did, in order *)
  next_request : nat
}.

Definition initial_page (s : obj) : page := Page s false ∅ [] 0.

Definition act (a : action) (p : page) : page :=
  Page (state p) (updating p) (in_flight p) (actions p ++ [a]) (next_request p).

Definition set_updating (b : bool) (p : page) : page :=
  Page (state p) b (in_flight p) (actions p) (next_request p).

Definition set_state (s : obj) (p : page) : page :=
  Page s (updating p) (in_flight p) (actions p) (next_request p).

Definition post (path : string) (r : request) (p : page) : page :=
  let p := act (Post path) p in
  Page (state p) (updating p) (<[next_request p := r]> (in_flight p)) (actions p)
       (S (next_request p)).

Section update.
(** The engine's message for reading a property of [null]. *)
Variable null_message : string.

(** [checkOrUpdate()] up to its first await; [answer] is the user's. *)
Definition checkOrUpdate (answer : bool) (p : page) : page :=
  if hasUpdate (state p) then
    let p := act (Confirm ("Update to v" +:+ to_string (field (state p) "latest_version") +:+ "?") answer) p in
    if answer then post "/api/update" UpdateRequest (set_updating true p) else p
  else post "/api/check-update" CheckRequest p.

Definition update_failed (message : string) (p : page) : page :=
  set_updating false (act (Alert ("Update failed: " +:+ message)) p).

(** The rest of the update branch. *)
Definition finish_update (r : response) (p : page) : page :=
  match r with
  | Rejected message => update_failed message p
  | Json data =>
      match getp data "error" with
      | None => update_failed null_message p
      | Some error =>
          if truthy error then update_failed (to_string error) p
          else
            let version := default VUndef (getp data "version") in
            act (ScheduleReload 3000)
                (act (Alert ("Updated to v" +:+ to_string version +:+ ", restarting...")) p)
      end
  end.

(** The rest of the check branch. *)
Definition finish_check (r : response) (p : page) : page :=
  match r with
  | Rejected _ => act (Alert "Failed to check for updates") p
  | Json data =>
      match getp data "latest" with
      | None => act (Alert "Failed to check for updates") p
      | Some latest =>
          let current := default VUndef (getp data "current") in
          if truthy latest && negb (strict_eq latest current) then
            set_state (set_prop "latest_version" latest (state p)) p
          else act (Alert ("You are running the latest version (v" +:+ to_string current +:+ ")")) p
      end
  end.

Inductive event : Type :=
| Click (answer : bool)
| Respond (id : nat) (r : response)
| StateMessage (data : val).

Definition step (e : event) (p : page) : option page :=
  match e with
  | Click answer => Some (checkOrUpdate answer p)
  | Respond id r =>
      match in_flight p !! id with
      | Some q =>
          let p := Page (state p) (updating p) (delete id (in_flight p)) (actions p) (next_request p) in
          Some (match q with UpdateRequest => finish_update r p | CheckRequest => finish_check r p end)
      | None => None
      end
  | StateMessage data => Some (set_state (object_assign (state p) data) p)
  end.

(** ** Properties *)

Definition reloads (p : page) : Prop := ScheduleReload 3000 ∈ actions p.

Definition update_in_flight (p : page) : Prop := ∃ id, in_flight p !! id = Some UpdateRequest.

(** A post of an update follows a confirmation at once. *)
Definition confirmed_posts (l : list action) : Prop :=
  ∀ i, l !! i = Some (Post "/api/update") ->
    ∃ j text, i = S j ∧ l !! j = Some (Confirm text true).

Lemma confirmed_posts_snoc l a :
  a ≠ Post "/api/update" -> confirmed_posts l -> confirmed_posts (l ++ [a]).
Proof.
  intros Ha H i Hi. apply lookup_app_Some in Hi as [Hi|[Hle Hi]].
  - destruct (H i Hi) as (j & text & -> & Hj). exists j, text. split; [done|].
    by apply lookup_app_l_Some.
  - destruct (i - length l)%nat; simpl in Hi; [congruence|done].
Qed.

Lemma confirmed_posts_post l text :
  confirmed_posts l -> confirmed_posts ((l ++ [Confirm text true]) ++ [Post "/api/update"]).
Proof.
  intros H i Hi. apply lookup_app_Some in Hi as [Hi|[Hle Hi]].
  - destruct (confirmed_posts_snoc l (Confirm text true) ltac:(done) H i Hi) as (j & t & -> & Hj).
    exists j, t. split; [done|]. by apply lookup_app_l_Some.
  - rewrite length_app in *. simpl in *. exists (length l), text.
    split.
    + destruct (i - (length l + 1))%nat as [|m] eqn:E; [lia|done].
    + rewrite lookup_app_l by (rewrite length_app; simpl; lia). by apply list_lookup_middle.
Qed.

Record sound (p : page) : Prop := {
  sound_updating : updating p = true -> update_in_flight p ∨ reloads p;
  sound_posts : confirmed_posts (actions p);
  sound_fresh : ∀ id q, in_flight p !! id = Some q -> (id < next_request p)%nat
}.

Lemma reloads_snoc a p : reloads p -> reloads (act a p).
Proof. unfold reloads. simpl. rewrite elem_of_app. by left. Qed.

(** An alert changes nothing the invariant speaks of. *)
Lemma sound_alert text p : sound p -> sound (act (Alert text) p).
Proof.
  intros [Hu Hp Hf]. constructor; simpl; [|by apply confirmed_posts_snoc|done].
  intros E. destruct (Hu E) as [?|?]; [by left|right; by apply reloads_snoc].
Qed.

Lemma sound_not_updating p : sound p -> sound (set_updating false p).
Proof. intros [_ Hp Hf]. by constructor. Qed.

Lemma sound_check path p : path ≠ "/api/update" -> sound p -> sound (post path CheckRequest p).
Proof.
  intros Hpath [Hu Hp Hf]. constructor; simpl.
  - intros E. destruct (Hu E) as [[i Hi]|?]; [left|right; by apply (reloads_snoc (Post _))].
    exists i. simpl. rewrite lookup_insert_ne; [done|]. apply Hf in Hi. lia.
  - apply confirmed_posts_snoc; [congruence|done].
  - intros i q Hi. apply lookup_insert_Some in Hi as [[<- _]|[_ Hi]]; [lia|]. apply Hf in Hi. lia.
Qed.

Lemma sound_click answer p : sound p -> sound (checkOrUpdate answer p).
Proof.
  intros S. unfold checkOrUpdate. destruct (hasUpdate (state p)); [|by apply sound_check].
  destruct S as [Hu Hp Hf]. destruct answer; constructor; simpl.
  - intros _. left. exists (next_request p). simpl. apply lookup_insert_eq.
  - by apply confirmed_posts_post.
  - intros i q Hi. apply lookup_insert_Some in Hi as [[<- _]|[_ Hi]]; [lia|]. apply Hf in Hi. lia.
  - intros E. destruct (Hu E) as [?|?]; [by left|right; by apply reloads_snoc].
  - by apply confirmed_posts_snoc.
  - done.
Qed.

(** Answering an update ends in a failure that releases the button, or in a
    scheduled reload. *)
Lemma finish_update_cases r p :
  (∃ text, finish_update r p = set_updating false (act (Alert text) p)) ∨
  (∃ text, finish_update r p = act (ScheduleReload 3000) (act (Alert text) p)).
Proof.
  unfold finish_update, update_failed. destruct r as [m|data]; [by left; eexists|].
  destruct (getp data "error") as [error|]; [|by left; eexists].
  destruct (truthy error); [by left; eexists|by right; eexists].
Qed.

Lemma finish_check_cases r p :
  (∃ text, finish_check r p = act (Alert text) p) ∨
  (∃ latest, finish_check r p = set_state (set_prop "latest_version" latest (state p)) p).
Proof.
  unfold finish_check. destruct r as [m|data]; [by left; eexists|].
  destruct (getp data "latest") as [latest|]; [|by left; eexists].
  destruct (_ && _); [by right; eexists|by left; eexists].
Qed.

Definition settle (id : nat) (p : page) : page :=
  Page (state p) (updating p) (delete id (in_flight p)) (actions p) (next_request p).

Lemma settle_posts id p : sound p -> confirmed_posts (actions (settle id p)) ∧
  (∀ i q, in_flight (settle id p) !! i = Some q -> (i < next_request (settle id p))%nat).
Proof.
  intros [_ Hp Hf]. split; [done|]. intros i q Hi. simpl in *.
  apply lookup_delete_Some in Hi as [_ Hi]. by eapply Hf.
Qed.

Lemma step_sound e p p' : step e p = Some p' -> sound p -> sound p'.
Proof.
  intros H S. destruct e as [answer|id r|data]; simpl in H.
  - injection H as <-. by apply sound_click.
  - destruct (in_flight p !! id) as [q|] eqn:Eq; [|done]. injection H as <-.
    fold (settle id p). destruct (settle_posts id p S) as [Hp Hf]. destruct q.
    + destruct (finish_update_cases r (settle id p)) as [[text ->]|[text ->]];
        constructor; simpl; try done.
      * by apply confirmed_posts_snoc.
      * intros _. right. unfold reloads; simpl. rewrite elem_of_app. right. left.
      * by do 2 (apply confirmed_posts_snoc; [done|]).
    + assert (S' : sound (settle id p)).
      { constructor; [|done|done]. simpl. intros E.
        destruct (sound_updating p S E) as [[i Hi]|?]; [left|by right].
        exists i. simpl. rewrite lookup_delete_ne; [done|]. congruence. }
      destruct (finish_check_cases r (settle id p)) as [[text ->]|[latest ->]];
        [by apply sound_alert|by destruct S'].
  - injection H as <-. by destruct S.
Qed.

(** Whatever the order of clicks, responses and state messages: the page says
    it is updating only while an update request is in flight or a reload is
    scheduled, so a failed update always releases the button; and every
    update request follows the user's confirmation. *)
Theorem update_flow_sound (es : list event) (s : obj) (p : page) :
  run_steps step es (initial_page s) = Some p ->
  (updating p = true -> update_in_flight p ∨ reloads p) ∧ confirmed_posts (actions p).
Proof.
  intros H. assert (S : sound p); [|by destruct S].
  eapply run_steps_ind; [exact step_sound|exact H|]. by constructor.
Qed.

(** One click on a page with an update: what the user and the server answer
    decides what happens. *)
Theorem update_outcome (p : page) (r : response) :
  hasUpdate (state p) = true ->
  updating (checkOrUpdate false p) = updating p ∧ in_flight (checkOrUpdate false p) = in_flight p ∧
  ∃ p', run_steps step [Click true; Respond (next_request p) r] p = Some p' ∧
    match r with
    | Json (VObj o) =>
        if truthy (field o "error") then
          updating p' = false ∧ last (actions p') = Some (Alert ("Update failed: " +:+ to_string (field o "error")))
        else updating p' = true ∧ last (actions p') = Some (ScheduleReload 3000)
    | Json _ => True
    | Rejected m => updating p' = false ∧ last (actions p') = Some (Alert ("Update failed: " +:+ m))
    end.
Proof.
  intros Hu. unfold checkOrUpdate at 1 2. rewrite Hu. split; [done|]. split; [done|].
  cbn [run_steps step]. unfold checkOrUpdate. rewrite Hu. simpl. rewrite lookup_insert_eq.
  eexists. split; [reflexivity|]. destruct r as [m|[| | | | | |o]]; simpl; try done.
  - split; [done|]. apply last_snoc.
  - change (default VUndef (assoc "error" o)) with (field o "error").
    destruct (truthy (field o "error")); (split; [done|]); apply last_snoc.
Qed.
End update.

Definition sample_page : page :=
  initial_page [("latest_version", VStr "2.0.1"); ("dashboard_version", VStr "2.0.0")].

Lemma update_flow_sound_witness :
  let p := default sample_page
    (run_steps (step "null") [Click true; Click true; Respond 0 (Json (VObj [("error", VStr "busy")]))] sample_page) in
  (updating p = true -> update_in_flight p ∨ reloads p) ∧ confirmed_posts (actions p).
Proof.
  intros p.
  apply (update_flow_sound "null" [Click true; Click true; Respond 0 (Json (VObj [("error", VStr "busy")]))]
           [("latest_version", VStr "2.0.1"); ("dashboard_version", VStr "2.0.0")] p).
  vm_compute. reflexivity.
Defined.

Lemma update_outcome_witness :
  updating (checkOrUpdate false sample_page) = false ∧
  ∃ p', run_steps (step "null") [Click true; Respond 0 (Rejected "offline")] sample_page = Some p' ∧
    updating p' = false ∧ last (actions p') = Some (Alert ("Update failed: " +:+ "offline")).
Proof.
  destruct (update_outcome "null" sample_page (Rejected "offline")) as (Hu & _ & H); [reflexivity|].
  split; [exact Hu|exact H].
Defined.
