(* ===== verification/Acceptance.v ===== *)
(** * The browser acceptance harness: inventory and server

    [scripts/browser-acceptance.cjs], first part: the verification of the
    embedded frontend against its recorded inventory, and the server that hands
    out the verified files.  Hashing, collation, file extensions and the parsing
    of URLs are the platform's: variables of the sections that use them. *)

From Stdlib Require Import ZArith Ascii String.
From stdpp Require Import base list option strings gmap sets.
From S2P Require Import Prelude JsValue SwEvents.

#[local] Open Scope string_scope.
#[local] Open Scope list_scope.
#[local] Open Scope Z_scope.

(** ** The frontend's inventory *)

#[local] Set Warnings "-register-all".

Inductive entry : Type :=
| File (data : string)
| Directory (items : list (string * entry))
| Link
| Special.

Definition join (path name : string) : string :=
  if String.eqb path "" then name else path +:+ "/" +:+ name.

(** A served file with its extension. *)
Record asset := Asset { asset_data : string; asset_extension : string }.

Lemma prefix_app a b s : String.prefix (a +:+ b) s = true -> String.prefix a s = true.
Proof.
  revert s; induction a as [|c a IH]; intros s H; [by destruct s|].
  destruct s as [|c' s]; [done|]. change (String c a +:+ b) with (String c (a +:+ b)) in H.
  cbn [String.prefix] in *. destruct (ascii_dec c c'); [by apply IH|done].
Qed.

Section inventory.
Variable sha256 : string -> string.                    (* crypto *)
Variable localeCompare : string -> string -> Z.        (* collation *)
Variable extname : string -> string.                   (* node:path *)
Variable manifest_file : string.                       (* relative to dist *)

(** [inspectFiles]: the regular files below a path in traversal order; [None]:
    an assertion fails. *)
Fixpoint inspect_entry (path : string) (e : entry) : option (list (string * string)) :=
  match e with
  | Link | Special => None
  | File data => if String.eqb path manifest_file then Some [] else Some [(path, data)]
  | Directory items =>
      (fix inspect_items (items : list (string * entry)) : option (list (string * string)) :=
         match items with
         | [] => Some []
         | (name, e) :: items' =>
             files ← inspect_entry (join path name) e;
             rest ← inspect_items items';
             Some (files ++ rest)
         end) items
  end.

Definition inspectFiles (dist : list (string * entry)) : option (list (string * string)) :=
  inspect_entry "" (Directory dist).

Definition sorted_keys {V} (m : list (string * V)) : list string :=
  stable_sort (fun a b => 0 <? localeCompare a b) m.*1.

(** [actual] and [staticAssets]. *)
Definition actual_of (files : list (string * string)) : list (string * string) :=
  set_props [] ((λ e, (e.1, sha256 e.2)) <$> files).

Definition static_assets (files : list (string * string)) : list (string * asset) :=
  set_props [] ((λ e, ("/" +:+ e.1, Asset e.2 (extname e.1))) <$> files).

(** Lines 24 to 51: the assets to serve, or [None] when an assertion fails. *)
Definition verify (entries : list (string * string)) (dist : list (string * entry))
  : option (list (string * asset)) :=
  let expected := set_props [] entries in
  if negb (Nat.ltb 0 (length expected) && Nat.eqb (length expected) (length entries)) then None
  else
    files ← inspectFiles dist;
    let actual := actual_of files in
    if negb (bool_decide (sorted_keys actual = sorted_keys expected)) then None
    else if forallb (λ e, hex64 e.2 && bool_decide (assoc e.1 actual = Some e.2)) expected
    then Some (static_assets files)
    else None.

(** ** The server *)

Inductive reply : Type :=
| ReplyJson (data : val)
| ReplyFile (mime data : string)
| ReplyNotFound.

Definition mime : list (string * string) := [
  (".html", "text/html"); (".js", "text/javascript"); (".css", "text/css");
  (".svg", "image/svg+xml"); (".json", "application/json"); (".woff2", "font/woff2");
  (".png", "image/png"); (".ico", "image/x-icon")].

Definition snapshot : val := VObj [
  ("system", VObj [("0/Dc/Battery/Soc", VInt 61); ("0/Ac/Grid/L1/Power", VInt 123)]);
  ("battery", VObj [("0/Soc", VInt 61); ("0/CustomName", VStr "Public fixture battery")])].

(** The request listener, on the path of the request's URL. *)
Definition serve (assets : list (string * asset)) (state : list (string * val)) (paused : bool)
    (route : string) : reply :=
  if String.eqb route "/api/state" then
    ReplyJson (VObj (set_props state [("native_connected", VBool (negb paused));
                                      ("mqtt_connected", VBool (negb paused))]))
  else if String.prefix "/api/notifications/" route then
    ReplyJson (VObj [("items", VArr []); ("notifications", VArr []);
                     ("enabled", VBool false); ("available", VBool false)])
  else if String.eqb route "/api/gateway/snapshot" then ReplyJson snapshot
  else
    let file := if String.eqb route "/" then "/index.html" else route in
    match assoc file assets with
    | None => ReplyNotFound
    | Some a =>
        ReplyFile (default "application/octet-stream" (assoc (asset_extension a) mime)) (asset_data a)
    end.

(** ** Verified files are the files served *)

Lemma assoc_actual files f :
  assoc f (actual_of files) = sha256 <$> assoc f (set_props [] files).
Proof.
  unfold actual_of. change [] with ((λ e : string * string, (id e.1, sha256 e.2)) <$> []).
  rewrite (set_props_fmap id (λ _, sha256)) by apply _.
  exact (assoc_fmap id (λ _, sha256) (set_props [] files) f _).
Qed.

#[local] Instance slash_inj : Inj (=) (=) (String.append "/").
Proof. intros x y H. by injection H. Qed.

Lemma static_assets_fmap files :
  static_assets files
  = (λ e, (String.append "/" e.1, Asset e.2 (extname e.1))) <$> set_props [] files.
Proof. apply (set_props_fmap (String.append "/") (λ k d, Asset d (extname k)) []). apply _. Qed.

Lemma assoc_static files f :
  assoc ("/" +:+ f) (static_assets files)
  = (λ d, Asset d (extname f)) <$> assoc f (set_props [] files).
Proof.
  rewrite static_assets_fmap.
  exact (assoc_fmap (String.append "/") (λ k d, Asset d (extname k)) (set_props [] files) f _).
Qed.

Lemma static_assets_slash files k : is_Some (assoc k (static_assets files)) -> ∃ f, k = "/" +:+ f.
Proof.
  rewrite static_assets_fmap, assoc_is_Some. intros Hin.
  apply list_elem_of_fmap in Hin as ([k' v] & -> & Hin).
  apply list_elem_of_fmap in Hin as ([f d] & Heq & _). simplify_eq. by exists f.
Qed.

Lemma sorted_keys_elem {V} (m : list (string * V)) k : k ∈ sorted_keys m ↔ k ∈ m.*1.
Proof. unfold sorted_keys. by rewrite stable_sort_perm. Qed.

(** Exactly what a successful verification guarantees: the assets are the
    inventory's files, byte for byte up to the hash. *)
Lemma verify_assets entries dist assets f :
  verify entries dist = Some assets ->
  (sha256 ∘ asset_data) <$> assoc ("/" +:+ f) assets = assoc f (set_props [] entries).
Proof.
  unfold verify. destruct (negb _); [done|].
  destruct (inspectFiles dist) as [files|]; simpl; [|done].
  destruct (bool_decide (sorted_keys (actual_of files) = _)) eqn:Hk; simpl; [|done].
  apply bool_decide_eq_true in Hk.
  destruct (forallb _ _) eqn:Hall; [|done]. intros [= <-].
  rewrite assoc_static, <- option_fmap_compose.
  change (sha256 <$> assoc f (set_props [] files) = assoc f (set_props [] entries)).
  rewrite <- assoc_actual. rewrite forallb_forall in Hall.
  destruct (assoc f (set_props [] entries)) as [h|] eqn:E.
  - apply assoc_elem, list_elem_of_In in E. apply Hall in E. simpl in E.
    apply andb_true_iff in E as [_ E]. by apply bool_decide_eq_true in E.
  - apply assoc_None in E. apply assoc_None. rewrite <- sorted_keys_elem in E |- *. by rewrite Hk.
Qed.

(** After a successful verification the server answers every request outside
    the API with a file of the inventory whose bytes have the recorded hash,
    or with 404; and every file of the inventory is served at its path. *)
Theorem serves_only_inventory entries dist assets state paused :
  verify entries dist = Some assets ->
  (∀ route m data, serve assets state paused route = ReplyFile m data ->
     ∃ f, (route = "/" +:+ f ∨ (route = "/" ∧ f = "index.html")) ∧
          assoc f (set_props [] entries) = Some (sha256 data)) ∧
  (∀ f h, assoc f (set_props [] entries) = Some h -> f ≠ "" -> String.prefix "api/" f = false ->
     ∃ m data, serve assets state paused ("/" +:+ f) = ReplyFile m data ∧ sha256 data = h).
Proof.
  intros Hv. pose proof (λ f, verify_assets _ _ _ f Hv) as Ha. split.
  - intros route m data. unfold serve. do 3 (case_match; [done|]).
    destruct (assoc _ assets) as [a|] eqn:E; [|done]. intros [= _ <-].
    assert (Hf : ∃ f, (if String.eqb route "/" then "/index.html" else route) = "/" +:+ f).
    { clear -Hv E. unfold verify in Hv. destruct (negb _); [done|].
      destruct (inspectFiles dist); simpl in Hv; [|done]. destruct (negb _); [done|].
      destruct (forallb _ _); simplify_eq. eapply static_assets_slash. rewrite E. eauto. }
    destruct Hf as [f Hf]. rewrite Hf in E. exists f. split.
    + destruct (String.eqb_spec route "/") as [->|]; [right|by left]. split; [done|].
      injection Hf as Hf. by symmetry.
    + by rewrite <- Ha, E.
  - intros f h Hf Hne Hapi. change ("/" +:+ f) with (String "/" f). pose proof (Ha f) as Hs. rewrite Hf in Hs.
    change ("/" +:+ f) with (String "/" f) in Hs.
    destruct (assoc (String "/" f) assets) as [a|] eqn:E; [|done]. simpl in Hs. injection Hs as Hs.
    unfold serve.
    destruct (String.eqb_spec (String "/" f) "/api/state") as [Heq|_]; [by simplify_eq/=|].
    destruct (String.prefix "/api/notifications/" (String "/" f)) eqn:Hp.
    { exfalso. apply (prefix_app "/api/" "notifications/") in Hp. simpl in Hp.
      rewrite Hapi in Hp. done. }
    destruct (String.eqb_spec (String "/" f) "/api/gateway/snapshot") as [Heq|_]; [by simplify_eq/=|].
    rewrite (proj2 (String.eqb_neq (String "/" f) "/")) by (by intros [= ?]).
    rewrite E. eauto.
Qed.
End inventory.

(** A distribution of one page and its manifest, hashed by a constant digest of
    the right shape. *)
Definition sample_digest (data : string) : string :=
  if String.eqb data "<html>"
  then "aaaaaaaaaaaaaaaaaaaaaaaaaaaaaaaaaaaaaaaaaaaaaaaaaaaaaaaaaaaaaaaa"
  else "bbbbbbbbbbbbbbbbbbbbbbbbbbbbbbbbbbbbbbbbbbbbbbbbbbbbbbbbbbbbbbbb".

Definition sample_compare (a b : string) : Z :=
  match String.compare a b with Lt => -1 | Eq => 0 | Gt => 1 end.

Definition sample_dist : list (string * entry) :=
  [("assets", Directory [("app.js", File "js")]); ("index.html", File "<html>"); ("manifest.json", File "{}")].

Definition sample_entries : list (string * string) :=
  [("index.html", sample_digest "<html>"); ("assets/app.js", sample_digest "js")].

Definition sample_assets : list (string * asset) :=
  default [] (verify sample_digest sample_compare (λ _, ".html") "manifest.json" sample_entries sample_dist).

Lemma serves_only_inventory_witness :
  (∀ route m data, serve sample_assets [] false route = ReplyFile m data ->
     ∃ f, (route = "/" +:+ f ∨ (route = "/" ∧ f = "index.html")) ∧
          assoc f (set_props [] sample_entries) = Some (sample_digest data)) ∧
  (∀ f h, assoc f (set_props [] sample_entries) = Some h -> f ≠ "" -> String.prefix "api/" f = false ->
     ∃ m data, serve sample_assets [] false ("/" +:+ f) = ReplyFile m data ∧ sample_digest data = h).
Proof.
  apply (serves_only_inventory sample_digest sample_compare (λ _, ".html") "manifest.json"
           sample_entries sample_dist sample_assets [] false).
  vm_compute. reflexivity.
Defined.
