(* ===== verification/AcceptanceFixture.v ===== *)
(** * The WebSocket fixture of the acceptance harness

    The synthetic backend of [scripts/browser-acceptance.cjs] (its routed
    WebSockets, its command handler, [broadcast]), [trackMockSocket] of
    [scripts/browser-socket-fixture.cjs], and the polling helper [eventually]
    on a read that changes nothing. *)

From Stdlib Require Import ZArith Ascii String.
From stdpp Require Import base list option strings.
From S2P Require Import Prelude JsValue.

#[local] Open Scope string_scope.
#[local] Open Scope list_scope.
#[local] Open Scope Z_scope.

(** ** The close handshake *)

(** The options of [socket.close]: a code and a reason, or none. *)
Definition close_options : Type := option (Z * string).

Definition forwarded_options (code : Z) (reason : string) : close_options :=
  if (code =? 1000) || ((3000 <=? code) && (code <=? 4999)) then Some (code, reason) else None.

Section tracking.
(** Playwright's acknowledgement: the close callbacks that closing a socket
    with these options triggers synchronously. *)
Variable acknowledge : nat -> close_options -> list (Z * string).

(** [sockets.add(socket)]. *)
Definition track (socket : nat) (sockets : list nat) : list nat :=
  if decide (socket ∈ sockets) then sockets else sockets ++ [socket].

(** The [onClose] callback on the tracked sockets and the forwarded closes.
    [fuel] bounds the nesting of callbacks. *)
Fixpoint on_close (fuel : nat) (socket : nat) (code : Z) (reason : string)
    (st : list nat * list (nat * close_options)) : option (list nat * list (nat * close_options)) :=
  match fuel with
  | O => None
  | S fuel' =>
      if decide (socket ∈ fst st) then
        let options := forwarded_options code reason in
        foldl (λ acc e, st ← acc; on_close fuel' socket e.1 e.2 st)
              (Some (filter (λ s, s ≠ socket) (fst st), snd st ++ [(socket, options)]))
              (acknowledge socket options)
      else Some st
  end.

Lemma on_close_untracked fuel socket code reason st :
  socket ∉ fst st -> on_close (S fuel) socket code reason st = Some st.
Proof. intros H. simpl. by rewrite decide_False. Qed.

(** However often the acknowledgement triggers the callback again, the
    handshake ends, forwards exactly one close for the socket, with a code a
    client may send or none, and forgets the socket only. *)
Theorem close_forwarded_once (fuel : nat) (socket : nat) (code : Z) (reason : string)
    (sockets : list nat) (closes : list (nat * close_options)) :
  socket ∈ sockets -> (2 <= fuel)%nat ->
  ∃ options,
    on_close fuel socket code reason (sockets, closes)
    = Some (filter (λ s, s ≠ socket) sockets, closes ++ [(socket, options)]) ∧
    match options with
    | Some (c, r) => c = code ∧ r = reason ∧ (c = 1000 ∨ 3000 <= c <= 4999)
    | None => code ≠ 1000 ∧ ¬ 3000 <= code <= 4999
    end.
Proof.
  intros Hs Hf. destruct fuel as [|[|fuel]]; [lia|lia|].
  exists (forwarded_options code reason). split.
  - cbn [on_close fst snd]. rewrite decide_True by done.
    set (st := (filter (λ s, s ≠ socket) sockets, closes ++ [(socket, forwarded_options code reason)])).
    induction (acknowledge socket (forwarded_options code reason)) as [|[c r] l IH]; [done|].
    cbn [foldl mbind option_bind fst snd].
    rewrite decide_False; [exact IH|]. unfold st; simpl. rewrite list_elem_of_filter. by intros [H _].
  - unfold forwarded_options. destruct (_ || _) eqn:E.
    + repeat (split; [done|]). bool_cases; lia.
    + bool_cases; lia.
Qed.
End tracking.

(** ** The synthetic backend *)

Record fixture := Fixture {
  fx_state : list (string * val);
  reject : bool;
  paused : bool;
  commands : list val;
  fx_sockets : list nat;
  connections : Z
}.

Inductive socket_effect : Type :=
| SendTo (socket : nat) (message : val)
| CloseSocket (socket : nat).

(** [broadcast()]. *)
Definition broadcast (fx : fixture) : list socket_effect :=
  (λ s, SendTo s (VObj (fx_state fx))) <$> fx_sockets fx.

(** A routed WebSocket: the page's own [/ws] is tracked and greeted with the
    state, anything else is closed and recorded as blocked. *)
Definition on_route (host pathname origin_host origin : string) (socket : nat) (fx : fixture)
  : fixture * list socket_effect * list string :=
  if negb (String.eqb host origin_host) || negb (String.eqb pathname "/ws") then
    (fx, [CloseSocket socket], [origin])
  else if paused fx then (fx, [CloseSocket socket], [])
  else
    (Fixture (fx_state fx) (reject fx) (paused fx) (commands fx) (track socket (fx_sockets fx))
             (connections fx + 1),
     [SendTo socket (VObj (fx_state fx))], []).

(** A property of an object literal whose value may be undefined is dropped by
    [JSON.stringify]. *)
Definition defined_props (o : list (string * val)) : list (string * val) :=
  List.filter (fun e => negb (strict_eq (snd e) VUndef)) o.

Definition prop_of (command : val) (k : string) : val := default VUndef (getp command k).

(** The settings object inside the fixture's state, and its replacement. *)
Definition get_settings (state : list (string * val)) : option (list (string * val)) :=
  match assoc "ui_config" state with
  | Some (VObj ui) => match assoc "settings" ui with Some (VObj s) => Some s | _ => None end
  | _ => None
  end.

Definition put_settings (s : list (string * val)) (state : list (string * val)) : list (string * val) :=
  match assoc "ui_config" state with
  | Some (VObj ui) => set_prop "ui_config" (VObj (set_prop "settings" (VObj s) ui)) state
  | _ => state
  end.

(** The entries of a [set_settings] command that are settings. *)
Definition patch_of (command : val) : list (string * val) :=
  filter (λ e, e.1 ≠ "action" ∧ e.1 ≠ "request_id") (default [] (entries command)).

(** The [onMessage] handler; the boolean is false when it throws. *)
Definition on_command (socket : nat) (raw : option val) (fx : fixture)
  : fixture * list socket_effect * bool :=
  match raw with
  | None => (fx, [], false)
  | Some command =>
      let fx := Fixture (fx_state fx) (reject fx) (paused fx) (commands fx ++ [command])
                        (fx_sockets fx) (connections fx) in
      match getp command "action" with
      | None => (fx, [], false)
      | Some action =>
          let id := prop_of command "request_id" in
          if reject fx then
            (fx, [SendTo socket (VObj (defined_props
                    [("type", VStr "command_error"); ("action", action); ("request_id", id);
                     ("error", VStr "Synthetic rejection")]))], true)
          else
            let result := SendTo socket (VObj (defined_props
                    [("type", VStr "command_result"); ("action", action); ("request_id", id);
                     ("status", VStr "accepted")])) in
            if is_str action "set_settings" then
              match get_settings (fx_state fx) with
              | None => (fx, [result], false)
              | Some s =>
                  let fx := Fixture (put_settings (set_props s (patch_of command)) (fx_state fx))
                                    (reject fx) (paused fx) (commands fx) (fx_sockets fx) (connections fx) in
                  (fx, result :: broadcast fx, true)
              end
            else (fx, [result], true)
      end
  end.

Lemma get_put_settings s state :
  is_Some (get_settings state) -> get_settings (put_settings s state) = Some s.
Proof.
  unfold get_settings, put_settings. destruct (assoc "ui_config" state) as [v|]; [|by intros []].
  destruct v as [| | | | | |ui]; try by intros []. intros _.
  by rewrite assoc_set_prop, String.eqb_refl, assoc_set_prop, String.eqb_refl.
Qed.

Lemma assoc_filter_key (P : string -> Prop) `{!∀ k, Decision (P k)}
    `{!∀ e : string * val, Decision (P e.1)} k (m : list (string * val)) :
  assoc k (filter (λ e, P e.1) m) = if decide (P k) then assoc k m else None.
Proof.
  induction m as [|[k1 v1] m IH]; [by case_decide|]. rewrite filter_cons.
  cbn [fst]. destruct (decide (P k1)) as [H1|H1]; cbn [assoc]; rewrite IH;
    destruct (String.eqb_spec k k1) as [->|]; try done; by repeat case_decide.
Qed.

(** A rejected command is recorded and answered with an error, and changes
    nothing else; an accepted [set_settings] overwrites exactly the settings
    the command names and shows every tracked socket the new state, after the
    answer. *)
Theorem command_effects (socket : nat) (o : list (string * val)) (fx : fixture) :
  NoDup o.*1 -> is_Some (get_settings (fx_state fx)) -> is_str (prop_of (VObj o) "action") "set_settings" = true ->
  let '(fx', effects, completed) := on_command socket (Some (VObj o)) fx in
  completed = true ∧ commands fx' = commands fx ++ [VObj o] ∧ fx_sockets fx' = fx_sockets fx ∧
  if reject fx then
    fx_state fx' = fx_state fx ∧ ∃ e, effects = [SendTo socket e] ∧ is_str (prop_of e "type") "command_error" = true
  else
    (∃ e, effects = SendTo socket e :: broadcast fx' ∧ is_str (prop_of e "type") "command_result" = true) ∧
    ∃ s s', get_settings (fx_state fx) = Some s ∧ get_settings (fx_state fx') = Some s' ∧
      ∀ k, assoc k s' = if decide (k ≠ "action" ∧ k ≠ "request_id")
                        then match assoc k o with Some v => Some v | None => assoc k s end
                        else assoc k s.
Proof.
  intros Hnd [s Hs] Ha. unfold on_command. unfold prop_of in Ha. cbn [getp] in *. simpl in Ha.
  destruct (reject fx); cbn [reject].
  { repeat (split; [done|]). by eexists. }
  rewrite Ha. cbn [fx_state]. rewrite Hs. repeat (split; [done|]). split; [by eexists|].
  eexists s, _. split; [done|]. cbn [fx_state]. split; [by apply get_put_settings; rewrite Hs|].
  intros k.
  assert (Hp : NoDup (patch_of (VObj o)).*1).
  { unfold patch_of. cbn [entries default].
    eapply sublist_NoDup; [|apply fmap_sublist, sublist_filter]. by rewrite object_entries_perm. }
  rewrite assoc_set_props by done. unfold patch_of. cbn [entries default].
  rewrite (assoc_filter_key (λ k, k ≠ "action" ∧ k ≠ "request_id")).
  rewrite <- (assoc_perm k o) by (done || symmetry; apply object_entries_perm).
  by case_decide.
Qed.

(** ** Polling *)

Inductive poll_result (A : Type) : Type :=
| Passed (value : A) (polls : nat)
| TimedOut (last : A) (polls : nat).
Arguments Passed {A} _ _.
Arguments TimedOut {A} _ _.

Section eventually.
Context {A : Type}.
(** The value that the n-th read gives, and the clock right after it. *)
Variable read : nat -> A.
Variable now : nat -> Z.
Variable check : A -> bool.

Fixpoint poll (fuel : nat) (deadline : Z) (i : nat) : option (poll_result A) :=
  match fuel with
  | O => None
  | S fuel' =>
      if check (read i) then Some (Passed (read i) i)
      else if deadline <=? now i then Some (TimedOut (read i) i)
      else poll fuel' deadline (S i)
  end.

Definition eventually (fuel : nat) (start : Z) : option (poll_result A) :=
  poll fuel (start + 10000) 0.

(** [delay(50)] between two reads. *)
Hypothesis delay : ∀ i, now i + 50 <= now (S i).

Lemma now_grows i : now 0%nat + 50 * Z.of_nat i <= now i.
Proof. induction i as [|i IH]; [lia|]. specialize (delay i). lia. Qed.

Lemma poll_total deadline : ∀ fuel i,
  deadline - now i <= 50 * (Z.of_nat fuel - 1) ->
  (0 < fuel)%nat ->
  ∃ r, poll fuel deadline i = Some r ∧
    match r with
    | Passed v n => (i <= n)%nat ∧ v = read n ∧ check v = true ∧
                    ∀ j, (i <= j < n)%nat -> check (read j) = false
    | TimedOut v n => (i <= n)%nat ∧ v = read n ∧ deadline <= now n ∧
                      ∀ j, (i <= j <= n)%nat -> check (read j) = false
    end.
Proof.
  induction fuel as [|fuel IH]; intros i Hf Hpos; [lia|]. simpl.
  destruct (check (read i)) eqn:Ec.
  { eexists; split; [done|]. simpl. repeat split; [lia|done|intros; lia]. }
  destruct (deadline <=? now i) eqn:Ed.
  { apply Z.leb_le in Ed. eexists; split; [done|]. simpl. repeat split; [lia|done|].
    intros j Hj. by replace j with i by lia. }
  apply Z.leb_gt in Ed. pose proof (delay i).
  destruct (IH (S i)) as (r & Hr & Hspec); [lia|lia|]. exists r. split; [done|].
  destruct r as [v n|v n]; destruct Hspec as (H1 & H2 & H3 & H4); (split; [lia|]); (split; [done|]);
    (split; [done|]); intros j Hj; (destruct (decide (j = i)) as [->|]; [done|apply H4; lia]).
Qed.

(** Polling ends after at most 201 reads: with the first value that passes,
    or with a failure once ten seconds are over and every read failed. *)
Theorem eventually_ends (start : Z) :
  start <= now 0%nat ->
  ∃ r, eventually 201 start = Some r ∧
    match r with
    | Passed v n => v = read n ∧ check v = true ∧ ∀ j, (j < n)%nat -> check (read j) = false
    | TimedOut v n => v = read n ∧ start + 10000 <= now n ∧ ∀ j, (j <= n)%nat -> check (read j) = false
    end.
Proof.
  intros Hs. destruct (poll_total (start + 10000) 201 0) as (r & Hr & H); [lia|lia|].
  exists r. split; [done|]. destruct r as [v n|v n]; destruct H as (_ & H2 & H3 & H4);
    repeat (split; [done|]); intros j Hj; apply H4; lia.
Qed.
End eventually.

(** ** Concrete runs *)

Lemma close_forwarded_once_witness :
  let ack := fun (_ : nat) (_ : close_options) => [(1005, ""); (1006, "again")] in
  ∃ options,
    on_close ack 2 4%nat 3001 "bye" ([3%nat; 4%nat], [])
    = Some (filter (λ s, s ≠ 4%nat) [3%nat; 4%nat], [] ++ [(4%nat, options)]) ∧
    match options with
    | Some (c, r) => c = 3001 ∧ r = "bye" ∧ (c = 1000 ∨ 3000 <= c <= 4999)
    | None => 3001 ≠ 1000 ∧ ¬ 3000 <= 3001 <= 4999
    end.
Proof.
  intros ack. apply (close_forwarded_once ack 2 4%nat 3001 "bye" [3%nat; 4%nat] []); [|lia].
  right. left.
Defined.

Definition sample_fixture : fixture :=
  Fixture [("ui_config", VObj [("settings", VObj [("camera_topic", VStr ""); ("mqtt_port", VInt 1883)])])]
          false false [] [1%nat; 2%nat] 2.

Definition sample_command : list (string * val) :=
  [("action", VStr "set_settings"); ("request_id", VInt 9); ("mqtt_port", VInt 1884)].

Lemma command_effects_witness :
  let '(fx', effects, completed) := on_command 1 (Some (VObj sample_command)) sample_fixture in
  completed = true ∧ commands fx' = [VObj sample_command] ∧ fx_sockets fx' = [1%nat; 2%nat] ∧
  (∃ e, effects = SendTo 1 e :: broadcast fx' ∧ is_str (prop_of e "type") "command_result" = true) ∧
  ∃ s s', get_settings (fx_state sample_fixture) = Some s ∧ get_settings (fx_state fx') = Some s' ∧
    ∀ k, assoc k s' = if decide (k ≠ "action" ∧ k ≠ "request_id")
                      then match assoc k sample_command with Some v => Some v | None => assoc k s end
                      else assoc k s.
Proof.
  apply (command_effects 1 sample_command sample_fixture).
  - apply (bool_decide_unpack _). vm_compute. exact I.
  - eexists. reflexivity.
  - reflexivity.
Defined.

Lemma eventually_ends_witness :
  ∃ r, eventually Z.of_nat (λ i, 60 * Z.of_nat i) (λ n, n =? 150) 201 0 = Some r ∧
    match r with
    | Passed v n => v = Z.of_nat n ∧ (v =? 150) = true ∧ ∀ j, (j < n)%nat -> (Z.of_nat j =? 150) = false
    | TimedOut v n => v = Z.of_nat n ∧ 0 + 10000 <= 60 * Z.of_nat n ∧
                      ∀ j, (j <= n)%nat -> (Z.of_nat j =? 150) = false
    end.
Proof.
  apply (eventually_ends Z.of_nat (λ i, 60 * Z.of_nat i) (λ n, n =? 150)); [intros i; lia|reflexivity].
Defined.
