(* ===== verification/AcceptanceRun.v ===== *)
(** * A run of the acceptance harness

    The rest of [scripts/browser-acceptance.cjs]: the provenance record, the
    guards on the network, the eleven scenarios, and [main] with its
    [try]/[catch]/[finally], its evidence and its diagnostics;
    [waitForHydratedDashboard] of [scripts/browser-readiness.cjs].  The browser
    is Playwright's: an environment [env] that answers the n-th call to the
    outside with a value or a failure, and reports what happened in the
    meantime, the requests, sockets, commands and errors of the page.  All of
    these reach the harness while it awaits. *)

From Stdlib Require Import ZArith Ascii String.
From stdpp Require Import base list option strings.
From S2P Require Import Prelude Float64 JsValue SwEvents Acceptance AcceptanceFixture.

#[local] Open Scope string_scope.
#[local] Open Scope list_scope.
#[local] Open Scope Z_scope.

(** ** The provenance record *)

(** Characters of a string that satisfy a test. *)
Fixpoint all_chars (p : ascii -> bool) (s : string) : bool :=
  match s with "" => true | String c s' => p c && all_chars p s' end.

Definition is_digit (c : ascii) : bool := (48 <=? nat_of_ascii c)%nat && (nat_of_ascii c <=? 57)%nat.
Definition is_hex (c : ascii) : bool :=
  is_digit c || (97 <=? nat_of_ascii c)%nat && (nat_of_ascii c <=? 102)%nat.
Definition is_label (c : ascii) : bool :=
  is_digit c || (65 <=? nat_of_ascii c)%nat && (nat_of_ascii c <=? 90)%nat
  || (97 <=? nat_of_ascii c)%nat && (nat_of_ascii c <=? 122)%nat
  || (nat_of_ascii c =? 46)%nat || (nat_of_ascii c =? 45)%nat.

(** [/^[0-9a-f]{n}$/]. *)
Definition hex_text (n : nat) (s : string) : bool := (String.length s =? n)%nat && all_chars is_hex s.

(** [\d+] from the start of a text: greedy, and what follows it. *)
Fixpoint skip_digits (s : string) : string :=
  match s with String c s' => if is_digit c then skip_digits s' else s | "" => "" end.
Definition some_digits (s : string) : option string :=
  match s with String c s' => if is_digit c then Some (skip_digits s') else None | "" => None end.
Definition some_dot (s : string) : option string :=
  match s with String "." s' => Some s' | _ => None end.

(** [/^\d+\.\d+\.\d+(?:-[0-9A-Za-z.-]+)?$/]. *)
Definition release_version (s : string) : bool :=
  match s ← some_digits s; s ← some_dot s; s ← some_digits s; s ← some_dot s; some_digits s with
  | Some "" => true
  | Some (String "-" label) => negb (String.eqb label "") && all_chars is_label label
  | _ => false
  end.

Record frontend := Frontend {
  sourceCommit : string; version : string; archiveSha256 : string; filesVerified : Z }.

(** [assert.match] on a value that need not be a string. *)
Definition matching (p : string -> bool) (v : val) : option string :=
  match v with VStr s => if p s then Some s else None | _ => None end.

Definition frontend_of (manifest : val) (size : Z) : option frontend :=
  let commit := or_else (prop_of manifest "source_commit") (prop_of manifest "commit") in
  v ← matching release_version (prop_of manifest "package_version");
  c ← matching (hex_text 40) commit;
  a ← matching (hex_text 64) (prop_of manifest "archive_sha256");
  Some (Frontend c v a size).

(** The inventory of the two manifest formats.  [None]: an assertion or a
    property access fails, or a path or hash is not a string. *)
Definition text_pair (k v : val) : option (string * string) :=
  match k, v with VStr k, VStr v => Some (k, v) | _, _ => None end.

Definition inventory (manifestKind : string) (manifest : val) : option (list (string * string)) :=
  if negb (is_str (prop_of manifest "repository") "https://github.com/victron-venus/inverter-dashboard-vue")
  then None
  else if String.eqb manifestKind "python" then
    match prop_of manifest "files" with
    | VArr files => mapM (λ file, k ← getp file "path"; v ← getp file "sha256"; text_pair k v) files
    | _ => None
    end
  else if String.eqb manifestKind "go" then
    es ← entries (prop_of manifest "sha256");
    mapM (λ e : string * val, text_pair (VStr e.1) e.2) es
  else None.

(** ** Calls to the browser and to the platform *)

Inductive locator : Type :=
| Text (text : string) (exact : bool)
| TestId (id : string)
| Role (role : string) (name : option string) (exact : bool)
| NamePattern (role pattern : string)
| Label (label : string)
| Css (selector : string)
| Within (outer inner : locator)
| HasText (l : locator) (text : string)
| First (l : locator).

Inductive call : Type :=
| Listen | ReadinessControls | Fetch (route : string)
| Launch | NewContext | TracingStart | InstallRoutes | InstallSockets | NewPage
| Goto (origin : string) | Reload | AddInitScript (script : string) | SetViewportSize (width height : Z)
| WaitFor (ls : list locator) | WaitHidden (l : locator)
| Click (l : locator) | Focus (l : locator) | Uncheck (l : locator) | Fill (l : locator) (text : string)
| Press (key : string)
| Count (l : locator) | TextContent (l : locator) | AllTextContents (l : locator)
| Evaluate (on : option locator) (script : string)
| Screenshot (file : string) | TracingStop | CloseBrowser | CloseServer | Sleep (ms : Z)
| WriteFile (file : string) | RemoveEvidence | ReadRuntime | ReadCandidate.

(** What the browser does while the harness awaits. *)
Inductive arrival : Type :=
| Requested (url_origin : string)
| SocketOpened (host pathname url_origin : string) (socket : nat)
| MessageFrom (socket : nat) (raw : option val)
| SocketClosed (socket : nat) (code : Z) (reason : string)
| PageError (text : string)
| ConsoleMessage (type text : string).

(** An answer of the environment: the arrivals, the milliseconds that pass, and
    the value or the rejection. *)
Record response := Response { arrivals : list arrival; elapsed : Z; answer : val + string }.

(** The evidence, less the names and versions of the environment. *)
Record evidence_file := Evidence {
  runtime : val; testsPassed : Z; testsFailed : Z; e_scenarios : list string;
  e_frontend : frontend; candidate : val }.
Record diagnostics_file := Diagnostics {
  d_scenarios : list string; d_failures : list (string * string);
  d_browserErrors : list string; d_blockedRequests : list string }.

(** Whether the variables [browser], [context] and [page] are set. *)
Record handles := Handles { has_browser : bool; has_context : bool; has_page : bool }.

Record harness := Harness {
  fx : fixture;
  sent : list socket_effect;
  scenarios : list string;
  failures : list (string * string);
  browserErrors : list string;
  blockedRequests : list string;
  evidence : option evidence_file;
  diagnostics : option diagnostics_file;
  opened : handles;
  clock : Z;
  calls : nat
}.

Definition with_fx (f : fixture) (effects : list socket_effect) (h : harness) : harness :=
  Harness f (sent h ++ effects) (scenarios h) (failures h) (browserErrors h) (blockedRequests h)
          (evidence h) (diagnostics h) (opened h) (clock h) (calls h).
Definition with_browserErrors (l : list string) (h : harness) : harness :=
  Harness (fx h) (sent h) (scenarios h) (failures h) l (blockedRequests h)
          (evidence h) (diagnostics h) (opened h) (clock h) (calls h).
Definition with_blockedRequests (l : list string) (h : harness) : harness :=
  Harness (fx h) (sent h) (scenarios h) (failures h) (browserErrors h) l
          (evidence h) (diagnostics h) (opened h) (clock h) (calls h).
Definition with_results (ss : list string) (fs : list (string * string)) (h : harness) : harness :=
  Harness (fx h) (sent h) ss fs (browserErrors h) (blockedRequests h)
          (evidence h) (diagnostics h) (opened h) (clock h) (calls h).
Definition with_evidence (e : option evidence_file) (h : harness) : harness :=
  Harness (fx h) (sent h) (scenarios h) (failures h) (browserErrors h) (blockedRequests h)
          e (diagnostics h) (opened h) (clock h) (calls h).
Definition with_diagnostics (d : option diagnostics_file) (h : harness) : harness :=
  Harness (fx h) (sent h) (scenarios h) (failures h) (browserErrors h) (blockedRequests h)
          (evidence h) d (opened h) (clock h) (calls h).
Definition with_opened (o : handles) (h : harness) : harness :=
  Harness (fx h) (sent h) (scenarios h) (failures h) (browserErrors h) (blockedRequests h)
          (evidence h) (diagnostics h) o (clock h) (calls h).
Definition advance (ms : Z) (h : harness) : harness :=
  Harness (fx h) (sent h) (scenarios h) (failures h) (browserErrors h) (blockedRequests h)
          (evidence h) (diagnostics h) (opened h) (clock h + Z.max 0 ms) (S (calls h)).

(** ** Computations of the harness *)

(** A result, an exception, or an exception in a callback that nobody catches,
    which ends the process without running any [catch] or [finally]. *)
Inductive outcome (A : Type) : Type :=
| Returns (a : A)
| Throws (message : string)
| Dies.
Arguments Returns {A} _.
Arguments Throws {A} _.
Arguments Dies {A}.

Definition M (A : Type) : Type := harness -> outcome A * harness.

#[local] Instance M_ret : MRet M := λ A a h, (Returns a, h).
#[local] Instance M_bind : MBind M := λ A B k m h,
  match m h with
  | (Returns a, h') => k a h'
  | (Throws e, h') => (Throws e, h')
  | (Dies, h') => (Dies, h')
  end.

Definition throw {A} (message : string) : M A := λ h, (Throws message, h).
Definition get : M harness := λ h, (Returns h, h).
Definition modify (f : harness -> harness) : M unit := λ h, (Returns tt, f h).
Definition lift {A} (o : option A) : M A :=
  match o with Some a => mret a | None => throw "TypeError" end.
Definition assert (b : bool) (message : string) : M unit := if b then mret tt else throw message.

(** [try]/[catch] whose handler throws the exception on, and [finally]. *)
Definition on_throw {A} (m : M A) (handler : string -> M unit) : M A := λ h,
  match m h with
  | (Throws e, h') => (handler e;; throw e) h'
  | r => r
  end.
Definition finally {A} (m : M A) (cleanup : M unit) : M A := λ h,
  match m h with
  | (Returns a, h') => (cleanup;; mret a) h'
  | (Throws e, h') => (cleanup;; throw e) h'
  | (Dies, h') => (Dies, h')
  end.
(** [.catch(() => {})]. *)
Definition ignore {A} (m : M A) : M unit := λ h,
  match m h with
  | (Dies, h') => (Dies, h')
  | (_, h') => (Returns tt, h')
  end.

Section harness_run.
Variable env : nat -> call -> response.
Variable acknowledge : nat -> close_options -> list (Z * string).
(** The files of the verified distribution, the path of a URL, and what
    [server.address()] leads to. *)
Variable assets : list (string * asset).
Variable pathname : string -> string.
Variables origin host : string.

(** ** The guards on the network *)

(** [None]: a callback throws. *)
Definition arrive (e : arrival) (h : harness) : option harness :=
  match e with
  | Requested url_origin =>
      Some (if String.eqb url_origin origin then h
            else with_blockedRequests (blockedRequests h ++ [url_origin]) h)
  | SocketOpened url_host path url_origin socket =>
      let '(f, effects, blocked) := on_route url_host path host url_origin socket (fx h) in
      Some (with_blockedRequests (blockedRequests h ++ blocked) (with_fx f effects h))
  | MessageFrom socket raw =>
      let '(f, effects, completed) := on_command socket raw (fx h) in
      if completed then Some (with_fx f effects h) else None
  | SocketClosed socket code reason =>
      '(sockets, closes) ← on_close acknowledge 2 socket code reason (fx_sockets (fx h), []);
      let f := fx h in
      Some (with_fx (Fixture (fx_state f) (reject f) (paused f) (commands f) sockets (connections f))
                    ((λ c : nat * close_options, CloseSocket c.1) <$> closes) h)
  | PageError text => Some (with_browserErrors (browserErrors h ++ [text]) h)
  | ConsoleMessage type text =>
      Some (if String.eqb type "error" then with_browserErrors (browserErrors h ++ [text]) h else h)
  end.

Fixpoint arrive_all (es : list arrival) (h : harness) : option harness :=
  match es with
  | [] => Some h
  | e :: es' => h' ← arrive e h; arrive_all es' h'
  end.

Definition perform (c : call) : M val := λ h,
  let r := env (calls h) c in
  match arrive_all (arrivals r) (advance (elapsed r) h) with
  | None => (Dies, h)
  | Some h' => match answer r with inl v => (Returns v, h') | inr e => (Throws e, h') end
  end.

Definition act (c : call) : M unit := perform c;; mret tt.

(** A synchronous file operation: it may fail, and nothing arrives meanwhile. *)
Definition file_op (c : call) (change : harness -> harness) : M unit := λ h,
  let r := env (calls h) c in
  match answer r with
  | inl _ => (Returns tt, change (advance 0 h))
  | inr e => (Throws e, advance 0 h)
  end.

Definition read_file (c : call) : M val := λ h,
  match answer (env (calls h) c) with
  | inl v => (Returns v, advance 0 h)
  | inr e => (Throws e, advance 0 h)
  end.

(** A server that cannot listen emits an error that nobody handles. *)
Definition listen : M unit := λ h,
  match act Listen h with
  | (Throws _, h') => (Dies, h')
  | r => r
  end.

(** [fetch] of a route of the harness's own server. *)
Definition fetch_status (route : string) : M Z :=
  perform (Fetch route);;
  h ← get;
  mret (match serve assets (fx_state (fx h)) (paused (fx h)) (pathname route) with
        | ReplyNotFound => 404
        | _ => 200
        end).

(** [delay(ms)] lasts at least [ms]. *)
Definition sleep (ms : Z) : M unit := λ h,
  let r := env (calls h) (Sleep ms) in
  match arrive_all (arrivals r) (advance (Z.max ms (elapsed r)) h) with
  | None => (Dies, h)
  | Some h' => (Returns tt, h')
  end.

(** [eventually]; a check may throw.  [fuel] bounds the polls. *)
Section polling.
Context {A : Type} (read : M A) (check : A -> option bool) (message : string).

Fixpoint poll_until (fuel : nat) (deadline : Z) : M A :=
  match fuel with
  | O => λ h, (Dies, h)
  | S fuel' =>
      value ← read;
      ok ← lift (check value);
      if (ok : bool) then mret value
      else
        h ← get;
        if deadline <=? clock h then throw message
        else sleep 50;; poll_until fuel' deadline
  end.

Definition eventually : M A := h ← get; poll_until 202 (clock h + 10000).
End polling.

(** ** The fixture, as the scenarios change it *)

Definition change_fx (f : fixture -> fixture) : M unit := modify (λ h, with_fx (f (fx h)) [] h).

Definition with_fx_state (s : list (string * val)) (f : fixture) : fixture :=
  Fixture s (reject f) (paused f) (commands f) (fx_sockets f) (connections f).
Definition with_reject (b : bool) (f : fixture) : fixture :=
  Fixture (fx_state f) b (paused f) (commands f) (fx_sockets f) (connections f).
Definition with_paused (b : bool) (f : fixture) : fixture :=
  Fixture (fx_state f) (reject f) b (commands f) (fx_sockets f) (connections f).

(** [fixture.state.loads[k] = v] and [settings[k] = v]. *)
Definition set_load (k : string) (v : val) (f : fixture) : fixture :=
  match assoc "loads" (fx_state f) with
  | Some (VObj o) => with_fx_state (set_prop "loads" (VObj (set_prop k v o)) (fx_state f)) f
  | _ => f
  end.
Definition set_setting (k : string) (v : val) (f : fixture) : fixture :=
  match get_settings (fx_state f) with
  | Some s => with_fx_state (put_settings (set_prop k v s) (fx_state f)) f
  | None => f
  end.
Definition setting (k : string) (f : fixture) : val :=
  match get_settings (fx_state f) with Some s => field s k | None => VUndef end.

Definition broadcast_state : M unit := modify (λ h, with_fx (fx h) (broadcast (fx h)) h).

(** Closing every tracked socket and forgetting them. *)
Definition close_sockets : M unit :=
  modify (λ h, let f := fx h in
    with_fx (Fixture (fx_state f) (reject f) (paused f) (commands f) [] (connections f))
            (CloseSocket <$> fx_sockets f) h).

Definition state_of_charge : M val := h ← get; mret (field (fx_state (fx h)) "battery_soc").
Definition command_count : M nat := h ← get; mret (length (commands (fx h))).

(** ** Expectations *)

(** [text.includes(part)]. *)
Definition includes (v : val) (part : string) : option bool :=
  match v with VStr s => Some (contains part s) | _ => None end.

Definition equals (v : val) : val -> option bool := λ w, Some (strict_eq w v).

Definition assert_that (v : val) : M unit := assert (truthy v) "The expression evaluated to a falsy value".
Definition assert_equal (v w : val) (message : string) : M unit := assert (strict_eq v w) message.

Definition transport_connected : M val :=
  perform (Evaluate (Some (TestId "transport-status")) "element => element.dataset.connected").

Definition quoted (s : string) : string :=
  let q := String (ascii_of_nat 34) "" in q +:+ s +:+ q.

(** [waitForHydratedDashboard]. *)
Definition waitForHydratedDashboard (expectedSoc : val) (publicMode : bool) : M unit :=
  assert (match expectedSoc with VNum (F64.Fin _) => true | _ => false end)
         "Readiness requires the current fixture state of charge";;
  act (WaitFor [First (Text (to_string expectedSoc +:+ "%") true);
                if publicMode then Text "PUBLIC · READ-ONLY" true
                else Css ("[data-testid=" +:+ quoted "transport-status" +:+ "][data-connected=" +:+ quoted "true" +:+ "]")]).

Definition settings_button : locator := Role "button" (Some "Settings") true.
Definition save_button : locator := Role "button" (Some "Save Configuration") false.
Definition close_button : locator := Role "button" (Some "Close settings") false.
Definition configuration : locator := Role "dialog" (Some "Configuration") false.
Definition first_soc (soc : string) : locator := First (Text (soc +:+ "%") true).

(** ** The scenarios *)

Definition live_telemetry : M unit :=
  eventually (perform (AllTextContents (TestId "active-load")))
    (λ rows, l ← elements_of rows;
             if (length l =? 3)%nat
             then a ← includes (default VUndef (l !! 0%nat)) "Fixture refrigerator";
                  if (a : bool) then includes (default VUndef (l !! 1%nat)) "-100W" else Some false
             else Some false)
    "Real load rows should be ordered and preserve generation";;
  connected ← transport_connected;
  assert_equal connected (VStr "true") "Expected values to be strictly equal";;
  eventually (perform (Count (Css "canvas"))) (λ count, Some (js_lt (VInt 0) count))
    "ECharts should render an actual canvas";;
  count ← perform (Count (Text "73%" true));
  assert_that (VBool (js_lt (VInt 0) count)).

Definition telemetry_updates : M unit :=
  change_fx (λ f, set_load "1" (VInt 333) (with_fx_state (set_prop "battery_soc" (VInt 42) (fx_state f)) f));;
  broadcast_state;;
  eventually (perform (TextContent (First (TestId "active-load")))) (λ text, includes text "333W")
    "Live websocket update should update load";;
  act (WaitFor [first_soc "42"]).

Definition theme_persists : M unit :=
  act (Click (Role "button" (Some "Switch to dark theme") false));;
  theme ← perform (Evaluate None "() => localStorage.getItem('theme')");
  assert_equal theme (VStr "dark") "Expected values to be strictly equal";;
  act Reload;;
  soc ← state_of_charge;
  waitForHydratedDashboard soc false;;
  dark ← perform (Evaluate (Some (Css "html")) "node => node.classList.contains('dark')");
  assert_that dark;;
  act (Click (Role "button" (Some "Switch to light theme") false)).

Definition settings_dialog : M unit :=
  act (Focus settings_button);;
  act (Press "Enter");;
  act (WaitFor [configuration]);;
  inside ← perform (Evaluate (Some configuration) "node => node.open && node.contains(document.activeElement)");
  assert_that inside;;
  act (Press "Escape");;
  act (WaitHidden configuration);;
  focused ← perform (Evaluate None "() => document.activeElement?.getAttribute('aria-label')");
  assert_equal focused (VStr "Settings") "Expected values to be strictly equal".

(** [fixture.commands.at(-1)]. *)
Definition last_command : M val := h ← get; mret (default VUndef (last (commands (fx h)))).

Definition saved_settings (command : val) : bool :=
  match getp command "action" with
  | None => false
  | Some action =>
      is_str action "set_settings" && strict_eq (prop_of command "mqtt_port") (VInt 1884)
      && is_str (prop_of command "camera_topic") "fixture/camera"
  end.

Definition invalid_settings : M unit :=
  act (Click settings_button);;
  before ← command_count;
  act (Fill (Label "MQTT port") "70000");;
  act (Click save_button);;
  act (WaitFor [HasText (Role "alert" None false) "MQTT port must"]);;
  count ← command_count;
  assert (count =? before)%nat "Invalid form must not send a command";;
  act (Fill (Label "MQTT port") "1884");;
  act (Fill (Label "Camera topic") "fixture/camera");;
  act (Click save_button);;
  eventually last_command (λ command, Some (saved_settings command)) "Save should send typed settings";;
  act (Click close_button);;
  act (WaitFor [Text "Command accepted by server." false]).

Definition section_visibility : M unit :=
  act (Click settings_button);;
  act (Uncheck (Within (Role "group" (Some "Dashboard sections") false)
                       (Role "checkbox" (Some "Active loads") true)));;
  eventually (h ← get; lift (s ← get_settings (fx_state (fx h)); Some (field s "show_active_loads")))
    (equals (VBool false)) "Visibility update should reach the backend fixture";;
  act (Click close_button);;
  act (WaitHidden (TestId "active-loads"));;
  act Reload;;
  soc ← state_of_charge;
  waitForHydratedDashboard soc false;;
  count ← perform (Count (TestId "active-loads"));
  assert_equal count (VInt 0) "Expected values to be strictly equal";;
  change_fx (set_setting "show_active_loads" (VBool true));;
  broadcast_state;;
  act (WaitFor [TestId "active-loads"]).

Definition rejected_command : M unit :=
  change_fx (with_reject true);;
  act (Click settings_button);;
  act (Fill (Label "Camera topic") "fixture/rejected");;
  act (Click save_button);;
  act (Click close_button);;
  act (WaitFor [Text "The server rejected the command." false]);;
  h ← get;
  assert_equal (setting "camera_topic" (fx h)) (VStr "fixture/camera") "Expected values to be strictly equal";;
  change_fx (with_reject false).

Definition reconnect : M unit :=
  change_fx (with_paused true);;
  close_sockets;;
  eventually transport_connected (equals (VStr "false")) "Disconnected transport must be visible";;
  change_fx (with_paused false);;
  h ← get;
  act (Evaluate None "() => window.dispatchEvent(new Event('online'))");;
  eventually (h ← get; mret (connections (fx h))) (λ count, Some (connections (fx h) <? count))
    "Browser should reconnect";;
  eventually transport_connected (equals (VStr "true")) "New telemetry should be live";;
  mret tt.

Definition mobile_layout : M unit :=
  act (SetViewportSize 390 844);;
  act (Focus settings_button);;
  act (Press "Enter");;
  act (WaitFor [configuration]);;
  act (Press "Escape");;
  act (WaitHidden (Role "dialog" None false));;
  fits ← perform (Evaluate None "() => document.documentElement.scrollWidth <= window.innerWidth + 1");
  assert_that fits.

Definition public_mode : M unit :=
  act (AddInitScript "() => { window.__INVERTER_PUBLIC__ = true }");;
  before ← command_count;
  act Reload;;
  waitForHydratedDashboard (VInt 61) true;;
  act (WaitFor [Text "PUBLIC · READ-ONLY" true]);;
  act (WaitFor [first_soc "61"]);;
  buttons ← perform (Count settings_button);
  assert_equal buttons (VInt 0) "Expected values to be strictly equal";;
  dry ← perform (Count (NamePattern "button" "DRY"));
  assert_equal dry (VInt 0) "Expected values to be strictly equal";;
  count ← command_count;
  assert (count =? before)%nat "Expected values to be strictly equal".

Definition no_errors : M unit :=
  h ← get;
  assert (bool_decide (browserErrors h = [])) "Expected values to be strictly deep-equal";;
  assert (bool_decide (blockedRequests h = [])) "Expected values to be strictly deep-equal".

Definition plan_names : list string := [
  "live-telemetry-load-order-and-real-chart"; "telemetry-updates-without-reload";
  "theme-persists-across-reload"; "native-settings-dialog-focus-and-escape";
  "invalid-settings-stay-local-before-valid-save"; "saved-section-visibility-survives-reload";
  "rejected-command-shows-error-without-changing-state";
  "disconnect-and-reconnect-restores-live-telemetry";
  "mobile-layout-keeps-settings-keyboard-accessible";
  "public-mode-has-telemetry-but-no-write-controls"; "no-browser-errors-or-external-requests"].

Definition plan : list (string * M unit) := zip plan_names [
  live_telemetry; telemetry_updates; theme_persists; settings_dialog; invalid_settings;
  section_visibility; rejected_command; reconnect; mobile_layout; public_mode; no_errors].

(** [scenario]. *)
Definition scenario (name : string) (run : M unit) : M unit :=
  on_throw (run;; modify (λ h, with_results (scenarios h ++ [name]) (failures h) h))
           (λ message, modify (λ h, with_results (scenarios h) (failures h ++ [(name, message)]) h)).

Fixpoint run_plan (p : list (string * M unit)) : M unit :=
  match p with
  | [] => mret tt
  | (name, run) :: p' => scenario name run;; run_plan p'
  end.

(** ** [main] *)

Variable provenance : frontend.

Definition open_page : M unit :=
  act Launch;;
  modify (with_opened (Handles true false false));;
  act NewContext;;
  modify (with_opened (Handles true true false));;
  act TracingStart;;
  act InstallRoutes;;
  act InstallSockets;;
  act NewPage;;
  modify (with_opened (Handles true true true));;
  act (Goto origin).

Definition final_checks : M (val * val) :=
  act (Screenshot "final.png");;
  runtime ← read_file ReadRuntime;
  candidate ← read_file ReadCandidate;
  (if truthy candidate
   then assert_equal (prop_of candidate "sourceSha") (prop_of runtime "sourceSha")
                     "Packaged candidate must match the tested source"
   else mret tt);;
  mret (runtime, candidate).

Definition write_evidence : M unit :=
  descriptors ← final_checks;
  h ← get;
  file_op (WriteFile "result.json")
    (with_evidence (Some (Evidence descriptors.1 (Z.of_nat (length (scenarios h))) 0 (scenarios h)
                                   provenance descriptors.2))).

Definition setup : M unit :=
  perform ReadinessControls;;
  file_op (WriteFile "readiness-controls.json") id;;
  a ← fetch_status "/package.json";
  b ← fetch_status "/.git/config";
  c ← fetch_status "/%2e%2e%2fpackage.json";
  assert (bool_decide ([a; b; c] = [404; 404; 404])) "Only inventoried distribution files may be served";;
  open_page;;
  soc ← state_of_charge;
  waitForHydratedDashboard soc false.

Definition body : M unit :=
  setup;;
  run_plan plan;;
  write_evidence.

Definition cleanup : M unit :=
  h ← get;
  file_op (WriteFile "diagnostics.json")
    (with_diagnostics (Some (Diagnostics (scenarios h) (failures h) (browserErrors h) (blockedRequests h))));;
  (if has_context (opened h) then ignore (act TracingStop) else mret tt);;
  (if has_browser (opened h) then act CloseBrowser else mret tt);;
  ignore (act CloseServer).

Definition main : M unit :=
  listen;;
  finally
    (on_throw body
       (λ _, h ← get; if has_page (opened h) then ignore (act (Screenshot "failure.png")) else mret tt))
    cleanup.

(** The evidence of an earlier run is removed before anything is tested. *)
Definition run : M unit := file_op RemoveEvidence (with_evidence None);; main.

(** ** What a computation leaves alone *)

(** A computation moves the harness along a relation, whatever its outcome. *)
Class Respects (R : relation harness) {A} (m : M A) : Prop := respects h : R h (m h).2.

Class Tolerant (R : relation harness) : Prop := {
  tolerant_order : PreOrder R;
  tolerant_advance ms h : R h (advance ms h);
  tolerant_arrive e h h' : arrive e h = Some h' -> R h h'
}.
#[local] Existing Instance tolerant_order.

Section respects.
Context (R : relation harness) `{!Tolerant R}.

#[global] Instance respects_ret {A} (a : A) : Respects R (mret a).
Proof. intros h. simpl. reflexivity. Qed.
#[global] Instance respects_throw {A} e : Respects R (throw (A := A) e).
Proof. intros h. simpl. reflexivity. Qed.
#[global] Instance respects_get : Respects R get.
Proof. intros h. simpl. reflexivity. Qed.
#[global] Instance respects_lift {A} (o : option A) : Respects R (lift o).
Proof. destruct o; apply _. Qed.
#[global] Instance respects_assert b e : Respects R (assert b e).
Proof. destruct b; apply _. Qed.
#[global] Instance respects_bind {A B} (m : M A) (k : A -> M B) :
  Respects R m -> (∀ a, Respects R (k a)) -> Respects R (m ≫= k).
Proof.
  intros Hm Hk h. unfold mbind, M_bind. pose proof (Hm h) as H.
  destruct (m h) as [[a| |] h']; [|exact H..]. etrans; [exact H|apply Hk].
Qed.
#[global] Instance respects_ignore {A} (m : M A) : Respects R m -> Respects R (ignore m).
Proof. intros Hm h. pose proof (Hm h). unfold ignore. by destruct (m h) as [[]]. Qed.
#[global] Instance respects_if {A} (b : bool) (m m' : M A) :
  Respects R m -> Respects R m' -> Respects R (if b then m else m').
Proof. by destruct b. Qed.
#[global] Instance respects_on_throw {A} (m : M A) handler :
  Respects R m -> (∀ e, Respects R (handler e)) -> Respects R (on_throw m handler).
Proof.
  intros Hm Hh h. unfold on_throw. pose proof (Hm h) as H. destruct (m h) as [[a|e|] h']; [exact H| |exact H].
  etrans; [exact H|]. apply (respects_bind (handler e) (λ _, throw e)); apply _.
Qed.

Lemma respects_arrivals es : ∀ h h', arrive_all es h = Some h' -> R h h'.
Proof.
  induction es as [|e es IH]; intros h h' H; simpl in H; [simplify_eq; reflexivity|].
  apply bind_Some in H as (h1 & H1 & H). etrans; [by eapply tolerant_arrive|by apply IH].
Qed.

#[global] Instance respects_perform c : Respects R (perform c).
Proof.
  intros h. unfold perform. destruct (arrive_all _ _) as [h'|] eqn:E; [|simpl; reflexivity].
  assert (R h h') by (etrans; [apply tolerant_advance|by eapply respects_arrivals]).
  by destruct (answer _).
Qed.
#[global] Instance respects_act c : Respects R (act c).
Proof. apply _. Qed.
#[global] Instance respects_sleep ms : Respects R (sleep ms).
Proof.
  intros h. unfold sleep. destruct (arrive_all _ _) as [h'|] eqn:E; [|simpl; reflexivity].
  simpl. etrans; [apply tolerant_advance|by eapply respects_arrivals].
Qed.
#[global] Instance respects_read_file c : Respects R (read_file c).
Proof. intros h. unfold read_file. destruct (answer _); apply tolerant_advance. Qed.
#[global] Instance respects_listen : Respects R listen.
Proof. intros h. unfold listen. pose proof (respects_act Listen h). by destruct (act Listen h) as [[]]. Qed.

Lemma respects_modify f : (∀ h, R h (f h)) -> Respects R (modify f).
Proof. intros Hf h. apply Hf. Qed.
Lemma respects_file_op c change : (∀ h, R h (change h)) -> Respects R (file_op c change).
Proof.
  intros Hf h. unfold file_op. destruct (answer _); simpl; [|apply tolerant_advance].
  etrans; [apply tolerant_advance|apply Hf].
Qed.

#[global] Instance respects_poll {A} (read : M A) check message fuel deadline :
  Respects R read -> Respects R (poll_until read check message fuel deadline).
Proof.
  intros Hr. revert deadline. induction fuel as [|fuel IH]; intros deadline; [intros h; simpl; reflexivity|].
  simpl. apply _.
Qed.
End respects.

(** What no computation but the bookkeeping itself changes; commands only grow. *)
Definition logs (h h' : harness) : Prop :=
  scenarios h' = scenarios h ∧ failures h' = failures h ∧ evidence h' = evidence h ∧
  diagnostics h' = diagnostics h ∧ commands (fx h) `prefix_of` commands (fx h').

(** The switches of the fixture. *)
Definition switches (h h' : harness) : Prop :=
  reject (fx h') = reject (fx h) ∧ paused (fx h') = paused (fx h).

#[local] Instance logs_order : PreOrder logs.
Proof.
  split; [by intros h|]. intros h1 h2 h3 (?&?&?&?&?) (?&?&?&?&?).
  repeat split; try congruence. by etrans.
Qed.
#[local] Instance switches_order : PreOrder switches.
Proof. split; [by intros h|]. intros h1 h2 h3 [] []. split; congruence. Qed.

Lemma on_command_fixture socket raw f :
  let f' := (on_command socket raw f).1.1 in
  reject f' = reject f ∧ paused f' = paused f ∧ commands f `prefix_of` commands f'.
Proof.
  destruct raw as [c|]; [|by simpl]. unfold on_command. simpl.
  assert (commands f `prefix_of` commands f ++ [c]) by (by apply prefix_app_r).
  destruct (getp c "action"); simpl; [|done]. destruct (reject f) eqn:E; simpl; [done|].
  destruct (is_str _ _); simpl; [|done]. destruct (get_settings _); by simpl.
Qed.

Lemma arrive_fixture e h h' : arrive e h = Some h' -> logs h h' ∧ switches h h'.
Proof.
  destruct e as [o|uh p o s|s raw|s c r|t|ty t]; simpl; intros H.
  - by destruct (String.eqb o origin); simplify_eq.
  - unfold on_route in H. destruct (_ || _); [by simplify_eq|]. by destruct (paused (fx h)) eqn:E; simplify_eq.
  - pose proof (on_command_fixture s raw (fx h)) as Hc.
    destruct (on_command s raw (fx h)) as [[f effects] []]; simplify_eq/=. by destruct Hc as (?&?&?).
  - apply bind_Some in H as ([sockets closes] & _ & H). by simplify_eq.
  - by simplify_eq.
  - by destruct (String.eqb ty "error"); simplify_eq.
Qed.

#[local] Instance logs_tolerant : Tolerant logs.
Proof. split; [apply _|by intros|by intros e h h' []%arrive_fixture]. Qed.
#[local] Instance switches_tolerant : Tolerant switches.
Proof. split; [apply _|by intros|by intros e h h' []%arrive_fixture]. Qed.

#[local] Instance respects_wait R `{!Tolerant R} soc mode : Respects R (waitForHydratedDashboard soc mode).
Proof. unfold waitForHydratedDashboard. apply _. Qed.
#[local] Instance respects_eventually R `{!Tolerant R} {A} (read : M A) check message :
  Respects R read -> Respects R (eventually read check message).
Proof. intros H. unfold eventually. apply _. Qed.
#[local] Instance respects_transport R `{!Tolerant R} : Respects R transport_connected.
Proof. apply _. Qed.
#[local] Instance respects_soc R `{!Tolerant R} : Respects R state_of_charge.
Proof. unfold state_of_charge. apply _. Qed.
#[local] Instance respects_count R `{!Tolerant R} : Respects R command_count.
Proof. unfold command_count. apply _. Qed.
#[local] Instance respects_last R `{!Tolerant R} : Respects R last_command.
Proof. unfold last_command. apply _. Qed.
#[local] Instance respects_assert_that R `{!Tolerant R} v : Respects R (assert_that v).
Proof. unfold assert_that. apply _. Qed.
#[local] Instance respects_assert_equal R `{!Tolerant R} v w e : Respects R (assert_equal v w e).
Proof. unfold assert_equal. apply _. Qed.
#[local] Instance respects_fetch R `{!Tolerant R} route : Respects R (fetch_status route).
Proof. unfold fetch_status. apply _. Qed.

#[local] Instance broadcast_logs : Respects logs broadcast_state.
Proof. by apply respects_modify. Qed.
#[local] Instance broadcast_switches : Respects switches broadcast_state.
Proof. by apply respects_modify. Qed.
#[local] Instance close_logs : Respects logs close_sockets.
Proof. by apply respects_modify. Qed.

(** A change of the fixture that keeps its commands. *)
Lemma change_logs f : (∀ x, commands (f x) = commands x) -> Respects logs (change_fx f).
Proof. intros H. apply respects_modify. intros h. repeat split. simpl. by rewrite H. Qed.
Lemma change_switches f :
  (∀ x, reject (f x) = reject x ∧ paused (f x) = paused x) -> Respects switches (change_fx f).
Proof. intros H. apply respects_modify. intros h. apply H. Qed.

Lemma set_load_kept k v f :
  commands (set_load k v f) = commands f ∧ reject (set_load k v f) = reject f ∧ paused (set_load k v f) = paused f.
Proof. unfold set_load. by repeat case_match. Qed.
Lemma set_setting_kept k v f :
  commands (set_setting k v f) = commands f ∧ reject (set_setting k v f) = reject f ∧
  paused (set_setting k v f) = paused f.
Proof. unfold set_setting. by repeat case_match. Qed.

#[local] Ltac respecting :=
  lazymatch goal with
  | |- Respects _ (mbind _ _) => apply respects_bind; [apply _|respecting|intros ?; respecting]
  | |- Respects _ (change_fx _) =>
      first [ apply change_logs; intros ?; cbv beta;
              first [ done | etrans; [apply set_load_kept|done] | etrans; [apply set_setting_kept|done] ]
            | apply change_switches; intros ?; cbv beta;
              first [ done | split; (etrans; [apply set_load_kept|done])
                    | split; (etrans; [apply set_setting_kept|done]) ] ]
  | |- Respects _ (eventually _ _ _) => apply respects_eventually; [apply _|respecting]
  | |- Respects _ (perform _) => apply respects_perform; apply _
  | |- Respects _ (act _) => apply respects_act; apply _
  | |- Respects _ (lift _) => apply respects_lift; apply _
  | |- Respects _ (assert _ _) => apply respects_assert; apply _
  | |- Respects _ (mret _) => apply respects_ret; apply _
  | |- Respects _ get => apply respects_get; apply _
  | |- _ => apply _
  end.

Lemma plan_logs : Forall (λ s, Respects logs s.2) plan.
Proof.
  repeat apply Forall_cons_2; [..|apply Forall_nil_2]; cbn [snd].
  all: unfold live_telemetry, telemetry_updates, theme_persists, settings_dialog, invalid_settings,
         section_visibility, rejected_command, reconnect, mobile_layout, public_mode, no_errors.
  all: respecting.
Qed.

(** The fixture serves: no command is rejected, no socket refused. *)
Definition serving (h : harness) : Prop := reject (fx h) = false ∧ paused (fx h) = false.

Definition triple (P : harness -> Prop) {A} (m : M A) (Q : harness -> Prop) : Prop :=
  ∀ h a h', P h -> m h = (Returns a, h') -> Q h'.

Lemma bind_returns {A B} (m : M A) (k : A -> M B) h b h' :
  (m ≫= k) h = (Returns b, h') -> ∃ a h1, m h = (Returns a, h1) ∧ k a h1 = (Returns b, h').
Proof. unfold mbind, M_bind. destruct (m h) as [[a| |] h1]; intros H; simplify_eq. eauto. Qed.

Lemma triple_then (Q : harness -> Prop) (P R : harness -> Prop) {A B} (m : M A) (k : A -> M B) :
  triple P m Q -> (∀ a, triple Q (k a) R) -> triple P (m ≫= k) R.
Proof. intros Hm Hk h b h' HP H. apply bind_returns in H as (a & h1 & H1 & H2). by eapply Hk, H2; eapply Hm. Qed.

Lemma respects_returns {A} (R : relation harness) (m : M A) `{!Respects R m} h a h' :
  m h = (Returns a, h') -> R h h'.
Proof. intros H. pose proof (respects (m := m) h) as Hr. by rewrite H in Hr. Qed.

Lemma triple_switches {A} (m : M A) r p :
  Respects switches m ->
  triple (λ h, reject (fx h) = r ∧ paused (fx h) = p) m (λ h, reject (fx h) = r ∧ paused (fx h) = p).
Proof. intros Hm h a h' [H1 H2] H. apply (respects_returns switches) in H as [H3 H4]; [|done]. by rewrite H3, H4. Qed.

Lemma triple_change (P Q : harness -> Prop) f :
  (∀ h, P h -> Q (with_fx (f (fx h)) [] h)) -> triple P (change_fx f) Q.
Proof. intros Hf h a h' HP H. unfold change_fx, modify in H. simplify_eq. by apply Hf. Qed.

#[local] Ltac keeping :=
  repeat lazymatch goal with
  | |- triple _ (mbind _ (change_fx _)) _ => fail
  | |- triple ?P (mbind _ _) _ => apply (triple_then P); [apply triple_switches; respecting|intros ?]
  end.

Lemma rejected_serving : triple serving rejected_command serving.
Proof.
  unfold rejected_command.
  apply (triple_then (λ h, reject (fx h) = true ∧ paused (fx h) = false)).
  { apply triple_change. intros h []. by split. }
  intros _. keeping. apply triple_change. intros h' [? ?]. by split.
Qed.

Lemma reconnect_serving : triple serving reconnect serving.
Proof.
  unfold reconnect.
  apply (triple_then (λ h, reject (fx h) = false ∧ paused (fx h) = true)).
  { apply triple_change. intros h []. by split. }
  intros _. apply (triple_then (λ h, reject (fx h) = false ∧ paused (fx h) = true)).
  { intros h a h' Hs H. unfold close_sockets, modify in H. by simplify_eq/=. }
  intros _. apply (triple_then (λ h, reject (fx h) = false ∧ paused (fx h) = true)).
  { apply triple_switches. respecting. }
  intros _. apply (triple_then serving).
  { apply triple_change. intros h []. by split. }
  intros _. apply triple_switches. respecting.
Qed.

Lemma plan_serving : Forall (λ s, triple serving s.2 serving) plan.
Proof.
  repeat apply Forall_cons_2; [..|apply Forall_nil_2]; cbn [snd].
  7: apply rejected_serving. 7: apply reconnect_serving.
  all: apply triple_switches.
  all: unfold live_telemetry, telemetry_updates, theme_persists, settings_dialog, invalid_settings,
         section_visibility, mobile_layout, public_mode, no_errors.
  all: respecting.
Qed.

(** A poll that returns has just read a value that passes. *)
Lemma poll_passes {A} (read : M A) check message fuel deadline h v h' :
  poll_until read check message fuel deadline h = (Returns v, h') ->
  check v = Some true ∧ ∃ h0, read h0 = (Returns v, h').
Proof.
  revert deadline h. induction fuel as [|fuel IH]; intros deadline h H; simpl in H; [done|].
  apply bind_returns in H as (w & h1 & H1 & H). apply bind_returns in H as (ok & h2 & H2 & H).
  destruct (check w) as [b|] eqn:Ec; [|done]. unfold lift, mret, M_ret in H2. simplify_eq. destruct ok.
  - unfold mret, M_ret in H. simplify_eq. eauto.
  - apply bind_returns in H as (h3 & h4 & _ & H). destruct (deadline <=? clock h3); [done|].
    apply bind_returns in H as (? & ? & _ & H). by apply IH in H.
Qed.

(** The page has sent the settings that the form was filled with. *)
Definition saved (h : harness) : Prop := ∃ c, c ∈ commands (fx h) ∧ saved_settings c = true.

Lemma saved_logs h h' : logs h h' -> saved h -> saved h'.
Proof.
  intros (_&_&_&_&[l Hl]) (c & Hc & H). exists c. split; [|done].
  rewrite Hl. apply elem_of_app. by left.
Qed.

Lemma last_command_elem h c h' : last_command h = (Returns c, h') -> c ≠ VUndef -> c ∈ commands (fx h').
Proof.
  unfold last_command, get. intros H Hc.
  apply bind_returns in H as (h1 & h2 & [= <- <-] & H). unfold mret, M_ret in H. simplify_eq.
  destruct (last (commands (fx h'))) as [c|] eqn:E; simpl in Hc; [|done]. simpl. by apply last_Some_elem_of.
Qed.

Lemma invalid_settings_saved h a h' : invalid_settings h = (Returns a, h') -> saved h'.
Proof.
  unfold invalid_settings. intros H.
  do 10 (apply bind_returns in H as (? & ? & _ & H)).
  apply bind_returns in H as (v & h1 & Hv & H).
  unfold eventually in Hv. apply bind_returns in Hv as (? & ? & _ & Hv).
  apply poll_passes in Hv as [Hs [h0 Hv]]. injection Hs as Hs.
  assert (saved h1) as H1.
  { exists v. split; [|done]. apply (last_command_elem _ _ _ Hv). intros ->. done. }
  assert (logs h1 h') as Hl.
  { apply (respects_returns logs) in H; [done|]. respecting. }
  by eapply saved_logs.
Qed.

Lemma bind_run {A B} (m : M A) (k : A -> M B) h :
  (m ≫= k) h = match m h with
               | (Returns a, h') => k a h'
               | (Throws e, h') => (Throws e, h')
               | (Dies, h') => (Dies, h')
               end.
Proof. done. Qed.

(** The fuel of [eventually] is enough: time does not go back while a value is
    read, and [sleep] advances it. *)
Definition later (h h' : harness) : Prop := clock h <= clock h'.

#[local] Instance later_tolerant : Tolerant later.
Proof.
  unfold later. split.
  - split; [intros h; lia|intros h1 h2 h3; lia].
  - intros ms h. simpl. lia.
  - intros e h h' H. destruct e as [o|uh p o s|s raw|s c r|t|ty t]; simpl in H.
    + destruct (String.eqb o origin); simplify_eq; simpl; lia.
    + destruct (on_route uh p host o s (fx h)) as [[f effects] blocked]. simplify_eq. simpl. lia.
    + destruct (on_command s raw (fx h)) as [[f effects] []]; simplify_eq. simpl. lia.
    + apply bind_Some in H as ([sockets closes] & _ & H). simplify_eq. simpl. lia.
    + simplify_eq. simpl. lia.
    + destruct (String.eqb ty "error"); simplify_eq; simpl; lia.
Qed.

Lemma sleep_later ms h a h' : sleep ms h = (Returns a, h') -> clock h + ms <= clock h'.
Proof.
  unfold sleep. destruct (arrive_all _ _) as [h1|] eqn:E; [|done]. intros [= _ <-].
  apply (respects_arrivals later) in E. unfold later in E. simpl in E. lia.
Qed.

Lemma poll_fuel {A} (read : M A) check message deadline (more : nat) :
  Respects later read -> ∀ fuel h,
  deadline - clock h <= 50 * (Z.of_nat fuel - 1) -> (0 < fuel)%nat ->
  poll_until read check message (fuel + more) deadline h = poll_until read check message fuel deadline h.
Proof.
  intros Hr. induction fuel as [|fuel IH]; intros h Hf Hpos; [lia|]. cbn [Nat.add poll_until].
  rewrite !bind_run. pose proof (Hr h) as H1. unfold later in H1.
  destruct (read h) as [[v|e|] h1]; [|done..]. cbn [snd] in H1. rewrite !bind_run.
  destruct (check v) as [[]|]; [done| |done]. cbn [lift mret M_ret]. rewrite !bind_run. cbn [get].
  destruct (deadline <=? clock h1) eqn:Ed; [done|]. rewrite !bind_run.
  destruct (sleep 50 h1) as [[[]|e|] h2] eqn:Es; [|done..]. apply sleep_later in Es.
  apply Z.leb_gt in Ed. apply IH; lia.
Qed.

Lemma eventually_fuel {A} (read : M A) check message (more : nat) h :
  Respects later read ->
  poll_until read check message (202 + more) (clock h + 10000) h = eventually read check message h.
Proof. intros Hr. unfold eventually. rewrite bind_run. cbn [get]. apply poll_fuel; [done|lia|lia]. Qed.

(** ** The bookkeeping of scenarios *)

Lemma scenario_spec name m h : Respects logs m ->
  match scenario name m h with
  | (Returns _, h') =>
      ∃ h1, m h = (Returns tt, h1) ∧ h' = with_results (scenarios h ++ [name]) (failures h) h1
  | (Throws e, h') =>
      ∃ h1, m h = (Throws e, h1) ∧ h' = with_results (scenarios h) (failures h ++ [(name, e)]) h1
  | (Dies, h') => m h = (Dies, h')
  end.
Proof.
  intros Hm. pose proof (Hm h) as Hl. unfold scenario, on_throw, mbind, M_bind, modify, throw.
  destruct (m h) as [[[]|e|] h1]; simpl in Hl; destruct Hl as (H1 & H2 & _).
  - exists h1. by rewrite H1, H2.
  - exists h1. by rewrite H1, H2.
  - done.
Qed.

(** How far a plan has come. *)
Definition report (p : list (string * M unit)) (h : harness) (r : outcome unit) (h' : harness) : Prop :=
  evidence h' = evidence h ∧ diagnostics h' = diagnostics h ∧
  commands (fx h) `prefix_of` commands (fx h') ∧
  ∃ k, scenarios h' = scenarios h ++ take k p.*1 ∧
    match r with
    | Returns _ => k = length p ∧ failures h' = failures h
    | Throws e => ∃ name, p.*1 !! k = Some name ∧ failures h' = failures h ++ [(name, e)]
    | Dies => failures h' = failures h
    end.

Lemma run_plan_report p : Forall (λ s, Respects logs s.2) p ->
  ∀ h, report p h (run_plan p h).1 (run_plan p h).2.
Proof.
  induction 1 as [|[name m] p Hm _ IH]; intros h.
  { repeat (split; [done|]). exists 0%nat. by rewrite app_nil_r. }
  simpl in Hm. cbn [run_plan]. unfold mbind, M_bind.
  pose proof (scenario_spec name m h Hm) as Hs. pose proof (Hm h) as Hl.
  destruct (scenario name m h) as [[[]|e|] h1]; cbn [fst snd].
  - destruct Hs as (h2 & E & ->). rewrite E in Hl. destruct Hl as (L1 & L2 & L3 & L4 & L5).
    destruct (IH (with_results (scenarios h ++ [name]) (failures h) h2)) as (R1 & R2 & R3 & k & R4 & R5).
    cbn [fst snd scenarios failures evidence diagnostics fx with_results] in *.
    split; [congruence|]. split; [congruence|]. split; [by etrans|]. exists (S k).
    split; [rewrite R4; simpl; by rewrite <- app_assoc|].
    destruct (run_plan p _).1; [|exact R5..]. by destruct R5 as [-> R5].
  - destruct Hs as (h2 & E & ->). rewrite E in Hl. destruct Hl as (L1 & L2 & L3 & L4 & L5).
    repeat (split; [done|]). exists 0%nat. split; [by rewrite app_nil_r|]. by exists name.
  - rewrite Hs in Hl. destruct Hl as (L1 & L2 & L3 & L4 & L5).
    repeat (split; [done|]). exists 0%nat. split; [by rewrite app_nil_r|done].
Qed.

Lemma scenario_returns name m h a h' :
  scenario name m h = (Returns a, h') ->
  ∃ h1 ss fs, m h = (Returns tt, h1) ∧ h' = with_results ss fs h1.
Proof.
  unfold scenario, on_throw. destruct ((m;; _) h) as [[[]|e|] h1] eqn:E; intros H; simplify_eq.
  apply bind_returns in E as ([] & h2 & E & E2). unfold modify in E2. simplify_eq. eauto.
Qed.

Lemma scenario_triple P name m :
  (∀ h ss fs, P h -> P (with_results ss fs h)) -> triple P m P -> triple P (scenario name m) P.
Proof.
  intros Hw Hm h a h' HP H. apply scenario_returns in H as (h1 & ss & fs & H & ->).
  apply Hw. by eapply Hm.
Qed.

Lemma run_plan_triple P p :
  (∀ h ss fs, P h -> P (with_results ss fs h)) ->
  Forall (λ s, triple P s.2 P) p -> triple P (run_plan p) P.
Proof.
  intros Hw. induction 1 as [|[name m] p Hm _ IH]; cbn [run_plan].
  { intros h a h' HP H. unfold mret, M_ret in H. by simplify_eq. }
  apply (triple_then P); [by apply scenario_triple|by intros _].
Qed.

Lemma triple_logs {A} (m : M A) : Respects logs m -> triple saved m saved.
Proof. intros Hm h a h' Hs H. apply (respects_returns logs) in H; [|done]. by eapply saved_logs. Qed.

(** A plan that passes has seen the settings saved. *)
Lemma run_plan_saved h a h' : run_plan plan h = (Returns a, h') -> saved h'.
Proof.
  assert (Hw : ∀ h ss fs, saved h -> saved (with_results ss fs h)) by done.
  assert (Hp : Forall (λ s, triple saved s.2 saved) (drop 5 plan)).
  { apply Forall_drop. eapply Forall_impl; [apply plan_logs|]. intros s Hs. by apply triple_logs. }
  intros H. unfold plan in H. cbn [run_plan] in H.
  do 4 (apply bind_returns in H as (? & ? & _ & H)).
  apply bind_returns in H as ([] & h1 & H1 & H).
  refine (run_plan_triple saved (drop 5 plan) Hw Hp h1 a h' _ H).
  apply scenario_returns in H1 as (h2 & ss & fs & H1 & ->). apply Hw. by eapply invalid_settings_saved.
Qed.

(** ** The run *)

#[local] Instance respects_opened_logs o : Respects logs (modify (with_opened o)).
Proof. by apply respects_modify. Qed.
#[local] Instance respects_opened_switches o : Respects switches (modify (with_opened o)).
Proof. by apply respects_modify. Qed.
#[local] Instance respects_write R `{!Tolerant R} file : Respects R (file_op (WriteFile file) id).
Proof. apply respects_file_op; [apply _|]. intros h. simpl. reflexivity. Qed.

#[local] Instance setup_logs : Respects logs setup.
Proof. unfold setup, open_page. respecting. Qed.
#[local] Instance setup_switches : Respects switches setup.
Proof. unfold setup, open_page. respecting. Qed.
#[local] Instance final_logs : Respects logs final_checks.
Proof. unfold final_checks. apply _. Qed.
#[local] Instance final_switches : Respects switches final_checks.
Proof. unfold final_checks. apply _. Qed.

(** The scenarios passed so far are a beginning of the plan, and a failure is
    that of the next one. *)
Definition tally (h : harness) : Prop :=
  ∃ k, scenarios h = take k plan_names ∧
    match failures h with
    | [] => True
    | [(name, _)] => plan_names !! k = Some name
    | _ => False
    end.

(** The evidence records a complete run. *)
Definition complete (h : harness) (e : evidence_file) : Prop :=
  e_scenarios e = plan_names ∧ testsPassed e = 11 ∧ testsFailed e = 0 ∧ e_frontend e = provenance ∧
  scenarios h = plan_names ∧ failures h = [] ∧ saved h ∧ serving h.

Lemma serving_respects {A} (m : M A) : Respects switches m -> triple serving m serving.
Proof. intros Hm. by apply triple_switches. Qed.

Lemma write_evidence_spec h :
  scenarios h = plan_names -> failures h = [] -> saved h -> serving h ->
  let '(r, h') := write_evidence h in
  tally h' ∧ diagnostics h' = diagnostics h ∧
  ((∃ e, evidence h' = Some e ∧ complete h' e) ∨ evidence h' = evidence h ∧ r ≠ Returns tt).
Proof.
  intros Hs Hf Hsave Hv. unfold write_evidence. rewrite bind_run.
  pose proof (final_logs h) as Hl. pose proof (λ a h', serving_respects final_checks _ h a h' Hv) as Hsv.
  assert (Ht : ∀ h', logs h h' -> tally h').
  { intros h' (L1 & L2 & _). exists (length plan_names). by rewrite L1, L2, Hs, Hf, take_ge. }
  destruct (final_checks h) as [[d|e|] h1]; cbn [snd] in Hl.
  2, 3: split; [by apply Ht|]; split; [apply Hl|right; split; [apply Hl|done]].
  specialize (Hsv d h1 eq_refl). pose proof (Ht h1 Hl) as Ht1.
  destruct Hl as (L1 & L2 & L3 & L4 & L5). rewrite bind_run. cbn [get]. unfold file_op.
  destruct (answer _); (split; [exact Ht1|]); (split; [exact L4|]); [left|by right].
  eexists. split; [done|]. unfold complete. cbn. rewrite L1, Hs. repeat (split; [done|]).
  split; [congruence|]. split; [|exact Hsv].
  exact (saved_logs h h1 (conj L1 (conj L2 (conj L3 (conj L4 L5)))) Hsave).
Qed.

Lemma body_spec h : scenarios h = [] -> failures h = [] -> serving h ->
  let '(r, h') := body h in
  tally h' ∧ diagnostics h' = diagnostics h ∧
  ((∃ e, evidence h' = Some e ∧ complete h' e) ∨ evidence h' = evidence h ∧ r ≠ Returns tt).
Proof.
  intros Hs Hf Hv. unfold body. rewrite bind_run.
  pose proof (setup_logs h) as (S1 & S2 & S3 & S4 & _).
  pose proof (λ a h', serving_respects setup _ h a h' Hv) as Sv.
  destruct (setup h) as [[[]|e|] h1]; cbn [snd] in *.
  2, 3: split; [exists 0%nat; by rewrite S1, S2, Hs, Hf|]; split; [done|by right].
  specialize (Sv tt h1 eq_refl). rewrite bind_run.
  pose proof (run_plan_report plan plan_logs h1) as (P1 & P2 & _ & k & P4 & P5).
  pose proof (λ a h', run_plan_triple serving plan (λ _ _ _ H, H) plan_serving h1 a h' Sv) as Pv.
  pose proof (λ a h', run_plan_saved h1 a h') as Ps.
  rewrite S1, Hs in P4. rewrite S2, Hf in P5.
  destruct (run_plan plan h1) as [[[]|e|] h2]; cbn [fst snd app] in *.
  2: { destruct P5 as (name & P5 & P6). split; [exists k; by rewrite P6|].
       split; [congruence|]. right. split; [congruence|done]. }
  2: { split; [exists k; by rewrite P5|]. split; [congruence|]. right. split; [congruence|done]. }
  destruct P5 as [-> P6].
  pose proof (write_evidence_spec h2 P4 P6 (Ps tt h2 eq_refl) (Pv tt h2 eq_refl)) as W.
  destruct (write_evidence h2) as [r h3]. rewrite P1, P2, S3, S4 in W. exact W.
Qed.

(** [cleanup] writes the diagnostics and leaves the rest of the books alone. *)
Definition results (h h' : harness) : Prop :=
  scenarios h' = scenarios h ∧ failures h' = failures h ∧ evidence h' = evidence h ∧
  commands (fx h) `prefix_of` commands (fx h') ∧ switches h h'.

#[local] Instance results_tolerant : Tolerant results.
Proof.
  split.
  - split; [by intros h|]. intros h1 h2 h3 (?&?&?&?&?) (?&?&?&?&?).
    repeat (split; [congruence|]). split; by etrans.
  - by intros ms h.
  - intros e h h' ((?&?&?&?&?)&?)%arrive_fixture. done.
Qed.

Definition recorded (h : harness) (d : diagnostics_file) : Prop :=
  d_scenarios d = scenarios h ∧ d_failures d = failures h.

Lemma cleanup_spec h r h' : cleanup h = (r, h') ->
  results h h' ∧ (diagnostics h' = diagnostics h ∨ ∃ d, diagnostics h' = Some d ∧ recorded h' d).
Proof.
  intros E. unfold cleanup in E. rewrite bind_run in E. cbn [get] in E.
  rewrite bind_run in E. unfold file_op at 1 in E. destruct (answer _).
  2: { injection E as <- <-. split; [by repeat (split; [done|])|by left]. }
  set (h1 := with_diagnostics _ _) in E.
  assert (R1 : results h h1) by (by repeat (split; [done|])).
  match type of E with ?m h1 = _ =>
    assert (Hm : Respects results m) by respecting; assert (Hl : Respects logs m) by respecting end.
  specialize (Hm h1). specialize (Hl h1). rewrite E in Hm, Hl. destruct Hl as (L1 & L2 & L3 & L4 & _).
  cbn [snd] in *. split; [by etrans|]. right. eexists. split; [rewrite L4; reflexivity|].
  split; symmetry; [exact L1|exact L2].
Qed.

Lemma complete_results h h' e : results h h' -> complete h e -> complete h' e.
Proof.
  intros (R1 & R2 & R3 & R4 & [R5 R6]) (C1 & C2 & C3 & C4 & C5 & C6 & (c & Hc & Hs) & [C8 C9]).
  destruct R4 as [l Hl].
  repeat (split; [done || congruence|]). split; [|split; congruence].
  exists c. split; [|done]. rewrite Hl. apply elem_of_app. by left.
Qed.

(** The end of a run that began with the evidence [prior] on disk. *)
Definition verdict (prior : option evidence_file) (r : outcome unit) (h : harness) : Prop :=
  tally h ∧ (∀ d, diagnostics h = Some d -> recorded h d) ∧
  ((∃ e, evidence h = Some e ∧ complete h e) ∨ (evidence h = prior ∨ evidence h = None) ∧ r ≠ Returns tt).

Lemma then_throws {A B} (m : M A) e h (b : B) : ((m;; throw e) h).1 ≠ Returns b.
Proof. rewrite bind_run. by destruct (m h) as [[]]. Qed.

Lemma main_verdict h :
  scenarios h = [] -> failures h = [] -> diagnostics h = None -> evidence h = None -> serving h ->
  verdict None (main h).1 (main h).2.
Proof.
  intros Hs Hf Hd He Hv. unfold main. rewrite bind_run.
  pose proof (respects_listen logs h) as (L1 & L2 & L3 & L4 & _).
  pose proof (λ a h', serving_respects listen _ h a h' Hv) as Lv.
  destruct (listen h) as [[[]|e|] h1]; cbn [fst snd] in *.
  2, 3: split; [exists 0%nat; by rewrite L1, L2, Hs, Hf|]; split; [intros d; by rewrite L4, Hd|];
        right; split; [left; congruence|done].
  assert (B : let '(r, h2) := on_throw body (λ _, h ← get;
                if has_page (opened h) then ignore (act (Screenshot "failure.png")) else mret tt) h1 in
              tally h2 ∧ diagnostics h2 = None ∧
              ((∃ e, evidence h2 = Some e ∧ complete h2 e) ∨ evidence h2 = None ∧ r ≠ Returns tt)).
  { pose proof (body_spec h1) as B. rewrite L1, L2, L3, L4, Hs, Hf, Hd, He in B.
    specialize (B eq_refl eq_refl (Lv tt h1 eq_refl)). unfold on_throw.
    destruct (body h1) as [[[]|e|] h2]; [exact B| |exact B].
    set (m := mbind _ _). assert (Hm : Respects logs m) by (subst m; respecting).
    assert (Hw : Respects switches m) by (subst m; respecting).
    pose proof (Hm h2) as (M1 & M2 & M3 & M4 & M5). specialize (Hw h2). destruct B as ((k & B1 & B2) & B3 & B4).
    assert (Hne : (m h2).1 ≠ Returns tt).
    { apply then_throws. }
    destruct (m h2) as [r h3]. cbn [fst snd] in *.
    split; [exists k; by rewrite M1, M2|]. split; [congruence|].
    destruct B4 as [(e' & B4 & B5)|[B4 B5]]; [left|right; split; [congruence|done]].
    exists e'. split; [congruence|]. by apply (complete_results h2). }
  unfold finally. destruct (on_throw _ _ h1) as [r h2]. destruct B as (B1 & B2 & B3).
  assert (C : ∀ r' r'' h3, cleanup h2 = (r', h3) -> (r'' = Returns tt -> r = Returns tt) -> verdict None r'' h3).
  { intros r' r'' h3 E Hr. apply cleanup_spec in E as ((R1 & R2 & R3 & R4 & R5) & D).
    destruct B1 as (k & B1 & B1'). split; [exists k; by rewrite R1, R2|]. split.
    - intros d Hd'. destruct D as [D|(d' & D & D')]; congruence.
    - destruct B3 as [(e & B3 & B4)|[B3 B4]].
      + left. exists e. split; [congruence|]. by apply (complete_results h2).
      + right. split; [left; congruence|]. naive_solver. }
  destruct r as [[]|e|].
  - rewrite bind_run. destruct (cleanup h2) as [[[]|e|] h3] eqn:E; by eapply C.
  - rewrite bind_run. destruct (cleanup h2) as [[[]|e'|] h3] eqn:E; by eapply C.
  - split; [done|]. split; [intros d; cbn; by rewrite B2|]. destruct B3 as [B3|[B3 B4]]; [by left|]. right. split; [by left|done].
Qed.

(** A harness as it starts: nothing recorded, the fixture serving. *)
Definition fresh (h : harness) : Prop :=
  scenarios h = [] ∧ failures h = [] ∧ diagnostics h = None ∧ serving h.

Lemma run_verdict h : fresh h -> verdict (evidence h) (run h).1 (run h).2.
Proof.
  intros (Hs & Hf & Hd & Hv). unfold run. rewrite bind_run. unfold file_op. destruct (answer _).
  - pose proof (main_verdict (with_evidence None (advance 0 h)) Hs Hf Hd eq_refl Hv) as (V1 & V2 & V3).
    split; [done|]. split; [done|]. destruct V3 as [V3|[[V3|V3] V4]]; [by left|right..]; (split; [by right|done]).
  - split; [exists 0%nat; cbn; by rewrite Hs, Hf|]. split; [intros d; cbn; by rewrite Hd|]. right. split; [by left|done].
Qed.
End harness_run.

(** ** The whole script *)

(** [fixture.state] as it is written in the script, with the clock in
    milliseconds and its ISO text. *)
Definition initial_state (now : Z) (iso : string) : list (string * val) := [
  ("data_source", VStr "mqtt"); ("native_connected", VBool true); ("mqtt_connected", VBool true);
  ("controller_controls_available", VBool true);
  ("controller_observed_at", VNum (F64.div (F64.of_Z now) (F64.of_Z 1000)));
  ("dry_run", VBool false); ("gt", VInt 420); ("g1", VInt 200); ("g2", VInt 220); ("tt", VInt 850);
  ("t1", VInt 400); ("t2", VInt 450); ("solar_total", VInt 1200); ("battery_soc", VInt 73);
  ("battery_power", VInt (-300)); ("battery_voltage", VNum (string_to_number "51.2"));
  ("battery_current", VNum (string_to_number "-5.8")); ("setpoint", VInt 25);
  ("inverter_state", VStr "Inverting"); ("uptime", VInt 7200);
  ("loads", VObj [("1", VInt 200); ("2", VInt (-100)); ("3", VInt 5)]);
  ("load_names", VObj [("1", VStr "Fixture refrigerator"); ("2", VStr "Fixture solar");
                       ("3", VStr "Fixture router")]);
  ("batteries", VArr [VObj [("instance", VInt 0); ("name", VStr "Fixture battery"); ("soc", VInt 73)]]);
  ("features", VObj [("ha", VBool false)]);
  ("telemetry", VObj [("quality", VStr "live"); ("source", VStr "mqtt"); ("observed_at", VStr iso)]);
  ("ui_config", VObj [("settings", VObj [("camera_topic", VStr ""); ("mqtt_port", VInt 1883);
                                         ("show_active_loads", VBool true)])])].

(** The harness at the start, with the evidence that is on disk. *)
Definition start (now : Z) (iso : string) (prior : option evidence_file) : harness :=
  Harness (Fixture (initial_state now iso) false false [] [] 0) [] [] [] [] [] prior None
          (Handles false false false) now 0.

Lemma start_fresh now iso prior : fresh (start now iso prior).
Proof. by repeat split. Qed.

Section acceptance.
Variable sha256 : string -> string.
Variable localeCompare : string -> string -> Z.
Variable extname : string -> string.
Variable manifest_file : string.
Variable env : nat -> call -> response.
Variable acknowledge : nat -> close_options -> list (Z * string).
Variable pathname : string -> string.
Variables origin host : string.

(** The verification of the frontend; [None]: an assertion fails. *)
Definition boot (manifestKind : string) (manifest : val) (dist : list (string * entry))
  : option (list (string * asset) * frontend) :=
  entries ← inventory manifestKind manifest;
  assets ← verify sha256 localeCompare extname manifest_file entries dist;
  f ← frontend_of manifest (Z.of_nat (length (set_props [] entries)));
  Some (assets, f).

Definition acceptance (manifestKind : string) (manifest : val) (dist : list (string * entry))
    (now : Z) (iso : string) (prior : option evidence_file) : outcome unit * harness :=
  match boot manifestKind manifest dist with
  | None => (Throws "AssertionError", start now iso prior)
  | Some (assets, f) => run env acknowledge assets pathname origin host f (start now iso prior)
  end.

(** [process.exitCode]. *)
Definition exit_code (r : outcome unit) : Z := match r with Returns _ => 0 | _ => 1 end.

(** C40: When a run is over, either the evidence on disk is this run's, it
    describes the verified frontend, every scenario of the plan passed, the
    page has sent the settings that the form was filled with, and the fixture
    serves again; or the exit code is not zero and there is no evidence but
    what an earlier run left.  In every case the scenarios recorded are a
    beginning of the plan, a recorded failure is that of the next scenario,
    and the diagnostics, when written, say the same. *)
Theorem acceptance_sound (manifestKind : string) (manifest : val) (dist : list (string * entry))
    (now : Z) (iso : string) (prior : option evidence_file) :
  let '(r, h) := acceptance manifestKind manifest dist now iso prior in
  ((∃ e assets, evidence h = Some e ∧ boot manifestKind manifest dist = Some (assets, e_frontend e) ∧
      e_scenarios e = plan_names ∧ testsPassed e = 11 ∧ testsFailed e = 0 ∧
      scenarios h = plan_names ∧ failures h = [] ∧
      (∃ command, command ∈ commands (fx h) ∧ saved_settings command = true) ∧
      reject (fx h) = false ∧ paused (fx h) = false) ∨
   (evidence h = prior ∨ evidence h = None) ∧ exit_code r ≠ 0) ∧
  (∃ k, scenarios h = take k plan_names ∧
     match failures h with
     | [] => True
     | [(name, _)] => plan_names !! k = Some name
     | _ => False
     end) ∧
  (∀ d, diagnostics h = Some d -> d_scenarios d = scenarios h ∧ d_failures d = failures h).
Proof.
  unfold acceptance. destruct (boot manifestKind manifest dist) as [[assets f]|].
  - pose proof (run_verdict env acknowledge assets pathname origin host f _ (start_fresh now iso prior)) as V.
    destruct (run _ _ _ _ _ _ _ _) as [r h]. destruct V as (V1 & V2 & V3). split; [|by split].
    destruct V3 as [(e & V3 & C1 & C2 & C3 & C4 & C5 & C6 & C7 & C8)|[V3 V4]].
    + left. exists e, assets. rewrite C4. by repeat (split; [done|]).
    + right. split; [done|]. by destruct r as [[]| |].
  - split; [right; by split; [left|]|]. split; [by exists 0%nat|done].
Qed.
End acceptance.

(** ** A run that passes *)

Definition sample_manifest : val := VObj [
  ("repository", VStr "https://github.com/victron-venus/inverter-dashboard-vue");
  ("source_commit", VStr "0123456789abcdef0123456789abcdef01234567");
  ("package_version", VStr "2.10.0-rc.1");
  ("archive_sha256", VStr (sample_digest "archive"));
  ("sha256", VObj ((λ e : string * string, (e.1, VStr e.2)) <$> sample_entries))].

Definition settings_command (fields : list (string * val)) : arrival :=
  MessageFrom 1 (Some (VObj (("action", VStr "set_settings") :: fields))).

Definition page_socket (socket : nat) : arrival :=
  SocketOpened "127.0.0.1:8099" "/ws" "ws://127.0.0.1:8099" socket.

(** A browser that behaves: the arrivals and the answer for the n-th call. *)
Definition sample_env (n : nat) (c : call) : response :=
  match c with
  | Goto _ => Response [Requested "http://127.0.0.1:8099"; page_socket 1] 300 (inl VUndef)
  | AllTextContents _ =>
      Response [] 20 (inl (VArr [VStr "Fixture refrigerator 200W"; VStr "Fixture solar -100W"; VStr "Fixture router 5W"]))
  | TextContent _ => Response [] 20 (inl (VStr "Fixture refrigerator 333W"))
  | Count (Css _) | Count (Text _ _) => Response [] 5 (inl (VInt 1))
  | Count _ => Response [] 5 (inl (VInt 0))
  | Evaluate None "() => localStorage.getItem('theme')" => Response [] 5 (inl (VStr "dark"))
  | Evaluate None "() => document.activeElement?.getAttribute('aria-label')" =>
      Response [] 5 (inl (VStr "Settings"))
  | Evaluate None "() => window.dispatchEvent(new Event('online'))" =>
      Response [page_socket 2] 100 (inl VUndef)
  | Evaluate (Some (TestId _)) _ =>
      Response (if (n =? 56)%nat then [SocketClosed 1 1006 ""] else []) 5 (inl (VStr (if (n =? 56)%nat then "false" else "true")))
  | Evaluate _ _ => Response [] 5 (inl (VBool true))
  | Uncheck _ => Response [settings_command [("show_active_loads", VBool false)]] 40 (inl VUndef)
  | Click (Role _ (Some "Save Configuration") _) =>
      Response (if (n =? 40)%nat
                then [settings_command [("mqtt_port", VInt 1884); ("camera_topic", VStr "fixture/camera")]]
                else if (n =? 53)%nat then [settings_command [("camera_topic", VStr "fixture/rejected")]]
                else []) 60 (inl VUndef)
  | _ => Response [] 10 (inl VUndef)
  end.

Definition sample_acknowledge (_ : nat) (_ : close_options) : list (Z * string) := [].

#[local] Abbreviation sample_run :=
  (acceptance sample_digest sample_compare (λ _, ".html") "manifest.json" sample_env sample_acknowledge
     id "http://127.0.0.1:8099" "127.0.0.1:8099" "go" sample_manifest sample_dist
     1700000000000 "2023-11-14T22:13:20.000Z" None).

Lemma acceptance_sound_witness :
  exit_code sample_run.1 = 0 ∧
  ∃ e, evidence sample_run.2 = Some e ∧ e_scenarios e = plan_names ∧ version (e_frontend e) = "2.10.0-rc.1".
Proof.
  pose proof (acceptance_sound sample_digest sample_compare (λ _, ".html") "manifest.json" sample_env
                sample_acknowledge id "http://127.0.0.1:8099" "127.0.0.1:8099" "go" sample_manifest sample_dist
                1700000000000 "2023-11-14T22:13:20.000Z" None) as H.
  assert (E : exit_code sample_run.1 = 0) by (vm_compute; reflexivity). destruct sample_run as [r h]. cbn [fst snd] in *. split; [exact E|].
  destruct H as ([(e & assets & He & Hb & Hs & _)|[_ H]] & _).
  - exists e. split; [exact He|]. split; [exact Hs|]. 
    match type of Hb with ?b = _ =>
      assert (Hv : (version ∘ snd) <$> b = Some "2.10.0-rc.1") by (vm_compute; reflexivity) end.
    rewrite Hb in Hv. by injection Hv.
  - contradiction.
Defined.
