(* ===== verification/Utf8.v ===== *)
(** * UTF-8 text of the Go server

    What the Go language does when it converts between byte strings and runes:
    [scan] decodes as [range] and [[]rune(s)] do (an invalid byte gives the
    replacement rune and has width one), [encode] is [string(runes)].  Used by
    the push payloads, whose texts the service worker measures in code points. *)

From Stdlib Require Import ZArith Ascii String.
From stdpp Require Import base list option strings.
From S2P Require Import Prelude.

#[local] Open Scope string_scope.
#[local] Open Scope list_scope.
#[local] Open Scope Z_scope.

(** ** Bytes *)

Definition byte_of (c : ascii) : Z := Z.of_nat (nat_of_ascii c).
Definition to_byte (z : Z) : ascii := ascii_of_nat (Z.to_nat z).

Definition between (lo hi z : Z) : bool := (lo <=? z) && (z <=? hi).
Definition is_cont (c : ascii) : bool := between 128 191 (byte_of c).

Definition RUNE_ERROR : Z := 65533.

(** ** Decoding *)

(** The accepted second byte of a three- or four-byte sequence. *)
Definition second_of_three (b0 b1 : Z) : bool :=
  if b0 =? 224 then between 160 191 b1
  else if b0 =? 237 then between 128 159 b1
  else between 128 191 b1.

Definition second_of_four (b0 b1 : Z) : bool :=
  if b0 =? 240 then between 144 191 b1
  else if b0 =? 244 then between 128 143 b1
  else between 128 191 b1.

(** The runes of a byte string, each with whether it was encoded validly. *)
Fixpoint scan (s : string) : list (Z * bool) :=
  match s with
  | EmptyString => []
  | String c0 s1 =>
      let b0 := byte_of c0 in
      let bad (_ : unit) := (RUNE_ERROR, false) :: scan s1 in
      if b0 <? 128 then (b0, true) :: scan s1
      else if between 194 223 b0 then
        match s1 with
        | String c1 s2 =>
            if is_cont c1 then ((b0 - 192) * 64 + (byte_of c1 - 128), true) :: scan s2 else bad tt
        | _ => bad tt
        end
      else if between 224 239 b0 then
        match s1 with
        | String c1 (String c2 s3) =>
            if second_of_three b0 (byte_of c1) && is_cont c2
            then ((b0 - 224) * 4096 + (byte_of c1 - 128) * 64 + (byte_of c2 - 128), true) :: scan s3
            else bad tt
        | _ => bad tt
        end
      else if between 240 244 b0 then
        match s1 with
        | String c1 (String c2 (String c3 s4)) =>
            if second_of_four b0 (byte_of c1) && is_cont c2 && is_cont c3
            then ((b0 - 240) * 262144 + (byte_of c1 - 128) * 4096 + (byte_of c2 - 128) * 64
                  + (byte_of c3 - 128), true) :: scan s4
            else bad tt
        | _ => bad tt
        end
      else bad tt
  end.

(** [[]rune(s)] and [utf8.ValidString(s)]. *)
Definition runes (s : string) : list Z := (scan s).*1.
Definition valid_utf8 (s : string) : bool := forallb snd (scan s).

(** ** Encoding *)

(** A Unicode scalar value. *)
Definition scalar (r : Z) : bool := between 0 1114111 r && negb (between 55296 57343 r).

Definition encode_scalar (r : Z) : string :=
  if r <? 128 then String (to_byte r) ""
  else if r <? 2048 then String (to_byte (192 + r / 64)) (String (to_byte (128 + r mod 64)) "")
  else if r <? 65536 then
    String (to_byte (224 + r / 4096)) (String (to_byte (128 + r / 64 mod 64))
      (String (to_byte (128 + r mod 64)) ""))
  else
    String (to_byte (240 + r / 262144)) (String (to_byte (128 + r / 4096 mod 64))
      (String (to_byte (128 + r / 64 mod 64)) (String (to_byte (128 + r mod 64)) ""))).

Definition encode_rune (r : Z) : string := encode_scalar (if scalar r then r else RUNE_ERROR).

(** [string(runes)]. *)
Definition encode (rs : list Z) : string := foldr (λ r s, encode_rune r +:+ s) "" rs.

(** ** Lemmas *)

Lemma byte_bound c : 0 <= byte_of c < 256.
Proof.
  unfold byte_of. pose proof (nat_ascii_bounded c). lia.
Qed.

Lemma byte_of_to_byte z : 0 <= z < 256 -> byte_of (to_byte z) = z.
Proof. intros Hz. unfold byte_of, to_byte. rewrite nat_ascii_embedding; lia. Qed.

Lemma between_spec lo hi z : between lo hi z = true ↔ lo <= z <= hi.
Proof. unfold between. rewrite andb_true_iff, !Z.leb_le. done. Qed.

Lemma between_false lo hi z : between lo hi z = false ↔ ¬ (lo <= z <= hi).
Proof. rewrite <- between_spec. by destruct (between lo hi z). Qed.

(** Induction along the sequences that [scan] reads. *)
Lemma string_length_ind (P : string -> Prop) :
  (∀ s, (∀ t, (String.length t < String.length s)%nat -> P t) -> P s) -> ∀ s, P s.
Proof.
  intros H s. remember (String.length s) as n eqn:E. revert s E.
  induction (lt_wf n) as [n _ IH]. intros s ->. apply H. intros t Ht. by eapply IH.
Qed.

Lemma to_byte_of c : to_byte (byte_of c) = c.
Proof. unfold to_byte, byte_of. rewrite Nat2Z.id. apply ascii_nat_embedding. Qed.

Lemma to_byte_eq z c : z = byte_of c -> to_byte z = c.
Proof. intros ->. apply to_byte_of. Qed.

Ltac betweens :=
  repeat match goal with
  | H : between _ _ _ = true |- _ => apply between_spec in H
  | H : between _ _ _ = false |- _ => apply between_false in H
  end.

Ltac euclid := Z.to_euclidean_division_equations; lia.

(** The bounds that the second bytes enforce. *)
Lemma second_of_three_spec b0 b1 :
  second_of_three b0 b1 = true ->
  128 <= b1 <= 191 ∧ (b0 = 224 -> 160 <= b1) ∧ (b0 = 237 -> b1 <= 159).
Proof.
  unfold second_of_three. destruct (Z.eqb_spec b0 224), (Z.eqb_spec b0 237); intros; betweens; lia.
Qed.

Lemma second_of_four_spec b0 b1 :
  second_of_four b0 b1 = true ->
  128 <= b1 <= 191 ∧ (b0 = 240 -> 144 <= b1) ∧ (b0 = 244 -> b1 <= 143).
Proof.
  unfold second_of_four. destruct (Z.eqb_spec b0 240), (Z.eqb_spec b0 244); intros; betweens; lia.
Qed.

Lemma scalar_spec r : scalar r = true ↔ 0 <= r <= 1114111 ∧ ¬ (55296 <= r <= 57343).
Proof. unfold scalar. rewrite andb_true_iff, negb_true_iff, between_spec, between_false. done. Qed.

(** The sequences of two, three and four bytes and their runes. *)
Lemma encode_two b0 b1 :
  194 <= byte_of b0 <= 223 -> 128 <= byte_of b1 <= 191 ->
  let r := (byte_of b0 - 192) * 64 + (byte_of b1 - 128) in
  scalar r = true ∧ encode_scalar r = String b0 (String b1 "").
Proof.
  intros H0 H1 r. split; [apply scalar_spec; unfold r; lia|]. unfold encode_scalar.
  rewrite (proj2 (Z.ltb_ge r 128)), (proj2 (Z.ltb_lt r 2048)) by (unfold r; lia).
  rewrite (to_byte_eq (192 + r / 64) b0), (to_byte_eq (128 + r mod 64) b1); [done| |];
    unfold r; euclid.
Qed.

Lemma encode_three b0 b1 b2 :
  224 <= byte_of b0 <= 239 -> second_of_three (byte_of b0) (byte_of b1) = true ->
  128 <= byte_of b2 <= 191 ->
  let r := (byte_of b0 - 224) * 4096 + (byte_of b1 - 128) * 64 + (byte_of b2 - 128) in
  scalar r = true ∧ encode_scalar r = String b0 (String b1 (String b2 "")).
Proof.
  intros H0 H1 H2 r. apply second_of_three_spec in H1 as (H1 & Hlo & Hhi).
  assert (Hr : 2048 <= r < 65536 ∧ ¬ (55296 <= r <= 57343)) by (unfold r; lia).
  split; [apply scalar_spec; lia|]. unfold encode_scalar.
  rewrite (proj2 (Z.ltb_ge r 128)), (proj2 (Z.ltb_ge r 2048)), (proj2 (Z.ltb_lt r 65536)) by lia.
  rewrite (to_byte_eq (224 + r / 4096) b0), (to_byte_eq (128 + r / 64 mod 64) b1),
    (to_byte_eq (128 + r mod 64) b2); [done| | |]; unfold r; clear -H0 H1 H2; euclid.
Qed.

Lemma encode_four b0 b1 b2 b3 :
  240 <= byte_of b0 <= 244 -> second_of_four (byte_of b0) (byte_of b1) = true ->
  128 <= byte_of b2 <= 191 -> 128 <= byte_of b3 <= 191 ->
  let r := (byte_of b0 - 240) * 262144 + (byte_of b1 - 128) * 4096 + (byte_of b2 - 128) * 64
           + (byte_of b3 - 128) in
  scalar r = true ∧ encode_scalar r = String b0 (String b1 (String b2 (String b3 ""))).
Proof.
  intros H0 H1 H2 H3 r. apply second_of_four_spec in H1 as (H1 & Hlo & Hhi).
  assert (Hr : 65536 <= r <= 1114111) by (unfold r; lia).
  split; [apply scalar_spec; lia|]. unfold encode_scalar.
  rewrite (proj2 (Z.ltb_ge r 128)), (proj2 (Z.ltb_ge r 2048)), (proj2 (Z.ltb_ge r 65536)) by lia.
  rewrite (to_byte_eq (240 + r / 262144) b0), (to_byte_eq (128 + r / 4096 mod 64) b1),
    (to_byte_eq (128 + r / 64 mod 64) b2), (to_byte_eq (128 + r mod 64) b3); [done| | | |];
    unfold r; clear -H0 H1 H2 H3; euclid.
Qed.

(** What [scan] reads first: a rune that is a scalar value, from a non-empty
    prefix; when the prefix is valid it is the rune's encoding. *)
Lemma scan_first c s :
  ∃ r ok w rest, String c s = w +:+ rest ∧ (String.length rest <= String.length s)%nat ∧
    scan (String c s) = (r, ok) :: scan rest ∧ scalar r = true ∧
    (ok = true -> encode_scalar r = w).
Proof.
  assert (Hbad : ∃ r ok w rest, String c s = w +:+ rest ∧ (String.length rest <= String.length s)%nat ∧
            (RUNE_ERROR, false) :: scan s = (r, ok) :: scan rest ∧ scalar r = true ∧
            (ok = true -> encode_scalar r = w)).
  { exists RUNE_ERROR, false, (String c ""), s. done. }
  pose proof (byte_bound c) as Hc. cbn [scan].
  destruct (Z.ltb_spec (byte_of c) 128) as [H|H].
  { exists (byte_of c), true, (String c ""), s. split; [done|]. split; [done|]. split; [done|].
    split; [apply scalar_spec; lia|]. intros _. unfold encode_scalar.
    rewrite (proj2 (Z.ltb_lt _ _)) by lia. by rewrite to_byte_of. }
  destruct (between 194 223 (byte_of c)) eqn:E2; betweens.
  { destruct s as [|c1 s2]; [exact Hbad|]. destruct (is_cont c1) eqn:E; [|exact Hbad].
    unfold is_cont in E. betweens. destruct (encode_two c c1 E2 E) as [Hs He].
    eexists _, true, (String c (String c1 "")), s2. split; [done|]. split; [simpl; lia|].
    split; [reflexivity|]. by split. }
  destruct (between 224 239 (byte_of c)) eqn:E3; betweens.
  { destruct s as [|c1 [|c2 s3]]; [exact Hbad|exact Hbad|].
    destruct (second_of_three _ _ && is_cont c2) eqn:E; [|exact Hbad].
    apply andb_true_iff in E as [E E']. unfold is_cont in E'. betweens.
    destruct (encode_three c c1 c2 E3 E E') as [Hs He].
    eexists _, true, (String c (String c1 (String c2 ""))), s3. split; [done|]. split; [simpl; lia|].
    split; [reflexivity|]. by split. }
  destruct (between 240 244 (byte_of c)) eqn:E4; betweens; [|exact Hbad].
  destruct s as [|c1 [|c2 [|c3 s4]]]; [exact Hbad|exact Hbad|exact Hbad|].
  destruct (second_of_four _ _ && is_cont c2 && is_cont c3) eqn:E; [|exact Hbad].
  apply andb_true_iff in E as [E E'']. apply andb_true_iff in E as [E E'].
  unfold is_cont in E', E''. betweens. destruct (encode_four c c1 c2 c3 E4 E E' E'') as [Hs He].
  eexists _, true, (String c (String c1 (String c2 (String c3 "")))), s4. split; [done|].
  split; [simpl; lia|]. split; [reflexivity|]. by split.
Qed.

(** A string is empty or starts with what [scan_first] describes. *)
Lemma scan_ind (P : string -> list (Z * bool) -> Prop) :
  P "" [] ->
  (∀ r ok w rest, w ≠ "" -> scalar r = true -> (ok = true -> encode_scalar r = w) ->
     P rest (scan rest) -> P (w +:+ rest) ((r, ok) :: scan rest)) ->
  ∀ s, P s (scan s).
Proof.
  intros H0 H1. apply string_length_ind. intros [|c s] IH; [exact H0|].
  destruct (scan_first c s) as (r & ok & w & rest & E & Hlen & Hs & Hr & Hw).
  rewrite Hs. assert (Hne : w ≠ "").
  { intros ->. change ("" +:+ rest) with rest in E. rewrite <- E in Hlen. simpl in Hlen. lia. }
  rewrite E. apply H1; [done|done|done|]. apply IH. simpl. lia.
Qed.

(** Decoding gives scalar values. *)
Lemma runes_scalar s : Forall (λ r, scalar r = true) (runes s).
Proof.
  unfold runes. apply (scan_ind (λ _ l, Forall (λ r, scalar r = true) l.*1)); [constructor|].
  intros r ok w rest _ Hr _ IH. by constructor.
Qed.

(** Encoding then decoding is the identity on scalar values. *)
Lemma scan_encode r s : scalar r = true -> scan (encode_scalar r +:+ s) = (r, true) :: scan s.
Proof.
  intros Hr. apply scalar_spec in Hr as [Hr Hsur]. unfold encode_scalar.
  destruct (Z.ltb_spec r 128) as [H1|H1].
  { change (String (to_byte r) "" +:+ s) with (String (to_byte r) s). cbn [scan].
    rewrite byte_of_to_byte by lia. by rewrite (proj2 (Z.ltb_lt _ _)). }
  destruct (Z.ltb_spec r 2048) as [H2|H2].
  { change (String ?a (String ?b "") +:+ s) with (String a (String b s)). cbn [scan]. unfold is_cont.
    rewrite !byte_of_to_byte by euclid.
    rewrite (proj2 (Z.ltb_ge _ _)), !(proj2 (between_spec _ _ _)) by euclid.
    do 2 f_equal. euclid. }
  destruct (Z.ltb_spec r 65536) as [H3|H3].
  { change (String ?a (String ?b (String ?c "")) +:+ s) with (String a (String b (String c s))).
    cbn [scan]. unfold is_cont. rewrite !byte_of_to_byte by euclid.
    rewrite (proj2 (Z.ltb_ge _ _)), (proj2 (between_false 194 223 _)), (proj2 (between_spec 224 239 _)),
      (proj2 (between_spec _ _ (128 + r mod 64))) by euclid.
    assert (E : second_of_three (224 + r / 4096) (128 + r / 64 mod 64) = true).
    { unfold second_of_three.
      destruct (Z.eqb_spec (224 + r / 4096) 224), (Z.eqb_spec (224 + r / 4096) 237);
        apply between_spec; euclid. }
    rewrite E. cbn [andb]. do 2 f_equal. euclid. }
  change (String ?a (String ?b (String ?c (String ?d ""))) +:+ s)
    with (String a (String b (String c (String d s)))).
  cbn [scan]. unfold is_cont. rewrite !byte_of_to_byte by euclid.
  rewrite (proj2 (Z.ltb_ge _ _)), (proj2 (between_false 194 223 _)), (proj2 (between_false 224 239 _)),
    (proj2 (between_spec 240 244 _)), (proj2 (between_spec _ _ (128 + r mod 64))),
    (proj2 (between_spec _ _ (128 + r / 64 mod 64))) by euclid.
  assert (E : second_of_four (240 + r / 262144) (128 + r / 4096 mod 64) = true).
  { unfold second_of_four.
    destruct (Z.eqb_spec (240 + r / 262144) 240), (Z.eqb_spec (240 + r / 262144) 244);
      apply between_spec; euclid. }
  rewrite E. cbn [andb]. do 2 f_equal. euclid.
Qed.

Lemma append_assoc (a b c : string) : (a +:+ b) +:+ c = a +:+ (b +:+ c).
Proof.
  induction a as [|x a IH]; [done|].
  change (String x ((a +:+ b) +:+ c) = String x (a +:+ (b +:+ c))). by rewrite IH.
Qed.

Lemma length_append (a b : string) : String.length (a +:+ b) = (String.length a + String.length b)%nat.
Proof.
  induction a as [|x a IH]; [done|].
  change (S (String.length (a +:+ b)) = S (String.length a + String.length b)). by rewrite IH.
Qed.

Lemma encode_rune_scalar r : scalar r = true -> encode_rune r = encode_scalar r.
Proof. intros H. unfold encode_rune. by rewrite H. Qed.

Lemma scan_encode_all rs :
  Forall (λ r, scalar r = true) rs -> scan (encode rs) = (λ r, (r, true)) <$> rs.
Proof.
  induction 1 as [|r rs Hr _ IH]; [done|]. cbn [encode foldr].
  rewrite encode_rune_scalar by done. fold (encode rs). rewrite scan_encode by done. csimpl. by rewrite IH.
Qed.

Lemma runes_encode rs : Forall (λ r, scalar r = true) rs -> runes (encode rs) = rs.
Proof.
  intros H. unfold runes. rewrite scan_encode_all by done. rewrite <- list_fmap_compose.
  apply list_fmap_id.
Qed.

Lemma valid_encode rs : Forall (λ r, scalar r = true) rs -> valid_utf8 (encode rs) = true.
Proof.
  intros H. unfold valid_utf8. rewrite scan_encode_all by done.
  clear H. induction rs as [|r rs IH]; [done|]. exact IH.
Qed.

(** Decoding then encoding is the identity on valid text. *)
Lemma encode_runes s : valid_utf8 s = true -> encode (runes s) = s.
Proof.
  unfold valid_utf8, runes. apply (scan_ind (λ s l, forallb snd l = true -> encode l.*1 = s)); [done|].
  intros r ok w rest _ Hr Hw IH H. cbn [forallb snd] in H. apply andb_true_iff in H as [-> H].
  csimpl. cbn [encode foldr]. rewrite encode_rune_scalar by done. rewrite Hw by done.
  fold (encode (scan rest).*1). by rewrite IH.
Qed.

(** A prefix of the runes of any text encodes to a valid text with these runes. *)
Lemma encode_take_runes s n :
  runes (encode (take n (runes s))) = take n (runes s) ∧ valid_utf8 (encode (take n (runes s))) = true.
Proof.
  assert (H : Forall (λ r, scalar r = true) (take n (runes s))) by apply Forall_take, runes_scalar.
  split; [by apply runes_encode|by apply valid_encode].
Qed.
