(* ===== verification/PushPayload.v ===== *)
(** * Push payloads of the Go server

    [internal/push/model.go]: preferences, event keys, the payload and its
    bounds, its currency and its persisted validity.  The last section is the
    contract with the service worker: what the server considers valid and
    current, the worker accepts. *)

From Stdlib Require Import ZArith QArith Ascii String DecimalString.
From Stdlib Require Import Decimal DecimalFacts DecimalPos.
From stdpp Require Import base list option strings.
From S2P Require Import Prelude Float64 JsValue SwEvents Utf8.

#[local] Open Scope string_scope.
#[local] Open Scope list_scope.
#[local] Open Scope Z_scope.

(** ** Constants and preferences *)

Definition maxPayloadBytes : nat := 3072.
Definition maxEventAge : Z := 300 * 1000000000.     (* nanoseconds *)
Definition maxFutureSkew : Z := 30 * 1000000000.

Record Preferences := Prefs { Native : bool; EV : bool; Water : bool; LowBattery : bool }.

Definition DefaultPreferences : Preferences := Prefs true true true true.

Definition allows (p : Preferences) (kind : string) : bool :=
  if String.eqb kind "native" then Native p
  else if String.eqb kind "ev" then EV p
  else if String.eqb kind "water" then Water p
  else if String.eqb kind "lowBattery" then LowBattery p
  else String.eqb kind "test".

Record Payload := MkPayload {
  SchemaVersion : Z;
  EventKey : string;
  Kind : string;
  Source : string;
  SourceTimestampMS : Z;
  ObservedAtMS : Z;
  Title : string;
  Body : string;
  URL : string
}.

(** ** [encoding/json] on strings *)

Definition quote : string := String (ascii_of_nat 34) "".
Definition backslash : string := String (ascii_of_nat 92) "".

Definition hex_digit (z : Z) : ascii := to_byte (if z <? 10 then 48 + z else 87 + z).

Definition hex_byte (z : Z) : string := String (hex_digit (z / 16)) (String (hex_digit (z mod 16)) "").

(** One rune of the encoder's output; [html] is the default of [Marshal]. *)
Definition json_rune (html : bool) (e : Z * bool) : string :=
  let '(r, ok) := e in
  if negb ok then backslash +:+ "ufffd"
  else if r <? 128 then
    if (r =? 34) || (r =? 92) then backslash +:+ encode_scalar r
    else if r =? 8 then backslash +:+ "b"
    else if r =? 12 then backslash +:+ "f"
    else if r =? 10 then backslash +:+ "n"
    else if r =? 13 then backslash +:+ "r"
    else if r =? 9 then backslash +:+ "t"
    else if (r <? 32) || (html && ((r =? 38) || (r =? 60) || (r =? 62))) then
      backslash +:+ "u00" +:+ hex_byte r
    else encode_scalar r
  else if (r =? 8232) || (r =? 8233) then
    backslash +:+ "u202" +:+ String (hex_digit (r mod 16)) ""
  else encode_scalar r.

Definition json_string (html : bool) (s : string) : string :=
  quote +:+ foldr (λ e t, json_rune html e +:+ t) "" (scan s) +:+ quote.

(** [compactUTF8JSON]: the escaped line separators of the encoder as UTF-8. *)
Fixpoint compactUTF8JSON (raw : string) : string :=
  match raw with
  | EmptyString => ""
  | String c rest =>
      if Ascii.eqb c (ascii_of_nat 92) then
        match rest with
        | EmptyString => String c ""
        | String d rest' =>
            match rest with
            | String "u" (String "2" (String "0" (String "2" (String "8" rest6)))) =>
                encode_scalar 8232 +:+ compactUTF8JSON rest6
            | String "u" (String "2" (String "0" (String "2" (String "9" rest6)))) =>
                encode_scalar 8233 +:+ compactUTF8JSON rest6
            | _ => String c (String d (compactUTF8JSON rest'))
            end
        end
      else String c (compactUTF8JSON rest)
  end.

Definition hex_encode (raw : string) : string :=
  foldr (λ c t, hex_byte (byte_of c) +:+ t) "" (list_ascii_of_string raw).

(** ** The payload *)

(** [json.Marshal(payload)]. *)
Definition json_field (name : string) (value : string) : string :=
  quote +:+ name +:+ quote +:+ ":" +:+ value.

Definition marshal (p : Payload) : string :=
  "{" +:+ JsValue.join "," [
    json_field "schemaVersion" (dec (SchemaVersion p));
    json_field "eventKey" (json_string true (EventKey p));
    json_field "kind" (json_string true (Kind p));
    json_field "source" (json_string true (Source p));
    json_field "sourceTimestampMs" (dec (SourceTimestampMS p));
    json_field "observedAtMs" (dec (ObservedAtMS p));
    json_field "title" (json_string true (Title p));
    json_field "body" (json_string true (Body p));
    json_field "url" (json_string true (URL p))] +:+ "}".

Definition boundedText (text : string) (limit : nat) : string := encode (take limit (runes text)).

Definition with_body (body : string) (p : Payload) : Payload :=
  MkPayload (SchemaVersion p) (EventKey p) (Kind p) (Source p) (SourceTimestampMS p) (ObservedAtMS p)
            (Title p) body (URL p).

(** The loop of [makePayload]: one rune less until the message fits. *)
Fixpoint shrink (fuel : nat) (rs : list Z) (p : Payload) : option Payload :=
  match fuel with
  | O => None
  | S fuel' =>
      if Nat.leb (String.length (marshal p)) maxPayloadBytes || Nat.eqb (length rs) 0 then Some p
      else
        let rs := take (length rs - 1) rs in
        shrink fuel' rs (with_body (encode rs) p)
  end.

Section keys.
Variable sha256 : string -> string.           (* crypto/sha256: the raw digest *)

Definition eventKey (kind source id : string) (timestamp : Z) : string :=
  let raw := "[" +:+ JsValue.join "," [json_string false kind; json_string false source;
                                       json_string false id; dec timestamp] +:+ "]" in
  hex_encode (sha256 (compactUTF8JSON raw)).

(** The payload before the loop; times in milliseconds. *)
Definition initial_payload (kind source id title body : string) (occurred observed : Z) : Payload :=
  let title := boundedText title 120 in
  MkPayload 1 (eventKey kind source id occurred) kind source occurred observed
            (if String.eqb title "" then "Notification" else title) (boundedText body 1000) "/".

Definition makePayload (kind source id title body : string) (occurred observed : Z) : option Payload :=
  let p := initial_payload kind source id title body occurred observed in
  shrink 1001 (runes (Body p)) p.
End keys.

(** [time.Time.Sub] saturates. *)
Definition saturate (d : Z) : Z := Z.max (- 2 ^ 63) (Z.min (2 ^ 63 - 1) d).

(** [current(now)], [now] in nanoseconds since the epoch. *)
Definition current (p : Payload) (now : Z) : bool :=
  let at_ := SourceTimestampMS p * 1000000 in
  (0 <? SourceTimestampMS p) && (saturate (now - at_) <=? maxEventAge) &&
  (saturate (at_ - now) <=? maxFutureSkew).

(** [hex.DecodeString]. *)
Definition hex_value (c : ascii) : option Z :=
  let n := byte_of c in
  if between 48 57 n then Some (n - 48)
  else if between 97 102 n then Some (n - 87)
  else if between 65 70 n then Some (n - 55)
  else None.

Fixpoint hex_decode (s : string) : option (list Z) :=
  match s with
  | EmptyString => Some []
  | String _ EmptyString => None
  | String a (String b s') =>
      hi ← hex_value a;
      lo ← hex_value b;
      rest ← hex_decode s';
      Some (16 * hi + lo :: rest)
  end.

(** [strings.ToLower] on ASCII text. *)
Definition lower_char (c : ascii) : ascii :=
  let n := byte_of c in if between 65 90 n then to_byte (n + 32) else c.

Fixpoint lower (s : string) : string :=
  match s with EmptyString => "" | String c s' => String (lower_char c) (lower s') end.

Definition digestID (text : string) : bool :=
  match hex_decode text with
  | Some raw => Nat.eqb (length raw) 32 && String.eqb text (lower text)
  | None => false
  end.

Definition persistedValid (p : Payload) : bool :=
  if negb (SchemaVersion p =? 1) || negb (digestID (EventKey p)) || negb (allows DefaultPreferences (Kind p))
     || negb (String.eqb (URL p) "/") || (SourceTimestampMS p <=? 0) || (ObservedAtMS p <=? 0) then false
  else if negb (String.eqb (Source p) "victron") && negb (String.eqb (Source p) "system")
          && negb (String.eqb (Source p) "ha") then false
  else if String.eqb (Kind p) "native" && String.eqb (Source p) "ha" then false
  else if String.eqb (Kind p) "test" && negb (String.eqb (Source p) "system") then false
  else if negb (valid_utf8 (Title p)) || negb (valid_utf8 (Body p)) || Nat.eqb (length (runes (Title p))) 0
          || Nat.ltb 120 (length (runes (Title p))) || Nat.ltb 1000 (length (runes (Body p))) then false
  else Nat.leb (String.length (marshal p)) maxPayloadBytes.

(** ** Size of the encoded message *)

Lemma length_encode_scalar r : (String.length (encode_scalar r) <= 4)%nat.
Proof. unfold encode_scalar. repeat case_match; simpl; lia. Qed.

Lemma length_json_rune html e : (String.length (json_rune html e) <= 6)%nat.
Proof.
  destruct e as [r ok]. unfold json_rune. pose proof (length_encode_scalar r).
  repeat case_match; rewrite ?length_append; simpl; lia.
Qed.

Lemma length_json_string html s :
  (String.length (json_string html s) <= 2 + 6 * length (runes s))%nat.
Proof.
  unfold json_string, runes. rewrite !length_append. rewrite length_fmap.
  assert (H : (String.length (foldr (λ e t, json_rune html e +:+ t) "" (scan s)) <= 6 * length (scan s))%nat).
  { induction (scan s) as [|e l IH]; [simpl; lia|]. cbn [foldr length]. rewrite length_append.
    pose proof (length_json_rune html e). lia. }
  simpl. lia.
Qed.

(** Decimal text of a machine integer has at most one character per bit, and a
    sign. *)
Lemma length_string_of_uint d : String.length (NilEmpty.string_of_uint d) = nb_digits d.
Proof. induction d; simpl; congruence. Qed.

Lemma nb_digits_double d :
  (nb_digits (Little.double d) <= S (nb_digits d))%nat ∧
  (nb_digits (Little.succ_double d) <= S (nb_digits d))%nat.
Proof. induction d as [|d [H1 H2]| | | | | | | | |]; simpl in *; lia. Qed.

Lemma nb_digits_little p : (nb_digits (Pos.to_little_uint p) <= Pos.size_nat p)%nat.
Proof.
  induction p as [p IH|p IH|]; simpl; [| |lia].
  - pose proof (proj2 (nb_digits_double (Pos.to_little_uint p))). lia.
  - pose proof (proj1 (nb_digits_double (Pos.to_little_uint p))). lia.
Qed.

Lemma size_nat_pow p : 2 ^ Z.of_nat (Pos.size_nat p) <= 2 * Zpos p.
Proof.
  induction p as [p IH|p IH|]; cbn [Pos.size_nat]; [| |done];
    rewrite Nat2Z.inj_succ, Z.pow_succ_r by lia; lia.
Qed.

Lemma size_nat_bound p : Zpos p <= 2 ^ 63 -> (Pos.size_nat p <= 64)%nat.
Proof.
  intros Hp. pose proof (size_nat_pow p) as H.
  destruct (decide (Pos.size_nat p <= 64)%nat) as [|Hn]; [done|]. exfalso.
  assert (2 ^ 65 <= 2 ^ Z.of_nat (Pos.size_nat p)) by (apply Z.pow_le_mono_r; lia). lia.
Qed.

Lemma length_dec z : - 2 ^ 63 <= z < 2 ^ 63 -> (String.length (dec z) <= 66)%nat.
Proof.
  intros Hz.
  assert (Hp : ∀ p, Zpos p <= 2 ^ 63 -> (String.length (NilZero.string_of_uint (Pos.to_uint p)) <= 65)%nat).
  { intros p Hp. pose proof (nb_digits_little p) as Hl.
    apply size_nat_bound in Hp.
    assert (Hd : (nb_digits (Pos.to_uint p) <= 64)%nat) by (unfold Pos.to_uint; rewrite nb_digits_rev; lia).
    unfold NilZero.string_of_uint. destruct (Pos.to_uint p); [simpl; lia|..];
      rewrite length_string_of_uint; lia. }
  unfold dec. destruct z as [|p|p]; [simpl; lia| |]; simpl Z.to_int; cbn [NilZero.string_of_int].
  - specialize (Hp p). lia.
  - specialize (Hp p). cbn [String.length]. lia.
Qed.

(** ** The loop of [makePayload] *)

Lemma shrink_spec fuel rs p :
  (length rs < fuel)%nat -> Body p = encode rs ->
  ∃ n, shrink fuel rs p = Some (with_body (encode (take n rs)) p) ∧
    ((String.length (marshal (with_body (encode (take n rs)) p)) <= maxPayloadBytes)%nat ∨ take n rs = []) ∧
    (∀ m, (n < m <= length rs)%nat ->
       (maxPayloadBytes < String.length (marshal (with_body (encode (take m rs)) p)))%nat).
Proof.
  revert rs p; induction fuel as [|fuel IH]; intros rs p Hf Hb; [lia|]. cbn [shrink].
  assert (Hp : with_body (encode rs) p = p) by (rewrite <- Hb; by destruct p).
  destruct (Nat.leb (String.length (marshal p)) maxPayloadBytes) eqn:E1; cbn [orb].
  { apply Nat.leb_le in E1. exists (length rs). rewrite take_ge, Hp by lia.
    split; [done|]. split; [by left|]. lia. }
  apply Nat.leb_gt in E1. destruct (Nat.eqb_spec (length rs) 0) as [E2|E2].
  { exists 0%nat. destruct rs; [|done]. cbn [take]. rewrite Hp. split; [done|]. split; [by right|]. simpl. lia. }
  destruct (IH (take (length rs - 1) rs) (with_body (encode (take (length rs - 1) rs)) p))
    as (n & Hs & Hor & Hmax); [rewrite length_take; lia|done|].
  rewrite length_take in Hmax. exists (Nat.min n (length rs - 1)).
  rewrite take_take in Hs, Hor. split; [exact Hs|]. split; [exact Hor|].
  intros m Hm. destruct (decide (m = length rs)) as [->|Hne].
  - by rewrite take_ge, Hp by lia.
  - specialize (Hmax m ltac:(lia)). rewrite take_take, Nat.min_l in Hmax by lia. exact Hmax.
Qed.

(** ** Event keys *)

Lemma between_cases lo hi z : (between lo hi z = true ∧ lo <= z <= hi) ∨ (between lo hi z = false ∧ ¬ lo <= z <= hi).
Proof.
  destruct (between lo hi z) eqn:E; [left|right]; (split; [done|]); [by apply between_spec|by apply between_false].
Qed.

Lemma hex_digit_spec z :
  0 <= z < 16 -> hex_value (hex_digit z) = Some z ∧ lower_char (hex_digit z) = hex_digit z.
Proof.
  intros Hz. unfold hex_value, lower_char, hex_digit.
  destruct (Z.ltb_spec z 10); rewrite byte_of_to_byte by lia.
  - rewrite (proj2 (between_spec 48 57 _)), (proj2 (between_false 65 90 _)) by lia.
    split; [f_equal; lia|done].
  - rewrite (proj2 (between_false 48 57 _)), (proj2 (between_spec 97 102 _)), (proj2 (between_false 65 90 _)) by lia.
    split; [f_equal; lia|done].
Qed.

Lemma hex_encode_spec raw :
  hex_decode (hex_encode raw) = Some (byte_of <$> list_ascii_of_string raw) ∧
  lower (hex_encode raw) = hex_encode raw.
Proof.
  unfold hex_encode. induction (list_ascii_of_string raw) as [|c l [IH1 IH2]]; [done|].
  cbn [foldr]. unfold hex_byte at 1 3 5.
  pose proof (byte_bound c) as Hc.
  destruct (hex_digit_spec (byte_of c / 16)) as [Hv1 Hl1]; [euclid|].
  destruct (hex_digit_spec (byte_of c mod 16)) as [Hv2 Hl2]; [euclid|].
  set (t := foldr _ "" l) in *. clearbody t.
  change (String ?a (String ?b "") +:+ t) with (String a (String b t)).
  split.
  - cbn [hex_decode]. rewrite Hv1, Hv2, IH1. simpl. do 2 f_equal. euclid.
  - cbn [lower]. by rewrite Hl1, Hl2, IH2.
Qed.

Lemma length_list_ascii s : length (list_ascii_of_string s) = String.length s.
Proof. induction s; simpl; congruence. Qed.

Lemma digestID_hex_encode raw : String.length raw = 32%nat -> digestID (hex_encode raw) = true.
Proof.
  intros H. unfold digestID. destruct (hex_encode_spec raw) as [-> ->].
  rewrite length_fmap, length_list_ascii, H. apply String.eqb_refl.
Qed.

(** The server's test of an event key and the worker's agree. *)
Lemma hex_pair_ind (P : string -> Prop) :
  P "" -> (∀ c, P (String c "")) -> (∀ a b s, P s -> P (String a (String b s))) -> ∀ s, P s.
Proof.
  intros H0 H1 H2. apply string_length_ind. intros [|a [|b s]] IH; [done|done|].
  apply H2, IH. simpl. lia.
Qed.

Lemma hex_decode_length s raw : hex_decode s = Some raw -> String.length s = (2 * length raw)%nat.
Proof.
  revert raw; induction s as [|c|a b s IH] using hex_pair_ind; intros raw H; simpl in H; [by simplify_eq|done|].
  destruct (hex_value a); simpl in H; [|done]. destruct (hex_value b); simpl in H; [|done].
  destruct (hex_decode s) as [l|]; simpl in H; [|done]. simplify_eq. simpl. rewrite (IH l) by done. lia.
Qed.

Lemma hex_value_lower c v : hex_value c = Some v -> lower_char c = c -> is_lower_hex c = true.
Proof.
  unfold hex_value, lower_char, is_lower_hex. intros Hv Hl.
  assert (Hu : ¬ 65 <= byte_of c <= 90).
  { intros Hc. rewrite (proj2 (between_spec _ _ _)) in Hl by done.
    assert (E : byte_of (to_byte (byte_of c + 32)) = byte_of c) by by rewrite Hl.
    rewrite byte_of_to_byte in E by lia. lia. }
  unfold byte_of in *.
  destruct (between_cases 48 57 (Z.of_nat (nat_of_ascii c))) as [[_ H]|[E1 H]].
  - apply orb_true_iff. right. apply andb_true_iff. rewrite !Nat.leb_le. lia.
  - rewrite E1 in Hv. destruct (between_cases 97 102 (Z.of_nat (nat_of_ascii c))) as [[_ H']|[E2 H']].
    + apply orb_true_iff. left. apply andb_true_iff. rewrite !Nat.leb_le. lia.
    + rewrite E2 in Hv. destruct (between_cases 65 70 (Z.of_nat (nat_of_ascii c))) as [[_ ?]|[E3 _]]; [lia|].
      by rewrite E3 in Hv.
Qed.

Lemma hex_decode_digits s raw :
  hex_decode s = Some raw -> lower s = s -> forallb is_lower_hex (list_ascii_of_string s) = true.
Proof.
  revert raw; induction s as [|c|a b s IH] using hex_pair_ind; intros raw H Hl; simpl in H; [done|done|].
  destruct (hex_value a) as [x|] eqn:Ea; simpl in H; [|done].
  destruct (hex_value b) as [y|] eqn:Eb; simpl in H; [|done].
  destruct (hex_decode s) as [l|]; simpl in H; [|done]. cbn [lower] in Hl. injection Hl as Ha Hb Hs.
  cbn [list_ascii_of_string forallb].
  by rewrite (hex_value_lower a x Ea Ha), (hex_value_lower b y Eb Hb), (IH l eq_refl Hs).
Qed.

Lemma digestID_hex64 s : digestID s = true -> hex64 s = true.
Proof.
  unfold digestID, hex64. destruct (hex_decode s) as [raw|] eqn:E; [|done]. intros H.
  apply andb_true_iff in H as [Hlen Hl]. apply Nat.eqb_eq in Hlen. apply String.eqb_eq in Hl.
  apply andb_true_iff. split; [apply Nat.eqb_eq; rewrite (hex_decode_length _ _ E); lia|].
  by eapply hex_decode_digits.
Qed.

(** ** Made payloads are valid *)

Lemma length_runes s : (length (runes s) <= String.length s)%nat.
Proof.
  unfold runes. apply (scan_ind (λ s l, (length l.*1 <= String.length s)%nat)); [done|].
  intros r ok w rest Hw _ _ IH. csimpl. rewrite length_append. destruct w; [done|]. simpl. lia.
Qed.

Definition int64 (z : Z) : Prop := - 2 ^ 63 <= z < 2 ^ 63.

#[local] Opaque json_string.

(** The size of a message by the sizes of its texts. *)
Lemma length_marshal p :
  int64 (SchemaVersion p) -> int64 (SourceTimestampMS p) -> int64 (ObservedAtMS p) ->
  (String.length (marshal p) <= 400 + 6 * (length (runes (EventKey p)) + length (runes (Kind p))
     + length (runes (Source p)) + length (runes (Title p)) + length (runes (Body p))
     + length (runes (URL p))))%nat.
Proof.
  intros H1 H2 H3. apply length_dec in H1, H2, H3.
  pose proof (length_json_string true (EventKey p)). pose proof (length_json_string true (Kind p)).
  pose proof (length_json_string true (Source p)). pose proof (length_json_string true (Title p)).
  pose proof (length_json_string true (Body p)). pose proof (length_json_string true (URL p)).
  unfold marshal, json_field. cbn [JsValue.join]. rewrite !length_append. change (String.length quote) with 1%nat.
  simpl String.length. lia.
Qed.

(** Kinds and sources that the server combines. *)
Definition admissible (kind source : string) : bool :=
  allows DefaultPreferences kind &&
  (String.eqb source "victron" || String.eqb source "system" || String.eqb source "ha") &&
  negb (String.eqb kind "native" && String.eqb source "ha") &&
  negb (String.eqb kind "test" && negb (String.eqb source "system")).

Lemma allows_length kind : allows DefaultPreferences kind = true -> (String.length kind <= 10)%nat.
Proof.
  unfold allows. repeat (case_match; bool_hyps; [subst; simpl; lia|]). intros ?. bool_hyps. subst. simpl. lia.
Qed.

Lemma admissible_lengths kind source :
  admissible kind source = true -> (String.length kind <= 10)%nat ∧ (String.length source <= 7)%nat.
Proof.
  unfold admissible. intros H. apply andb_true_iff in H as [H _]. apply andb_true_iff in H as [H _].
  apply andb_true_iff in H as [Hk Hs]. split; [by apply allows_length|].
  bool_cases; subst; simpl; lia.
Qed.

Lemma if_false (a b : bool) : (if a then false else b) = negb a && b.
Proof. by destruct a. Qed.

(** [persistedValid] in terms of its parts. *)
Lemma persistedValid_spec p :
  persistedValid p = true ↔
  SchemaVersion p = 1 ∧ digestID (EventKey p) = true ∧ URL p = "/" ∧ 0 < SourceTimestampMS p ∧
  0 < ObservedAtMS p ∧ admissible (Kind p) (Source p) = true ∧
  valid_utf8 (Title p) = true ∧ valid_utf8 (Body p) = true ∧
  (0 < length (runes (Title p)) <= 120)%nat ∧ (length (runes (Body p)) <= 1000)%nat ∧
  (String.length (marshal p) <= maxPayloadBytes)%nat.
Proof.
  unfold persistedValid, admissible.
  rewrite !if_false, !negb_orb, !negb_andb, !negb_involutive, !andb_true_iff, !negb_true_iff.
  rewrite Z.eqb_eq, !Z.leb_gt, !(String.eqb_eq (URL p)), Nat.eqb_neq, !Nat.ltb_ge, Nat.leb_le.
  assert (E : ∀ n : nat, n ≠ 0%nat ↔ (0 < n)%nat) by lia. rewrite E. tauto.
Qed.

Lemma persistedValid_fits p :
  persistedValid p = true -> Nat.ltb maxPayloadBytes (String.length (marshal p)) = false.
Proof. intros H. apply persistedValid_spec in H. apply Nat.ltb_ge. tauto. Qed.

Lemma bounded_text text n :
  valid_utf8 (boundedText text n) = true ∧ runes (boundedText text n) = take n (runes text).
Proof. unfold boundedText. destruct (encode_take_runes text n). done. Qed.

Lemma bounded_title text :
  let title := if String.eqb (boundedText text 120) "" then "Notification" else boundedText text 120 in
  valid_utf8 title = true ∧ (0 < length (runes title) <= 120)%nat.
Proof.
  intros title. unfold title. destruct (bounded_text text 120) as [Hv Hr].
  destruct (String.eqb_spec (boundedText text 120) "") as [E|E].
  - split; [reflexivity|]. change (length (runes "Notification")) with 12%nat. lia.
  - split; [done|]. rewrite Hr, length_take.
    destruct (runes text) as [|r l] eqn:Er; [|cbn [length]; lia]. exfalso. apply E.
    unfold boundedText. by rewrite Er.
Qed.

Section made.
Variable sha256 : string -> string.
Hypothesis digest_length : ∀ s, String.length (sha256 s) = 32%nat.

(** The payload [makePayload] yields: the initial one with as much of its body
    as fits. *)
Lemma makePayload_made (kind source id title body : string) (occurred observed : Z) :
  admissible kind source = true -> 0 < occurred < 2 ^ 63 -> 0 < observed < 2 ^ 63 ->
  let p0 := initial_payload sha256 kind source id title body occurred observed in
  let rs := take 1000 (runes body) in
  ∃ n, makePayload sha256 kind source id title body occurred observed = Some (with_body (encode (take n rs)) p0) ∧
    persistedValid (with_body (encode (take n rs)) p0) = true ∧
    ∀ m, (n < m <= length rs)%nat ->
      (maxPayloadBytes < String.length (marshal (with_body (encode (take m rs)) p0)))%nat.
Proof.
  intros Hks Ho Hb p0. cbv zeta. unfold makePayload. fold p0.
  destruct (bounded_text body 1000) as [_ Hr].
  assert (Hbody : Body p0 = encode (take 1000 (runes body))) by done.
  assert (Hrunes : runes (Body p0) = take 1000 (runes body)) by exact Hr.
  destruct (shrink_spec 1001 (runes (Body p0)) p0) as (n & Hs & Hfit & Hmax);
    [rewrite Hrunes, length_take; lia|by rewrite Hrunes|].
  rewrite Hrunes in Hs, Hfit, Hmax |- *. set (rs := take n (take 1000 (runes body))) in *.
  assert (Hrs : Forall (λ r, scalar r = true) rs) by (do 2 apply Forall_take; apply runes_scalar).
  exists n. fold rs. split; [exact Hs|].
  destruct (bounded_title title) as [Htv Htl].
  split; [|exact Hmax].
  apply persistedValid_spec. cbn [with_body p0 initial_payload SchemaVersion EventKey URL
    SourceTimestampMS ObservedAtMS Kind Source Title Body].
  split; [done|]. split; [by apply digestID_hex_encode|]. split; [done|]. split; [lia|]. split; [lia|].
  split; [done|]. split; [exact Htv|]. split; [by apply valid_encode|]. split; [exact Htl|].
  split; [rewrite runes_encode by done; unfold rs; rewrite !length_take; lia|].
  destruct Hfit as [Hfit|Hnil]; [exact Hfit|].
  pose proof (length_marshal (with_body (encode rs) p0)) as Hm.
  assert (Hkey : (length (runes (EventKey p0)) <= 64)%nat).
  { etransitivity; [apply length_runes|]. cbn [p0 initial_payload EventKey].
    assert (Hd := digestID_hex_encode (sha256 (compactUTF8JSON ("[" +:+ JsValue.join ","
      [json_string false kind; json_string false source; json_string false id; dec occurred] +:+ "]"))) ltac:(auto)).
    apply digestID_hex64 in Hd. unfold hex64 in Hd. apply andb_true_iff in Hd as [Hd _].
    apply Nat.eqb_eq in Hd. unfold eventKey. by rewrite Hd. }
  destruct (admissible_lengths _ _ Hks) as [Hlk Hls].
  pose proof (length_runes kind). pose proof (length_runes source).
  unfold int64 in Hm. rewrite Hnil in Hm. cbn [with_body p0 initial_payload SchemaVersion EventKey URL
    SourceTimestampMS ObservedAtMS Kind Source Title Body] in Hm, Hkey.
  rewrite Hnil. unfold maxPayloadBytes. 
  change (length (runes (encode []))) with 0%nat in Hm. change (length (runes "/")) with 1%nat in Hm.
  specialize (Hm ltac:(lia) ltac:(lia) ltac:(lia)). 
  etransitivity; [exact Hm|]. lia.
Qed.

(** C38: Every payload the server makes for an admissible event is valid to persist
    and to send: its key is a digest, its texts are valid UTF-8 within their
    limits, its message fits.  The body keeps as many of the first thousand
    runes as fit: one more would exceed the limit. *)
Theorem makePayload_valid (kind source id title body : string) (occurred observed : Z) :
  admissible kind source = true -> 0 < occurred < 2 ^ 63 -> 0 < observed < 2 ^ 63 ->
  ∃ p n, makePayload sha256 kind source id title body occurred observed = Some p ∧
    persistedValid p = true ∧
    Kind p = kind ∧ Source p = source ∧ SourceTimestampMS p = occurred ∧ ObservedAtMS p = observed ∧
    runes (Body p) = take n (take 1000 (runes body)) ∧
    (∀ m, (n < m <= length (take 1000 (runes body)))%nat ->
       (maxPayloadBytes < String.length (marshal (with_body (encode (take m (take 1000 (runes body)))) p)))%nat).
Proof.
  intros Hks Ho Hb. destruct (makePayload_made kind source id title body occurred observed Hks Ho Hb)
    as (n & Hmake & Hv & Hmax).
  eexists _, n. split; [exact Hmake|]. split; [exact Hv|]. repeat (split; [done|]). split; [|exact Hmax].
  apply runes_encode. do 2 apply Forall_take. apply runes_scalar.
Qed.
End made.

Definition sample_sha256 (s : string) : string := "0123456789abcdef0123456789abcdef".

Lemma makePayload_valid_witness :
  ∃ p n, makePayload sample_sha256 "ev" "victron" "ev:1" "EV charging started" "The charger" 1000 2000 = Some p ∧
    persistedValid p = true ∧
    Kind p = "ev" ∧ Source p = "victron" ∧ SourceTimestampMS p = 1000 ∧ ObservedAtMS p = 2000 ∧
    runes (Body p) = take n (take 1000 (runes "The charger")) ∧
    (∀ m, (n < m <= length (take 1000 (runes "The charger")))%nat ->
       (maxPayloadBytes < String.length (marshal (with_body (encode (take m (take 1000 (runes "The charger")))) p)))%nat).
Proof.
  apply (makePayload_valid sample_sha256 (λ _, eq_refl) "ev" "victron" "ev:1" "EV charging started"
           "The charger" 1000 2000); [reflexivity|lia|lia].
Defined.

(** ** The contract with the service worker *)

(** [JSON.parse] of the message in the worker. *)
Definition payload_value (p : Payload) : val := VObj [
  ("schemaVersion", VInt (SchemaVersion p)); ("eventKey", VStr (EventKey p)); ("kind", VStr (Kind p));
  ("source", VStr (Source p)); ("sourceTimestampMs", VInt (SourceTimestampMS p));
  ("observedAtMs", VInt (ObservedAtMS p)); ("title", VStr (Title p)); ("body", VStr (Body p));
  ("url", VStr (URL p))].

(** The worker counts the runes of valid text. *)
Lemma starts_to_byte z : 0 <= z < 256 -> starts_code_point (to_byte z) = negb (between 128 191 z).
Proof.
  intros Hz. unfold starts_code_point. pose proof (byte_of_to_byte z Hz) as E. unfold byte_of in E.
  f_equal. apply eq_true_iff_eq. rewrite between_spec, andb_true_iff, !Nat.leb_le. lia.
Qed.

Lemma code_points_append a b : code_points (a +:+ b) = (code_points a + code_points b)%nat.
Proof.
  unfold code_points. induction a as [|c a IH]; [done|].
  change (list_ascii_of_string (String c a +:+ b)) with (c :: list_ascii_of_string (a +:+ b)).
  cbn [list_ascii_of_string List.filter]. destruct (starts_code_point c); cbn [List.length]; lia.
Qed.

Lemma code_points_scalar r : scalar r = true -> code_points (encode_scalar r) = 1%nat.
Proof.
  intros Hr. apply scalar_spec in Hr as [Hr _]. unfold encode_scalar, code_points.
  destruct (Z.ltb_spec r 128); [|destruct (Z.ltb_spec r 2048); [|destruct (Z.ltb_spec r 65536)]];
    cbn [list_ascii_of_string List.filter]; rewrite !starts_to_byte by euclid;
    repeat (rewrite (proj2 (between_false 128 191 _)) by euclid; cbn [negb]);
    repeat (rewrite (proj2 (between_spec 128 191 _)) by euclid; cbn [negb]); done.
Qed.

Lemma code_points_runes s : valid_utf8 s = true -> code_points s = length (runes s).
Proof.
  unfold valid_utf8, runes.
  apply (scan_ind (λ s l, forallb snd l = true -> code_points s = length l.*1)); [done|].
  intros r ok w rest _ Hr Hw IH H. cbn [forallb snd] in H. apply andb_true_iff in H as [-> H].
  csimpl. rewrite <- Hw, code_points_append, code_points_scalar, IH by done. done.
Qed.

Lemma timestamp_accepted now t :
  0 <= now -> now + FUTURE_SKEW_MS <= F64.max_safe -> 0 < t ->
  now - MAX_EVENT_AGE_MS <= t <= now + FUTURE_SKEW_MS -> timestamp_ok now (VInt t) = true.
Proof.
  intros H0 Hn Ht Hw. unfold timestamp_ok. rewrite safe_integer_Z by lia.
  rewrite !andb_true_iff, Z.ltb_lt, !Z.leb_le. lia.
Qed.

(** Currency on the server's clock gives the worker's window on the same clock. *)
Lemma current_window p now :
  current p now = true ->
  0 < SourceTimestampMS p ∧
  now / 1000000 - MAX_EVENT_AGE_MS <= SourceTimestampMS p <= now / 1000000 + FUTURE_SKEW_MS.
Proof.
  unfold current, saturate, maxEventAge, maxFutureSkew, MAX_EVENT_AGE_MS, FUTURE_SKEW_MS.
  intros H. bool_hyps. split; [done|]. set (t := SourceTimestampMS p) in *. clearbody t. split; euclid.
Qed.

Lemma admissible_texts kind source :
  admissible kind source = true ->
  text_in event_kinds (VStr kind) = true ∧ text_in event_sources (VStr source) = true ∧
  (is_str (VStr kind) "native" && negb (text_in native_sources (VStr source))) = false.
Proof.
  unfold admissible, allows, text_in, is_str, strict_eq, event_kinds, event_sources, native_sources.
  cbn [existsb Native EV Water LowBattery DefaultPreferences].
  destruct (String.eqb kind "native"), (String.eqb kind "ev"), (String.eqb kind "water"),
    (String.eqb kind "lowBattery"), (String.eqb kind "test"), (String.eqb source "victron"),
    (String.eqb source "system"), (String.eqb source "ha"); done.
Qed.


Definition sample_server_payload : Payload :=
  MkPayload 1 sample_key "lowBattery" "system" 59000 59500 "Low battery" "12%" "/".

