(* ===== verification/PushStore.v ===== *)
(** * The subscription and delivery store of the Go server

    [internal/push/store.go] and the queue operations of
    [internal/push/sender.go]: the durable state, the mutations that
    subscribers, the processor and the dispatcher apply to it, and [mutate],
    which makes each of them atomic.  Iteration over a Go map has no order: the
    order is an argument. *)

From Stdlib Require Import ZArith Ascii String.
From stdpp Require Import base list option strings gmap fin_maps.
From S2P Require Import Prelude JsValue SwEvents Utf8 PushPayload.

#[local] Open Scope string_scope.
#[local] Open Scope list_scope.
#[local] Open Scope Z_scope.

(** ** Data *)

Definition maxSubscriptions : nat := 64.
Definition maxDedupe : nat := 4096.
Definition maxPending : nat := 1024.

Inductive push_error : Type :=
| errConflict | errCapacity | errNotFound | errRateLimit | errTooLarge | errUnavailable.

(** A Web Push subscription: its endpoint and keys. *)
Record Subscription := MkSubscription { Endpoint : string; Auth : string; P256dh : string }.

#[global] Instance Subscription_eq_dec : EqDecision Subscription.
Proof. solve_decision. Defined.

Record storedSubscription := Stored {
  StoredSub : Subscription;
  StoredPrefs : Preferences;
  LastTestMS : Z
}.

Record delivery := Delivery {
  ID : string;
  SubscriptionID : string;
  ItemEpoch : string;
  ItemPayload : Payload;
  Attempts : Z;
  NextAttemptMS : Z
}.

Record diskState := DiskState {
  Epoch : string;
  Subscriptions : gmap string storedSubscription;
  Dedupe : list string;
  Queue : list delivery;
  Tests : list Z
}.

(** What a change function returns: an error, [false, nil], or [true, nil]. *)
Inductive outcome : Type :=
| Refused (e : push_error)
| Unchanged
| Changed (next : diskState).

Definition set_queue (q : list delivery) (d : diskState) : diskState :=
  DiskState (Epoch d) (Subscriptions d) (Dedupe d) q (Tests d).

(** ** Changes *)

Section changes.
Variable subscriptionID : string -> string.

Definition register (subscription : Subscription) (preferences : Preferences) (d : diskState) : outcome :=
  let id := subscriptionID (Endpoint subscription) in
  let store last :=
    let d := DiskState (Epoch d) (<[id := Stored subscription preferences last]> (Subscriptions d))
                       (Dedupe d) (Queue d) (Tests d) in
    Changed (set_queue (List.filter (fun item => negb (String.eqb (SubscriptionID item) id) ||
                                                 allows preferences (Kind (ItemPayload item))) (Queue d)) d) in
  match Subscriptions d !! id with
  | Some old =>
      if decide (StoredSub old = subscription) then store (LastTestMS old) else Refused errConflict
  | None =>
      if Nat.leb maxSubscriptions (size (Subscriptions d)) then Refused errCapacity else store 0
  end.

Definition remove (endpoint : string) (d : diskState) : outcome :=
  let id := subscriptionID endpoint in
  match Subscriptions d !! id with
  | None => Unchanged
  | Some _ =>
      Changed (DiskState (Epoch d) (delete id (Subscriptions d)) (Dedupe d)
                 (List.filter (fun item => negb (String.eqb (SubscriptionID item) id)) (Queue d)) (Tests d))
  end.

Definition resetEpoch (epoch : string) (d : diskState) : outcome :=
  Changed (DiskState epoch (Subscriptions d) (Dedupe d)
             (List.filter (fun item => String.eqb (Kind (ItemPayload item)) "test") (Queue d)) (Tests d)).

(** [remember]: the new dedupe list, or [None] when the key is known. *)
Definition remember (key : string) (dedupe : list string) : option (list string) :=
  if existsb (String.eqb key) dedupe then None
  else
    let all := dedupe ++ [key] in
    Some (drop (length all - maxDedupe) all).

Definition new_delivery (payload : Payload) (epoch id : string) : delivery :=
  Delivery (EventKey payload +:+ ":" +:+ id) id epoch payload 0 0.

(** The loop of [Enqueue] over the subscriptions, in some order. *)
Fixpoint enqueue_all (payload : Payload) (epoch : string) (order : list (string * storedSubscription))
    (q : list delivery) : option (list delivery) :=
  match order with
  | [] => Some q
  | (id, sub) :: rest =>
      if negb (allows (StoredPrefs sub) (Kind payload)) then enqueue_all payload epoch rest q
      else if Nat.leb maxPending (length q) then None
      else enqueue_all payload epoch rest (q ++ [new_delivery payload epoch id])
  end.

Definition enqueue (payload : Payload) (epoch : string) (prime : bool)
    (order : list (string * storedSubscription)) (d : diskState) : outcome :=
  if negb (String.eqb (Epoch d) epoch) then Unchanged
  else
    match remember (EventKey payload) (Dedupe d) with
    | None => Unchanged
    | Some dedupe =>
        let d := DiskState (Epoch d) (Subscriptions d) dedupe (Queue d) (Tests d) in
        if prime then Changed d
        else match enqueue_all payload epoch order (Queue d) with
             | Some q => Changed (set_queue q d)
             | None => Refused errCapacity
             end
    end.

Definition queueTest (payload : Payload) (endpoint : string) (now : Z) (d : diskState) : outcome :=
  let key := subscriptionID endpoint in
  match Subscriptions d !! key with
  | None => Refused errNotFound
  | Some sub =>
      if Nat.leb maxPending (length (Queue d)) then Refused errCapacity
      else
        let tests := List.filter (fun at_ => now - at_ <? 60000) (Tests d) in
        if Nat.leb 10 (length tests) ||
           (negb (LastTestMS sub =? 0) && (now - LastTestMS sub <? 60000))
        then Refused errRateLimit
        else
          Changed (DiskState (Epoch d)
                     (<[key := Stored (StoredSub sub) (StoredPrefs sub) now]> (Subscriptions d))
                     (Dedupe d) (Queue d ++ [new_delivery payload "" key]) (tests ++ [now]))
  end.

(** ** The dispatcher's operations *)

(** Still worth dispatching: current, attempts left, of the running epoch. *)
Definition retained (now : Z) (d : diskState) (item : delivery) : bool :=
  current (ItemPayload item) now && (Attempts item <? 3) &&
  (String.eqb (Kind (ItemPayload item)) "test" || String.eqb (ItemEpoch item) (Epoch d)).

(** [pending]: retires what is not, and lists what is due; [now] in
    nanoseconds. *)
Definition pending_change (now : Z) (d : diskState) : outcome :=
  let kept := List.filter (retained now d) (Queue d) in
  if Nat.eqb (length kept) (length (Queue d)) then Unchanged else Changed (set_queue kept d).

Definition pending_items (now : Z) (d : diskState) : list delivery :=
  List.filter (fun item => NextAttemptMS item <=? now / 1000000) (List.filter (retained now d) (Queue d)).

Definition same_attempt (item queued : delivery) : bool :=
  String.eqb (ID queued) (ID item) && (Attempts queued =? Attempts item).

(** The checks of [current], the authoritative read before a dispatch, on the
    committed data. *)
Definition dispatchable (item : delivery) (now : Z) (d : diskState) : option storedSubscription :=
  if negb (current (ItemPayload item) now) then None
  else
    match Subscriptions d !! SubscriptionID item with
    | None => None
    | Some sub =>
        if negb (allows (StoredPrefs sub) (Kind (ItemPayload item))) ||
           (negb (String.eqb (Kind (ItemPayload item)) "test") && negb (String.eqb (ItemEpoch item) (Epoch d)))
        then None
        else if existsb (same_attempt item) (Queue d) then Some sub else None
    end.

(** The next attempt of a transiently failed delivery. *)
Definition retry (now : Z) (queued : delivery) : delivery :=
  let attempts := Attempts queued + 1 in
  Delivery (ID queued) (SubscriptionID queued) (ItemEpoch queued) (ItemPayload queued) attempts
           ((now + attempts * 5 * 1000000000) / 1000000).

(** The queue of [finish] after the subscriptions were updated. *)
Fixpoint finish_queue (item : delivery) (transient : bool) (now : Z) (epoch : string)
    (subs : gmap string storedSubscription) (q : list delivery) : list delivery :=
  match q with
  | [] => []
  | queued :: rest =>
      let rest := finish_queue item transient now epoch subs rest in
      match subs !! SubscriptionID queued with
      | None => rest
      | Some _ =>
          if negb (String.eqb (ID queued) (ID item)) then queued :: rest
          else if transient && (Attempts queued <? 2) && current (ItemPayload queued) now &&
                  (String.eqb (Kind (ItemPayload queued)) "test" || String.eqb (ItemEpoch queued) epoch)
          then retry now queued :: rest
          else rest
      end
  end.

Definition finish (item : delivery) (status : Z) (transient : bool) (now : Z) (d : diskState) : outcome :=
  if negb (existsb (same_attempt item) (Queue d)) then Unchanged
  else
    let subs := if (status =? 404) || (status =? 410) then delete (SubscriptionID item) (Subscriptions d)
                else Subscriptions d in
    Changed (DiskState (Epoch d) subs (Dedupe d)
               (finish_queue item transient now (Epoch d) subs (Queue d)) (Tests d)).
End changes.

(** ** Atomic mutation *)

(** The open store: its committed data, whether it was closed or failed, and
    the deliveries in progress with whether they were cancelled. *)
Record Store := MkStore {
  data : diskState;
  closed : bool;
  failed : bool;
  active : gmap string bool
}.

(** [mutate]: [saved] says whether the new state reaches the disk. *)
Definition mutate (change : diskState -> outcome) (saved : bool) (s : Store) : Store * option push_error :=
  if closed s || failed s then (s, Some errUnavailable)
  else
    match change (data s) with
    | Refused e => (s, Some e)
    | Unchanged => (s, None)
    | Changed next =>
        if negb saved then
          (MkStore (data s) (closed s) true ((λ _, true) <$> active s), Some errUnavailable)
        else
          let queued := ID <$> Queue next in
          (MkStore next (closed s) (failed s)
             (filter (λ e, e.1 ∈ queued) (active s)), None)
    end.

(** [Enqueue]: the checks before the change, then the change under the lock. *)
Definition Enqueue (payload : Payload) (epoch : string) (prime : bool)
    (order : list (string * storedSubscription)) (saved : bool) (s : Store) : Store * option push_error :=
  if Nat.ltb maxPayloadBytes (String.length (marshal payload)) then (s, Some errTooLarge)
  else if closed s || failed s then (s, Some errUnavailable)
  else if negb (String.eqb (Epoch (data s)) epoch) || existsb (String.eqb (EventKey payload)) (Dedupe (data s))
  then (s, None)
  else mutate (enqueue payload epoch prime order) saved s.

(** The dispatcher's authoritative read on the open store. *)
Definition current_delivery (item : delivery) (now : Z) (s : Store) : option storedSubscription :=
  if closed s || failed s then None else dispatchable item now (data s).

(** [pending]: what to dispatch now; nothing when the state cannot be saved. *)
Definition pending (now : Z) (saved : bool) (s : Store) : Store * list delivery :=
  let '(s', err) := mutate (pending_change now) saved s in
  (s', match err with None => pending_items now (data s) | Some _ => [] end).

(** ** Valid states *)

Fixpoint distinct (l : list string) : bool :=
  match l with [] => true | x :: l' => negb (existsb (String.eqb x) l') && distinct l' end.

Section loading.
Variable subscriptionID : string -> string.

(** [validDiskState] on the data modelled here: the limits, the identities of
    the subscriptions, the dedupe keys and the queue. *)
Definition validDiskState (d : diskState) : bool :=
  Nat.leb (size (Subscriptions d)) maxSubscriptions && Nat.leb (length (Dedupe d)) maxDedupe &&
  Nat.leb (length (Queue d)) maxPending && Nat.leb (length (Tests d)) 10 &&
  forallb (fun e => String.eqb e.1 (subscriptionID (Endpoint (StoredSub e.2)))) (map_to_list (Subscriptions d)) &&
  forallb digestID (Dedupe d) && distinct (Dedupe d) &&
  forallb (fun item =>
    match Subscriptions d !! SubscriptionID item with Some _ => true | None => false end &&
    negb (String.eqb (ID item) "") && persistedValid (ItemPayload item) &&
    (0 <=? Attempts item) && (Attempts item <=? 3)) (Queue d) &&
  distinct (ID <$> Queue d).

(** What the operations maintain about a queued delivery. *)
Record item_valid (subs : gmap string storedSubscription) (item : delivery) : Prop := {
  item_subscribed : is_Some (subs !! SubscriptionID item);
  item_id : ID item = EventKey (ItemPayload item) +:+ ":" +:+ SubscriptionID item;
  item_payload : persistedValid (ItemPayload item) = true;
  item_attempts : 0 <= Attempts item <= 3
}.

Definition own_ids (subs : gmap string storedSubscription) : Prop :=
  map_Forall (λ id sub, id = subscriptionID (Endpoint (StoredSub sub))) subs.

Record valid (d : diskState) : Prop := {
  valid_subscriptions : (size (Subscriptions d) <= maxSubscriptions)%nat;
  valid_ids : own_ids (Subscriptions d);
  valid_dedupe : (length (Dedupe d) <= maxDedupe)%nat ∧ Forall (λ k, digestID k = true) (Dedupe d) ∧ NoDup (Dedupe d);
  valid_queue : (length (Queue d) <= maxPending)%nat ∧ Forall (item_valid (Subscriptions d)) (Queue d) ∧
                NoDup (ID <$> Queue d);
  valid_tests : (length (Tests d) <= 10)%nat
}.

Lemma existsb_eqb_In x l : existsb (String.eqb x) l = true ↔ x ∈ l.
Proof.
  rewrite existsb_exists. split.
  - intros (y & Hy & E). apply String.eqb_eq in E as ->. by apply list_elem_of_In.
  - intros H. exists x. split; [by apply list_elem_of_In|apply String.eqb_refl].
Qed.

Lemma existsb_eqb_not x l : existsb (String.eqb x) l = false ↔ x ∉ l.
Proof. rewrite <- existsb_eqb_In. by destruct (existsb _ l). Qed.

Lemma distinct_NoDup l : distinct l = true ↔ NoDup l.
Proof.
  induction l as [|x l IH]; simpl; [split; [constructor|done]|].
  rewrite andb_true_iff, negb_true_iff, existsb_eqb_not, IH, NoDup_cons. done.
Qed.

(** What the operations maintain is what loading checks. *)
Lemma valid_loads d : valid d -> validDiskState d = true.
Proof.
  intros [H1 Hown (H2 & H3 & H4) (H5 & H6 & H7) H8]. unfold validDiskState.
  rewrite !(proj2 (Nat.leb_le _ _)) by done.
  assert (Hids : forallb (λ e, String.eqb e.1 (subscriptionID (Endpoint (StoredSub e.2))))
                         (map_to_list (Subscriptions d)) = true).
  { apply forallb_forall. intros [id sub] Hin. apply list_elem_of_In, elem_of_map_to_list in Hin.
    apply String.eqb_eq. exact (Hown id sub Hin). }
  rewrite Hids. clear Hids.
  rewrite (proj2 (distinct_NoDup _) H4), (proj2 (distinct_NoDup _) H7). cbn [andb].
  rewrite andb_true_r, andb_true_iff, andb_true_r, !forallb_forall. split.
  - intros k Hk. rewrite Forall_forall in H3. apply H3. by apply list_elem_of_In.
  - intros item Hi. rewrite Forall_forall in H6. destruct (H6 item) as [[s Hs] Hid Hp Ha];
      [by apply list_elem_of_In|].
    rewrite Hs, Hid, Hp, !(proj2 (Z.leb_le _ _)) by lia.
    rewrite (proj2 (String.eqb_neq _ _)); [done|].
    intros E. apply (f_equal String.length) in E. rewrite !length_append in E. simpl in E. lia.
Qed.

(** ** Every change keeps the state valid *)

(** Keeping some deliveries while no subscription of theirs goes. *)
Lemma valid_filter_queue (f : delivery -> bool) subs dedupe epoch tests d :
  valid d -> (size subs <= maxSubscriptions)%nat -> own_ids subs -> dedupe = Dedupe d -> (length tests <= 10)%nat ->
  (∀ item, f item = true -> is_Some (Subscriptions d !! SubscriptionID item) ->
     is_Some (subs !! SubscriptionID item)) ->
  valid (DiskState epoch subs dedupe (List.filter f (Queue d)) tests).
Proof.
  intros [H1 Hown H2 (H5 & H6 & H7) H8] Hs Hso -> Ht Hf. constructor; simpl; try done.
  pose proof (filter_sublist f (Queue d)) as Hsub.
  split; [etransitivity; [apply sublist_length, Hsub|done]|]. split.
  - rewrite Forall_forall in H6 |- *. intros item Hi. apply list_elem_of_In, filter_In in Hi as [Hi Hfi].
    apply list_elem_of_In in Hi. destruct (H6 item Hi) as [? ? ? ?]. constructor; try done. by apply Hf.
  - eapply sublist_NoDup; [exact H7|]. by apply fmap_sublist.
Qed.

Lemma valid_register sub prefs d d' :
  valid d -> register subscriptionID sub prefs d = Changed d' -> valid d'.
Proof.
  intros V. unfold register. set (id := subscriptionID (Endpoint sub)).
  assert (Hins : ∀ v item, is_Some (Subscriptions d !! SubscriptionID item) ->
            is_Some (<[id := v]> (Subscriptions d) !! SubscriptionID item)).
  { intros v item Hi. apply lookup_insert_is_Some'. by right. }
  assert (Hown : ∀ v, StoredSub v = sub -> own_ids (<[id := v]> (Subscriptions d))).
  { intros v Hv. apply map_Forall_insert_2; [by rewrite Hv|apply V]. }
  destruct (Subscriptions d !! id) as [old|] eqn:Eo.
  - case_decide; [|done]. intros [= <-].
    apply valid_filter_queue; try done; [|by apply Hown|apply V|by intros; apply Hins].
    cbn [Subscriptions]. rewrite map_size_insert_Some by (by eexists). apply V.
  - destruct (Nat.leb_spec maxSubscriptions (size (Subscriptions d))); [done|]. intros [= <-].
    apply valid_filter_queue; try done; [|by apply Hown|apply V|by intros; apply Hins].
    cbn [Subscriptions]. rewrite map_size_insert_None by done. lia.
Qed.

Lemma valid_remove endpoint d d' :
  valid d -> remove subscriptionID endpoint d = Changed d' -> valid d'.
Proof.
  intros V. unfold remove. destruct (Subscriptions d !! _) as [old|] eqn:Eo; [|done].
  intros [= <-]. apply valid_filter_queue; try done; [|apply map_Forall_delete, V|apply V|].
  - rewrite map_size_delete, Eo. pose proof (valid_subscriptions d V). lia.
  - intros item Hf Hs. apply negb_true_iff, String.eqb_neq in Hf. rewrite lookup_delete_ne; [done|].
    by intros E.
Qed.

Lemma valid_resetEpoch epoch d d' : valid d -> resetEpoch epoch d = Changed d' -> valid d'.
Proof. intros V [= <-]. by apply valid_filter_queue; try done; try apply V. Qed.

Lemma remember_spec key dedupe dedupe' :
  remember key dedupe = Some dedupe' ->
  (key ∉ dedupe) ∧ dedupe' = drop (length dedupe + 1 - maxDedupe) (dedupe ++ [key]).
Proof.
  unfold remember. destruct (existsb _ _) eqn:E; [done|]. intros [= <-].
  split; [by apply existsb_eqb_not|]. by rewrite length_app.
Qed.

Lemma remember_last key dedupe dedupe' : remember key dedupe = Some dedupe' -> key ∈ dedupe'.
Proof.
  intros H. apply remember_spec in H as [_ ->]. 
  assert (E : drop (length dedupe + 1 - maxDedupe) (dedupe ++ [key])
              = drop (length dedupe + 1 - maxDedupe) dedupe ++ [key]).
  { apply drop_app_le. unfold maxDedupe. lia. }
  rewrite E. apply elem_of_app. right. left.
Qed.

Lemma enqueue_all_spec payload epoch order q q' :
  enqueue_all payload epoch order q = Some q' ->
  q' = q ++ ((λ e, new_delivery payload epoch e.1) <$>
             List.filter (fun e => allows (StoredPrefs (snd e)) (Kind payload)) order) ∧
  ((length q <= maxPending)%nat -> (length q' <= maxPending)%nat).
Proof.
  revert q; induction order as [|[id sub] order IH]; intros q H; cbn [enqueue_all] in H.
  - simplify_eq. csimpl. by rewrite app_nil_r.
  - cbn [List.filter snd]. destruct (allows _ _); cbn [negb] in H; [|by apply IH].
    destruct (Nat.leb_spec maxPending (length q)); [done|].
    apply IH in H as [Hq Hl]. split; [rewrite Hq, <- app_assoc; done|]. intros _. apply Hl.
    rewrite length_app. simpl. lia.
Qed.

(** The deliveries of one payload have the payload's key in their identity. *)
Lemma new_ids_distinct payload epoch q ids :
  NoDup (ID <$> q) -> NoDup ids ->
  (∀ item, item ∈ q -> ID item = EventKey (ItemPayload item) +:+ ":" +:+ SubscriptionID item ∧
      digestID (EventKey (ItemPayload item)) = true ∧ EventKey (ItemPayload item) ≠ EventKey payload) ->
  digestID (EventKey payload) = true ->
  NoDup (ID <$> q ++ (new_delivery payload epoch <$> ids)).
Proof.
  intros Hq Hids Hitems Hd. rewrite fmap_app, <- list_fmap_compose. apply NoDup_app. split; [done|].
  assert (Happ : ∀ a b c e, String.length a = String.length c -> a +:+ b = c +:+ e -> a = c ∧ b = e).
  { induction a as [|x a IHa]; intros b [|y c] e Hlen H; try done.
    change (String x (a +:+ b) = String y (c +:+ e)) in H. injection H as <- H.
    destruct (IHa b c e) as [-> ->]; [by injection Hlen|done|done]. }
  split.
  - intros k Hk Hk'. apply list_elem_of_fmap in Hk as (item & -> & Hin).
    apply list_elem_of_fmap in Hk' as (id & E & _). simpl in E.
    destruct (Hitems item Hin) as (Hid & Hdig & Hne). rewrite Hid in E.
    apply Hne. refine (proj1 (Happ _ _ _ _ _ E)).
    apply digestID_hex64 in Hdig, Hd. unfold hex64 in Hdig, Hd.
    apply andb_true_iff in Hdig as [Hdig _]. apply andb_true_iff in Hd as [Hd _].
    apply Nat.eqb_eq in Hdig, Hd. congruence.
  - apply NoDup_fmap_2_strong; [|done]. intros x y _ _ E. simpl in E.
    apply Happ in E as [_ E]; [|done]. by injection E.
Qed.

Lemma fst_filter_NoDup (f : string * storedSubscription -> bool) (l : list (string * storedSubscription)) :
  NoDup l.*1 -> NoDup (List.filter f l).*1.
Proof.
  intros H. eapply sublist_NoDup; [exact H|]. apply fmap_sublist, filter_sublist.
Qed.

Lemma persistedValid_digest p : persistedValid p = true -> digestID (EventKey p) = true.
Proof. intros H. by apply persistedValid_spec in H as (_ & ? & _). Qed.

(** No queued delivery has the payload's key. *)
Definition key_unqueued (payload : Payload) (d : diskState) : Prop :=
  ∀ item, item ∈ Queue d -> EventKey (ItemPayload item) ≠ EventKey payload.

Lemma queue_items d item :
  valid d -> item ∈ Queue d ->
  ID item = EventKey (ItemPayload item) +:+ ":" +:+ SubscriptionID item ∧
  digestID (EventKey (ItemPayload item)) = true.
Proof.
  intros V Hin. destruct (valid_queue d V) as (_ & H & _). rewrite Forall_forall in H.
  destruct (H item Hin). split; [done|by apply persistedValid_digest].
Qed.

Lemma valid_enqueue payload epoch prime order d d' :
  valid d -> order ≡ₚ map_to_list (Subscriptions d) -> persistedValid payload = true ->
  key_unqueued payload d -> enqueue payload epoch prime order d = Changed d' -> valid d'.
Proof.
  intros V Ho Hp Hk. unfold enqueue. destruct (negb _); [done|].
  destruct (remember _ _) as [dedupe|] eqn:Er; [|done].
  assert (Hded : (length dedupe <= maxDedupe)%nat ∧ Forall (λ k, digestID k = true) dedupe ∧ NoDup dedupe).
  { apply remember_spec in Er as [Hnot ->]. destruct (valid_dedupe d V) as (Hl & Hf & Hn).
    split; [rewrite length_drop, length_app; simpl; unfold maxDedupe; lia|]. split.
    - apply Forall_drop, Forall_app. split; [done|]. constructor; [by apply persistedValid_digest|done].
    - eapply sublist_NoDup; [|apply sublist_drop]. apply NoDup_app. split; [done|].
      split; [|apply NoDup_singleton]. intros x Hx Hs. apply list_elem_of_singleton in Hs. by subst. }
  destruct prime.
  { intros [= <-]. destruct V. by constructor. }
  destruct (enqueue_all _ _ _ _) as [q|] eqn:Eq; [|done]. intros [= <-].
  apply enqueue_all_spec in Eq as [-> Hlen]. pose proof (valid_queue d V) as (H5 & H6 & H7).
  destruct V as [H1 Hown H2 H3 H4]. constructor; simpl; try done.
  split; [by apply Hlen|].
  set (ids := List.filter _ order) in *.
  assert (Hids : ∀ e, e ∈ ids -> Subscriptions d !! e.1 = Some e.2).
  { intros [i s] Hi. apply list_elem_of_In, filter_In in Hi as [Hi _]. apply list_elem_of_In in Hi.
    rewrite Ho in Hi. by apply elem_of_map_to_list in Hi. }
  split.
  - apply Forall_app. split; [done|]. apply Forall_fmap, Forall_forall. intros e He. simpl.
    constructor; simpl; [rewrite (Hids e He); eauto|done|done|lia].
  - replace ((λ e : string * storedSubscription, new_delivery payload epoch e.1) <$> ids)
      with (new_delivery payload epoch <$> ids.*1) by (by rewrite <- list_fmap_compose).
    apply new_ids_distinct; [done| | |by apply persistedValid_digest].
    + apply fst_filter_NoDup. rewrite Ho. apply NoDup_fst_map_to_list.
    + intros item Hi. destruct (queue_items d item ltac:(by constructor) Hi) as [Hid Hdig].
      split; [done|]. split; [done|by apply Hk].
Qed.

Lemma valid_queueTest payload endpoint now d d' :
  valid d -> persistedValid payload = true -> key_unqueued payload d ->
  queueTest subscriptionID payload endpoint now d = Changed d' -> valid d'.
Proof.
  intros V Hp Hk. unfold queueTest. set (key := subscriptionID endpoint).
  destruct (Subscriptions d !! key) as [sub|] eqn:Es; [|done].
  destruct (Nat.leb_spec maxPending (length (Queue d))); [done|].
  destruct (Nat.leb_spec 10 (length (List.filter (fun at_ => now - at_ <? 60000) (Tests d)))); [done|].
  cbn [orb]. destruct (_ && _); [done|]. intros [= <-].
  pose proof (queue_items d) as Hitems. destruct V as [H1 Hown H2 (H5 & H6 & H7) H8]. constructor; simpl.
  - rewrite map_size_insert_Some by (by eexists). done.
  - apply map_Forall_insert_2; [|done]. exact (Hown key sub Es).
  - done.
  - split; [rewrite length_app; simpl; lia|]. split.
    + apply Forall_app. split.
      * eapply Forall_impl; [exact H6|]. intros item [Hs ? ? ?]. constructor; try done.
        apply lookup_insert_is_Some'. by right.
      * constructor; [|constructor]. constructor; simpl; [rewrite lookup_insert_eq; eauto|done|done|lia].
    + apply (new_ids_distinct payload "" (Queue d) [key]); [done|apply NoDup_singleton| |by apply persistedValid_digest].
      intros item Hi. destruct (Hitems item ltac:(by constructor) Hi). split; [done|]. split; [done|by apply Hk].
  - rewrite length_app. simpl. lia.
Qed.

Lemma valid_pending now d d' : valid d -> pending_change now d = Changed d' -> valid d'.
Proof.
  intros V. unfold pending_change, set_queue. destruct (Nat.eqb _ _); [done|]. intros [= <-].
  by apply valid_filter_queue; try done; try apply V.
Qed.

(** What [finish] leaves in the queue: the others of live subscriptions, and a
    finished delivery only as its next attempt. *)
Lemma finish_queue_elem item transient now epoch subs q queued :
  queued ∈ finish_queue item transient now epoch subs q ->
  is_Some (subs !! SubscriptionID queued) ∧
  ((queued ∈ q ∧ ID queued ≠ ID item) ∨
   (∃ old, old ∈ q ∧ ID old = ID item ∧ Attempts old < 2 ∧ transient = true ∧ queued = retry now old)).
Proof.
  induction q as [|x q IH]; cbn [finish_queue]; [by intros ?%elem_of_nil|].
  assert (IH' : queued ∈ finish_queue item transient now epoch subs q ->
    is_Some (subs !! SubscriptionID queued) ∧
    ((queued ∈ x :: q ∧ ID queued ≠ ID item) ∨
     (∃ old, old ∈ x :: q ∧ ID old = ID item ∧ Attempts old < 2 ∧ transient = true ∧ queued = retry now old))).
  { intros H. destruct (IH H) as [Hs [[Hin Hne]|(old & Hin & Hold)]]; (split; [done|]).
    - left. split; [by right|done].
    - right. exists old. split; [by right|done]. }
  destruct (subs !! SubscriptionID x) as [sub|] eqn:Es; [|exact IH'].
  destruct (String.eqb_spec (ID x) (ID item)) as [Eid|Eid]; cbn [negb].
  - destruct (_ && _) eqn:Eb; [|exact IH']. bool_hyps. intros Hin.
    apply elem_of_cons in Hin as [->|Hin]; [|by apply IH'].
    split; [simpl; rewrite Es; eauto|]. right. exists x. split; [left|]. done.
  - intros Hin. apply elem_of_cons in Hin as [->|Hin]; [|by apply IH'].
    split; [rewrite Es; eauto|]. left. split; [left|done].
Qed.

Lemma finish_queue_ids item transient now epoch subs q :
  ID <$> finish_queue item transient now epoch subs q `sublist_of` ID <$> q.
Proof.
  induction q as [|x q IH]; cbn [finish_queue]; [constructor|]. csimpl.
  destruct (subs !! SubscriptionID x); [|by constructor].
  destruct (negb _); [by constructor|]. destruct (_ && _); by constructor.
Qed.

Lemma valid_finish item status transient now d d' :
  valid d -> finish item status transient now d = Changed d' -> valid d'.
Proof.
  intros [H1 Hown H2 (H5 & H6 & H7) H8]. unfold finish. destruct (negb _); [done|].
  set (subs := if (status =? 404) || (status =? 410) then _ else _). intros [= <-]. constructor; simpl; try done.
  - unfold subs. case_match; [|done]. etransitivity; [|exact H1]. rewrite map_size_delete.
    destruct (_ !! _); simpl; lia.
  - unfold subs. case_match; [by apply map_Forall_delete|done].
  - pose proof (finish_queue_ids item transient now (Epoch d) subs (Queue d)) as Hids.
    split; [|split].
    + apply sublist_length in Hids. rewrite !length_fmap in Hids. lia.
    + apply Forall_forall. intros queued Hin. rewrite Forall_forall in H6.
      apply finish_queue_elem in Hin as [Hs [[Hin _]|(old & Hin & _ & Ha & _ & ->)]];
        destruct (H6 _ Hin) as [? ? ? ?]; constructor; simpl; try done; lia.
    + eapply sublist_NoDup; [exact H7|exact Hids].
Qed.

(** ** The operations on the durable state *)

Inductive operation : Type :=
| OpRegister (sub : Subscription) (prefs : Preferences)
| OpRemove (endpoint : string)
| OpResetEpoch (epoch : string)
| OpEnqueue (payload : Payload) (epoch : string) (prime : bool) (order : list (string * storedSubscription))
| OpQueueTest (payload : Payload) (endpoint : string) (now : Z)
| OpPending (now : Z)
| OpFinish (item : delivery) (status : Z) (transient : bool) (now : Z).

Definition change_of (op : operation) : diskState -> outcome :=
  match op with
  | OpRegister sub prefs => register subscriptionID sub prefs
  | OpRemove endpoint => remove subscriptionID endpoint
  | OpResetEpoch epoch => resetEpoch epoch
  | OpEnqueue payload epoch prime order => enqueue payload epoch prime order
  | OpQueueTest payload endpoint now => queueTest subscriptionID payload endpoint now
  | OpPending now => pending_change now
  | OpFinish item status transient now => finish item status transient now
  end.

(** What the callers guarantee: an event's payload comes from [makePayload]
    ([makePayload_valid]), its key is not in the queue (a queued event's key is
    in [Dedupe] unless 4096 later events evicted it, and a test's key is the
    digest of a random identifier), and the loop visits each subscription
    once. *)
Definition proper (op : operation) (d : diskState) : Prop :=
  match op with
  | OpEnqueue payload _ _ order =>
      order ≡ₚ map_to_list (Subscriptions d) ∧ persistedValid payload = true ∧ key_unqueued payload d
  | OpQueueTest payload _ _ => persistedValid payload = true ∧ key_unqueued payload d
  | _ => True
  end.

Lemma valid_change op d d' : valid d -> proper op d -> change_of op d = Changed d' -> valid d'.
Proof.
  intros V Hp. destruct op; simpl in *.
  - by apply valid_register.
  - by apply valid_remove.
  - by apply valid_resetEpoch.
  - destruct Hp as (? & ? & ?). by apply valid_enqueue.
  - destruct Hp as [? ?]. by apply valid_queueTest.
  - by apply valid_pending.
  - by apply valid_finish.
Qed.

(** One call of a store method: the operation and whether its state is saved. *)
Definition call (s : Store) (c : operation * bool) : Store := fst (mutate (change_of c.1) c.2 s).

Fixpoint proper_calls (cs : list (operation * bool)) (s : Store) : Prop :=
  match cs with
  | [] => True
  | c :: cs' => proper c.1 (data s) ∧ proper_calls cs' (call s c)
  end.

Definition empty_state : diskState := DiskState "" ∅ [] [] [].


(** ** Retired deliveries *)

Lemma not_queued_not_dispatchable item now d :
  (∀ queued, queued ∈ Queue d -> same_attempt item queued = false) -> dispatchable item now d = None.
Proof.
  intros H. unfold dispatchable. repeat case_match; try done.
  match goal with G : existsb _ _ = true |- _ => apply existsb_exists in G as (q & Hq & Hs) end.
  rewrite H in Hs; [done|]. by apply list_elem_of_In.
Qed.

(** A queued delivery is identified by its ID. *)
Lemma same_id d a b : valid d -> a ∈ Queue d -> b ∈ Queue d -> ID a = ID b -> a = b.
Proof.
  intros V Ha Hb E. destruct (valid_queue d V) as (_ & _ & Hn).
  apply list_elem_of_lookup in Ha as [i Hi]. apply list_elem_of_lookup in Hb as [j Hj].
  assert (i = j) as ->; [|congruence].
  eapply NoDup_lookup; [exact Hn| |]; rewrite list_lookup_fmap; [by rewrite Hi|rewrite Hj; simpl; congruence].
Qed.

Lemma retired_not_dispatchable (d d' : diskState) (item : delivery) (now : Z) :
  valid d ->
  (∀ endpoint, remove subscriptionID endpoint d = Changed d' ->
     SubscriptionID item = subscriptionID endpoint -> dispatchable item now d' = None) ∧
  (∀ sub prefs, register subscriptionID sub prefs d = Changed d' ->
     SubscriptionID item = subscriptionID (Endpoint sub) ->
     allows prefs (Kind (ItemPayload item)) = false -> dispatchable item now d' = None) ∧
  (∀ epoch, resetEpoch epoch d = Changed d' -> Kind (ItemPayload item) ≠ "test" -> ItemEpoch item ≠ epoch ->
     dispatchable item now d' = None) ∧
  (∀ status transient at_, finish item status transient at_ d = Changed d' ->
     dispatchable item now d' = None ∧
     ∀ queued, queued ∈ Queue d' -> ID queued = ID item ->
       Attempts queued = Attempts item + 1 ∧ Attempts queued <= 2 ∧ transient = true).
Proof.
  intros V. split; [|split; [|split]].
  - intros endpoint. unfold remove. destruct (Subscriptions d !! _); [|done]. intros [= <-] E.
    unfold dispatchable. simpl. rewrite E, lookup_delete_eq. by case_match.
  - intros sub prefs Hr E Hk. unfold dispatchable. destruct (negb _); [done|].
    assert (Hl : ∃ last, Subscriptions d' !! SubscriptionID item = Some (Stored sub prefs last)).
    { unfold register in Hr. rewrite E.
      destruct (Subscriptions d !! subscriptionID (Endpoint sub)); [case_decide|case_match]; try done;
        injection Hr as <-; simpl; rewrite lookup_insert_eq; eauto. }
    destruct Hl as [last ->]. simpl. by rewrite Hk.
  - intros epoch [= <-] Hk He. unfold dispatchable. simpl. destruct (negb _); [done|].
    destruct (Subscriptions d !! SubscriptionID item); [|done].
    rewrite (proj2 (String.eqb_neq _ _) Hk), (proj2 (String.eqb_neq _ _) He). simpl. by rewrite orb_true_r.
  - intros status transient at_. unfold finish. destruct (existsb (same_attempt item) (Queue d)) eqn:Ex; [|done].
    simpl. set (subs := if (status =? 404) || (status =? 410) then _ else _). intros [= <-].
    apply existsb_exists in Ex as (q & Hq & Esame). apply list_elem_of_In in Hq.
    unfold same_attempt in Esame. bool_hyps.
    assert (Hnext : ∀ queued, queued ∈ finish_queue item transient at_ (Epoch d) subs (Queue d) ->
              ID queued = ID item ->
              Attempts queued = Attempts item + 1 ∧ Attempts queued <= 2 ∧ transient = true).
    { intros queued Hin Hid. apply finish_queue_elem in Hin as [_ [[_ Hne]|(old & Hold & Hoid & Ha & Ht & ->)]]; [done|].
      assert (old = q) as -> by (eapply same_id; [done..|congruence]). simpl. split; [congruence|]. split; [lia|done]. }
    split; [|exact Hnext]. apply not_queued_not_dispatchable. simpl. intros queued Hin.
    unfold same_attempt. destruct (String.eqb_spec (ID queued) (ID item)) as [Hid|]; [|done].
    destruct (Hnext queued Hin Hid) as [-> _]. simpl. apply Z.eqb_neq. lia.
Qed.

Lemma current_delivery_none item now s :
  dispatchable item now (data s) = None -> current_delivery item now s = None.
Proof. unfold current_delivery. by destruct (_ || _). Qed.

(** The authoritative read before a dispatch refuses a delivery once its
    subscription is removed, its kind is switched off, its epoch is over, or
    its attempt has been finished. *)
Theorem retired_not_dispatched (d : diskState) (s : Store) (item : delivery) (now : Z) :
  valid d ->
  (∀ endpoint, remove subscriptionID endpoint d = Changed (data s) ->
     SubscriptionID item = subscriptionID endpoint -> current_delivery item now s = None) ∧
  (∀ sub prefs, register subscriptionID sub prefs d = Changed (data s) ->
     SubscriptionID item = subscriptionID (Endpoint sub) ->
     allows prefs (Kind (ItemPayload item)) = false -> current_delivery item now s = None) ∧
  (∀ epoch, resetEpoch epoch d = Changed (data s) -> Kind (ItemPayload item) ≠ "test" -> ItemEpoch item ≠ epoch ->
     current_delivery item now s = None) ∧
  (∀ status transient at_, finish item status transient at_ d = Changed (data s) ->
     current_delivery item now s = None ∧
     ∀ queued, queued ∈ Queue (data s) -> ID queued = ID item ->
       Attempts queued = Attempts item + 1 ∧ Attempts queued <= 2 ∧ transient = true).
Proof.
  intros V. destruct (retired_not_dispatchable d (data s) item now V) as (H1 & H2 & H3 & H4).
  split; [|split; [|split]].
  - intros. apply current_delivery_none. eauto.
  - intros. apply current_delivery_none. eauto.
  - intros. apply current_delivery_none. eauto.
  - intros. destruct (H4 status transient at_) as [? ?]; [done|]. split; [|done]. by apply current_delivery_none.
Qed.

(** ** Atomicity and admission *)

(** A mutation commits all of its change or none of it: the committed data is
    the old or the complete new state, only a saved change without error
    commits, deliveries in progress that the new state does not queue are
    gone, and after a failed save every later mutation is refused. *)
Theorem mutate_atomic (change : diskState -> outcome) (saved : bool) (s s' : Store) (r : option push_error) :
  mutate change saved s = (s', r) ->
  (data s' = data s ∨ (change (data s) = Changed (data s') ∧ saved = true ∧ r = None ∧
     ∀ id, is_Some (active s' !! id) -> id ∈ ID <$> Queue (data s'))) ∧
  (r ≠ None -> data s' = data s) ∧
  (failed s' = true -> (∀ id b, active s' !! id = Some b -> b = true ∨ s' = s) ∧
     ∀ change' saved', mutate change' saved' s' = (s', Some errUnavailable)).
Proof.
  unfold mutate at 1. intros H.
  assert (Hre : ∀ st, failed st = true -> ∀ change' saved', mutate change' saved' st = (st, Some errUnavailable)).
  { intros st Hf change' saved'. unfold mutate. by rewrite Hf, orb_true_r. }
  destruct (closed s || failed s) eqn:Ec.
  { simplify_eq. split; [by left|]. split; [done|]. intros Hf. split; [by right|by apply Hre]. }
  apply orb_false_iff in Ec as [_ Ef].
  destruct (change (data s)) as [e| |next] eqn:E.
  - simplify_eq. split; [by left|]. split; [done|]. congruence.
  - simplify_eq. split; [by left|]. split; [done|]. congruence.
  - destruct saved; simpl in H; simplify_eq.
    + split; [right|split; [done|simpl; congruence]]. repeat (split; [done|]). simpl.
      intros id [b Hb]. apply map_lookup_filter_Some in Hb as [_ Hb]. exact Hb.
    + split; [by left|]. split; [done|]. intros _. split; [|by apply Hre].
      intros id b Hb. simpl in Hb. rewrite lookup_fmap in Hb. left.
      destruct (active s !! id); simpl in Hb; by simplify_eq.
Qed.

(** The precheck of [Enqueue] outside the lock only saves work: for a payload
    that fits, the result is that of the mutation alone. *)
Theorem precheck_is_optimisation (payload : Payload) (epoch : string) (prime : bool)
    (order : list (string * storedSubscription)) (saved : bool) (s : Store) :
  Enqueue payload epoch prime order saved s =
  if Nat.ltb maxPayloadBytes (String.length (marshal payload)) then (s, Some errTooLarge)
  else mutate (enqueue payload epoch prime order) saved s.
Proof.
  unfold Enqueue. destruct (Nat.ltb _ _); [done|]. unfold mutate.
  destruct (closed s || failed s); [done|]. unfold enqueue.
  destruct (String.eqb (Epoch (data s)) epoch); cbn [negb orb]; [|done].
  destruct (existsb _ _) eqn:E; [|done]. unfold remember. by rewrite E.
Qed.

(** Admitting an event adds one delivery for each subscription that allows its
    kind, remembers its key, and admits it only once. *)
Theorem enqueue_once (payload : Payload) (epoch : string) (order : list (string * storedSubscription))
    (d d' : diskState) :
  order ≡ₚ map_to_list (Subscriptions d) ->
  enqueue payload epoch false order d = Changed d' ->
  Epoch d = epoch ∧ (EventKey payload ∉ Dedupe d) ∧ EventKey payload ∈ Dedupe d' ∧
  (∃ added, Queue d' = Queue d ++ added ∧
     ∀ item, item ∈ added ↔ ∃ id sub, Subscriptions d !! id = Some sub ∧
       allows (StoredPrefs sub) (Kind payload) = true ∧ item = new_delivery payload epoch id) ∧
  (∀ prime order', enqueue payload epoch prime order' d' = Unchanged).
Proof.
  intros Ho. unfold enqueue at 1. destruct (String.eqb_spec (Epoch d) epoch) as [He|]; [|done]. simpl.
  destruct (remember _ _) as [dedupe|] eqn:Er; [|done].
  destruct (enqueue_all _ _ _ _) as [q|] eqn:Eq; [|done]. intros [= <-]. simpl.
  pose proof (remember_last _ _ _ Er) as Hlast. pose proof (remember_spec _ _ _ Er) as [Hnot _].
  apply enqueue_all_spec in Eq as [-> _]. repeat (split; [done|]). split.
  - eexists. split; [reflexivity|]. intros item. rewrite list_elem_of_fmap. split.
    + intros ([id sub] & -> & Hin). apply list_elem_of_In, filter_In in Hin as [Hin Ha].
      apply list_elem_of_In in Hin. rewrite Ho in Hin. apply elem_of_map_to_list in Hin. by exists id, sub.
    + intros (id & sub & Hl & Ha & ->). exists (id, sub). split; [done|].
      apply list_elem_of_In, filter_In. split; [|done]. apply list_elem_of_In. rewrite Ho.
      by apply elem_of_map_to_list.
  - intros prime order'. unfold enqueue. simpl. rewrite He, String.eqb_refl. simpl.
    unfold remember. by rewrite (proj2 (existsb_eqb_In _ _) Hlast).
Qed.
End loading.

(** ** Concrete runs *)

Definition sample_subscription : Subscription := MkSubscription "https://push.example/1" "auth" "key".
Definition sample_event_payload : Payload := sample_server_payload.
Definition sample_order : list (string * storedSubscription) :=
  [("https://push.example/1", Stored sample_subscription DefaultPreferences 0)].

Definition sample_ops : list (operation * bool) :=
  [(OpResetEpoch "e1", true); (OpRegister sample_subscription DefaultPreferences, true);
   (OpEnqueue sample_event_payload "e1" false sample_order, true);
   (OpRegister sample_subscription (Prefs true true true false), false)].

Definition sample_store : Store :=
  foldl (call id) (MkStore empty_state false false ∅) sample_ops.

(** The same state, after a restart. *)
Definition sample_open : Store := MkStore (data sample_store) false false ∅.


Lemma sample_valid : valid id (data sample_store).
Proof.
  constructor.
  - apply Nat.leb_le. vm_compute. reflexivity.
  - replace (Subscriptions (data sample_store)) with
      ({["https://push.example/1" := Stored sample_subscription DefaultPreferences 0]} :> gmap string storedSubscription)
      by (vm_compute; reflexivity).
    by apply map_Forall_singleton.
  - split; [apply Nat.leb_le; vm_compute; reflexivity|]. vm_compute. repeat constructor. by intros ?%elem_of_nil.
  - split; [apply Nat.leb_le; vm_compute; reflexivity|]. split.
    + change (Queue (data sample_store)) with [new_delivery sample_event_payload "e1" "https://push.example/1"].
      repeat constructor; vm_compute; done || eauto.
    + apply NoDup_singleton.
  - apply Nat.leb_le. vm_compute. reflexivity.
Qed.

Lemma retired_not_dispatched_witness :
  let item := new_delivery sample_event_payload "e1" "https://push.example/1" in
  let s' := fst (mutate (remove id "https://push.example/1") true sample_open) in
  current_delivery item 60000000000 sample_open = Some (Stored sample_subscription DefaultPreferences 0) ∧
  current_delivery item 60000000000 s' = None.
Proof.
  intros item s'. split; [vm_compute; reflexivity|].
  apply (retired_not_dispatched id (data sample_open) s' item 60000000000)
    with (endpoint := "https://push.example/1"); [exact sample_valid|vm_compute; reflexivity|reflexivity].
Defined.

Lemma mutate_atomic_witness :
  let change := change_of id (OpResetEpoch "e2") in
  let s' := fst (mutate change false sample_store) in
  (data s' = data sample_store ∨ (change (data sample_store) = Changed (data s') ∧ false = true ∧
     Some errUnavailable = None ∧ ∀ id, is_Some (active s' !! id) -> id ∈ ID <$> Queue (data s'))) ∧
  (Some errUnavailable ≠ None -> data s' = data sample_store) ∧
  (failed s' = true -> (∀ id b, active s' !! id = Some b -> b = true ∨ s' = sample_store) ∧
     ∀ change' saved', mutate change' saved' s' = (s', Some errUnavailable)).
Proof.
  intros change s'. apply (mutate_atomic change false sample_store s' (Some errUnavailable)).
  vm_compute. reflexivity.
Defined.

Lemma enqueue_once_witness :
  let d := DiskState "e1" {["https://push.example/1" := Stored sample_subscription DefaultPreferences 0]} [] [] [] in
  let d' := match enqueue sample_event_payload "e1" false sample_order d with Changed x => x | _ => d end in
  Epoch d = "e1" ∧ (EventKey sample_event_payload ∉ Dedupe d) ∧ EventKey sample_event_payload ∈ Dedupe d' ∧
  (∃ added, Queue d' = Queue d ++ added ∧
     ∀ item, item ∈ added ↔ ∃ id sub, Subscriptions d !! id = Some sub ∧
       allows (StoredPrefs sub) (Kind sample_event_payload) = true ∧
       item = new_delivery sample_event_payload "e1" id) ∧
  (∀ prime order', enqueue sample_event_payload "e1" prime order' d' = Unchanged).
Proof.
  intros d d'. apply (enqueue_once sample_event_payload "e1" sample_order d d').
  - vm_compute. apply Permutation_refl.
  - vm_compute. reflexivity.
Defined.
