(* ===== verification/PushProcessor.v ===== *)
(** * The event processor of the Go server

    [internal/push/processor.go]: which observations of the installation become
    push events.  The processor is written against an interface of the store
    ([EventStore]), the durable store of [PushStore] implements it.  Both run
    under the processor's lock, so a call is one step.  Times are nanoseconds
    of one clock. *)

From Stdlib Require Import ZArith QArith Ascii String Lia.
From stdpp Require Import base list option strings gmap fin_maps.
From S2P Require Import Prelude Float64 JsValue SwEvents Utf8 PushPayload PushStore.

#[local] Open Scope string_scope.
#[local] Open Scope list_scope.
#[local] Open Scope Z_scope.

(** ** Data *)

Record Native := MkNative {
  NativeID : string;
  NativeSource : string;
  Level : string;
  NativeTitle : string;
  NativeBody : string;
  Timestamp : Z
}.

Record Sample := MkSample { SampleKind : string; SampleID : string; Value : option F64.num }.

(** [Notifications] is [None] for a nil slice. *)
Record Observation := MkObservation {
  Notifications : option (list Native);
  Samples : list Sample;
  Retained : bool;
  Complete : bool
}.

Record baseline := Baseline { value : F64.num; at_ : Z }.

Record Processor := MkProcessor {
  epoch : string;
  source : string;
  start : Z;
  connected : bool;
  primed : bool;
  baselines : gmap string baseline;
  unknown : gmap string string;
  selected : gmap string string
}.

Definition NewProcessor : Processor := MkProcessor "" "" 0 false false ∅ ∅ ∅.

(** The zero [time.Time], year 1. *)
Definition zero_time : Z := -62135596800 * 1000000000.

Definition unix_milli (t : Z) : Z := t / 1000000.

Definition with_unknown (u : gmap string string) (p : Processor) : Processor :=
  MkProcessor (epoch p) (source p) (start p) (connected p) (primed p) (baselines p) u (selected p).
Definition with_primed (p : Processor) : Processor :=
  MkProcessor (epoch p) (source p) (start p) (connected p) true (baselines p) (unknown p) (selected p).
Definition with_baselines (b : gmap string baseline) (p : Processor) : Processor :=
  MkProcessor (epoch p) (source p) (start p) (connected p) (primed p) b (unknown p) (selected p).
Definition with_selected (m : gmap string string) (p : Processor) : Processor :=
  MkProcessor (epoch p) (source p) (start p) (connected p) (primed p) (baselines p) (unknown p) m.

(** ** The interface of the store *)

Class EventStore (S : Type) := {
  store_reset : string -> S -> S * option push_error;
  store_enqueue : Payload -> string -> bool -> S -> S * option push_error;
  queued : S -> list delivery
}.

(** What the store promises to the processor. *)
Class EventStoreLaws (S : Type) `{EventStore S} := {
  reset_retires : ∀ e s s', store_reset e s = (s', None) ->
    ∀ item, item ∈ queued s' -> Kind (ItemPayload item) = "test";
  enqueue_adds : ∀ payload e prime s item,
    item ∈ queued (fst (store_enqueue payload e prime s)) ->
    item ∈ queued s ∨ (prime = false ∧ ItemPayload item = payload ∧ ItemEpoch item = e)
}.

(** ** Transitions of a sampled value *)

Definition transition (kind : string) (before after : F64.num) : string * string * string :=
  let gt x y := F64.ltb y x in
  let above x := gt x (F64.of_Z 10) in
  let zero x := F64.eqb x (F64.of_Z 0) in
  let one x := F64.eqb x (F64.of_Z 1) in
  if String.eqb kind "ev" then
    if Bool.eqb (above before) (above after) then ("", "", "")
    else if above after then ("ev", "EV charging started", "The charger is now delivering power.")
    else ("ev", "EV charging stopped", "The charger is no longer delivering power.")
  else if String.eqb kind "pump" || String.eqb kind "valve" then
    if (negb (zero before) && negb (one before)) || (negb (zero after) && negb (one after)) ||
       F64.eqb before after then ("", "", "")
    else if String.eqb kind "pump" then
      if one after then ("water", "Water pump on", "The pump switched on.")
      else ("water", "Water pump off", "The pump switched off.")
    else if one after then ("water", "Water valve open", "The water valve opened.")
    else ("water", "Water valve closed", "The water valve closed.")
  else if String.eqb kind "soc" then
    if gt before (F64.of_Z 20) && F64.leb before (F64.of_Z 100) &&
       F64.leb (F64.of_Z 0) after && F64.leb after (F64.of_Z 20)
    then ("lowBattery", "Battery charge low", "The measured battery state of charge reached 20% or lower.")
    else ("", "", "")
  else ("", "", "").

(** ** The handlers *)

Section processor.
Variable sha256 : string -> string.
Context {S : Type} `{EventStore S}.

(** [makePayload] at times in nanoseconds; its loop always ends
    ([makePayload_valid]). *)
Definition payload_of (kind source id title body : string) (occurred observed : Z) : Payload :=
  let occurred := unix_milli occurred in
  let observed := unix_milli observed in
  default (initial_payload sha256 kind source id title body occurred observed)
          (makePayload sha256 kind source id title body occurred observed).

(** [Reset]; [id] is what [randomID] returns. *)
Definition Reset (id : option string) (src : string) (conn : bool) (now : Z) (st : Processor * S)
    : (Processor * S) * option push_error :=
  match id with
  | None => (st, Some errUnavailable)
  | Some e =>
      match store_reset e (snd st) with
      | (s, Some err) => ((fst st, s), Some err)
      | (s, None) => ((MkProcessor e src now conn false ∅ ∅ ∅, s), None)
      end
  end.

Definition identity (n : Native) : string := NativeTitle n +:+ String zero (NativeBody n).

Definition native_payload (n : Native) (now : Z) : Payload :=
  payload_of "native" (if String.eqb (NativeSource n) "victron" then "victron" else "system")
             (NativeID n) (NativeTitle n) (NativeBody n) (Timestamp n) now.

(** The body of the loop over the notifications. *)
Definition observe_native (prime : bool) (now : Z) (n : Native) (st : Processor * S)
    : (Processor * S) * option push_error :=
  let '(p, s) := st in
  let p :=
    match unknown p !! NativeID n with
    | Some old => if String.eqb old (identity n) then p else with_unknown (delete (NativeID n) (unknown p)) p
    | None => p
    end in
  if Timestamp n =? zero_time then
    ((if prime then with_unknown (<[NativeID n := identity n]> (unknown p)) p else p, s), None)
  else
    let wasUnknown := String.eqb (default "" (unknown p !! NativeID n)) (identity n) in
    let payload := native_payload n now in
    let silent := prime || wasUnknown ||
                  (negb (String.eqb (Level n) "warning") && negb (String.eqb (Level n) "error")) ||
                  negb (current payload now) || (Timestamp n <? start p - maxFutureSkew) in
    match store_enqueue payload (epoch p) silent s with
    | (s, Some err) => ((p, s), Some err)
    | (s, None) => ((with_unknown (delete (NativeID n) (unknown p)) p, s), None)
    end.

Definition sample_key (x : Sample) : string := SampleKind x +:+ ":" +:+ SampleID x.

Definition finite (v : F64.num) : bool :=
  match v with F64.Fin _ => true | _ => false end.

(** The sample's source becomes the selected one of its kind; the baseline of
    another source is dropped. *)
Definition select (x : Sample) (p : Processor) : Processor :=
  let key := sample_key x in
  let old := default "" (selected p !! SampleKind x) in
  let p := if negb (String.eqb old "") && negb (String.eqb old key)
           then with_baselines (delete old (baselines p)) p else p in
  with_selected (<[SampleKind x := key]> (selected p)) p.

(** The body of the loop over the samples. *)
Definition observe_sample (retained : bool) (now : Z) (x : Sample) (st : Processor * S)
    : (Processor * S) * option push_error :=
  let '(p, s) := st in
  let key := sample_key x in
  let p := select x p in
  let previous := baselines p !! key in
  match Value x with
  | None => ((with_baselines (delete key (baselines p)) p, s), None)
  | Some v =>
      if retained || negb (finite v) then ((with_baselines (delete key (baselines p)) p, s), None)
      else
        let p := with_baselines (<[key := Baseline v now]> (baselines p)) p in
        match previous with
        | None => ((p, s), None)
        | Some prev =>
            if (30 * 1000000000 <? saturate (now - at_ prev)) || (now <? at_ prev) then ((p, s), None)
            else
              let '(kind, title, body) := transition (SampleKind x) (value prev) v in
              if String.eqb kind "" then ((p, s), None)
              else
                let '(s, err) := store_enqueue (payload_of kind "victron" key title body now now) (epoch p) false s in
                ((p, s), err)
        end
  end.

(** A loop that returns at the first error. *)
Fixpoint each {A St : Type} (f : A -> St -> St * option push_error) (l : list A) (st : St)
    : St * option push_error :=
  match l with
  | [] => (st, None)
  | x :: l' =>
      match f x st with
      | (st', Some err) => (st', Some err)
      | (st', None) => each f l' st'
      end
  end.

Definition listed (ns : list Native) (p : Processor) : Processor :=
  with_unknown (filter (λ e, e.1 ∈ NativeID <$> ns) (unknown p)) p.

Definition priming (ob : Observation) (now : Z) (p : Processor) : bool :=
  (negb (String.eqb (source p) "mqtt") && negb (primed p)) ||
  (String.eqb (source p) "mqtt" && (saturate (now - start p) <? 10 * 1000000000)) || Retained ob.

Definition observe_natives (ob : Observation) (now : Z) (st : Processor * S)
    : (Processor * S) * option push_error :=
  match Notifications ob with
  | None => (st, None)
  | Some ns =>
      match each (observe_native (priming ob now (fst st)) now) ns st with
      | (st', Some err) => (st', Some err)
      | ((p, s), None) => ((with_primed (listed ns p), s), None)
      end
  end.

Definition observe_samples (ob : Observation) (now : Z) (st : Processor * S)
    : (Processor * S) * option push_error :=
  match each (observe_sample (Retained ob) now) (Samples ob) st with
  | (st', Some err) => (st', Some err)
  | ((p, s), None) =>
      ((if Complete ob
        then with_baselines (filter (λ e, e.1 ∈ sample_key <$> Samples ob) (baselines p)) p
        else p, s), None)
  end.

Definition Observe (ob : Observation) (now : Z) (st : Processor * S) : (Processor * S) * option push_error :=
  if negb (connected (fst st)) then (st, None)
  else
    match observe_natives ob now st with
    | (st', Some err) => (st', Some err)
    | (st', None) => observe_samples ob now st'
    end.
End processor.

(** ** What an observation admits *)

(** An invariant of the processed prefix, also when the loop stops early. *)
Lemma each_run {A St} (f : A -> St -> St * option push_error) (P : list A -> St -> Prop) l st st' err :
  P [] st -> (∀ l1 x st, P l1 st -> P (l1 ++ [x]) (fst (f x st))) -> each f l st = (st', err) ->
  ∃ l1 l2, l = l1 ++ l2 ∧ P l1 st' ∧ (err = None -> l2 = []).
Proof.
  intros H0 Hs.
  enough (H : ∀ l l0 st, P l0 st -> each f l st = (st', err) ->
            ∃ l1 l2, l = l1 ++ l2 ∧ P (l0 ++ l1) st' ∧ (err = None -> l2 = [])).
  { intros He. destruct (H l [] st H0 He) as (l1 & l2 & ? & ? & ?). by exists l1, l2. }
  clear l st H0. induction l as [|x l IH]; intros l0 st HP He; cbn [each] in He.
  - simplify_eq. exists [], []. split; [done|]. by rewrite app_nil_r.
  - specialize (Hs l0 x st HP). destruct (f x st) as [st1 [e|]]; cbn [fst] in Hs.
    + simplify_eq. by exists [x], l.
    + destruct (IH _ _ Hs He) as (l1 & l2 & -> & HP' & Hn). exists (x :: l1), l2.
      by rewrite <- app_assoc in HP'.
Qed.

Section admission.
Variable sha256 : string -> string.
Context {S : Type} `{EventStoreLaws S}.

(** A source event worth a push: dated, severe, current, and not older than the
    processor's start (with the tolerated skew). *)
Definition fresh_native (p : Processor) (now : Z) (n : Native) : Prop :=
  Timestamp n ≠ zero_time ∧ (Level n = "warning" ∨ Level n = "error") ∧
  current (native_payload sha256 n now) now = true ∧ start p - maxFutureSkew <= Timestamp n.

(** The deliveries that the loop over the notifications adds. *)
Definition native_delivery (prime : bool) (p : Processor) (now : Z) (ns : list Native) (item : delivery) : Prop :=
  ∃ before n after, ns = before ++ n :: after ∧ prime = false ∧ fresh_native p now n ∧
    (NativeID n ∉ NativeID <$> before -> unknown p !! NativeID n ≠ Some (identity n)) ∧
    ItemPayload item = native_payload sha256 n now ∧ ItemEpoch item = epoch p.

Lemma native_delivery_app prime p now l l' item :
  native_delivery prime p now l item -> native_delivery prime p now (l ++ l') item.
Proof.
  intros (b & n & a & -> & ?). exists b, n, (a ++ l'). by rewrite <- app_assoc.
Qed.

Definition native_run (prime : bool) (now : Z) (p : Processor) (s : S) (l : list Native) (st : Processor * S) : Prop :=
  fst st = with_unknown (unknown (fst st)) p ∧
  (∀ id, id ∉ NativeID <$> l -> unknown (fst st) !! id = unknown p !! id) ∧
  (∀ item, item ∈ queued (snd st) -> item ∈ queued s ∨ native_delivery prime p now l item).

Lemma observe_native_run prime now p s l n st :
  native_run prime now p s l st -> native_run prime now p s (l ++ [n]) (fst (observe_native sha256 prime now n st)).
Proof.
  destruct st as [q t]. intros (Hq & Hu & Hi). cbn [fst snd] in *. unfold observe_native.
  set (q1 := match unknown q !! NativeID n with Some _ => _ | None => _ end).
  assert (Hq1 : q1 = with_unknown (unknown q1) p ∧
                (∀ id, id ≠ NativeID n -> unknown q1 !! id = unknown q !! id) ∧
                (unknown q !! NativeID n = Some (identity n) -> unknown q1 !! NativeID n = Some (identity n))).
  { unfold q1. destruct (unknown q !! NativeID n) as [old|] eqn:E; [|done].
    destruct (String.eqb_spec old (identity n)) as [->|Hne]; [done|]. split; [by rewrite Hq|].
    split; [intros id Hid; cbn; by rewrite lookup_delete_ne|congruence]. }
  clearbody q1. destruct Hq1 as (Hq1 & Hu1 & Hk1).
  assert (Hul : ∀ id, id ∉ NativeID <$> l ++ [n] -> unknown q1 !! id = unknown p !! id ∧ id ≠ NativeID n).
  { intros id Hid. rewrite fmap_app, elem_of_app in Hid. cbn in Hid. rewrite list_elem_of_singleton in Hid.
    assert (id ≠ NativeID n) by tauto. rewrite Hu1, Hu by tauto. done. }
  assert (Hw : ∀ u, with_unknown u q1 = with_unknown u p) by (intros u; by rewrite Hq1).
  destruct (Z.eqb_spec (Timestamp n) zero_time) as [Hz|Hz].
  - cbn [fst snd]. split; [destruct prime; [by rewrite Hw|exact Hq1]|]. split.
    + intros id Hid. destruct (Hul id Hid) as [<- Hne]. destruct prime; cbn; [by rewrite lookup_insert_ne|done].
    + intros item Hin. destruct (Hi item Hin); [by left|right; by apply native_delivery_app].
  - set (silent := _ || (Timestamp n <? _)). destruct (store_enqueue _ _ silent t) as [t' err] eqn:Et.
    assert (Hnew : ∀ item, item ∈ queued t' -> item ∈ queued s ∨ native_delivery prime p now (l ++ [n]) item).
    { intros item Hin. replace t' with (fst (store_enqueue (native_payload sha256 n now) (epoch q1) silent t)) in Hin
        by (by rewrite Et).
      destruct (enqueue_adds _ _ _ _ _ Hin) as [Hold|(Hs & Hp & He)].
      - destruct (Hi item Hold); [by left|right; by apply native_delivery_app].
      - apply orb_false_iff in Hs as [Hs Hlt]. apply orb_false_iff in Hs as [Hs Hcur].
        apply orb_false_iff in Hs as [Hs Hsev]. apply orb_false_iff in Hs as [Hprime Hwas].
        assert (Hst : start q1 = start p ∧ epoch q1 = epoch p) by (by rewrite Hq1).
        destruct Hst as [Hst Hep]. rewrite Hst in Hlt. rewrite Hep in He.
        apply Z.ltb_ge in Hlt. apply negb_false_iff in Hcur. apply String.eqb_neq in Hwas.
        apply andb_false_iff in Hsev. rewrite !negb_false_iff, !String.eqb_eq in Hsev.
        right. exists l, n, []. repeat (split; [done|]). split; [|done].
        intros Hid E. rewrite <- Hu in E by done. apply Hk1 in E. apply Hwas. by rewrite E. }
    destruct err as [e|]; cbn [fst snd]; (split; [try rewrite Hw; done|split; [|exact Hnew]]).
    + intros id Hid. by destruct (Hul id Hid).
    + intros id Hid. destruct (Hul id Hid) as [<- Hne]. cbn. by rewrite lookup_delete_ne.
Qed.

(** ** Samples *)

(** What a delivery of a sample needs: a transition from a reading that was
    either the baseline, at most thirty seconds old, or an earlier element of
    the same observation. *)
Definition sample_delivery (p : Processor) (now : Z) (xs : list Sample) (item : delivery) : Prop :=
  ∃ before x after v prev kind title body,
    xs = before ++ x :: after ∧ Value x = Some v ∧ finite v = true ∧
    transition (SampleKind x) prev v = (kind, title, body) ∧ kind ≠ "" ∧
    ItemPayload item = payload_of sha256 kind "victron" (sample_key x) title body now now ∧
    ItemEpoch item = epoch p ∧
    ((∃ t, baselines p !! sample_key x = Some (Baseline prev t) ∧ t <= now <= t + 30 * 1000000000) ∨
     (∃ y, y ∈ before ∧ sample_key y = sample_key x ∧ Value y = Some prev)).

Lemma sample_delivery_app p now l l' item :
  sample_delivery p now l item -> sample_delivery p now (l ++ l') item.
Proof.
  intros (b & x & a & v & prev & k & ti & bo & -> & ?). exists b, x, (a ++ l'), v, prev, k, ti, bo.
  by rewrite <- app_assoc.
Qed.

Definition sample_run (retained : bool) (now : Z) (p : Processor) (s : S) (l : list Sample) (st : Processor * S) : Prop :=
  epoch (fst st) = epoch p ∧
  (∀ key b, baselines (fst st) !! key = Some b ->
     baselines p !! key = Some b ∨
     (at_ b = now ∧ ∃ y, y ∈ l ∧ sample_key y = key ∧ Value y = Some (value b))) ∧
  (∀ item, item ∈ queued (snd st) -> item ∈ queued s ∨ (retained = false ∧ sample_delivery p now l item)).

Lemma saturated_window now t :
  (30 * 1000000000 <? saturate (now - t)) || (now <? t) = false -> t <= now <= t + 30 * 1000000000.
Proof. unfold saturate. intros Hw. bool_hyps. lia. Qed.

Lemma observe_sample_run retained now p s l x st :
  sample_run retained now p s l st ->
  sample_run retained now p s (l ++ [x]) (fst (observe_sample sha256 retained now x st)).
Proof.
  destruct st as [q t]. intros (He & Hb & Hi). cbn [fst snd] in *. unfold observe_sample.
  set (key := sample_key x).
  set (q1 := select x q).
  assert (Hq1 : epoch q1 = epoch q ∧ ∀ k b, baselines q1 !! k = Some b -> baselines q !! k = Some b).
  { subst q1. unfold select. case_match; cbn; (split; [done|]); intros k b; [|done].
    by intros [_ ?]%lookup_delete_Some. }
  clearbody q1. destruct Hq1 as [He1 Hb1].
  assert (Hmono : ∀ k b, baselines q1 !! k = Some b -> baselines p !! k = Some b ∨
            (at_ b = now ∧ ∃ y, y ∈ l ++ [x] ∧ sample_key y = k ∧ Value y = Some (value b))).
  { intros k b Hk. destruct (Hb k b (Hb1 k b Hk)) as [|(Ht & y & Hy & ?)]; [by left|right].
    split; [done|]. exists y. rewrite elem_of_app. tauto. }
  assert (Hold : ∀ item, item ∈ queued t -> item ∈ queued s ∨ (retained = false ∧ sample_delivery p now (l ++ [x]) item)).
  { intros item Hin. destruct (Hi item Hin) as [|[? ?]]; [by left|right]. split; [done|]. by apply sample_delivery_app. }
  assert (Hdel : sample_run retained now p s (l ++ [x]) (with_baselines (delete key (baselines q1)) q1, t)).
  { split; [cbn; congruence|]. split; [|exact Hold]. cbn. intros k b [_ Hk]%lookup_delete_Some. by apply Hmono. }
  destruct (Value x) as [v|] eqn:Ev; [|exact Hdel].
  destruct (retained || negb (finite v)) eqn:Er; [exact Hdel|].
  apply orb_false_iff in Er as [Er Efin]. apply negb_false_iff in Efin.
  assert (Hins : ∀ t', (∀ item, item ∈ queued t' -> item ∈ queued s ∨ (retained = false ∧ sample_delivery p now (l ++ [x]) item)) ->
            sample_run retained now p s (l ++ [x]) (with_baselines (<[key := Baseline v now]> (baselines q1)) q1, t')).
  { intros t' Ht'. split; [cbn; congruence|]. split; [|exact Ht']. cbn. intros k b.
    rewrite lookup_insert_Some. intros [[<- <-]|[_ Hk]]; [|by apply Hmono]. right. split; [done|].
    exists x. rewrite elem_of_app, list_elem_of_singleton. tauto. }
  destruct (baselines q1 !! key) as [prev|] eqn:Ep; [|by apply Hins].
  destruct ((30 * 1000000000 <? saturate (now - at_ prev)) || (now <? at_ prev)) eqn:Ew; [by apply Hins|].
  apply saturated_window in Ew.
  destruct (transition (SampleKind x) (value prev) v) as [[kind title] body] eqn:Etr.
  destruct (String.eqb_spec kind "") as [|Hk]; [by apply Hins|].
  destruct (store_enqueue _ _ false t) as [t' err] eqn:Et. apply Hins. intros item Hin.
  replace t' with (fst (store_enqueue (payload_of sha256 kind "victron" key title body now now)
    (epoch (with_baselines (<[key := Baseline v now]> (baselines q1)) q1)) false t)) in Hin by (by rewrite Et).
  destruct (enqueue_adds _ _ _ _ _ Hin) as [?|(_ & Hp & Hep)]; [by apply Hold|].
  right. split; [done|]. exists l, x, [], v, (value prev), kind, title, body.
  repeat (split; [done|]). split; [cbn in Hep; congruence|].
  destruct (Hb key prev (Hb1 key prev Ep)) as [Hp0|(_ & Hy)]; [left|right; exact Hy].
  exists (at_ prev). by destruct prev.
Qed.

Lemma observe_cause (ob : Observation) (now : Z) (p p' : Processor) (s s' : S)
    (err : option push_error) (item : delivery) :
  Observe sha256 ob now (p, s) = ((p', s'), err) -> item ∈ queued s' -> (item ∉ queued s) ->
  connected p = true ∧ Retained ob = false ∧ ItemEpoch item = epoch p ∧
  ((∃ ns, Notifications ob = Some ns ∧ native_delivery (priming ob now p) p now ns item) ∨
   sample_delivery p now (Samples ob) item).
Proof.
  unfold Observe. cbn [fst]. destruct (connected p); cbn [negb]; [|intros; by simplify_eq].
  intros Hrun Hin Hnew. split; [done|].
  assert (Hnat : ∃ q t e, observe_natives sha256 ob now (p, s) = ((q, t), e) ∧ epoch q = epoch p ∧
            baselines q = baselines p ∧
            ∀ i, i ∈ queued t -> i ∈ queued s ∨
              (∃ ns, Notifications ob = Some ns ∧ native_delivery (priming ob now p) p now ns i)).
  { unfold observe_natives. cbn [fst]. destruct (Notifications ob) as [ns|].
    - destruct (each _ ns (p, s)) as [[q t] e] eqn:Ee.
      eapply each_run with (P := native_run (priming ob now p) now p s) in Ee
        as (l1 & l2 & -> & (Hq & _ & Hi) & _); [..|intros; by apply observe_native_run].
      + cbn [fst snd] in *. exists (match e with Some _ => q | None => with_primed (listed (l1 ++ l2) q) end), t, e.
        destruct e; rewrite Hq; (split; [done|]); (split; [done|]); (split; [done|]);
          (intros i Hit; destruct (Hi i Hit); [by left|right]; eexists; split; [done|by apply native_delivery_app]).
      + split; [by destruct p|]. split; [done|]. by left.
    - exists p, s, None. repeat (split; [done|]). by left. }
  destruct Hnat as (q & t & e & Eq & Hep & Hbl & Hi). rewrite Eq in Hrun.
  assert (Hnd : ∀ ns i, native_delivery (priming ob now p) p now ns i -> Retained ob = false ∧ ItemEpoch i = epoch p).
  { intros ns i (b & n & a & _ & Hp & _ & _ & _ & He). split; [|done].
    unfold priming in Hp. by apply orb_false_iff in Hp as [_ ?]. }
  assert (Hfrom : item ∈ queued t -> Retained ob = false ∧ ItemEpoch item = epoch p ∧
      ((∃ ns, Notifications ob = Some ns ∧ native_delivery (priming ob now p) p now ns item) ∨
       sample_delivery p now (Samples ob) item)).
  { intros Ht. destruct (Hi item Ht) as [|(ns & Hns & Hd)]; [done|]. destruct (Hnd ns item Hd).
    split; [done|]. split; [done|]. left. by exists ns. }
  destruct e as [e|]; [simplify_eq; by apply Hfrom|].
  unfold observe_samples in Hrun. destruct (each _ (Samples ob) (q, t)) as [[q2 t2] e2] eqn:Ee.
  eapply each_run with (P := sample_run (Retained ob) now q t) in Ee
    as (l1 & l2 & Hl & (_ & _ & Hs) & _); [..|intros; by apply observe_sample_run].
  - assert (t2 = s') as -> by (by destruct e2; simplify_eq). cbn [snd] in Hs.
    destruct (Hs item Hin) as [|[Hr Hd]]; [by apply Hfrom|].
    apply (sample_delivery_app q now l1 l2) in Hd. rewrite <- Hl in Hd.
    destruct Hd as (b & x & a & v & prev & k & ti & bo & Hd). rewrite Hbl, Hep in Hd.
    split; [done|]. split; [tauto|]. right. by exists b, x, a, v, prev, k, ti, bo.
  - split; [done|]. split; [by left|]. by left.
Qed.

(** C22: Every delivery that an observation adds to the queue has a cause in it: a
    dated, severe and current notification that was observed outside the
    priming phase and was not known before without a date, or a sample that
    crosses a threshold against a finite reading at most thirty seconds old.
    A disconnected processor or a retained observation adds nothing. *)
Theorem observe_admits (ob : Observation) (now : Z) (p p' : Processor) (s s' : S)
    (err : option push_error) (item : delivery) :
  Observe sha256 ob now (p, s) = ((p', s'), err) -> item ∈ queued s' -> (item ∉ queued s) ->
  connected p = true ∧ Retained ob = false ∧ ItemEpoch item = epoch p ∧
  ((∃ ns, Notifications ob = Some ns ∧ native_delivery (priming ob now p) p now ns item) ∨
   sample_delivery p now (Samples ob) item).
Proof. exact (observe_cause ob now p p' s s' err item). Qed.
End admission.

(** ** Baselines *)

(** The calls of the service. *)
Inductive request : Type :=
| ReqReset (id : option string) (src : string) (conn : bool) (now : Z)
| ReqObserve (ob : Observation) (now : Z).

Section baselines.
Variable sha256 : string -> string.
Context {S : Type} `{EventStore S}.

Definition serve (st : Processor * S) (r : request) : Processor * S :=
  match r with
  | ReqReset id src conn now => fst (Reset id src conn now st)
  | ReqObserve ob now => fst (Observe sha256 ob now st)
  end.

Definition tracked (p : Processor) : Prop :=
  (∀ key b, baselines p !! key = Some b -> finite (value b) = true ∧
     ∃ kind id, key = kind +:+ ":" +:+ id ∧ selected p !! kind = Some key) ∧
  (∀ kind, selected p !! kind ≠ Some "").

Lemma sample_key_nonempty x : sample_key x ≠ "".
Proof.
  intros E. apply (f_equal String.length) in E. unfold sample_key in E.
  rewrite !length_append in E. simpl in E. lia.
Qed.

Lemma tracked_same p q :
  tracked p -> baselines q = baselines p -> selected q = selected p -> tracked q.
Proof. unfold tracked. by intros ? -> ->. Qed.

Lemma tracked_subset p m : tracked p -> m ⊆ baselines p -> tracked (with_baselines m p).
Proof. intros [Hb Hs] Hm. split; [|done]. intros key b Hk. apply Hb. by eapply lookup_weaken. Qed.

Lemma tracked_select x p :
  tracked p -> tracked (select x p).
Proof.
  intros [Hb Hs]. assert (Hsel' : selected (select x p) = <[SampleKind x := sample_key x]> (selected p)).
  { unfold select. by case_match. }
  split; rewrite Hsel'; clear Hsel'.
  - intros key b Hk. unfold select in Hk. cbn [with_selected baselines] in Hk.
    assert (Hk0 : baselines p !! key = Some b ∧
              (selected p !! SampleKind x = Some key -> key = sample_key x)).
    { destruct (negb _ && negb _) eqn:E; cbn in Hk.
      - apply lookup_delete_Some in Hk as [Hne Hk]. split; [done|]. intros Es. by rewrite Es in Hne.
      - split; [done|]. intros Es. rewrite Es in E. cbn in E.
        destruct (String.eqb_spec key "") as [->|]; [by destruct (Hs (SampleKind x))|].
        by destruct (String.eqb_spec key (sample_key x)). }
    destruct Hk0 as [Hk0 Hsel]. destruct (Hb key b Hk0) as (Hf & kind & id & Hkey & Hks).
    split; [done|]. exists kind, id. split; [done|]. rewrite lookup_insert_Some.
    destruct (decide (SampleKind x = kind)) as [<-|]; [left|by right]. by rewrite (Hsel Hks).
  - intros kind. rewrite lookup_insert_Some. intros [[_ E]|[_ E]]; [by eapply sample_key_nonempty|by eapply Hs].
Qed.

Lemma tracked_sample retained now x st :
  tracked (fst st) -> tracked (fst (fst (observe_sample sha256 retained now x st))).
Proof.
  destruct st as [p s]. cbn [fst]. intros Ht%(tracked_select x). unfold observe_sample.
  set (q := select x p) in *.
  assert (Hdel : tracked (with_baselines (delete (sample_key x) (baselines q)) q)).
  { apply tracked_subset; [done|]. apply delete_subseteq. }
  destruct (Value x) as [v|]; [|exact Hdel].
  destruct (retained || negb (finite v)) eqn:E; [exact Hdel|].
  apply orb_false_iff in E as [_ E]. apply negb_false_iff in E.
  assert (Hins : tracked (with_baselines (<[sample_key x := Baseline v now]> (baselines q)) q)).
  { destruct Ht as [Hb Hs]. split; [|done]. intros key b. cbn [with_baselines baselines selected].
    rewrite lookup_insert_Some. intros [[<- <-]|[_ Hk]]; [|by apply Hb]. split; [done|].
    exists (SampleKind x), (SampleID x). split; [done|]. cbn. by rewrite lookup_insert_eq. }
  clearbody q. repeat case_match; exact Hins.
Qed.

Lemma each_keeps {A St} (f : A -> St -> St * option push_error) (P : St -> Prop) l st :
  P st -> (∀ x st, P st -> P (fst (f x st))) -> P (fst (each f l st)).
Proof.
  intros H0 Hs. destruct (each f l st) as [st' err] eqn:E.
  apply each_run with (P := fun _ => P) in E as (_ & _ & _ & HP & _); auto.
Qed.

Lemma tracked_native prime now n st :
  tracked (fst st) -> tracked (fst (fst (observe_native sha256 prime now n st))).
Proof.
  destruct st as [p s]. unfold observe_native. intros Ht.
  repeat case_match; simplify_eq; cbn; try exact Ht; by eapply tracked_same.
Qed.

(** Whatever is observed, in whatever order and with whatever failures of the
    store: a baseline is a finite reading of the source that is currently
    selected for its kind, so two sources of one kind never share a history. *)
Theorem baselines_follow_selection (rs : list request) (s : S) (key : string) (b : baseline) :
  let p := fst (foldl serve (NewProcessor, s) rs) in
  baselines p !! key = Some b ->
  finite (value b) = true ∧ ∃ kind id, key = kind +:+ ":" +:+ id ∧ selected p !! kind = Some key.
Proof.
  intros p. enough (Ht : tracked p) by apply Ht. subst p.
  assert (H0 : tracked (fst (NewProcessor, s))).
  { split; [intros ? ? E|intros ? E]; cbn in E; by rewrite lookup_empty in E. }
  revert H0. generalize (NewProcessor, s). induction rs as [|r rs IH]; intros st Ht; [exact Ht|].
  cbn [foldl]. apply IH. destruct r as [id src conn now|ob now]; cbn [serve].
  - unfold Reset. destruct id as [e|]; [|exact Ht]. destruct (store_reset e (snd st)) as [s' [err|]]; [exact Ht|].
    split; [intros ? ? E|intros ? E]; cbn in E; by rewrite lookup_empty in E.
  - unfold Observe. destruct (negb _); [exact Ht|].
    assert (Hn : tracked (fst (fst (observe_natives sha256 ob now st)))).
    { unfold observe_natives. destruct (Notifications ob) as [ns|]; [|exact Ht].
      pose proof (each_keeps (observe_native sha256 (priming ob now (fst st)) now) (λ st, tracked (fst st)) ns st Ht
        (tracked_native _ _)) as Hk.
      destruct (each _ ns st) as [[q t] [err|]]; [exact Hk|]. by eapply tracked_same. }
    destruct (observe_natives sha256 ob now st) as [st1 [err|]]; [exact Hn|].
    unfold observe_samples.
    pose proof (each_keeps (observe_sample sha256 (Retained ob) now) (λ st, tracked (fst st)) (Samples ob) st1 Hn
      (tracked_sample _ _)) as Hk.
    destruct (each _ (Samples ob) st1) as [[q t] [err|]]; [exact Hk|]. cbn [fst] in *.
    destruct (Complete ob); [|exact Hk]. apply tracked_subset; [exact Hk|]. apply map_filter_subseteq.
Qed.
End baselines.

(** ** The durable store as the processor's store *)

Section durable.
Variable order : diskState -> list (string * storedSubscription).
Variable saved : Store -> bool.

#[local] Instance durable : EventStore Store := {
  store_reset e s := mutate (resetEpoch e) (saved s) s;
  store_enqueue payload e prime s := Enqueue payload e prime (order (data s)) (saved s) s;
  queued s := Queue (data s)
}.

Lemma mutate_data change ok s s' err :
  mutate change ok s = (s', err) -> data s' = data s ∨ change (data s) = Changed (data s').
Proof.
  unfold mutate. repeat case_match; intros ?; simplify_eq; auto.
Qed.

Lemma mutate_saved change s :
  closed s = false -> failed s = false ->
  mutate change true s =
  match change (data s) with
  | Refused e => (s, Some e)
  | Unchanged => (s, None)
  | Changed next => (MkStore next false false (filter (λ e, e.1 ∈ ID <$> Queue next) (active s)), None)
  end.
Proof. unfold mutate. by intros -> ->. Qed.

Lemma enqueue_new payload e prime ord d d' item :
  enqueue payload e prime ord d = Changed d' -> item ∈ Queue d' ->
  item ∈ Queue d ∨ (prime = false ∧ ∃ id, item = new_delivery payload e id).
Proof.
  unfold enqueue. destruct (negb _); [done|]. destruct (remember _ _) as [dd|]; [|done].
  destruct prime; [intros [= <-]; by left|]. destruct (enqueue_all _ _ _ _) as [q|] eqn:Eq; [|done].
  intros [= <-]. apply enqueue_all_spec in Eq as [-> _]. cbn. rewrite elem_of_app.
  intros [?|Hin]; [by left|right]. apply list_elem_of_fmap in Hin as ([id sub] & -> & _). split; [done|]. by exists id.
Qed.

#[local] Instance durable_laws : EventStoreLaws Store.
Proof.
  split.
  - intros e s s' Hr item. unfold store_reset, queued, durable, mutate in *.
    destruct (closed s || failed s); [done|]. cbn [resetEpoch] in Hr.
    unfold resetEpoch in Hr. destruct (saved s); cbn in Hr; [|done]. simplify_eq. cbn.
    intros Hin. apply list_elem_of_In, filter_In in Hin as [_ Hk]. by apply String.eqb_eq in Hk.
  - intros payload e prime s item. unfold store_enqueue, queued, durable, Enqueue.
    repeat (case_match; [by left|]).
    destruct (mutate _ (saved s) s) as [s' err] eqn:E. cbn. intros Hin.
    apply mutate_data in E as [E|E]; [rewrite E in Hin; by left|].
    destruct (enqueue_new _ _ _ _ _ _ _ E Hin) as [?|[Hp [id ->]]]; [by left|right]. done.
Qed.

Lemma enqueue_all_room payload e ord q :
  (length q + length ord <= maxPending)%nat -> is_Some (enqueue_all payload e ord q).
Proof.
  revert q; induction ord as [|[id sub] ord IH]; intros q Hl; cbn [enqueue_all length] in *; [by eexists|].
  destruct (negb _); [apply IH; lia|]. rewrite (proj2 (Nat.leb_gt _ _)) by lia.
  apply IH. rewrite length_app. cbn. lia.
Qed.

Variable sha256 : string -> string.
Hypothesis digest_length : ∀ s, String.length (sha256 s) = 32%nat.
Hypothesis order_all : ∀ d, order d ≡ₚ map_to_list (Subscriptions d).
Hypothesis disk_works : ∀ s, saved s = true.

Lemma native_payload_valid n now :
  0 < unix_milli (Timestamp n) < 2 ^ 63 -> 0 < unix_milli now < 2 ^ 63 ->
  persistedValid (native_payload sha256 n now) = true ∧ Kind (native_payload sha256 n now) = "native".
Proof.
  intros Ho Hn. unfold native_payload, payload_of.
  destruct (makePayload_made sha256 digest_length "native" (if String.eqb (NativeSource n) "victron" then "victron" else "system")
    (NativeID n) (NativeTitle n) (NativeBody n) (unix_milli (Timestamp n)) (unix_milli now))
    as (k & -> & Hv & _); [by case_match|done|done|done].
Qed.

(** A new notification that is fresh reaches the queue of every subscription
    that wants native events: nothing the processor checks beyond freshness
    stands in the way. *)
Theorem fresh_notification_queued (p : Processor) (s : Store) (n : Native) (now : Z) (retained complete : bool) :
  let ob := MkObservation (Some [n]) [] retained complete in
  connected p = true -> priming ob now p = false -> fresh_native sha256 p now n ->
  unknown p !! NativeID n ≠ Some (identity n) ->
  0 < unix_milli (Timestamp n) < 2 ^ 63 -> 0 < unix_milli now < 2 ^ 63 ->
  closed s = false -> failed s = false -> Epoch (data s) = epoch p ->
  EventKey (native_payload sha256 n now) ∉ Dedupe (data s) ->
  (length (Queue (data s)) + size (Subscriptions (data s)) <= maxPending)%nat ->
  ∃ p' s', Observe sha256 ob now (p, s) = ((p', s'), None) ∧
    ∀ id sub, Subscriptions (data s) !! id = Some sub -> allows (StoredPrefs sub) "native" = true ->
      new_delivery (native_payload sha256 n now) (epoch p) id ∈ Queue (data s').
Proof.
  intros ob Hc Hprime (Hz & Hlev & Hcur & Hstart) Hunk Ho Hn Hcl Hfa Hep Hded Hroom.
  set (payload := native_payload sha256 n now) in *.
  destruct (native_payload_valid n now Ho Hn) as [Hv Hkind]. fold payload in Hv, Hkind.
  destruct (enqueue_all_room payload (epoch p) (order (data s)) (Queue (data s))) as [q Eq].
  { rewrite (Permutation_length (order_all (data s))), length_map_to_list. exact Hroom. }
  destruct (remember (EventKey payload) (Dedupe (data s))) as [dd|] eqn:Er.
  2: { unfold remember in Er. by rewrite (proj2 (existsb_eqb_not _ _) Hded) in Er. }
  set (next := set_queue q (DiskState (Epoch (data s)) (Subscriptions (data s)) dd (Queue (data s)) (Tests (data s)))).
  assert (Henq : store_enqueue payload (epoch p) false s
            = (MkStore next false false (filter (λ e, e.1 ∈ ID <$> Queue next) (active s)), None)).
  { unfold store_enqueue, durable, Enqueue. rewrite (persistedValid_fits payload Hv), Hcl, Hfa, Hep, String.eqb_refl.
    rewrite (proj2 (existsb_eqb_not _ _) Hded). cbn [orb negb]. rewrite disk_works, mutate_saved by done.
    unfold enqueue. rewrite Hep, String.eqb_refl, Er. cbn [negb Queue]. rewrite Eq. by unfold next; rewrite Hep. }
  assert (Hobs : ∃ p', each (observe_native sha256 (priming ob now p) now) [n] (p, s)
            = ((p', MkStore next false false (filter (λ e, e.1 ∈ ID <$> Queue next) (active s))), None)).
  { rewrite Hprime. cbn [each]. unfold observe_native.
    set (p1 := match unknown p !! NativeID n with Some _ => _ | None => p end).
    assert (Hp1 : epoch p1 = epoch p ∧ start p1 = start p ∧ unknown p1 !! NativeID n = None).
    { unfold p1. destruct (unknown p !! NativeID n) as [old|] eqn:E; [|done].
      destruct (String.eqb_spec old (identity n)) as [->|]; [done|]. cbn. by rewrite lookup_delete_eq. }
    clearbody p1. destruct Hp1 as (He1 & Hs1 & Hu1). rewrite Hu1, He1, Hs1. cbn [default].
    rewrite (proj2 (Z.eqb_neq _ _) Hz). fold payload. rewrite Hcur.
    replace (String.eqb "" (identity n)) with false by (unfold identity; by destruct (NativeTitle n)).
    replace (negb (String.eqb (Level n) "warning") && negb (String.eqb (Level n) "error")) with false
      by (by destruct Hlev as [-> | ->]).
    rewrite (proj2 (Z.ltb_ge _ _) Hstart). cbn [orb negb]. rewrite Henq. by eexists. }
  destruct Hobs as [p' Hobs]. eexists _, _. split.
  - unfold Observe, observe_natives. cbn [fst]. rewrite Hc. cbn [negb Notifications ob]. rewrite Hobs.
    unfold observe_samples. cbn [Samples ob each]. reflexivity.
  - intros id sub Hl Ha. cbn [data next set_queue Queue]. apply enqueue_all_spec in Eq as [-> _].
    apply elem_of_app. right. apply list_elem_of_fmap. exists (id, sub). split; [done|].
    apply list_elem_of_In, filter_In. cbn [snd]. rewrite Hkind. split; [|done].
    apply list_elem_of_In. rewrite order_all. by apply elem_of_map_to_list.
Qed.
End durable.

(** ** Concrete runs *)

Definition map_order (d : diskState) : list (string * storedSubscription) := map_to_list (Subscriptions d).
Definition disk_ok (s : Store) : bool := true.

#[local] Instance sample_durable : EventStore Store := durable map_order disk_ok.
#[local] Instance sample_durable_laws : EventStoreLaws Store := durable_laws map_order disk_ok.

Definition sample_native : Native := MkNative "slot" "victron" "warning" "Alarm" "Device" 59000000000.
Definition sample_processor : Processor := MkProcessor "e1" "gateway" 50000000000 true true ∅ ∅ ∅.
Definition sample_subscribed : Store :=
  MkStore (DiskState "e1" {["https://push.example/1" := Stored sample_subscription DefaultPreferences 0]} [] [] [])
          false false ∅.
Definition sample_observation : Observation := MkObservation (Some [sample_native]) [] false false.
Definition sample_item : delivery :=
  new_delivery (native_payload sample_sha256 sample_native 60000000000) "e1" "https://push.example/1".

Lemma observe_admits_witness :
  connected sample_processor = true ∧ Retained sample_observation = false ∧
  ItemEpoch sample_item = epoch sample_processor ∧
  ((∃ ns, Notifications sample_observation = Some ns ∧
      native_delivery sample_sha256 (priming sample_observation 60000000000 sample_processor) sample_processor
        60000000000 ns sample_item) ∨
   sample_delivery sample_sha256 sample_processor 60000000000 (Samples sample_observation) sample_item).
Proof.
  apply (observe_admits sample_sha256 sample_observation 60000000000 sample_processor
    (fst (fst (Observe sample_sha256 sample_observation 60000000000 (sample_processor, sample_subscribed))))
    sample_subscribed
    (snd (fst (Observe sample_sha256 sample_observation 60000000000 (sample_processor, sample_subscribed))))
    None).
  - vm_compute. reflexivity.
  - apply list_elem_of_In. vm_compute. left. reflexivity.
  - apply not_elem_of_nil.
Defined.

Definition pump_reading (id : string) (v : Z) : Sample := MkSample "pump" id (Some (F64.of_Z v)).
Definition sample_requests : list request :=
  [ReqReset (Some "e1") "gateway" true 0;
   ReqObserve (MkObservation None [pump_reading "a" 0] false false) 1000000000;
   ReqObserve (MkObservation None [pump_reading "b" 1] false false) 2000000000].

Lemma baselines_follow_selection_witness :
  let p := fst (foldl (serve sample_sha256) (NewProcessor, sample_subscribed) sample_requests) in
  baselines p !! "pump:a" = None ∧
  finite (F64.of_Z 1) = true ∧ ∃ kind id, "pump:b" = kind +:+ ":" +:+ id ∧ selected p !! kind = Some "pump:b".
Proof.
  intros p. split; [vm_compute; reflexivity|].
  apply (baselines_follow_selection sample_sha256 sample_requests sample_subscribed "pump:b"
    (Baseline (F64.of_Z 1) 2000000000)).
  vm_compute. reflexivity.
Defined.

Lemma fresh_notification_queued_witness :
  ∃ p' s', Observe sample_sha256 sample_observation 60000000000 (sample_processor, sample_subscribed)
           = ((p', s'), None) ∧
    ∀ id sub, Subscriptions (data sample_subscribed) !! id = Some sub -> allows (StoredPrefs sub) "native" = true ->
      new_delivery (native_payload sample_sha256 sample_native 60000000000) (epoch sample_processor) id
        ∈ Queue (data s').
Proof.
  apply (fresh_notification_queued map_order disk_ok sample_sha256 ltac:(intros; reflexivity) ltac:(intros; reflexivity)
    ltac:(intros; reflexivity) sample_processor sample_subscribed sample_native 60000000000 false false);
    try reflexivity; try (vm_compute; split; reflexivity).
  - split; [discriminate|]. split; [left; reflexivity|]. split; [vm_compute; reflexivity|]. vm_compute. discriminate.
  - vm_compute. discriminate.
  - apply not_elem_of_nil.
  - apply Nat.leb_le. vm_compute. reflexivity.
Defined.
