(* ===== verification/PushDispatcher.v ===== *)
(** * The push dispatcher

    [Dispatcher] of [internal/push/sender.go] on the store of [PushStore]: the
    loop that takes due deliveries, its workers, and the subscribers and events
    that change the store in the meantime.  A step is one critical section or
    one network request; the outcomes of saving, of the network and of time are
    in the labels. *)

From Stdlib Require Import ZArith String Lia.
From stdpp Require Import base list option strings gmap fin_maps.
From S2P Require Import Prelude PushPayload PushStore.

#[local] Open Scope string_scope.
#[local] Open Scope list_scope.
#[local] Open Scope Z_scope.

(** ** State *)

(** Where a worker is in [deliver]: before [current]; before its context is
    registered; before the request; with the outcome of the request, before
    [finish]; before its deferred clean-up. *)
Inductive worker_pc : Type :=
| AtCurrent
| AtRegister
| AtRequest
| AtFinish (status : Z) (transient : bool)
| AtCleanup.

(** [todo] is what the loop has left of the last [pending]; [sent] logs the
    requests that reached the network, with the attempt they were. *)
Record Dispatcher := MkDispatcher {
  store : Store;
  inflight : list string;
  workers : list (delivery * worker_pc);
  todo : list delivery;
  stopped : bool;
  sent : list (string * Z)
}.

Definition with_store (s : Store) (d : Dispatcher) : Dispatcher :=
  MkDispatcher s (inflight d) (workers d) (todo d) (stopped d) (sent d).

Definition set_active (f : gmap string bool -> gmap string bool) (s : Store) : Store :=
  MkStore (data s) (closed s) (failed s) (f (active s)).

(** The worker's context: alive while its registration is neither cancelled nor
    removed and the dispatcher runs. *)
Definition alive (id : string) (d : Dispatcher) : bool :=
  negb (stopped d) && negb (default true (active (store d) !! id)).

(** ** Steps *)

Inductive label : Type :=
| Tick (now : Z) (saved : bool)
| Take
| Current (i : nat) (now : Z)
| RegisterWorker (i : nat) (expired : bool)
| Request (i : nat) (now : Z) (expired : bool) (status : Z) (error : bool)
| RequestFails (i : nat)
| Finish (i : nat) (now : Z) (saved : bool)
| Cleanup (i : nat)
| StoreCall (op : operation) (saved : bool)
| StopDispatcher
| CloseStore.

(** [transient] of [deliver]. *)
Definition transient_status (status : Z) (error : bool) : bool :=
  error || (status =? 429) || (500 <=? status).

Definition set_worker (i : nat) (item : delivery) (pc : worker_pc) (d : Dispatcher) : Dispatcher :=
  MkDispatcher (store d) (inflight d) (<[i := (item, pc)]> (workers d)) (todo d) (stopped d) (sent d).

Section dispatcher.
Variable subscriptionID : string -> string.

(** One turn of the loop body of [run]. *)
Definition take (d : Dispatcher) : Dispatcher :=
  match todo d with
  | [] => d
  | item :: rest =>
      if Nat.leb 2 (length (inflight d)) then
        MkDispatcher (store d) (inflight d) (workers d) [] (stopped d) (sent d)
      else if existsb (String.eqb (ID item)) (inflight d) then
        MkDispatcher (store d) (inflight d) (workers d) rest (stopped d) (sent d)
      else
        MkDispatcher (store d) (ID item :: inflight d) (workers d ++ [(item, AtCurrent)]) rest (stopped d) (sent d)
  end.

(** The next critical section of worker [i], of [deliver] and of the goroutine
    around it. *)
Definition worker_step (l : label) (d : Dispatcher) : option Dispatcher :=
  match l with
  | Current i now =>
      match workers d !! i with
      | Some (item, AtCurrent) =>
          Some (match current_delivery item now (store d) with
                | None => set_worker i item AtCleanup d
                | Some _ =>
                    if stopped d then set_worker i item AtCleanup d
                    else if Nat.ltb maxPayloadBytes (String.length (marshal (ItemPayload item)))
                    then set_worker i item (AtFinish 400 false) d
                    else set_worker i item AtRegister d
                end)
      | _ => None
      end
  | RegisterWorker i expired =>
      match workers d !! i with
      | Some (item, AtRegister) =>
          Some (set_worker i item (if expired then AtCleanup else AtRequest)
                  (with_store (set_active (<[ID item := false]>) (store d)) d))
      | _ => None
      end
  | Request i now expired status error =>
      match workers d !! i with
      | Some (item, AtRequest) =>
          Some (match current_delivery item now (store d) with
                | Some _ =>
                    if alive (ID item) d && negb expired then
                      let d' := set_worker i item (AtFinish (if error then 0 else status)
                                                            (transient_status (if error then 0 else status) error)) d in
                      MkDispatcher (store d') (inflight d') (workers d') (todo d') (stopped d')
                                   (sent d ++ [(ID item, Attempts item)])
                    else set_worker i item (AtFinish 0 true) d
                | None => set_worker i item (AtFinish 0 true) d
                end)
      | _ => None
      end
  | RequestFails i =>
      match workers d !! i with
      | Some (item, AtRequest) => Some (set_worker i item (AtFinish 0 true) d)
      | _ => None
      end
  | Finish i now saved =>
      match workers d !! i with
      | Some (item, AtFinish status transient) =>
          Some (set_worker i item AtCleanup
                  (with_store (fst (mutate (finish item status transient now) saved (store d))) d))
      | _ => None
      end
  | Cleanup i =>
      match workers d !! i with
      | Some (item, AtCleanup) =>
          Some (MkDispatcher (set_active (delete (ID item)) (store d))
                  (List.filter (λ id, negb (String.eqb id (ID item))) (inflight d))
                  (delete i (workers d)) (todo d) (stopped d) (sent d))
      | _ => None
      end
  | _ => None
  end.

(** The mutations of subscribers and of the processor; [pending] and [finish]
    are the dispatcher's own. *)
Definition is_external (op : operation) : bool :=
  match op with OpPending _ | OpFinish _ _ _ _ => false | _ => true end.

Definition exec (l : label) (d : Dispatcher) : option Dispatcher :=
  match l with
  | Tick now saved =>
      match todo d with
      | [] =>
          if stopped d then None
          else let '(s, items) := pending now saved (store d) in
               Some (MkDispatcher s (inflight d) (workers d) items (stopped d) (sent d))
      | _ => None
      end
  | Take => Some (take d)
  | StoreCall op saved =>
      if is_external op then Some (with_store (call subscriptionID (store d) (op, saved)) d) else None
  | StopDispatcher => Some (MkDispatcher (store d) (inflight d) (workers d) (todo d) true (sent d))
  | CloseStore =>
      Some (with_store (MkStore (data (store d)) true (failed (store d)) ((λ _, true) <$> active (store d))) d)
  | l => worker_step l d
  end.
End dispatcher.

(** Distinct attempts of one delivery, each less than three, are at most
    three. *)
Lemma attempts_bound id (log : list (string * Z)) :
  NoDup log -> Forall (λ e, 0 <= e.2 < 3) log ->
  (length (List.filter (λ e, String.eqb e.1 id) log) <= 3)%nat.
Proof.
  intros Hn H3. set (l := List.filter _ log).
  assert (Hsub : l ⊆ [(id, 0); (id, 1); (id, 2)]).
  { intros [id' j] Hin. apply list_elem_of_In, filter_In in Hin as [Hin Eid]. apply list_elem_of_In in Hin.
    cbn in Eid. apply String.eqb_eq in Eid as ->. rewrite Forall_forall in H3. specialize (H3 _ Hin). cbn in H3.
    rewrite !elem_of_cons. assert (j = 0 ∨ j = 1 ∨ j = 2) as [->|[->| ->]] by lia; auto. }
  assert (Hl : NoDup l).
  { eapply sublist_NoDup; [exact Hn|apply filter_sublist]. }
  change 3%nat with (length [(id, 0); (id, 1); (id, 2)]).
  apply submseteq_length, NoDup_submseteq; [exact Hl|exact Hsub].
Qed.

(** ** Invariant *)

Section invariant.
Variable subscriptionID : string -> string.

(** The payload an operation would queue has a key that was not sent: event
    keys are remembered in [Dedupe] and test keys are digests of random
    identifiers. *)
Definition key_unsent (payload : Payload) (d : Dispatcher) : Prop :=
  ∀ e sub, e ∈ sent d -> e.1 ≠ EventKey payload +:+ ":" +:+ sub.

Definition allowed (l : label) (d : Dispatcher) : Prop :=
  match l with
  | StoreCall op _ =>
      proper op (data (store d)) ∧
      match op with
      | OpEnqueue payload _ _ _ | OpQueueTest payload _ _ => key_unsent payload d
      | _ => True
      end
  | _ => True
  end.

Inductive reachable (d0 : Dispatcher) : Dispatcher -> Prop :=
| reach_start : reachable d0 d0
| reach_step d l d' : reachable d0 d -> allowed l d -> exec subscriptionID l d = Some d' -> reachable d0 d'.

(** A logged attempt is over for the queue: what is queued under its identity
    is a later attempt, or the worker that sent it has not finished yet. *)
Definition spent (log : list (string * Z)) (ws : list (delivery * worker_pc)) (q : list delivery) : Prop :=
  ∀ id j x, (id, j) ∈ log -> x ∈ q -> ID x = id ->
    j < Attempts x ∨
    (Attempts x = j ∧ ∃ item status transient, (item, AtFinish status transient) ∈ ws ∧ ID item = id ∧ Attempts item = j).

Definition out (s : Store) : bool := closed s || failed s.

Record ok (d : Dispatcher) : Prop := {
  ok_valid : valid subscriptionID (data (store d));
  ok_workers : NoDup (ID <$> (workers d).*1);
  ok_inflight : inflight d ≡ₚ ID <$> (workers d).*1;
  ok_few : (length (workers d) <= 2)%nat;
  ok_attempts : ∀ item, item ∈ todo d ∨ item ∈ (workers d).*1 -> 0 <= Attempts item < 3;
  ok_log : NoDup (sent d) ∧ Forall (λ e, 0 <= e.2 < 3) (sent d);
  ok_spent : out (store d) = true ∨ spent (sent d) (workers d) (Queue (data (store d)))
}.

(** A worker goes on while the store keeps its data. *)
Lemma ok_goes_on d i item pc pc' s :
  ok d -> workers d !! i = Some (item, pc) -> data s = data (store d) -> out s = out (store d) ->
  (∀ status transient, pc ≠ AtFinish status transient) ->
  ok (set_worker i item pc' (with_store s d)).
Proof.
  intros [Hv Hw Hin Hf Ha Hl Hs] Hi Ed Eo Hpc.
  assert (Hk : (<[i := (item, pc')]> (workers d)).*1 = (workers d).*1) by (by eapply fmap_update).
  constructor; cbn; rewrite ?Hk, ?Ed; try done.
  - by rewrite length_insert.
  - rewrite Eo. destruct Hs as [?|Hs]; [by left|right]. intros id j x Hlog Hx E.
    destruct (Hs id j x Hlog Hx E) as [?|(Hj & it & st & tr & Hin' & ?)]; [by left|right]. split; [done|].
    exists it, st, tr. split; [|done]. eapply update_keeps; [exact Hi|exact Hin'|]. intros [= _ E']. by eapply Hpc, eq_sym.
Qed.

(** A change of the store that queues nothing again. *)
Lemma ok_store d s :
  ok d -> valid subscriptionID (data s) -> (out (store d) = true -> out s = true) ->
  (out s = false -> ∀ x, x ∈ Queue (data s) -> x ∈ Queue (data (store d)) ∨ ∀ e, e ∈ sent d -> e.1 ≠ ID x) ->
  ok (with_store s d).
Proof.
  intros [Hv Hw Hin Hf Ha Hl Hs] Hv' Ho Hq. constructor; cbn; try done.
  destruct (out s) eqn:E; [by left|right]. destruct Hs as [Hs|Hs]; [exfalso; specialize (Ho Hs); congruence|].
  intros id j x Hlog Hx Eid. destruct (Hq eq_refl x Hx) as [Hold|Hnew]; [by apply Hs|].
  exfalso. apply (Hnew (id, j) Hlog). by rewrite Eid.
Qed.

Lemma mutate_cases change saved s s' :
  fst (mutate change saved s) = s' ->
  (data s' = data s ∧ (out s = true -> out s' = true)) ∨ (out s = false ∧ out s' = false ∧ change (data s) = Changed (data s')).
Proof.
  intros <-. unfold mutate, out. destruct (closed s || failed s) eqn:E; [by left|].
  destruct (change (data s)) as [e| |next]; [by left|by left|].
  destruct saved; cbn; [right|left; done]. by rewrite E.
Qed.

(** What an outside mutation queues is old, or a delivery of its payload. *)
Lemma external_queue op d d' x :
  is_external op = true -> change_of subscriptionID op d = Changed d' -> x ∈ Queue d' ->
  x ∈ Queue d ∨ match op with
                | OpEnqueue payload _ _ _ | OpQueueTest payload _ _ => ∃ sub, ID x = EventKey payload +:+ ":" +:+ sub
                | _ => False
                end.
Proof.
  assert (Hfilter : ∀ (f : delivery -> bool) q, x ∈ List.filter f q -> x ∈ q).
  { intros f q H. apply list_elem_of_In, filter_In in H as [H _]. by apply list_elem_of_In. }
  destruct op; cbn [change_of is_external]; try done; intros _ H Hx.
  - unfold register in H. left. destruct (Subscriptions d !! _); [case_decide; [|done]|case_match; [done|]];
      injection H as <-; by apply Hfilter in Hx.
  - unfold remove in H. left. destruct (Subscriptions d !! _); [|done]. injection H as <-. by apply Hfilter in Hx.
  - injection H as <-. left. by apply Hfilter in Hx.
  - unfold enqueue in H. destruct (negb _); [done|]. destruct (remember _ _); [|done].
    destruct prime; [injection H as <-; by left|]. destruct (enqueue_all _ _ _ _) as [q|] eqn:Eq; [|done].
    injection H as <-. apply enqueue_all_spec in Eq as [-> _]. cbn in Hx. apply elem_of_app in Hx as [?|Hx]; [by left|right].
    apply list_elem_of_fmap in Hx as ([id sub] & -> & _). by exists id.
  - unfold queueTest in H. destruct (Subscriptions d !! _); [|done]. destruct (Nat.leb _ _); [done|].
    destruct (_ || _); [done|]. injection H as <-. cbn in Hx. apply elem_of_app in Hx as [?|Hx]; [by left|right].
    apply list_elem_of_singleton in Hx as ->. by eexists.
Qed.

Lemma ok_external d op saved :
  ok d -> is_external op = true -> allowed (StoreCall op saved) d ->
  ok (with_store (call subscriptionID (store d) (op, saved)) d).
Proof.
  intros O He [Hp Hk]. unfold call. cbn [fst snd]. destruct (mutate _ saved (store d)) as [s err] eqn:Em. cbn [fst].
  assert (Es : fst (mutate (change_of subscriptionID op) saved (store d)) = s) by by rewrite Em.
  apply mutate_cases in Es as [[Ed Ho]|(Ho & Ho' & Hc)].
  - apply ok_store; [done|rewrite Ed; apply O|done|]. intros _ x. rewrite Ed. by left.
  - apply ok_store; [done| |by rewrite Ho|].
    + eapply valid_change; [apply O|exact Hp|exact Hc].
    + intros _ x Hx. destruct (external_queue _ _ _ _ He Hc Hx) as [?|Hnew]; [by left|right].
      intros e Hin. destruct op; try done; destruct Hnew as [sub ->]; by apply Hk.
Qed.

Lemma pending_item_attempts s now item :
  valid subscriptionID (data s) -> item ∈ pending_items now (data s) -> 0 <= Attempts item < 3.
Proof.
  intros V Hin. unfold pending_items in Hin. apply list_elem_of_In, filter_In in Hin as [Hin _].
  apply filter_In in Hin as [Hin Hr]. apply list_elem_of_In in Hin.
  destruct (valid_queue _ _ V) as (_ & H & _). rewrite Forall_forall in H. destruct (H item Hin) as [_ _ _ Ha].
  unfold retained in Hr. bool_hyps. lia.
Qed.

Lemma ok_tick d now saved s items :
  ok d -> pending now saved (store d) = (s, items) ->
  ok (MkDispatcher s (inflight d) (workers d) items (stopped d) (sent d)).
Proof.
  intros O H. unfold pending in H. destruct (mutate (pending_change now) saved (store d)) as [s1 err] eqn:Em. 
  assert (Es : fst (mutate (pending_change now) saved (store d)) = s1) by by rewrite Em.
  assert (O1 : ok (with_store s1 d)).
  { apply mutate_cases in Es as [[Ed Ho]|(Ho & Ho' & Hc)].
    - apply ok_store; [done|rewrite Ed; apply O|done|]. intros _ x. rewrite Ed. by left.
    - apply ok_store; [done|by eapply valid_pending; [apply O|]|by rewrite Ho|]. intros _ x Hx. left.
      unfold pending_change in Hc. destruct (Nat.eqb _ _); [done|]. unfold set_queue in Hc.
      assert (Eq : Queue (data s1) = List.filter (retained now (data (store d))) (Queue (data (store d)))) by (by injection Hc as <-).
      rewrite Eq in Hx. apply list_elem_of_In, filter_In in Hx as [Hx _]. by apply list_elem_of_In. }
  injection H as <- <-. destruct O1 as [Hv Hw Hin Hf Ha Hl Hs]. constructor; try done. cbn in *.
  intros item [Hi|Hi]; [|apply Ha; by right]. destruct err; [by apply elem_of_nil in Hi|].
  eapply pending_item_attempts; [apply O|exact Hi].
Qed.

Lemma ok_take d : ok d -> ok (take d).
Proof.
  intros O. pose proof O as [Hv Hw Hin Hf Ha Hl Hs]. unfold take. destruct (todo d) as [|item rest] eqn:Et; [done|].
  destruct (Nat.leb_spec 2 (length (inflight d))) as [|Hlt].
  { constructor; cbn; try done. intros x [Hx|Hx]; [by apply elem_of_nil in Hx|apply Ha; by right]. }
  destruct (existsb _ _) eqn:Ex.
  { constructor; cbn; try done. intros x [Hx|Hx]; apply Ha; [left; by right|by right]. }
  apply existsb_eqb_not in Ex. rewrite Hin in Ex.
  constructor; cbn; try done; rewrite ?fmap_app.
  - apply NoDup_app. split; [done|]. split; [|apply NoDup_singleton]. intros y Hy Hs'. cbn in Hs'.
    apply list_elem_of_singleton in Hs'. by subst.
  - rewrite Hin. cbn. by rewrite Permutation_cons_append.
  - rewrite length_app. cbn. rewrite Hin, !length_fmap in Hlt. lia.
  - intros x [Hx|Hx]; [apply Ha; left; by right|]. apply elem_of_app in Hx as [Hx|Hx]; [apply Ha; by right|].
    cbn in Hx. apply list_elem_of_singleton in Hx as ->. apply Ha. left. left.
  - destruct Hs as [?|Hs]; [by left|right]. intros id j x Hlog Hx E.
    destruct (Hs id j x Hlog Hx E) as [?|(Hj & it & st & tr & Hin' & ?)]; [by left|right]. split; [done|].
    exists it, st, tr. rewrite elem_of_app. auto.
Qed.

Lemma current_delivery_queued item now s sub :
  current_delivery item now s = Some sub ->
  out s = false ∧ ∃ x, x ∈ Queue (data s) ∧ ID x = ID item ∧ Attempts x = Attempts item.
Proof.
  unfold current_delivery, out. destruct (closed s || failed s); [done|]. unfold dispatchable. intros H. split; [done|].
  repeat case_match; try done. match goal with G : existsb _ _ = true |- _ => apply existsb_exists in G as (x & Hx & G) end.
  unfold same_attempt in *. bool_hyps. exists x. split; [by apply list_elem_of_In|done].
Qed.

Lemma worker_item d i item pc : workers d !! i = Some (item, pc) -> item ∈ (workers d).*1.
Proof. intros H. apply list_elem_of_fmap. exists (item, pc). split; [done|]. apply list_elem_of_lookup. by exists i. Qed.

(** Two entries with the same identity are the same worker. *)
Lemma same_worker d i item pc item' pc' :
  ok d -> workers d !! i = Some (item, pc) -> (item', pc') ∈ workers d -> ID item' = ID item ->
  item' = item ∧ pc' = pc.
Proof.
  intros O Hi Hin E. apply list_elem_of_lookup in Hin as [j Hj].
  assert (i = j) as <-.
  { eapply NoDup_lookup; [apply (ok_workers d O)| |]; rewrite !list_lookup_fmap; [by rewrite Hi|].
    rewrite Hj. cbn. by rewrite E. }
  rewrite Hi in Hj. by injection Hj as -> ->.
Qed.

(** The request: it was not sent before, and the worker now answers for it. *)
Lemma ok_request d i item now sub status transient :
  ok d -> workers d !! i = Some (item, AtRequest) -> current_delivery item now (store d) = Some sub ->
  ok (MkDispatcher (store d) (inflight d) (<[i := (item, AtFinish status transient)]> (workers d)) (todo d)
        (stopped d) (sent d ++ [(ID item, Attempts item)])).
Proof.
  intros O Hi Hc. apply current_delivery_queued in Hc as (Hout & x & Hx & Eid & Eat).
  pose proof (ok_goes_on d i item AtRequest (AtFinish status transient) (store d) O Hi eq_refl eq_refl
    ltac:(done)) as O'.
  pose proof O as [_ _ _ _ Ha [Hl Hl3] Hs]. destruct Hs as [Hs|Hs]; [congruence|].
  assert (Hnew : (ID item, Attempts item) ∉ sent d).
  { intros Hlog. destruct (Hs _ _ x Hlog Hx Eid) as [?|(_ & it & st & tr & Hin & E & _)]; [lia|].
    by destruct (same_worker d i item AtRequest it (AtFinish st tr) O Hi Hin E). }
  destruct O' as [Hv' Hw' Hin' Hf' Ha' _ Hs']. constructor; try done; cbn in *.
  - split.
    + apply NoDup_app. split; [done|]. split; [|apply NoDup_singleton]. intros e He Hs1.
      apply list_elem_of_singleton in Hs1. by subst.
    + apply Forall_app. split; [done|]. constructor; [|done]. cbn. apply Ha. right. by eapply worker_item.
  - right. intros id j y Hlog Hy E. apply elem_of_app in Hlog as [Hlog|Hlog].
    + destruct Hs' as [?|Hs']; [congruence|]. by eapply Hs'.
    + apply list_elem_of_singleton in Hlog. injection Hlog as -> ->. right.
      assert (y = x) as -> by (eapply same_id; [apply O|done..|congruence]). split; [done|].
      exists item, status, transient. split; [by eapply update_elem|done].
Qed.

(** [finish] retires the attempt of its worker, and touches no other delivery
    than by removing it. *)
Lemma ok_finish d i item status transient now saved :
  ok d -> workers d !! i = Some (item, AtFinish status transient) ->
  ok (set_worker i item AtCleanup
        (with_store (fst (mutate (finish item status transient now) saved (store d))) d)).
Proof.
  intros O Hi. destruct (mutate _ saved (store d)) as [s err] eqn:Em.
  assert (Es : fst (mutate (finish item status transient now) saved (store d)) = s) by by rewrite Em.
  pose proof O as [Hv Hw Hin Hf Ha Hl Hs].
  assert (Hk : (<[i := (item, AtCleanup)]> (workers d)).*1 = (workers d).*1) by (by eapply fmap_update).
  assert (Hv' : valid subscriptionID (data s)).
  { apply mutate_cases in Es as [[-> _]|(_ & _ & Hc)]; [exact Hv|by eapply valid_finish]. }
  constructor; cbn; rewrite ?Hk; try done; [by rewrite length_insert|].
  (* the queue after the change, against the log before *)
  unfold mutate in Em. destruct (closed (store d) || failed (store d)) eqn:Eo.
  { injection Em as <- _. left. exact Eo. }
  destruct Hs as [Hs|Hs]; [unfold out in Hs; congruence|].
  assert (Hother : ∀ id j x, (id, j) ∈ sent d -> x ∈ Queue (data (store d)) -> ID x = id -> id ≠ ID item ->
            j < Attempts x ∨ (Attempts x = j ∧ ∃ it st tr, (it, AtFinish st tr) ∈ <[i := (item, AtCleanup)]> (workers d) ∧
              ID it = id ∧ Attempts it = j)).
  { intros id j x Hlog Hx E Hne. destruct (Hs id j x Hlog Hx E) as [?|(Hj & it & st & tr & Hin' & Eit & ?)]; [by left|right].
    split; [done|]. exists it, st, tr. split; [|done]. eapply update_keeps; [exact Hi|exact Hin'|].
    intros [= -> _]. congruence. }
  assert (Hown : ∀ j x, (ID item, j) ∈ sent d -> x ∈ Queue (data (store d)) -> ID x = ID item ->
            j < Attempts x ∨ (Attempts x = j ∧ j = Attempts item)).
  { intros j x Hlog Hx E. destruct (Hs _ j x Hlog Hx E) as [?|(Hj & it & st & tr & Hin' & Eit & Ea)]; [by left|right].
    destruct (same_worker d i item _ it (AtFinish st tr) O Hi Hin' Eit) as [-> _]. done. }
  unfold finish in Em. destruct (existsb (same_attempt item) (Queue (data (store d)))) eqn:Ex; cbn [negb] in Em.
  - destruct saved; injection Em as <- _; [right|by left; rewrite orb_true_r || (unfold out; cbn; by rewrite orb_true_r)].
    cbn. apply existsb_exists in Ex as (x0 & Hx0 & Esame). apply list_elem_of_In in Hx0.
    unfold same_attempt in Esame. bool_hyps. intros id j x Hlog Hx E.
    apply finish_queue_elem in Hx as [_ [[Hx Hne]|(old & Hold & Hoid & _ & _ & ->)]].
    + apply Hother; [done..|congruence].
    + left. cbn in E |- *. assert (id = ID item) as -> by congruence.
      assert (old = x0) as -> by (eapply same_id; [exact Hv|done..|congruence]).
      destruct (Hown j x0 Hlog Hx0) as [?|[? ?]]; [congruence|lia|lia].
  - injection Em as <- _. right. intros id j x Hlog Hx E. destruct (decide (id = ID item)) as [->|Hne]; [|by apply Hother].
    destruct (Hown j x Hlog Hx E) as [?|[Hj Hji]]; [by left|]. exfalso.
    assert (Hno : existsb (same_attempt item) (Queue (data (store d))) = true); [|congruence].
    apply existsb_exists. exists x. split; [by apply list_elem_of_In|]. unfold same_attempt.
    rewrite E, String.eqb_refl. cbn. apply Z.eqb_eq. congruence.
Qed.

Lemma ok_cleanup d i item s :
  ok d -> workers d !! i = Some (item, AtCleanup) -> data s = data (store d) -> out s = out (store d) ->
  ok (MkDispatcher s (List.filter (λ id, negb (String.eqb id (ID item))) (inflight d)) (delete i (workers d))
        (todo d) (stopped d) (sent d)).
Proof.
  intros O Hi Ed Eo. pose proof O as [Hv Hw Hin Hf Ha Hl Hs].
  assert (Hperm : workers d ≡ₚ (item, AtCleanup) :: delete i (workers d)) by (by apply delete_Permutation).
  assert (Hids : ID <$> (workers d).*1 ≡ₚ ID item :: (ID <$> (delete i (workers d)).*1)) 
    by exact (fmap_Permutation ID _ _ (fmap_Permutation fst _ _ Hperm)).
  pose proof Hw as Hw'. rewrite Hids in Hw'. apply NoDup_cons in Hw' as [Hnot Hnd].
  constructor; cbn; rewrite ?Ed; try done.
  - rewrite Hin, Hids. cbn. rewrite String.eqb_refl. cbn. rewrite forallb_filter_id; [done|].
    apply forallb_forall. intros y Hy. apply list_elem_of_In in Hy. apply negb_true_iff, String.eqb_neq. congruence.
  - rewrite length_delete by (by eexists). lia.
  - intros x [Hx|Hx]; [apply Ha; by left|]. apply Ha. right. rewrite (fmap_Permutation fst _ _ Hperm). cbn. by right.
  - rewrite Eo. destruct Hs as [?|Hs]; [by left|right]. intros id j x Hlog Hx E.
    destruct (Hs id j x Hlog Hx E) as [?|(Hj & it & st & tr & Hin' & ?)]; [by left|right]. split; [done|].
    exists it, st, tr. split; [|done]. by destruct (removed_elem _ _ _ _ Hi Hin').
Qed.

Lemma ok_worker l d d' : ok d -> worker_step l d = Some d' -> ok d'.
Proof.
  intros O H. assert (Hself : ∀ i item pc pc', workers d !! i = Some (item, pc) ->
    (∀ status transient, pc ≠ AtFinish status transient) -> ok (set_worker i item pc' d)).
  { intros i item pc pc' Hi Hpc. exact (ok_goes_on d i item pc pc' (store d) O Hi eq_refl eq_refl Hpc). }
  destruct l as [| |i now|i expired|i now expired status error|i|i now saved|i| | |]; cbn [worker_step] in H; try done;
    destruct (workers d !! i) as [[item pc]|] eqn:Ei; try done; destruct pc; try done; injection H as <-.
  - repeat case_match; by eapply Hself.
  - by eapply ok_goes_on.
  - destruct (current_delivery item now (store d)) eqn:Ec; [|by eapply Hself].
    destruct (alive (ID item) d && negb expired); [|by eapply Hself]. by eapply ok_request.
  - by eapply Hself.
  - by apply ok_finish.
  - by eapply ok_cleanup.
Qed.

Lemma ok_step l d d' : ok d -> allowed l d -> exec subscriptionID l d = Some d' -> ok d'.
Proof.
  intros O Hal H. destruct l; cbn [exec] in H; try (by eapply ok_worker).
  - destruct (todo d) eqn:Et; [|done]. destruct (stopped d) eqn:Es; [done|].
    destruct (pending now saved (store d)) as [s items] eqn:Ep. injection H as <-.
    pose proof (ok_tick d now saved s items O Ep) as O'. by rewrite Es in O'.
  - injection H as <-. by apply ok_take.
  - destruct (is_external op) eqn:Ee; [|done]. injection H as <-. by apply ok_external.
  - injection H as <-. by destruct O.
  - injection H as <-. apply ok_store; [done|apply O|done|]. by left.
Qed.

(** A dispatcher that has not started, on a store it opened. *)
Definition fresh_dispatcher (s : Store) : Dispatcher := MkDispatcher s [] [] [] false [].

Lemma ok_fresh s : valid subscriptionID (data s) -> ok (fresh_dispatcher s).
Proof.
  intros V. constructor; cbn.
  - exact V.
  - constructor.
  - constructor.
  - lia.
  - intros x [Hx|Hx]; by apply elem_of_nil in Hx.
  - split; constructor.
  - right. intros id j x Hx. by apply elem_of_nil in Hx.
Qed.

(** C4: However the loop, the workers, the subscribers, the processor, failures of
    the disk and of the network interleave: at most two deliveries are in
    progress and never the same twice, each attempt of a delivery reaches the
    network at most once, and there are at most three. *)
Theorem attempts_sent_once (s : Store) (d : Dispatcher) :
  valid subscriptionID (data s) -> reachable (fresh_dispatcher s) d ->
  (length (workers d) <= 2)%nat ∧ NoDup (ID <$> (workers d).*1) ∧
  NoDup (sent d) ∧ ∀ id, (length (List.filter (λ e, String.eqb e.1 id) (sent d)) <= 3)%nat.
Proof.
  intros V H. assert (O : ok d) by (induction H; [by apply ok_fresh|by eapply ok_step]).
  destruct O as [_ Hw _ Hf _ [Hn H3] _]. split; [done|]. split; [done|]. split; [done|]. intros id.
  apply (attempts_bound id (sent d)); [done|done].
Qed.
End invariant.

(** ** A concrete run *)

Definition is_own (l : label) : Prop := match l with StoreCall _ _ => False | _ => True end.

Lemma own_run_reachable subscriptionID d0 ls d d' :
  reachable subscriptionID d0 d -> run_steps (exec subscriptionID) ls d = Some d' -> Forall is_own ls ->
  reachable subscriptionID d0 d'.
Proof.
  intros H0 H Hall. eapply (run_steps_ind_if (exec subscriptionID) is_own (reachable subscriptionID d0));
    [|exact H|exact Hall|exact H0].
  intros l s s' E Hl Hr. eapply reach_step; [exact Hr| |exact E]. by destruct l.
Qed.

(** A delivery that fails at first and is sent again. *)
Definition sample_labels : list label :=
  [Tick 60000000000 true; Take; Current 0 60000000000; RegisterWorker 0 false;
   Request 0 60000000000 false 503 false; Finish 0 61000000000 true; Cleanup 0;
   Tick 67000000000 true; Take; Current 0 67000000000; RegisterWorker 0 false;
   Request 0 67000000000 false 201 false].

Definition sample_dispatcher : Dispatcher :=
  default (fresh_dispatcher sample_open) (run_steps (exec id) sample_labels (fresh_dispatcher sample_open)).

Lemma attempts_sent_once_witness :
  (snd <$> sent sample_dispatcher) = [0; 1] ∧
  (length (workers sample_dispatcher) <= 2)%nat ∧ NoDup (ID <$> (workers sample_dispatcher).*1) ∧
  NoDup (sent sample_dispatcher) ∧
  ∀ key, (length (List.filter (λ e, String.eqb e.1 key) (sent sample_dispatcher)) <= 3)%nat.
Proof.
  split; [vm_compute; reflexivity|].
  apply (attempts_sent_once id sample_open sample_dispatcher); [exact sample_valid|].
  apply (own_run_reachable id _ sample_labels (fresh_dispatcher sample_open)); [apply reach_start| |].
  - vm_compute. reflexivity.
  - unfold sample_labels, is_own. repeat constructor.
Defined.
