(* ===== verification/Broadcast.v ===== *)
(** * Coalesced broadcasts of the MQTT client

    [triggerHandler] of [internal/mqtt/client.go]: callers that changed the
    state ask for the handler to run; bursts are coalesced with an atomic
    counter, without a lock.  Each atomic operation is one step; any number of
    callers and the handler's goroutine interleave.  The handler reads the state
    at some time after it is called, so what it has seen for certain is the
    state at its call. *)

From Stdlib Require Import ZArith Lia.
From stdpp Require Import base list option.
From S2P Require Import Prelude.

#[local] Open Scope Z_scope.

(** ** State *)

(** A caller of [triggerHandler], between its atomic operations: about to load
    [broadcastPending], or about to act on the loaded value. *)
Inductive caller_pc : Type :=
| AtLoad
| AtCase (loaded : Z).

(** The goroutine that runs the handler: about to call it, inside it, about to
    store 1 after its compare-and-swap failed. *)
Inductive runner_pc : Type :=
| AtCall
| InHandler
| AtStore.

(** A caller remembers the number of the change it announces. *)
Record hub := Hub {
  broadcastPending : Z;
  version : nat;
  seen : nat;
  callers : list (nat * caller_pc);
  returned : list nat;
  runners : list runner_pc
}.

Definition quiet_hub : hub := Hub 0 0 0 [] [] [].

(** ** Steps *)

(** A change of the shared state, whose author calls [triggerHandler]. *)
Definition change (s : hub) : hub :=
  let v := Datatypes.S (version s) in
  Hub (broadcastPending s) v (seen s) (callers s ++ [(v, AtLoad)]) (returned s) (runners s).

(** What one atomic operation of a caller does: its next program counter
    ([None] when [triggerHandler] returns), the counter, and whether a goroutine
    is started. *)
Definition triggerHandler (pc : caller_pc) (pending : Z) : option caller_pc * Z * bool :=
  match pc with
  | AtLoad => (Some (AtCase pending), pending, false)
  | AtCase 0 => if pending =? 0 then (None, 1, true) else (Some AtLoad, pending, false)
  | AtCase 1 => if pending =? 1 then (None, 2, false) else (Some AtLoad, pending, false)
  | AtCase 2 => (None, pending, false)
  | AtCase _ => (Some AtLoad, pending, false)
  end.

Definition caller_step (i : nat) (s : hub) : option hub :=
  match callers s !! i with
  | None => None
  | Some (v, pc) =>
      let '(next, pending, spawn) := triggerHandler pc (broadcastPending s) in
      let runners' := if spawn then runners s ++ [AtCall] else runners s in
      Some match next with
           | Some pc' => Hub pending (version s) (seen s) (<[i := (v, pc')]> (callers s)) (returned s) runners'
           | None => Hub pending (version s) (seen s) (delete i (callers s)) (v :: returned s) runners'
           end
  end.

(** One operation of the goroutine: call the handler; return from it and try to
    swap 1 for 0, ending when that succeeds; or store 1. *)
Definition runner_step (i : nat) (s : hub) : option hub :=
  match runners s !! i with
  | None => None
  | Some AtCall =>
      Some (Hub (broadcastPending s) (version s) (version s) (callers s) (returned s) (<[i := InHandler]> (runners s)))
  | Some InHandler =>
      Some (if broadcastPending s =? 1
            then Hub 0 (version s) (seen s) (callers s) (returned s) (delete i (runners s))
            else Hub (broadcastPending s) (version s) (seen s) (callers s) (returned s) (<[i := AtStore]> (runners s)))
  | Some AtStore =>
      Some (Hub 1 (version s) (seen s) (callers s) (returned s) (<[i := AtCall]> (runners s)))
  end.

Inductive event : Type :=
| Change
| Caller (i : nat)
| Runner (i : nat).

Definition exec (e : event) (s : hub) : option hub :=
  match e with
  | Change => Some (change s)
  | Caller i => caller_step i s
  | Runner i => runner_step i s
  end.

Abbreviation execs := (run_steps exec).

Definition is_internal (e : event) : bool := match e with Change => false | _ => true end.

(** ** Invariant *)

(** Another call of the handler is certain. *)
Definition owed (s : hub) : Prop :=
  runners s = [AtCall] ∨ runners s = [AtStore] ∨ (broadcastPending s = 2 ∧ runners s ≠ []).

Definition counted (s : hub) : Prop :=
  (broadcastPending s = 0 ∧ runners s = []) ∨
  (broadcastPending s = 1 ∧ (runners s = [AtCall] ∨ runners s = [InHandler])) ∨
  (broadcastPending s = 2 ∧ ∃ r, runners s = [r]).

Record sound (s : hub) : Prop := {
  sound_counted : counted s;
  sound_returned : ∀ v, v ∈ returned s -> (v <= seen s)%nat ∨ owed s;
  sound_loaded : ∀ v, (v, AtCase 2) ∈ callers s -> (v <= seen s)%nat ∨ owed s;
  sound_versions : ∀ v, v ∈ returned s ∨ v ∈ (callers s).*1 -> (v <= version s)%nat;
  sound_last : version s = 0%nat ∨ version s ∈ returned s ∨ version s ∈ (callers s).*1;
  sound_seen : (seen s <= version s)%nat;
  sound_values : ∀ v z, (v, AtCase z) ∈ callers s -> 0 <= z <= 2
}.

Lemma sound_quiet : sound quiet_hub.
Proof.
  split; simpl; [by left|by intros ? ?%elem_of_nil..| |by left|lia|by intros ? ? ?%elem_of_nil].
  intros v [H|H]; by apply elem_of_nil in H.
Qed.

Lemma counted_bounds s : counted s -> 0 <= broadcastPending s <= 2 ∧ (length (runners s) <= 1)%nat.
Proof. intros [[-> ->]|[[-> [-> | ->]]|[-> [r ->]]]]; simpl; lia. Qed.

Lemma sound_change s : sound s -> sound (change s).
Proof.
  intros [Hc Hr Hl Hv Hlast Hs Hz]. split; simpl.
  - exact Hc.
  - exact Hr.
  - intros v Hin. apply elem_of_app in Hin as [Hin|Hin]; [by apply Hl|]. by apply list_elem_of_singleton in Hin.
  - intros v. rewrite fmap_app, elem_of_app. simpl. rewrite list_elem_of_singleton.
    intros [H|[H| ->]]; [|..|lia]; [specialize (Hv v (or_introl H))|specialize (Hv v (or_intror H))]; lia.
  - right. right. rewrite fmap_app, elem_of_app. right. simpl. left.
  - lia.
  - intros v z Hin. apply elem_of_app in Hin as [Hin|Hin]; [by eapply Hz|]. by apply list_elem_of_singleton in Hin.
Qed.

(** A caller that goes on: the counter and the goroutine are untouched. *)
Lemma sound_goes_on s i v pc pc' :
  sound s -> callers s !! i = Some (v, pc) ->
  (pc' = AtCase 2 -> (v <= seen s)%nat ∨ owed s) -> (∀ z, pc' = AtCase z -> 0 <= z <= 2) ->
  sound (Hub (broadcastPending s) (version s) (seen s) (<[i := (v, pc')]> (callers s)) (returned s) (runners s)).
Proof.
  intros [Hc Hr Hl Hv Hlast Hs Hz] Hi H2 Hval.
  assert (Hkeys : (<[i := (v, pc')]> (callers s)).*1 = (callers s).*1) by by eapply fmap_update.
  split; simpl; rewrite ?Hkeys; try done.
  - intros w Hin. apply elem_of_update in Hin as [E|Hin]; [|by apply Hl]. injection E as -> <-. by apply H2.
  - intros w z Hin. apply elem_of_update in Hin as [E|Hin]; [|by eapply Hz]. injection E as -> <-. by apply Hval.
Qed.

(** A caller that returns, with the counter [pending] and the goroutines [rs]. *)
Lemma sound_returns s i v pc pending rs :
  sound s -> callers s !! i = Some (v, pc) ->
  let s' := Hub pending (version s) (seen s) (delete i (callers s)) (v :: returned s) rs in
  counted s' -> ((v <= seen s)%nat ∨ owed s') -> (owed s -> owed s') -> sound s'.
Proof.
  intros [Hc Hr Hl Hv Hlast Hs Hz] Hi s' Hc' Hret Howe.
  assert (Hdel : ∀ w, w ∈ (delete i (callers s)).*1 -> w ∈ (callers s).*1).
  { intros w Hw. apply list_elem_of_fmap in Hw as (c & -> & Hc0). apply elem_of_removed in Hc0.
    apply list_elem_of_fmap. by exists c. }
  assert (Hv' : v ∈ (callers s).*1).
  { apply list_elem_of_fmap. exists (v, pc). split; [done|]. apply list_elem_of_lookup. by exists i. }
  assert (Hor : ∀ w, (w <= seen s)%nat ∨ owed s -> (w <= seen s)%nat ∨ owed s') by (intros w; tauto).
  split; simpl; try done.
  - intros w Hw. apply elem_of_cons in Hw as [->|Hw]; [done|]. by apply Hor, Hr.
  - intros w Hw. apply elem_of_removed in Hw. by apply Hor, Hl.
  - intros w [Hw|Hw]; [apply elem_of_cons in Hw as [->|Hw]|]; apply Hv; auto.
  - destruct Hlast as [?|[?|Hin]]; [by left|right; left; by right|right].
    apply list_elem_of_fmap in Hin as (c & Hc0 & Hin). rewrite Hc0.
    destruct (removed_elem _ _ _ _ Hi Hin) as [->|Hin']; [left; by left|right].
    apply list_elem_of_fmap. by exists c.
  - intros w z Hw. apply elem_of_removed in Hw. by eapply Hz.
Qed.

Lemma sound_caller i s s' : sound s -> caller_step i s = Some s' -> sound s'.
Proof.
  intros S H. unfold caller_step in H. destruct (callers s !! i) as [[v pc]|] eqn:Ei; [|done].
  assert (Hin : (v, pc) ∈ callers s) by (apply list_elem_of_lookup; by exists i).
  pose proof (sound_counted s S) as Hc. pose proof (counted_bounds s Hc) as [Hb _].
  destruct pc as [|z]; simpl in H.
  - injection H as <-. apply (sound_goes_on s i v AtLoad); [done|done| |by intros z [= <-]].
    intros [= E]. right. right. right. split; [done|]. by destruct Hc as [[? _]|[[? _]|[_ [r ->]]]]; [congruence..|].
  - pose proof (sound_values s S v z Hin) as Hz.
    assert (z = 0 ∨ z = 1 ∨ z = 2) as [->|[->| ->]] by lia.
    + destruct (Z.eqb_spec (broadcastPending s) 0) as [E|E]; injection H as <-.
      * assert (Hnil : runners s = []) by (destruct Hc as [[_ ?]|[[? _]|[? _]]]; [done|congruence..]).
        apply (sound_returns s i v (AtCase 0)); [done|done|..]; rewrite Hnil.
        -- right. left. simpl. auto.
        -- right. left. done.
        -- intros _. left. done.
      * by apply (sound_goes_on s i v (AtCase 0)).
    + destruct (Z.eqb_spec (broadcastPending s) 1) as [E|E]; injection H as <-.
      * assert (Hone : ∃ r, runners s = [r]).
        { destruct Hc as [[? _]|[[_ [? | ?]]|[? _]]]; [congruence|eauto..|congruence]. }
        destruct Hone as [r Hr]. apply (sound_returns s i v (AtCase 1)); [done|done|..].
        -- right. right. simpl. eauto.
        -- right. right. right. simpl. by rewrite Hr.
        -- intros _. right. right. simpl. by rewrite Hr.
      * by apply (sound_goes_on s i v (AtCase 1)).
    + injection H as <-. apply (sound_returns s i v (AtCase 2)); [done|done|done| |by intros ?].
      destruct (sound_loaded s S v Hin) as [?|Ho]; [by left|right]. exact Ho.
Qed.

Lemma sound_runner i s s' : sound s -> runner_step i s = Some s' -> sound s'.
Proof.
  intros [Hc Hr Hl Hv Hlast Hs Hz] H. unfold runner_step in H.
  destruct (runners s !! i) as [r|] eqn:Ei; [|done].
  assert (Hone : runners s = [r] ∧ i = 0%nat).
  { destruct Hc as [[_ E]|[[_ [E|E]]|[_ [r' E]]]]; rewrite E in Ei |- *; destruct i; simpl in Ei; by simplify_eq. }
  destruct Hone as [Hone ->].
  destruct r; [|destruct (Z.eqb_spec (broadcastPending s) 1) as [E|E]|]; injection H as <-; rewrite Hone.
  - assert (Hall : ∀ v, v ∈ returned s ∨ v ∈ (callers s).*1 -> (v <= version s)%nat) by exact Hv.
    split; simpl; try done; try lia.
    + destruct Hc as [[_ ?]|[[? _]|[? _]]]; [congruence|right; left; auto|right; right; eauto].
    + intros v Hin. left. by apply Hall; left.
    + intros v Hin. left. apply Hall. right. apply list_elem_of_fmap. by exists (v, AtCase 2).
  - assert (Hno : ¬ owed s) by (intros [?|[?|[? _]]]; congruence).
    split; simpl; try done; [by left|..]; intros v Hin; left.
    + by destruct (Hr v Hin).
    + by destruct (Hl v Hin).
  - assert (E2 : broadcastPending s = 2).
    { destruct Hc as [[_ ?]|[[? _]|[? _]]]; [congruence|congruence|done]. }
    split; simpl; try done; [right; right; eauto|..]; intros v Hin; right; right; left; done.
  - split; simpl; try done; [right; left; auto|..]; intros v Hin; right; left; done.
Qed.

Lemma sound_exec e s s' : exec e s = Some s' -> sound s -> sound s'.
Proof.
  destruct e; simpl; intros H S.
  - injection H as <-. by apply sound_change.
  - by eapply sound_caller.
  - by eapply sound_runner.
Qed.

Lemma sound_reachable es s : execs es quiet_hub = Some s -> sound s.
Proof. intros H. eapply run_steps_ind; [exact sound_exec|exact H|exact sound_quiet]. Qed.

(** ** Theorems *)

(** C15: The handler never runs twice at a time; a change whose author has returned
    was made before the last call of the handler, or another call is certain;
    and when nothing is going on, the handler was called after the last
    change. *)
Theorem no_change_is_lost (es : list event) (s : hub) :
  execs es quiet_hub = Some s ->
  (length (runners s) <= 1)%nat ∧
  (∀ v, v ∈ returned s -> (v <= seen s)%nat ∨ owed s) ∧
  (callers s = [] -> runners s = [] -> seen s = version s).
Proof.
  intros H%sound_reachable. pose proof (counted_bounds s (sound_counted s H)) as [_ Hl].
  split; [exact Hl|]. split; [apply H|]. intros Hc Hr.
  destruct H as [_ Hret _ _ Hlast Hs _]. rewrite Hc in Hlast.
  destruct Hlast as [?|[Hin|Hin]]; [lia| |by apply elem_of_nil in Hin].
  destruct (Hret _ Hin) as [?|Ho]; [lia|]. unfold owed in Ho. rewrite Hr in Ho.
  by destruct Ho as [?|[?|[_ ?]]].
Qed.

(** What is left to do: for a caller, for the goroutine, for all. *)
Definition pc_rank (pending : Z) (pc : caller_pc) : nat :=
  match pc with
  | AtLoad => 1
  | AtCase z => if z =? pending then 0 else 2
  end.

Definition callers_rank (s : hub) : nat := sum_list ((λ c, pc_rank (broadcastPending s) c.2) <$> callers s).

Definition runner_rank (s : hub) : nat :=
  match runners s with
  | [AtStore] => 3
  | [AtCall] => if broadcastPending s =? 2 then 5 else 2
  | [InHandler] => if broadcastPending s =? 2 then 4 else 1
  | _ => 0
  end.

Definition rank (n : nat) (s : hub) : nat :=
  (length (callers s) * 6 + runner_rank s) * (2 * n + 1) + callers_rank s.

(** The steps that [n] callers and the goroutine can still take. *)
Definition settle_bound (n : nat) : nat := (n * 6 + 5) * (2 * n + 1) + 2 * n.

Lemma callers_rank_bound pending (l : list (nat * caller_pc)) :
  (sum_list ((λ c, pc_rank pending c.2) <$> l) <= 2 * length l)%nat.
Proof.
  induction l as [|[v pc] l IH]; csimpl; [lia|]. unfold pc_rank at 1. destruct pc; [lia|]. case_match; lia.
Qed.

Lemma runner_rank_bound s : (runner_rank s <= 5)%nat.
Proof. unfold runner_rank. repeat case_match; lia. Qed.

Lemma rank_bound n s : (length (callers s) <= n)%nat -> (rank n s <= settle_bound n)%nat.
Proof.
  intros H. unfold rank, settle_bound, callers_rank.
  pose proof (callers_rank_bound (broadcastPending s) (callers s)). pose proof (runner_rank_bound s). nia.
Qed.

(** A caller that returns pays for whatever it starts. *)
Lemma rank_return n s s' :
  (length (callers s) <= n)%nat -> (length (callers s') < length (callers s))%nat -> (rank n s' < rank n s)%nat.
Proof.
  intros Hn Hl. unfold rank. unfold callers_rank at 1.
  pose proof (callers_rank_bound (broadcastPending s') (callers s')). pose proof (runner_rank_bound s').
  assert (length (callers s') * 6 + runner_rank s' + 1 <= length (callers s) * 6 + runner_rank s)%nat by lia. nia.
Qed.

(** A step of the goroutine pays for the callers whose value becomes stale. *)
Lemma rank_run n s s' :
  (length (callers s) <= n)%nat -> callers s' = callers s -> (runner_rank s' < runner_rank s)%nat ->
  (rank n s' < rank n s)%nat.
Proof.
  intros Hn Hc Hr. unfold rank. unfold callers_rank at 1. rewrite Hc.
  pose proof (callers_rank_bound (broadcastPending s') (callers s)). nia.
Qed.

Lemma rank_step n e s s' :
  sound s -> (length (callers s) <= n)%nat -> is_internal e = true -> exec e s = Some s' ->
  (rank n s' < rank n s)%nat ∧ (length (callers s') <= length (callers s))%nat.
Proof.
  intros S Hn Hi H. destruct e as [|i|i]; [done|..]; simpl in H.
  - unfold caller_step in H. destruct (callers s !! i) as [[v pc]|] eqn:Ei; [|done].
    pose proof (lookup_lt_Some _ _ _ Ei) as Hlt.
    assert (Hgo : ∀ pc', (pc_rank (broadcastPending s) pc' < pc_rank (broadcastPending s) pc)%nat ->
              let s1 := Hub (broadcastPending s) (version s) (seen s) (<[i := (v, pc')]> (callers s)) (returned s) (runners s) in
              (rank n s1 < rank n s)%nat ∧ (length (callers s1) <= length (callers s))%nat).
    { intros pc' Hpc. simpl. rewrite length_insert. split; [|done]. unfold rank, callers_rank, runner_rank. simpl.
      rewrite length_insert.
      pose proof (sum_list_update (λ c, pc_rank (broadcastPending s) c.2) (callers s) i (v, pc) (v, pc') Ei) as E.
      cbn [snd] in E. lia. }
    assert (Hret : ∀ p rs, let s1 := Hub p (version s) (seen s) (delete i (callers s)) (v :: returned s) rs in
              (rank n s1 < rank n s)%nat ∧ (length (callers s1) <= length (callers s))%nat).
    { intros p rs. simpl. rewrite length_delete by (by eexists). split; [|lia].
      apply rank_return; [done|]. simpl. rewrite length_delete by (by eexists). lia. }
    destruct pc as [|z]; simpl in H.
    + injection H as <-. apply Hgo. simpl. rewrite Z.eqb_refl. lia.
    + assert (z = 0 ∨ z = 1 ∨ z = 2) as [->|[->| ->]].
      { assert (0 <= z <= 2); [|lia]. apply (sound_values s S v). apply list_elem_of_lookup. by exists i. }
      * destruct (Z.eqb_spec (broadcastPending s) 0); injection H as <-; [apply Hret|apply Hgo].
        cbn [pc_rank]. rewrite (proj2 (Z.eqb_neq 0 _)) by congruence. lia.
      * destruct (Z.eqb_spec (broadcastPending s) 1); injection H as <-; [apply Hret|apply Hgo].
        cbn [pc_rank]. rewrite (proj2 (Z.eqb_neq 1 _)) by congruence. lia.
      * injection H as <-. apply Hret.
  - unfold runner_step in H. destruct (runners s !! i) as [r|] eqn:Ei; [|done].
    assert (Hrank : callers s' = callers s ∧ (runner_rank s' < runner_rank s)%nat).
    { assert (Hone : runners s = [r] ∧ i = 0%nat ∧ (broadcastPending s = 2 ∨ broadcastPending s = 1 ∧ r ≠ AtStore)).
      { destruct (sound_counted s S) as [[_ E]|[[Ep [E|E]]|[Ep [r' E]]]]; rewrite E in Ei |- *;
          destruct i; simpl in Ei; try done; injection Ei as <-; auto. }
      destruct Hone as (E & -> & [Ep|[Ep Hne]]); destruct r; try done; rewrite ?Ep in H; simpl in H; injection H as <-;
        unfold runner_rank; simpl; rewrite ?E, ?Ep; simpl; (split; [done|lia]). }
    destruct Hrank as [Hc Hr]. split; [by apply rank_run|by rewrite Hc].
Qed.

Lemma internal_version e s s' : is_internal e = true -> exec e s = Some s' -> version s' = version s.
Proof.
  intros Hi H. destruct e as [|i|i]; [done|..]; simpl in H.
  - unfold caller_step in H. destruct (callers s !! i) as [[v pc]|]; [|done].
    destruct (triggerHandler pc (broadcastPending s)) as [[[pc'|] p] b]; by injection H as <-.
  - unfold runner_step in H. destruct (runners s !! i) as [[]|]; [..|done]; try case_match; by injection H as <-.
Qed.

(** C34: Once no more changes come, every schedule of the callers and the goroutine
    ends within a bounded number of steps, none of them can block, and at the
    end the handler was called after the last change. *)
Theorem broadcasts_settle (es : list event) (s : hub) :
  execs es quiet_hub = Some s ->
  ∀ es' s', execs es' s = Some s' -> Forall (λ e, is_internal e = true) es' ->
  (length es' <= settle_bound (length (callers s)))%nat ∧
  ((∀ e, is_internal e = true -> exec e s' = None) -> callers s' = [] ∧ runners s' = [] ∧ seen s' = version s).
Proof.
  intros H0 es' s' H Hall. pose proof (sound_reachable es s H0) as S.
  assert (Hrun : (rank (length (callers s)) s' + length es' <= rank (length (callers s)) s)%nat ∧
            sound s' ∧ version s' = version s).
  { assert (Hn : (length (callers s) <= length (callers s))%nat) by done. revert Hn.
    generalize (length (callers s)) at 2 3 4 as n. clear H0. revert s S H.
    induction Hall as [|e es' He Hall IH]; intros s S H n Hn; simpl in H.
    - injection H as <-. simpl. split; [lia|done].
    - destruct (exec e s) as [s1|] eqn:E; [|done].
      destruct (rank_step n e s s1 S Hn He E) as [Hr Hl].
      destruct (IH s1 (sound_exec _ _ _ E S) H n ltac:(lia)) as (Hle & S' & Hv).
      rewrite (internal_version _ _ _ He E) in Hv. simpl. split; [lia|done]. }
  destruct Hrun as (Hle & S' & Hv). split.
  - etransitivity; [|by apply rank_bound]. lia.
  - intros Hstuck.
    assert (Hc : callers s' = []).
    { specialize (Hstuck (Caller 0) eq_refl). simpl in Hstuck. unfold caller_step in Hstuck.
      destruct (callers s') as [|[v pc] l]; [done|]. simpl in Hstuck.
      by destruct (triggerHandler pc (broadcastPending s')) as [[[] ?] []]. }
    assert (Hr : runners s' = []).
    { specialize (Hstuck (Runner 0) eq_refl). simpl in Hstuck. unfold runner_step in Hstuck.
      by destruct (runners s') as [|[] l]. }
    split; [done|]. split; [done|]. destruct S' as [_ Hret _ _ Hlast Hs _]. rewrite Hc, Hv in *.
    destruct Hlast as [?|[Hin|Hin]]; [lia| |by apply elem_of_nil in Hin].
    destruct (Hret _ Hin) as [?|Ho]; [lia|]. unfold owed in Ho. rewrite Hr in Ho.
    by destruct Ho as [?|[?|[_ ?]]].
Qed.

(** ** A concrete run *)

(** Two changes; the second arrives while the handler runs. *)
Definition sample_events : list event :=
  [Change; Caller 0; Caller 0; Runner 0; Change; Caller 0; Caller 0].
Definition sample_rest : list event := [Runner 0; Runner 0; Runner 0; Runner 0].

Lemma no_change_is_lost_witness :
  let s := default quiet_hub (execs (sample_events ++ sample_rest) quiet_hub) in
  (length (runners s) <= 1)%nat ∧
  (∀ v, v ∈ returned s -> (v <= seen s)%nat ∨ owed s) ∧
  (callers s = [] -> runners s = [] -> seen s = version s).
Proof. intros s. apply (no_change_is_lost (sample_events ++ sample_rest)). vm_compute. reflexivity. Defined.

Lemma broadcasts_settle_witness :
  let s := default quiet_hub (execs sample_events quiet_hub) in
  let s' := default quiet_hub (execs sample_rest s) in
  (length sample_rest <= settle_bound (length (callers s)))%nat ∧
  ((∀ e, is_internal e = true -> exec e s' = None) -> callers s' = [] ∧ runners s' = [] ∧ seen s' = version s).
Proof.
  intros s s'. apply (broadcasts_settle sample_events s); [vm_compute; reflexivity|vm_compute; reflexivity|].
  repeat constructor.
Defined.
