(* ===== verification/GatewayLifecycle.v ===== *)
(** * The life of a gateway client

    [internal/gateway/client.go]: [Start], [Stop], the poll loop and the
    commands, which all run at once.  A step is a critical section, an atomic
    operation, a check of the client's context, a request, or a callback's
    begin or end.  [apply] and [onStatus] are set, as in [main]. *)

From Stdlib Require Import ZArith Lia.
From stdpp Require Import base list option.
From S2P Require Import Prelude.

#[local] Open Scope Z_scope.

(** ** State *)

(** Where the poll loop is: at the top of [pollOnce], in its request, about to
    store [connected], in [onStatus], about to check the context before
    [apply], in [apply], at the [select], and in the deferred calls. *)
Inductive poll_pc : Type :=
| PollTop
| PollFetch
| PollSwap (b : bool)
| PollStatus (b : bool)
| PollCheck
| PollApply
| AtSelect
| Leaving
| Closing.

(** What a command needs: a fresh snapshot before it is posted, an
    acknowledgement after. *)
Inductive command_kind : Type := Plain | Checked | Override.

(** Where [PostCommand] is: at its check of the context, fetching the snapshot,
    posting, at the top of [awaitOverride]'s loop, in its request, at the mutex
    of [applyOverride], inside before and in the callback. *)
Inductive command_pc : Type :=
| AtGuard
| Validating
| Posting
| AwaitTop
| AwaitFetch
| AtLock
| Holding
| InCallback.

(** Where [Stop] is: at its entry, waiting for [done], at [commandApplyMu]. *)
Inductive stop_pc : Type := AtEntry | AtDone | AtMutex.

(** [stopped] stands for the cancelled context, too; [tick] is the channel of
    the ticker; [returned] counts the calls of [Stop] that returned, [calls] the
    callbacks that began. *)
Record gateway := Gateway {
  started : bool;
  stopped : bool;
  done : bool;
  connected : bool;
  drain : bool;
  tick : bool;
  poller : option poll_pc;
  commands : list (command_kind * command_pc);
  locked : bool;
  stops : list stop_pc;
  returned : nat;
  calls : nat
}.

Definition new_gateway : gateway := Gateway false false false false false false None [] false [] 0 0.

Definition with_poller (p : option poll_pc) (g : gateway) : gateway :=
  Gateway (started g) (stopped g) (done g) (connected g) (drain g) (tick g) p (commands g) (locked g) (stops g)
    (returned g) (calls g).
Definition with_done (g : gateway) : gateway :=
  Gateway (started g) (stopped g) true (connected g) (drain g) (tick g) (poller g) (commands g) (locked g) (stops g)
    (returned g) (calls g).
Definition with_connected (b : bool) (g : gateway) : gateway :=
  Gateway (started g) (stopped g) (done g) b (drain g) (tick g) (poller g) (commands g) (locked g) (stops g)
    (returned g) (calls g).
Definition with_drain (b : bool) (g : gateway) : gateway :=
  Gateway (started g) (stopped g) (done g) (connected g) b (tick g) (poller g) (commands g) (locked g) (stops g)
    (returned g) (calls g).
Definition with_tick (b : bool) (g : gateway) : gateway :=
  Gateway (started g) (stopped g) (done g) (connected g) (drain g) b (poller g) (commands g) (locked g) (stops g)
    (returned g) (calls g).
Definition with_commands (l : list (command_kind * command_pc)) (b : bool) (g : gateway) : gateway :=
  Gateway (started g) (stopped g) (done g) (connected g) (drain g) (tick g) (poller g) l b (stops g)
    (returned g) (calls g).
Definition with_stops (l : list stop_pc) (n : nat) (g : gateway) : gateway :=
  Gateway (started g) (stopped g) (done g) (connected g) (drain g) (tick g) (poller g) (commands g) (locked g) l
    n (calls g).
Definition with_call (g : gateway) : gateway :=
  Gateway (started g) (stopped g) (done g) (connected g) (drain g) (tick g) (poller g) (commands g) (locked g)
    (stops g) (returned g) (Datatypes.S (calls g)).

(** ** Steps *)

Definition Start (g : gateway) : gateway :=
  if started g || stopped g then g
  else Gateway true (stopped g) (done g) (connected g) (drain g) (tick g) (Some PollTop) (commands g) (locked g)
         (stops g) (returned g) (calls g).

(** The first critical section of [Stop]. *)
Definition cancel (g : gateway) : gateway :=
  if stopped g then g
  else Gateway (started g) true (done g || negb (started g)) (connected g) (drain g) (tick g) (poller g) (commands g)
         (locked g) (stops g) (returned g) (calls g).

(** One step of the [i]-th call of [Stop]; [None] while it blocks. *)
Definition Stop (i : nat) (g : gateway) : option gateway :=
  match stops g !! i with
  | Some AtEntry => let g := cancel g in Some (with_stops (<[i := AtDone]> (stops g)) (returned g) g)
  | Some AtDone => if done g then Some (with_stops (<[i := AtMutex]> (stops g)) (returned g) g) else None
  | Some AtMutex => if locked g then None else Some (with_stops (delete i (stops g)) (Datatypes.S (returned g)) g)
  | None => None
  end.

(** Back to the [select], whose ticker is reset after a failed poll. *)
Definition to_select (g : gateway) : gateway :=
  with_poller (Some AtSelect) (if drain g then with_tick false g else g).

Inductive fetched : Type := Snapshot | NetworkError | OtherError.

(** One step of the poll loop; [quit] chooses the context's channel at the
    [select]. *)
Definition poll_step (r : fetched) (quit : bool) (g : gateway) : option gateway :=
  match poller g with
  | None => None
  | Some PollTop =>
      Some (if stopped g then to_select g else with_poller (Some PollFetch) (with_drain false g))
  | Some PollFetch =>
      Some (if stopped g then to_select g
            else match r with
                 | Snapshot => with_poller (Some (PollSwap true)) g
                 | NetworkError => with_poller (Some (PollSwap false)) (with_drain true g)
                 | OtherError => with_poller (Some (PollSwap false)) g
                 end)
  | Some (PollSwap b) => Some (with_poller (Some (PollStatus b)) (with_call (with_connected b g)))
  | Some (PollStatus true) => Some (with_poller (Some PollCheck) g)
  | Some (PollStatus false) => Some (to_select g)
  | Some PollCheck => Some (if stopped g then to_select g else with_poller (Some PollApply) (with_call g))
  | Some PollApply => Some (to_select g)
  | Some AtSelect =>
      if quit then if stopped g then Some (with_poller (Some Leaving) g) else None
      else if tick g then Some (with_poller (Some PollTop) (with_tick false g)) else None
  | Some Leaving => Some (with_poller (Some Closing) (with_connected false g))
  | Some Closing => Some (with_poller None (with_done g))
  end.

(** What a request of a command came to. *)
Inductive answer : Type := Good | Pending | Bad.

Definition set_command (i : nat) (k : command_kind) (pc : command_pc) (b : bool) (g : gateway) : gateway :=
  with_commands (<[i := (k, pc)]> (commands g)) b g.
Definition end_command (i : nat) (b : bool) (g : gateway) : gateway := with_commands (delete i (commands g)) b g.

(** One step of the [i]-th command; [expired] is its own context. *)
Definition command_step (i : nat) (a : answer) (expired : bool) (g : gateway) : option gateway :=
  match commands g !! i with
  | None => None
  | Some (k, pc) =>
      let over := stopped g || expired in
      match pc with
      | AtGuard => Some (if stopped g then end_command i (locked g) g else set_command i k Validating (locked g) g)
      | Validating =>
          match k with
          | Plain => Some (set_command i k Posting (locked g) g)
          | _ => Some (if stopped g then end_command i (locked g) g
                       else match a with Good => set_command i k Posting (locked g) g | _ => end_command i (locked g) g end)
          end
      | Posting =>
          match k, a with
          | Override, Good => Some (set_command i k AwaitTop (locked g) g)
          | _, _ => Some (end_command i (locked g) g)
          end
      | AwaitTop => Some (if over then end_command i (locked g) g else set_command i k AwaitFetch (locked g) g)
      | AwaitFetch =>
          Some (if over then end_command i (locked g) g
                else match a with
                     | Good => set_command i k AtLock (locked g) g
                     | Pending => set_command i k AwaitTop (locked g) g
                     | Bad => end_command i (locked g) g
                     end)
      | AtLock => if locked g then None else Some (set_command i k Holding true g)
      | Holding => Some (if over then end_command i false g else with_call (set_command i k InCallback true g))
      | InCallback => Some (end_command i false g)
      end
  end.

Inductive event : Type :=
| CallStart
| CallStop
| CallCommand (k : command_kind)
| TickArrives
| Poll (r : fetched) (quit : bool)
| Command (i : nat) (a : answer) (expired : bool)
| StopStep (i : nat).

Definition exec (e : event) (g : gateway) : option gateway :=
  match e with
  | CallStart => Some (Start g)
  | CallStop => Some (with_stops (stops g ++ [AtEntry]) (returned g) g)
  | CallCommand k => Some (with_commands (commands g ++ [(k, AtGuard)]) (locked g) g)
  | TickArrives => Some (with_tick true g)
  | Poll r quit => poll_step r quit g
  | Command i a expired => command_step i a expired g
  | StopStep i => Stop i g
  end.

Abbreviation execs := (run_steps exec).

(** What goes on without a new call or tick. *)
Definition is_internal (e : event) : bool :=
  match e with Poll _ _ | Command _ _ _ | StopStep _ => true | _ => false end.

(** ** Invariant *)

Definition holds (c : command_kind * command_pc) : nat :=
  match c.2 with Holding | InCallback => 1 | _ => 0 end.
Definition holders (l : list (command_kind * command_pc)) : nat := sum_list (holds <$> l).

(** A callback of the gateway is in progress. *)
Definition in_callback (g : gateway) : Prop :=
  (∃ b, poller g = Some (PollStatus b)) ∨ poller g = Some PollApply ∨ ∃ k, (k, InCallback) ∈ commands g.

Record sound (g : gateway) : Prop := {
  sound_locked : holders (commands g) = if locked g then 1%nat else 0%nat;
  sound_gone : poller g = None ↔ started g = false ∨ done g = true;
  sound_unstarted : started g = false -> connected g = false ∧ (stopped g = true -> done g = true);
  sound_done : done g = true -> stopped g = true ∧ connected g = false;
  sound_leaving : poller g = Some Leaving ∨ poller g = Some Closing -> stopped g = true;
  sound_closing : poller g = Some Closing -> connected g = false;
  sound_waiting : AtDone ∈ stops g ∨ AtMutex ∈ stops g -> stopped g = true;
  sound_mutex : AtMutex ∈ stops g -> done g = true;
  sound_returned : (0 < returned g)%nat -> done g = true ∧ ∀ k, (k, InCallback) ∉ commands g
}.

Lemma sound_new : sound new_gateway.
Proof.
  split; simpl; try done; try lia; try (by intros [?|?]%orb_true_iff); try (split; by auto).
  - by intros [?|?].
  - by intros [?%elem_of_nil|?%elem_of_nil].
  - by intros ?%elem_of_nil.
Qed.

Lemma sound_start g : sound g -> sound (Start g).
Proof.
  intros S. unfold Start. destruct (started g || stopped g) eqn:E; [exact S|]. apply orb_false_iff in E as [E F].
  destruct S as [Hl Hg Hu Hd Hq Hc Hw Hm Hr].
  assert (D : done g = false) by (destruct (done g) eqn:D; [destruct (Hd eq_refl); congruence|done]).
  split; simpl; try done; try (by intros [?|?]). rewrite D. split; [done|by intros [?|?]].
Qed.

Lemma sound_if (b : bool) g1 g2 : sound g1 -> sound g2 -> sound (if b then g1 else g2).
Proof. by destruct b. Qed.

(** What a step of the poll loop may change. *)
Lemma sound_poll r quit g g' : sound g -> poll_step r quit g = Some g' -> sound g'.
Proof.
  intros [Hl Hg Hu Hd Hq Hc Hw Hm Hr] H. unfold poll_step in H.
  destruct (poller g) as [pc|] eqn:P; [|done].
  assert (S : started g = true ∧ done g = false).
  { destruct Hg as [_ Hg]. split; [destruct (started g)|destruct (done g)]; try done; exfalso; assert (E : Some pc = None) by auto; done. }
  destruct S as [S D].
  assert (K : ∀ p b d t n, (p = Some Leaving ∨ p = Some Closing -> stopped g = true) -> (p = Some Closing -> b = false) ->
            is_Some p ->
            sound (Gateway (started g) (stopped g) (done g) b d t p (commands g) (locked g) (stops g) (returned g) n)).
  { intros p b d t n K1 K2 [p' ->]. split; simpl; try done.
    - rewrite S, D. split; [done|by intros [?|?]].
    - by rewrite S.
    - by rewrite D. }
  assert (T : sound (to_select g)).
  { unfold to_select, with_poller, with_tick. destruct (drain g); apply K; try done; by intros [?|?]. }
  destruct pc as [| |b|b| | | | |]; simpl in H.
  - injection H as <-. apply sound_if; [done|]. apply K; try done; by intros [?|?].
  - injection H as <-. apply sound_if; [done|]. destruct r; apply K; try done; by intros [?|?].
  - injection H as <-. apply K; try done; by intros [?|?].
  - destruct b; injection H as <-; [|done]. apply K; try done; by intros [?|?].
  - injection H as <-. apply sound_if; [done|]. apply K; try done; by intros [?|?].
  - by injection H as <-.
  - destruct quit.
    + destruct (bool_dec (stopped g) true) as [F|F%not_true_is_false]; rewrite F in H; [|done]. injection H as <-. by apply K.
    + destruct (bool_dec (tick g) true) as [F|F%not_true_is_false]; rewrite F in H; [|done]. injection H as <-.
      apply K; try done; by intros [?|?].
  - injection H as <-. apply K; try done. intros _. apply Hq. by left.
  - injection H as <-. split; simpl; try done.
    + split; [by right|done].
    + by rewrite S.
    + intros _. split; [apply Hq; by right|by apply Hc].
    + by intros [?|?].
    + intros Hret. split; [done|by apply Hr].
Qed.

(** A command that goes on or ends. *)
Lemma sound_set_command g i k pc pc' (b : bool) n :
  sound g -> commands g !! i = Some (k, pc) ->
  (holds (k, pc') + (if locked g then 1 else 0) = holds (k, pc) + (if b then 1 else 0))%nat ->
  (pc' = InCallback -> stopped g = false) ->
  sound (Gateway (started g) (stopped g) (done g) (connected g) (drain g) (tick g) (poller g)
           (<[i := (k, pc')]> (commands g)) b (stops g) (returned g) n).
Proof.
  intros [Hl Hg Hu Hd Hq Hc Hw Hm Hr] Hi Hb Hpc. split; simpl; try done.
  - pose proof (sum_list_update holds (commands g) i (k, pc) (k, pc') Hi) as E. unfold holders in *. lia.
  - intros Hret. destruct (Hr Hret) as [D N]. split; [done|]. intros k' Hin.
    apply elem_of_update in Hin as [[= -> <-]|Hin]; [|by eapply N].
    destruct (Hd D) as [St _]. by rewrite Hpc in St.
Qed.

Lemma sound_end_command g i k pc (b : bool) :
  sound g -> commands g !! i = Some (k, pc) ->
  ((if locked g then 1 else 0) = holds (k, pc) + (if b then 1 else 0))%nat -> sound (end_command i b g).
Proof.
  intros [Hl Hg Hu Hd Hq Hc Hw Hm Hr] Hi Hb. split; simpl; try done.
  - pose proof (sum_list_delete holds (commands g) i (k, pc) Hi) as E. unfold holders in *. lia.
  - intros Hret. destruct (Hr Hret) as [D N]. split; [done|]. intros k' Hin. apply elem_of_removed in Hin. by eapply N.
Qed.

(** Whoever holds the mutex has locked it. *)
Lemma holder_locked g i c : sound g -> commands g !! i = Some c -> holds c = 1%nat -> locked g = true.
Proof.
  intros S Hi Hc. pose proof (sound_locked g S) as Hl. pose proof (sum_list_delete holds (commands g) i c Hi) as E.
  unfold holders in Hl. destruct (locked g); [done|]. lia.
Qed.

Lemma sound_command i a expired g g' : sound g -> command_step i a expired g = Some g' -> sound g'.
Proof.
  intros S H. unfold command_step in H. destruct (commands g !! i) as [[k pc]|] eqn:Hi; [|done].
  assert (Stay : holds (k, pc) = 0%nat -> ∀ pc', holds (k, pc') = 0%nat -> pc' ≠ InCallback ->
            sound (set_command i k pc' (locked g) g)).
  { intros H0 pc' H1 Hne. apply (sound_set_command g i k pc); [done|done| |done]. rewrite H0, H1. lia. }
  assert (End : holds (k, pc) = 0%nat -> sound (end_command i (locked g) g)).
  { intros H0. apply (sound_end_command g i k pc); [done|done|]. rewrite H0. lia. }
  destruct pc; simpl in H.
  - injection H as <-. destruct (stopped g); [by apply End|by apply Stay].
  - destruct k; injection H as <-; [by apply Stay|..]; (destruct (stopped g); [by apply End|]); destruct a;
      by (apply End || apply Stay).
  - destruct k, a; injection H as <-; by (apply End || apply Stay).
  - injection H as <-. destruct (stopped g || expired); by (apply End || apply Stay).
  - injection H as <-. destruct (stopped g || expired); [by apply End|]. destruct a; by (apply End || apply Stay).
  - destruct (locked g) eqn:L; [done|]. injection H as <-.
    apply (sound_set_command g i k AtLock); [done|done| |done]. by rewrite L.
  - pose proof (holder_locked g i _ S Hi eq_refl) as L. injection H as <-.
    destruct (stopped g || expired) eqn:O.
    + apply (sound_end_command g i k Holding); [done|done|]. by rewrite L.
    + apply orb_false_iff in O as [O _]. apply (sound_set_command g i k Holding); [done|done| |done]. by rewrite L.
  - pose proof (holder_locked g i _ S Hi eq_refl) as L. injection H as <-.
    apply (sound_end_command g i k InCallback); [done|done|]. by rewrite L.
Qed.

Lemma sound_cancel g : sound g -> sound (cancel g).
Proof.
  intros S. unfold cancel. destruct (bool_dec (stopped g) true) as [F|F%not_true_is_false]; rewrite F; [exact S|].
  destruct S as [Hl Hg Hu Hd Hq Hc Hw Hm Hr].
  assert (D : done g = false) by (destruct (done g) eqn:D; [destruct (Hd eq_refl); congruence|done]).
  rewrite D in *. cbn [orb].
  split; simpl; try done.
  - rewrite Hg. destruct (started g); simpl; intuition congruence.
  - intros E. rewrite E. split; [by apply Hu|done].
  - intros E. split; [done|]. apply Hu. by apply negb_true_iff in E.
  - intros E. by specialize (Hm E).
  - intros Hret. by destruct (Hr Hret).
Qed.

(** The calls of [Stop] may move on as the invariant says. *)
Lemma sound_stops g l n :
  sound g -> (AtDone ∈ l ∨ AtMutex ∈ l -> stopped g = true) -> (AtMutex ∈ l -> done g = true) ->
  ((0 < n)%nat -> done g = true ∧ ∀ k, (k, InCallback) ∉ commands g) -> sound (with_stops l n g).
Proof. intros [Hl Hg Hu Hd Hq Hc Hw Hm Hr] H1 H2 H3. by split. Qed.

Lemma sound_stop i g g' : sound g -> Stop i g = Some g' -> sound g'.
Proof.
  intros S H. unfold Stop in H. destruct (stops g !! i) as [[]|] eqn:Hi; [..|done].
  - injection H as <-. pose proof (sound_cancel g S) as S'.
    assert (C : stopped (cancel g) = true) by (unfold cancel; by destruct (stopped g) eqn:F).
    apply sound_stops; [done|done| |apply (sound_returned _ S')].
    intros Hin. apply elem_of_update in Hin as [|Hin]; [done|]. by apply (sound_mutex _ S').
  - destruct (bool_dec (done g) true) as [D|D%not_true_is_false]; rewrite D in H; [|done]. injection H as <-.
    apply sound_stops; [done| |done|apply (sound_returned _ S)]. intros _. apply (sound_done _ S D).
  - assert (Hin : AtMutex ∈ stops g) by (apply list_elem_of_lookup; by exists i).
    pose proof (sound_mutex _ S Hin) as D.
    destruct (bool_dec (locked g) true) as [L|L%not_true_is_false]; rewrite L in H; [done|]. injection H as <-.
    apply sound_stops; [done| |done|].
    + intros _. apply (sound_done _ S D).
    + intros _. split; [done|]. intros k Hk. pose proof (sound_locked _ S) as Hl. rewrite L in Hl.
      by pose proof (sum_list_zero holds _ _ Hl Hk).
Qed.

Lemma gateway_exec e g g' : exec e g = Some g' -> sound g -> sound g'.
Proof.
  destruct e as [| |k| |r quit|i a x|i]; simpl; intros H S.
  - injection H as <-. by apply sound_start.
  - injection H as <-. destruct S as [Hl Hg Hu Hd Hq Hc Hw Hm Hr]. split; simpl; try done; rewrite !elem_of_app.
    + intros [[?|?%list_elem_of_singleton]|[?|?%list_elem_of_singleton]]; try done; apply Hw; auto.
    + intros [?|?%list_elem_of_singleton]; [by apply Hm|done].
  - injection H as <-. destruct S as [Hl Hg Hu Hd Hq Hc Hw Hm Hr]. split; simpl; try done.
    + rewrite <- Hl. unfold holders. generalize (commands g). intros l. induction l as [|c l IH]; csimpl; [done|lia].
    + intros Hret. destruct (Hr Hret) as [D N]. split; [done|]. intros k'.
      rewrite elem_of_app, list_elem_of_singleton. intros [Hin|]; [by eapply N|done].
  - injection H as <-. by destruct S; split.
  - by eapply sound_poll.
  - by eapply sound_command.
  - by eapply sound_stop.
Qed.

Lemma gateway_reachable es g : execs es new_gateway = Some g -> sound g.
Proof. intros H. eapply run_steps_ind; [exact gateway_exec|exact H|exact sound_new]. Qed.

(** ** After [Stop] *)

Lemma poll_gone r quit g g' : sound g -> done g = true -> poll_step r quit g = Some g' -> False.
Proof. intros S D H. unfold poll_step in H. by rewrite (proj2 (sound_gone _ S) (or_intror D)) in H. Qed.

Lemma command_calls i a x g g' : stopped g = true -> command_step i a x g = Some g' -> calls g' = calls g.
Proof.
  intros St H. unfold command_step in H. rewrite St in H. destruct (commands g !! i) as [[k pc]|]; [|done].
  destruct pc; simpl in H; repeat case_match; by simplify_eq/=.
Qed.

Lemma stop_calls i g g' : Stop i g = Some g' -> calls g' = calls g ∧ (returned g <= returned g')%nat.
Proof.
  intros H. unfold Stop in H. destruct (stops g !! i) as [[]|]; [| | |done]; repeat case_match; simplify_eq/=;
    try (split; [done|lia]). unfold cancel. by destruct (stopped g).
Qed.

Lemma finished_step e g g' :
  sound g -> (0 < returned g)%nat -> exec e g = Some g' -> calls g' = calls g ∧ (0 < returned g')%nat.
Proof.
  intros S R H. destruct (sound_returned _ S R) as [D _]. destruct (sound_done _ S D) as [St _].
  destruct e as [| |k| |r quit|i a x|i]; simpl in H.
  - injection H as <-. unfold Start. by rewrite St, orb_true_r.
  - by injection H as <-.
  - by injection H as <-.
  - by injection H as <-.
  - by destruct (poll_gone _ _ _ _ S D H).
  - split; [by eapply command_calls|]. unfold command_step in H. rewrite St in H. destruct (commands g !! i) as [[k pc]|]; [|done].
    destruct pc; simpl in H; repeat case_match; by simplify_eq/=.
  - destruct (stop_calls _ _ _ H). split; [done|lia].
Qed.

(** C19: Once a call of [Stop] has returned, the gateway is silent for good: no
    callback is in progress or begins later, whatever requests, commands, ticks
    and calls of [Start] and [Stop] still follow; so the source that is switched
    to cannot be overwritten.  The client counts as disconnected. *)
Theorem stop_is_final (es es' : list event) (g g' : gateway) :
  execs es new_gateway = Some g -> (0 < returned g)%nat -> execs es' g = Some g' ->
  calls g' = calls g ∧ ¬ in_callback g' ∧ connected g' = false.
Proof.
  intros H R H'. pose proof (gateway_reachable _ _ H) as S.
  destruct (run_steps_ind exec (λ x, sound x ∧ (0 < returned x)%nat ∧ calls x = calls g)) with es' g g' as (S' & R' & C); try done.
  { intros e x y E (Sx & Rx & Cx). destruct (finished_step _ _ _ Sx Rx E) as [Cy Ry].
    split; [by eapply gateway_exec|]. split; [done|congruence]. }
  destruct (sound_returned _ S' R') as [D N]. split; [done|]. split; [|by apply (sound_done _ S')].
  pose proof (proj2 (sound_gone _ S') (or_intror D)) as P.
  intros [[b E]|[E|[k E]]]; [congruence..|by eapply N].
Qed.

(** ** [Stop] returns *)

Definition poll_rank (p : option poll_pc) : nat :=
  match p with
  | None => 0 | Some Closing => 1 | Some Leaving => 2 | Some AtSelect => 3
  | Some PollTop | Some PollFetch | Some PollApply | Some PollCheck => 4
  | Some (PollStatus _) => 5 | Some (PollSwap _) => 6
  end.

Definition command_rank (c : command_kind * command_pc) : nat :=
  match c.2 with
  | Validating => 3 | Posting | AtLock => 2 | AtGuard | AwaitTop | AwaitFetch | Holding | InCallback => 1
  end.

Definition stop_rank (p : stop_pc) : nat := match p with AtEntry => 3 | AtDone => 2 | AtMutex => 1 end.

(** The steps that are left after the context was cancelled. *)
Definition rank (g : gateway) : nat :=
  poll_rank (poller g) + (if tick g then 2 else 0) + sum_list (command_rank <$> commands g) +
  sum_list (stop_rank <$> stops g).

Lemma rank_to_select g : (3 < poll_rank (poller g))%nat -> (rank (to_select g) < rank g)%nat.
Proof. unfold rank, to_select. intros H. destruct (drain g); simpl; destruct (tick g); lia. Qed.

Lemma rank_poll r quit g g' : stopped g = true -> poll_step r quit g = Some g' -> (rank g' < rank g)%nat.
Proof.
  intros St H. unfold poll_step in H. rewrite St in H. destruct (poller g) as [pc|] eqn:P; [|done].
  assert (T : (3 < poll_rank (Some pc))%nat -> (rank (to_select g) < rank g)%nat)
    by (rewrite <- P; apply rank_to_select).
  destruct pc as [| |[]|[]| | | | |]; simpl in H; try (injection H as <-; by apply T; simpl; lia);
    try (injection H as <-; unfold rank; simpl; rewrite P; simpl; destruct (tick g); lia).
  destruct quit; [|destruct (tick g) eqn:Tk; [|done]]; injection H as <-; unfold rank; simpl; rewrite P, ?Tk; simpl; lia.
Qed.

Lemma rank_command i a x g g' : stopped g = true -> command_step i a x g = Some g' -> (rank g' < rank g)%nat.
Proof.
  intros St H. unfold command_step in H. rewrite St in H. destruct (commands g !! i) as [[k pc]|] eqn:Hi; [|done].
  pose proof (sum_list_delete command_rank _ _ _ Hi) as Del.
  assert (Upd : ∀ pc', (sum_list (command_rank <$> <[i := (k, pc')]> (commands g)) + command_rank (k, pc) =
                 sum_list (command_rank <$> commands g) + command_rank (k, pc'))%nat)
    by (intros pc'; by apply sum_list_update).
  pose proof (Upd Posting) as U1. pose proof (Upd AwaitTop) as U2. pose proof (Upd Holding) as U3. clear Upd.
  destruct pc; simpl in H; repeat case_match; simplify_eq/=; unfold rank; cbn in U1, U2, U3 |- *; lia.
Qed.

Lemma rank_stop i g g' : Stop i g = Some g' -> (rank g' < rank g)%nat ∧ (stopped g = true -> stopped g' = true).
Proof.
  intros H. unfold Stop in H. destruct (stops g !! i) as [p|] eqn:Hi; [|done].
  pose proof (sum_list_delete stop_rank _ _ _ Hi) as Del.
  pose proof (λ y, sum_list_update stop_rank _ _ _ y Hi) as Upd.
  destruct p; [| |]; simpl in *.
  - injection H as <-. specialize (Upd AtDone). cbn in Upd. unfold cancel, rank. 
    destruct (bool_dec (stopped g) true) as [F|F%not_true_is_false]; rewrite F; cbn; (split; [lia|done]).
  - destruct (done g); [|done]. injection H as <-. specialize (Upd AtMutex). cbn in Upd. unfold rank. simpl. split; [lia|done].
  - destruct (locked g); [done|]. injection H as <-. unfold rank. simpl. split; [lia|done].
Qed.

Lemma internal_stopped e g g' : is_internal e = true -> stopped g = true -> exec e g = Some g' ->
  (rank g' < rank g)%nat ∧ stopped g' = true.
Proof.
  intros Hi St H. destruct e as [| |k| |r quit|i a x|i]; try done; simpl in H.
  - split; [by eapply rank_poll|]. unfold poll_step, to_select in H. rewrite St in H.
    repeat case_match; by simplify_eq/=.
  - split; [by eapply rank_command|]. unfold command_step in H. rewrite St in H.
    repeat case_match; by simplify_eq/=.
  - destruct (rank_stop _ _ _ H) as [? K]. split; [done|by apply K].
Qed.

(** Nothing blocks: while a call of [Stop] has not returned, some step is enabled. *)
Lemma stopped_progress g : sound g -> stopped g = true -> (∀ e, is_internal e = true -> exec e g = None) ->
  poller g = None ∧ commands g = [] ∧ stops g = [].
Proof.
  intros S St Hstuck.
  assert (P : poller g = None).
  { pose proof (Hstuck (Poll Snapshot true) eq_refl) as H. simpl in H. unfold poll_step in H. rewrite St in H.
    destruct (poller g) as [[| |[]|[]| | | | |]|]; done. }
  assert (D : done g = true).
  { apply (sound_gone _ S) in P as [P|P]; [|done]. by apply (sound_unstarted _ S). }
  assert (Free : ∀ i c, commands g !! i = Some c -> c.2 = AtLock ∧ locked g = true).
  { intros i [k pc] Hi. pose proof (Hstuck (Command i Good false) eq_refl) as H. simpl in H. unfold command_step in H.
    rewrite Hi, St in H. destruct pc; try done; [by destruct k..|by destruct (locked g)]. }
  assert (L : locked g = false).
  { destruct (locked g) eqn:L; [|done]. pose proof (sound_locked _ S) as Hl. rewrite L in Hl. exfalso.
    assert (Z : ∀ l, (∀ i c, l !! i = Some c -> c.2 = AtLock) -> holders l = 0%nat).
    { intros l. induction l as [|c l IH]; intros Hall; [done|]. unfold holders in *. csimpl.
      rewrite (IH (λ i c' Hc, Hall (Datatypes.S i) c' Hc)). unfold holds. by rewrite (Hall 0%nat c eq_refl). }
    rewrite Z in Hl; [done|]. intros i c Hi. by destruct (Free i c Hi). }
  split; [done|]. split.
  - destruct (commands g) as [|c l] eqn:E; [done|]. destruct (Free 0%nat c eq_refl). congruence.
  - destruct (stops g) as [|p l] eqn:E; [done|]. pose proof (Hstuck (StopStep 0) eq_refl) as H. simpl in H.
    unfold Stop in H. rewrite E, D, L in H. by destruct p.
Qed.

(** [Stop] ends, and with it the poll loop and every command: once the context
    is cancelled, every schedule of the steps that are left is bounded as long as
    nothing new is called and no tick arrives, none of the parties can block the
    others for good, and at the end every call of [Stop] has returned. *)
Theorem stop_returns (es es' : list event) (g g' : gateway) :
  execs es new_gateway = Some g -> stopped g = true ->
  execs es' g = Some g' -> Forall (λ e, is_internal e = true) es' ->
  (length es' <= rank g)%nat ∧
  ((∀ e, is_internal e = true -> exec e g' = None) -> poller g' = None ∧ commands g' = [] ∧ stops g' = []).
Proof.
  intros H0 St H Hall. pose proof (gateway_reachable _ _ H0) as S. clear H0.
  assert (Hrun : (rank g' + length es' <= rank g)%nat ∧ sound g' ∧ stopped g' = true).
  { revert g S St H. induction Hall as [|e es' He Hall IH]; intros g S St H; simpl in H.
    - injection H as <-. simpl. split; [lia|done].
    - destruct (exec e g) as [g1|] eqn:E; [|done]. destruct (internal_stopped _ _ _ He St E) as [Hr St1].
      destruct (IH g1 (gateway_exec _ _ _ E S) St1 H) as (Hle & S' & St'). simpl. split; [lia|done]. }
  destruct Hrun as (Hle & S' & St'). split; [lia|]. by apply stopped_progress.
Qed.

(** ** A concrete life *)

(** A poll, and an override whose callback is in progress when [Stop] is called. *)
Definition gateway_events : list event :=
  [CallStart; Poll Snapshot false; Poll Snapshot false; Poll Snapshot false; Poll Snapshot false; Poll Snapshot false;
   Poll Snapshot false; CallCommand Override; Command 0 Good false; Command 0 Good false; Command 0 Good false;
   Command 0 Good false; Command 0 Good false; Command 0 Good false; Command 0 Good false; CallStop; StopStep 0].
Definition gateway_rest : list event :=
  [Poll Snapshot true; Poll Snapshot true; Poll Snapshot true; StopStep 0; Command 0 Good false; StopStep 0].
Definition late_events : list event :=
  [TickArrives; CallCommand Override; Command 0 Good false; CallStart; CallStop; StopStep 0].

Definition cancelled : gateway := default new_gateway (execs gateway_events new_gateway).
Definition stopped_gateway : gateway := default new_gateway (execs gateway_rest cancelled).
Definition late_gateway : gateway := default new_gateway (execs late_events stopped_gateway).

Example stop_waits_for_callback :
  execs (take 4 gateway_rest) cancelled ≠ None ∧ execs (take 4 gateway_rest ++ [StopStep 0]) cancelled = None.
Proof. vm_compute. split; [discriminate|reflexivity]. Qed.

Lemma stop_is_final_witness :
  calls late_gateway = 3%nat ∧ calls late_gateway = calls stopped_gateway ∧ ¬ in_callback late_gateway ∧
  connected late_gateway = false.
Proof.
  split; [by vm_compute|]. apply (stop_is_final (gateway_events ++ gateway_rest) late_events stopped_gateway late_gateway).
  - vm_compute. reflexivity.
  - vm_compute. lia.
  - vm_compute. reflexivity.
Defined.

Lemma stop_returns_witness :
  connected cancelled = true ∧ (length gateway_rest <= rank cancelled)%nat ∧
  ((∀ e, is_internal e = true -> exec e stopped_gateway = None) ->
   poller stopped_gateway = None ∧ commands stopped_gateway = [] ∧ stops stopped_gateway = []).
Proof.
  split; [by vm_compute|]. apply (stop_returns gateway_events gateway_rest cancelled stopped_gateway).
  - vm_compute. reflexivity.
  - by vm_compute.
  - vm_compute. reflexivity.
  - repeat constructor.
Defined.
