(* ===== verification/ControllerCommands.v ===== *)
(** * Commands to the inverter controller and their acknowledgement

    [internal/state/controller_commands.go]: parsing and validation of override
    commands and status frames; [internal/mqtt/controller_commands.go]: receipts
    of status frames and the wait for an acknowledgement.  Decoded JSON values
    are [gval]; an object has each of its keys once. *)

From Stdlib Require Import ZArith QArith Qround Ascii String DecimalString DecimalPos Lia.
From stdpp Require Import base list option strings.
From S2P Require Import Prelude Float64 JsValue SwEvents.

#[local] Open Scope string_scope.
#[local] Open Scope list_scope.
#[local] Open Scope Z_scope.

(** ** Values *)

(** The dynamic types that [encoding/json] and the callers put into an [any]. *)
Inductive gval : Type :=
| GNil
| GBool (b : bool)
| GFloat (x : F64.num)
| GInt (z : Z)
| GInt32 (z : Z)
| GNumber (text : string)
| GString (s : string)
| GSlice (l : list gval)
| GObject (o : list (string * gval)).

Definition as_object (v : gval) : option (list (string * gval)) :=
  match v with GObject o => Some o | _ => None end.

(** [m[key]] of a possibly nil map. *)
Definition at_key (m : option (list (string * gval))) (key : string) : gval :=
  default GNil (m ≫= assoc key).

(** [s, _ := v.(string)], [b, _ := v.(bool)]. *)
Definition as_string (v : gval) : string := match v with GString s => s | _ => "" end.
Definition as_bool (v : gval) : bool := match v with GBool b => b | _ => false end.

(** [any(v) == s] for a string [s]. *)
Definition equals_string (v : gval) (s : string) : bool :=
  match v with GString t => String.eqb t s | _ => false end.

(** ** Integers *)

Definition MinInt32 : Z := - 2 ^ 31.
Definition MaxInt32 : Z := 2 ^ 31 - 1.

(** [strconv.ParseInt(s, 10, 32)]. *)
Definition ParseInt32 (s : string) : option Z :=
  let '(neg, s1) := take_sign s in
  let '(m, n, rest) := take_digits s1 0 0 in
  if (n =? 0) || negb (String.eqb rest "") then None
  else
    let z := if neg then - m else m in
    if (MinInt32 <=? z) && (z <=? MaxInt32) then Some z else None.

(** The float64 tail of [int32Value]. *)
Definition int32_of_float (n : F64.num) : option Z :=
  match n with
  | F64.Fin q =>
      if F64.is_integer q && Qle_bool (inject_Z MinInt32) q && Qle_bool q (inject_Z MaxInt32)
      then Some (Qfloor q) else None
  | _ => None
  end.

(** [int32Value]: [None] when not valid, [Some None] for null. *)
Definition int32Value (v : gval) : option (option Z) :=
  match v with
  | GNil => Some None
  | GNumber text => option_map Some (ParseInt32 text)
  | GFloat x => option_map Some (int32_of_float x)
  | GInt z | GInt32 z => option_map Some (int32_of_float (F64.of_Z z))
  | _ => None
  end.

(** ** Status and commands *)

Record SetpointOverrideStatus := Status {
  StatusValue : option Z;
  LastError : option string;
  RequestID : option string
}.

(** A member that is null or a string. *)
Definition optional_string (v : gval) : option (option string) :=
  match v with GNil => Some None | GString s => Some (Some s) | _ => None end.

Definition ParseOverrideStatus (raw : gval) : option SetpointOverrideStatus :=
  match as_object raw with
  | None => None
  | Some m =>
      match assoc "value" m, assoc "last_error" m, assoc "request_id" m with
      | Some value, Some last_error, Some request_id =>
          match int32Value value, optional_string last_error, optional_string request_id with
          | Some value, Some last_error, Some request_id => Some (Status value last_error request_id)
          | _, _, _ => None
          end
      | _, _, _ => None
      end
  end.

(** [essRequestID]: [^[A-Za-z0-9._:-]{1,128}$]. *)
Definition request_char (c : ascii) : bool :=
  let n := nat_of_ascii c in
  (Nat.leb 65 n && Nat.leb n 90) || (Nat.leb 97 n && Nat.leb n 122) || (Nat.leb 48 n && Nat.leb n 57) ||
  Ascii.eqb c "." || Ascii.eqb c "_" || Ascii.eqb c ":" || Ascii.eqb c "-".

Definition ValidRequestID (id : string) : bool :=
  Nat.leb 1 (String.length id) && Nat.leb (String.length id) 128 &&
  forallb request_char (list_ascii_of_string id).

(** [ValidateOverride]: [true] for no error. *)
Definition ValidateOverride (payload : gval) : bool :=
  match as_object payload with
  | None => false
  | Some m =>
      Nat.eqb (length m) 2 &&
      match assoc "value" m with
      | None => false
      | Some v => match int32Value v with Some _ => true | None => false end
      end && ValidRequestID (as_string (at_key (Some m) "request_id"))
  end.

(** ** Readiness *)

(** [time.UnixMilli]/1000 as a float64, in seconds; [now] in milliseconds. *)
Definition unix_seconds (now : Z) : F64.num := F64.div (F64.of_Z now) (F64.of_Z 1000).

Definition ObservationFresh (at_ : option F64.num) (now : Z) : bool :=
  match at_ with
  | None => false
  | Some t =>
      let age := F64.sub (unix_seconds now) t in
      match t with
      | F64.Fin _ => F64.leb (F64.of_Z 0) age && F64.leb age (F64.of_Z 30)
      | _ => false
      end
  end.

(** The fields of [State] that commands depend on. *)
Record State := MkState {
  InverterAvailable : option bool;
  SetpointOverride : option SetpointOverrideStatus;
  SetpointOverrideObservedAt : option F64.num;
  UIConfig : list (string * gval);
  ElectricityTariffObservedAt : option F64.num
}.

Definition ControllerCommandReady (st : option State) (name : string) (payload : gval) (now : Z) : bool :=
  match st with
  | None => false
  | Some st =>
      if negb (default false (InverterAvailable st)) then false
      else if String.eqb name "setpoint_override" then
        match SetpointOverride st with
        | None => false
        | Some _ => ObservationFresh (SetpointOverrideObservedAt st) now
        end
      else if String.eqb name "electricity_tariff" then
        let status := as_object (at_key (Some (UIConfig st)) "electricity_tariff_status") in
        let writable := as_bool (at_key status "writable") in
        let rev := as_string (at_key status "revision") in
        let matches := match payload with
                       | GNil => true
                       | _ => equals_string (at_key (as_object payload) "revision") rev
                       end in
        writable && hex64 rev && matches && ObservationFresh (ElectricityTariffObservedAt st) now
      else false
  end.

(** [(false, nil)], [(true, nil)], or an error. *)
Inductive acknowledgement : Type := NotYet | Confirmed | Failed.

Definition OverrideAcknowledged (st : State) (payload : gval) : acknowledgement :=
  let m := as_object payload in
  match SetpointOverride st with
  | Some (Status value last_error (Some id)) =>
      if negb (equals_string (at_key m "request_id") id) then NotYet
      else match last_error with
           | Some _ => Failed
           | None =>
               let expected := default None (int32Value (at_key m "value")) in
               match expected, value with
               | None, None => Confirmed
               | Some e, Some v => if e =? v then Confirmed else NotYet
               | _, _ => NotYet
               end
           end
  | _ => NotYet
  end.

(** ** The client *)

(** The part of [Client] that a pending command reads: the counters are
    [uint64]s that never wrap in practice. *)
Record Client := MkClient {
  state : State;
  overrideReceipt : Z;
  gatewayMode : bool;
  pushGeneration : Z;
  mqttSession : Z;
  open : bool
}.

Definition with_state (st : State) (c : Client) : Client :=
  MkClient st (overrideReceipt c) (gatewayMode c) (pushGeneration c) (mqttSession c) (open c).

(** [observeControllerCommands]. *)
Definition observeControllerCommands (data : list (string * gval)) (retained : bool) (now : Z) (c : Client) : Client :=
  let at_ := if retained then None else Some (unix_seconds now) in
  let c :=
    match assoc "setpoint_override" data with
    | None => c
    | Some raw =>
        let parsed := ParseOverrideStatus raw in
        let st := state c in
        MkClient (MkState (InverterAvailable st) parsed (match parsed with Some _ => at_ | None => None end)
                          (UIConfig st) (ElectricityTariffObservedAt st))
                 (overrideReceipt c + 1) (gatewayMode c) (pushGeneration c) (mqttSession c) (open c)
    end in
  match assoc "ui_config" data with
  | None => c
  | Some _ =>
      let st := state c in
      with_state (MkState (InverterAvailable st) (SetpointOverride st) (SetpointOverrideObservedAt st)
                          (UIConfig st) at_) c
  end.

(** What [ApplyControllerSnapshot] does to these fields; [ui] is the UI
    configuration that its field merge leaves. *)
Definition ApplyControllerSnapshot (data : list (string * gval)) (ui : list (string * gval)) (st : State) : State :=
  let available := Some (negb (Nat.eqb (length data) 0)) in
  if Nat.eqb (length data) 0 then MkState available None None ui None
  else MkState available (SetpointOverride st) (SetpointOverrideObservedAt st) ui (ElectricityTariffObservedAt st).

(** What happens while a command is pending. *)
Inductive event : Type :=
| OverrideFrame (raw : gval) (retained : bool) (now : Z)                            (* inverter/setpoint_override *)
| StateFrame (data ui : list (string * gval)) (retained : bool) (now : Z)           (* inverter/state *)
| Expired (ui : list (string * gval))                                               (* expireOptionalTelemetry *)
| SourceReset                                                                        (* resetPush *)
| SessionAdvanced                                                                    (* advanceMQTTSession *)
| GatewayMode (on : bool)
| Transport (up : bool).

(** [applyControllerMessage] and the other writers of these fields; a frame that
    arrives in gateway mode is dropped. *)
Definition step (c : Client) (e : event) : Client :=
  match e with
  | OverrideFrame raw retained now =>
      if gatewayMode c then c else observeControllerCommands [("setpoint_override", raw)] retained now c
  | StateFrame data ui retained now =>
      if gatewayMode c then c
      else observeControllerCommands data retained now (with_state (ApplyControllerSnapshot data ui (state c)) c)
  | Expired ui => with_state (ApplyControllerSnapshot [] ui (state c)) c
  | SourceReset => MkClient (state c) (overrideReceipt c) (gatewayMode c) (pushGeneration c + 1) (mqttSession c) (open c)
  | SessionAdvanced => MkClient (state c) (overrideReceipt c) (gatewayMode c) (pushGeneration c) (mqttSession c + 1) (open c)
  | GatewayMode on =>
      MkClient (state c) (overrideReceipt c) on (pushGeneration c + 1) (mqttSession c) (open c)
  | Transport up => MkClient (state c) (overrideReceipt c) (gatewayMode c) (pushGeneration c) (mqttSession c) up
  end.

(** [overrideAcknowledgement] before the deadline: [generation], [session] and
    [receipt] are those read when the command was published. *)
Definition overrideAcknowledgement (generation session receipt : Z) (payload : gval) (now : Z) (c : Client)
    : acknowledgement :=
  if gatewayMode c || negb (generation =? pushGeneration c) || negb (session =? mqttSession c) || negb (open c) ||
     negb (ControllerCommandReady (Some (state c)) "setpoint_override" payload now)
  then Failed
  else if overrideReceipt c <=? receipt then NotYet
  else OverrideAcknowledged (state c) payload.

(** The checks of [publishControllerCommand] before an override is published. *)
Definition may_publish (payload : gval) (now : Z) (c : Client) : bool :=
  ValidateOverride payload && open c && negb (gatewayMode c) &&
  ControllerCommandReady (Some (state c)) "setpoint_override" payload now.

(** ** Integers are exact *)

Lemma in_int32 z : (MinInt32 <=? z) && (z <=? MaxInt32) = true ↔ MinInt32 <= z <= MaxInt32.
Proof. rewrite andb_true_iff, !Z.leb_le. done. Qed.

Lemma int32_of_float_spec q z :
  int32_of_float (F64.Fin q) = Some z ↔ (q == inject_Z z)%Q ∧ MinInt32 <= z <= MaxInt32.
Proof.
  unfold int32_of_float, F64.is_integer. split.
  - destruct (Qeq_bool q _ && _ && _) eqn:E; [|done]. intros [= <-]. bool_hyps.
    match goal with H : Qeq_bool _ _ = true |- _ => apply Qeq_bool_eq in H as Hq end. split; [exact Hq|].
    repeat match goal with H : Qle_bool _ _ = true |- _ => apply Qle_bool_iff in H; rewrite Hq, <- Zle_Qle in H end.
    done.
  - intros [Hq [Hlo Hhi]]. assert (Hf : Qfloor q = z) by (rewrite Hq; apply Qfloor_Z). rewrite Hf.
    rewrite (Qeq_eq_bool _ _ Hq).
    rewrite !(proj2 (Qle_bool_iff _ _)) by (rewrite Hq, <- Zle_Qle; done). done.
Qed.

Lemma dec_opp p : dec (Zneg p) = String "-" (dec (Zpos p)).
Proof.
  unfold dec. simpl. unfold NilZero.string_of_uint. destruct (Pos.to_uint p) eqn:E; try done.
Qed.

Lemma take_digits_all z : 0 <= z -> ∃ n, 0 < n ∧ take_digits (dec z) 0 0 = (z, n, "").
Proof.
  intros Hz. destruct (take_digits_dec z "" Hz eq_refl) as (n & Hn & E). exists n. split; [done|].
  by rewrite append_nil_r in E.
Qed.

Lemma dec_unsigned z : 0 <= z -> take_sign (dec z) = (false, dec z).
Proof.
  intros Hz. destruct (take_digits_all z Hz) as (n & Hn & E).
  destruct (dec z) as [|c s]; [done|]. unfold take_sign.
  destruct c as [[] [] [] [] [] [] [] []]; try done; cbn in E; congruence || (injection E; intros; lia).
Qed.

Lemma ParseInt32_dec z : ParseInt32 (dec z) = if (MinInt32 <=? z) && (z <=? MaxInt32) then Some z else None.
Proof.
  unfold ParseInt32. destruct (Z.lt_ge_cases z 0) as [Hneg|Hpos].
  - destruct z as [|p|p]; [lia|lia|]. rewrite dec_opp. cbn [take_sign].
    destruct (take_digits_all (Zpos p) ltac:(lia)) as (n & Hn & ->).
    rewrite (proj2 (Z.eqb_neq n 0)) by lia. cbn [orb negb String.eqb]. done.
  - rewrite (dec_unsigned z Hpos). destruct (take_digits_all z Hpos) as (n & Hn & ->).
    rewrite (proj2 (Z.eqb_neq n 0)) by lia. done.
Qed.

(** An accepted integer is one: it fits 32 bits, decimal text of any integer is
    read exactly or refused, and a float64 is accepted just when it is an
    integer in the range. *)
Theorem int32Value_exact :
  (∀ v z, int32Value v = Some (Some z) -> MinInt32 <= z <= MaxInt32) ∧
  (∀ z, int32Value (GNumber (dec z)) = if (MinInt32 <=? z) && (z <=? MaxInt32) then Some (Some z) else None) ∧
  (∀ q z, int32Value (GFloat (F64.Fin q)) = Some (Some z) ↔ (q == inject_Z z)%Q ∧ MinInt32 <= z <= MaxInt32) ∧
  (∀ z, MinInt32 <= z <= MaxInt32 -> int32Value (GInt z) = Some (Some z)).
Proof.
  assert (Hfloat : ∀ x z, option_map Some (int32_of_float x) = Some (Some z) -> MinInt32 <= z <= MaxInt32).
  { intros x z. destruct x; try done. destruct (int32_of_float (F64.Fin q)) as [w|] eqn:E; [|done].
    intros [= <-]. apply int32_of_float_spec in E. tauto. }
  split; [|split; [|split]].
  - intros v z. destruct v; cbn [int32Value]; try done; try (by apply Hfloat).
    unfold ParseInt32. destruct (take_sign text) as [neg s1]. destruct (take_digits s1 0 0) as [[m n] rest].
    destruct (_ || _); [done|]. destruct (_ && _) eqn:E; [|done]. intros [= <-]. by apply in_int32.
  - intros z. cbn [int32Value]. rewrite ParseInt32_dec. by case_match.
  - intros q z. cbn [int32Value]. rewrite <- int32_of_float_spec.
    destruct (int32_of_float _); simpl; split; congruence.
  - intros z Hz. cbn [int32Value]. rewrite F64.of_Z_exact by (unfold MinInt32, MaxInt32 in *; lia).
    rewrite (proj2 (int32_of_float_spec (inject_Z z) z)); [done|]. split; [reflexivity|done].
Qed.

(** ** Acknowledgements *)

#[local] Arguments int32Value : simpl never.

(** The frame of [e] about the override, if it has one. *)
Definition frame_of (e : event) : option (gval * bool * Z) :=
  match e with
  | OverrideFrame raw retained now => Some (raw, retained, now)
  | StateFrame data _ retained now => (λ raw, (raw, retained, now)) <$> assoc "setpoint_override" data
  | _ => None
  end.

Definition source_change (e : event) : bool :=
  match e with SourceReset | SessionAdvanced | GatewayMode _ => true | _ => false end.

(** The status in the state is that of a frame of [es], or there is none. *)
Definition from_frame (es : list event) (st : State) : Prop :=
  ∃ e raw retained t, e ∈ es ∧ frame_of e = Some (raw, retained, t) ∧
    (SetpointOverride st = None ∨
     SetpointOverride st = ParseOverrideStatus raw ∧
     SetpointOverrideObservedAt st = (if retained then None else Some (unix_seconds t))).

Lemma from_frame_app es es' st : from_frame es st -> from_frame (es ++ es') st.
Proof. intros (e & raw & r & t & Hin & ?). exists e, raw, r, t. rewrite elem_of_app. tauto. Qed.

Lemma observe_receipt data retained now c :
  let c' := observeControllerCommands data retained now c in
  (pushGeneration c' = pushGeneration c ∧ mqttSession c' = mqttSession c ∧ gatewayMode c' = gatewayMode c) ∧
  match assoc "setpoint_override" data with
  | None => overrideReceipt c' = overrideReceipt c ∧ SetpointOverride (state c') = SetpointOverride (state c) ∧
            SetpointOverrideObservedAt (state c') = SetpointOverrideObservedAt (state c)
  | Some raw =>
      overrideReceipt c' = overrideReceipt c + 1 ∧ SetpointOverride (state c') = ParseOverrideStatus raw ∧
      (ParseOverrideStatus raw ≠ None ->
       SetpointOverrideObservedAt (state c') = if retained then None else Some (unix_seconds now))
  end.
Proof.
  unfold observeControllerCommands. destruct (assoc "setpoint_override" data) as [raw|];
    destruct (assoc "ui_config" data); simpl; repeat split; try done; by destruct (ParseOverrideStatus raw).
Qed.

Definition waited (c0 : Client) (es : list event) (c : Client) : Prop :=
  pushGeneration c0 <= pushGeneration c ∧ mqttSession c0 <= mqttSession c ∧ overrideReceipt c0 <= overrideReceipt c ∧
  (pushGeneration c = pushGeneration c0 -> mqttSession c = mqttSession c0 -> Forall (λ e, source_change e = false) es) ∧
  (overrideReceipt c = overrideReceipt c0 ∨ from_frame es (state c)).

Lemma snapshot_status data ui st :
  SetpointOverride (ApplyControllerSnapshot data ui st) = None ∨
  SetpointOverride (ApplyControllerSnapshot data ui st) = SetpointOverride st ∧
  SetpointOverrideObservedAt (ApplyControllerSnapshot data ui st) = SetpointOverrideObservedAt st.
Proof. unfold ApplyControllerSnapshot. destruct (Nat.eqb _ _); auto. Qed.

Lemma from_frame_keep es st st' :
  from_frame es st ->
  SetpointOverride st' = None ∨
  SetpointOverride st' = SetpointOverride st ∧ SetpointOverrideObservedAt st' = SetpointOverrideObservedAt st ->
  from_frame es st'.
Proof.
  intros (e & raw & r & t & Hin & Hf & Hst) Hk. exists e, raw, r, t. split; [done|]. split; [done|].
  destruct Hk as [->|[-> ->]]; [by left|exact Hst].
Qed.

Lemma from_frame_new es raw retained now st :
  (∃ e, e ∈ es ∧ frame_of e = Some (raw, retained, now)) ->
  SetpointOverride st = ParseOverrideStatus raw ->
  (ParseOverrideStatus raw ≠ None -> SetpointOverrideObservedAt st = if retained then None else Some (unix_seconds now)) ->
  from_frame es st.
Proof.
  intros (e & Hin & Hf) Hs Ho. exists e, raw, retained, now. split; [done|]. split; [done|].
  destruct (ParseOverrideStatus raw) eqn:E; [right|left; congruence]. split; [done|]. by apply Ho.
Qed.

(** A frame, processed with [data] on a client whose state is that of [c] or
    cleared. *)
Lemma waited_frame c0 es e data retained now c c1 :
  waited c0 es c -> source_change e = false ->
  (∀ raw, assoc "setpoint_override" data = Some raw -> frame_of e = Some (raw, retained, now)) ->
  pushGeneration c1 = pushGeneration c -> mqttSession c1 = mqttSession c -> overrideReceipt c1 = overrideReceipt c ->
  (SetpointOverride (state c1) = None ∨ SetpointOverride (state c1) = SetpointOverride (state c) ∧
     SetpointOverrideObservedAt (state c1) = SetpointOverrideObservedAt (state c)) ->
  waited c0 (es ++ [e]) (observeControllerCommands data retained now c1).
Proof.
  intros (Hg & Hs & Hr & Hn & Hst) He Hf Eg Es Er Ek.
  destruct (observe_receipt data retained now c1) as [(Og & Os & _) Hd].
  unfold waited. rewrite Og, Os, Eg, Es. split; [done|]. split; [done|].
  assert (Hall : pushGeneration c = pushGeneration c0 -> mqttSession c = mqttSession c0 ->
            Forall (λ e, source_change e = false) (es ++ [e])).
  { intros H1 H2. apply Forall_app. split; [by apply Hn|]. by constructor. }
  destruct (assoc "setpoint_override" data) as [raw|] eqn:E; destruct Hd as (Dr & Ds & Do); rewrite Dr, Er.
  - split; [lia|]. split; [exact Hall|]. right. eapply from_frame_new; [|exact Ds|exact Do].
    exists e. rewrite elem_of_app, list_elem_of_singleton. auto.
  - split; [done|]. split; [exact Hall|]. destruct Hst as [?|Hff]; [by left|right].
    apply from_frame_app. eapply from_frame_keep; [exact Hff|]. rewrite Ds, Do. exact Ek.
Qed.

Lemma waited_step c0 es e c : waited c0 es c -> waited c0 (es ++ [e]) (step c e).
Proof.
  intros W. pose proof W as (Hg & Hs & Hr & Hn & Hst).
  assert (Hkeep : ∀ c', pushGeneration c' = pushGeneration c -> mqttSession c' = mqttSession c ->
            overrideReceipt c' = overrideReceipt c -> source_change e = false ->
            (SetpointOverride (state c') = None ∨ SetpointOverride (state c') = SetpointOverride (state c) ∧
               SetpointOverrideObservedAt (state c') = SetpointOverrideObservedAt (state c)) ->
            waited c0 (es ++ [e]) c').
  { intros c' Eg Es Er He Ek. unfold waited. rewrite Eg, Es, Er. do 3 (split; [done|]). split.
    - intros H1 H2. apply Forall_app. split; [by apply Hn|]. by constructor.
    - destruct Hst as [?|Hff]; [by left|right]. apply from_frame_app. by eapply from_frame_keep. }
  assert (Hbump : ∀ c', pushGeneration c <= pushGeneration c' -> mqttSession c <= mqttSession c' ->
            (pushGeneration c' ≠ pushGeneration c0 ∨ mqttSession c' ≠ mqttSession c0) ->
            overrideReceipt c' = overrideReceipt c -> state c' = state c -> waited c0 (es ++ [e]) c').
  { intros c' Eg Es Hne Er Est. unfold waited. rewrite Er, Est. split; [lia|]. split; [lia|]. split; [done|].
    split; [intros; tauto|]. destruct Hst as [?|Hff]; [by left|right]. by apply from_frame_app. }
  destruct e as [raw retained now|data ui retained now|ui| | |on|up]; cbn [step].
  - destruct (gatewayMode c); [apply Hkeep; auto|]. eapply waited_frame; [exact W|done| |done..|by right].
    intros r. simpl. by intros [= <-].
  - destruct (gatewayMode c); [apply Hkeep; auto|]. eapply waited_frame; [exact W|done| |done..|apply snapshot_status].
    intros r Hraw. simpl. by rewrite Hraw.
  - apply Hkeep; [done..|apply snapshot_status].
  - apply Hbump; simpl; try done; lia.
  - apply Hbump; simpl; try done; lia.
  - apply Hbump; simpl; try done; lia.
  - apply Hkeep; auto.
Qed.

Lemma waited_run c0 es : waited c0 es (foldl step c0 es).
Proof.
  induction es as [|e es IH] using rev_ind.
  - unfold waited. cbn [foldl]. do 3 (split; [lia|]). split; [intros; constructor|by left].
  - rewrite foldl_app. by apply waited_step.
Qed.


Lemma observe_override raw now c :
  observeControllerCommands [("setpoint_override", raw)] false now c =
  MkClient (MkState (InverterAvailable (state c)) (ParseOverrideStatus raw)
              (match ParseOverrideStatus raw with Some _ => Some (unix_seconds now) | None => None end)
              (UIConfig (state c)) (ElectricityTariffObservedAt (state c)))
           (overrideReceipt c + 1) (gatewayMode c) (pushGeneration c) (mqttSession c) (open c).
Proof. reflexivity. Qed.

(** The status with which a controller answers a command. *)
Definition echo (payload : gval) (err : option string) : gval :=
  GObject [("value", at_key (as_object payload) "value");
           ("last_error", match err with Some e => GString e | None => GNil end);
           ("request_id", at_key (as_object payload) "request_id")].

(** The controller's answer to a valid command settles it: without an error it
    confirms, with an error it fails the command. *)
Theorem echo_settles (payload : gval) (c : Client) (t0 t now : Z) (err : option string) :
  may_publish payload t0 c = true ->
  ObservationFresh (Some (unix_seconds t)) now = true ->
  overrideAcknowledgement (pushGeneration c) (mqttSession c) (overrideReceipt c) payload now
    (step c (OverrideFrame (echo payload err) false t))
  = match err with None => Confirmed | Some _ => Failed end.
Proof.
  intros Hp Hfresh. unfold may_publish in Hp. bool_hyps.
  match goal with H : ValidateOverride _ = true |- _ => unfold ValidateOverride in H; rename H into Hval end.
  match goal with H : gatewayMode c = false |- _ => rename H into Hgm end.
  match goal with H : ControllerCommandReady _ _ _ _ = true |- _ => rename H into Hready end.
  destruct (as_object payload) as [m|] eqn:Em; [|done]. bool_hyps.
  destruct (assoc "value" m) as [x|] eqn:Ex; [|done].
  destruct (int32Value x) as [w|] eqn:Ew; [|done].
  assert (Hid : ∃ id, at_key (Some m) "request_id" = GString id).
  { match goal with H : ValidRequestID _ = true |- _ => revert H end.
    destruct (at_key (Some m) "request_id"); try done. by eexists. }
  destruct Hid as [id Hid].
  assert (Hparse : ParseOverrideStatus (echo payload err) = Some (Status w err (Some id))).
  { unfold ParseOverrideStatus, echo. rewrite Em, Hid. unfold at_key. simpl. rewrite Ex. simpl. rewrite Ew. by destruct err. }
  cbn [step]. rewrite Hgm. rewrite observe_override, Hparse.
  unfold overrideAcknowledgement. cbn [gatewayMode pushGeneration mqttSession open state overrideReceipt].
  unfold ControllerCommandReady in Hready. destruct (default false (InverterAvailable (state c))) eqn:Ea; [|done].
  unfold ControllerCommandReady. cbn [InverterAvailable SetpointOverride SetpointOverrideObservedAt].
  rewrite Ea, Hgm, !Z.eqb_refl. cbn [orb negb String.eqb]. simpl String.eqb. cbv iota.
  match goal with H : open c = true |- _ => rewrite H end. rewrite Hfresh. cbn [orb negb].
  rewrite (proj2 (Z.leb_gt _ _)) by lia. unfold OverrideAcknowledged. cbn [SetpointOverride].
  rewrite Em, Hid. cbn [equals_string]. rewrite String.eqb_refl. cbn [negb].
  destruct err; [done|]. unfold at_key. simpl. rewrite Ex. simpl. rewrite Ew. simpl.
  destruct w as [w|]; [by rewrite Z.eqb_refl|done].
Qed.

(** ** Concrete runs *)

Definition sample_payload : gval := GObject [("value", GNumber "-1500"); ("request_id", GString "req-1")].
Definition sample_client : Client :=
  MkClient (MkState (Some true) (Some (Status None None None)) (Some (unix_seconds 1000000)) [] None)
           7 false 3 5 true.
Definition sample_frames : list event :=
  [OverrideFrame (GObject [("value", GNil); ("last_error", GNil); ("request_id", GString "req-0")]) false 1001000;
   OverrideFrame (echo sample_payload None) false 1002000].


Lemma echo_settles_witness :
  overrideAcknowledgement 3 5 7 sample_payload 1003000
    (step sample_client (OverrideFrame (echo sample_payload (Some "limit")) false 1002000)) = Failed.
Proof.
  apply (echo_settles sample_payload sample_client 1000500 1002000 1003000 (Some "limit"));
    vm_compute; reflexivity.
Defined.
