(* ===== verification/NativeLeaves.v ===== *)
(** * Native notification leaves

    [internal/state/native_notification.go] and [NotificationTime] of
    [internal/state/notification.go]: which D-Bus leaves are notification slots
    and which values they accept, with the parts of [strings], [strconv],
    [math/big] and [time] that they use.  Strings are byte strings. *)

From Stdlib Require Import ZArith QArith Qround Ascii String Lia Lqa.
From stdpp Require Import base list option strings.
From S2P Require Import Prelude Float64 JsValue Utf8 ControllerCommands.

#[local] Open Scope string_scope.
#[local] Open Scope list_scope.
#[local] Open Scope Z_scope.

(** ** Strings *)

(** [strings.Split(s, sep)] for a separator of one byte. *)
Fixpoint split_on (sep : ascii) (s : string) : list string :=
  match s with
  | "" => [""]
  | String c s' =>
      match split_on sep s' with
      | w :: ws => if Ascii.eqb c sep then "" :: w :: ws else String c w :: ws
      | [] => []
      end
  end.

(** [strings.Cut]: the text before the first [sep], and what follows it. *)
Fixpoint cut_at (sep : ascii) (s : string) : string * option string :=
  match s with
  | "" => ("", None)
  | String c s' =>
      if Ascii.eqb c sep then ("", Some s')
      else let '(before, after) := cut_at sep s' in (String c before, after)
  end.

(** The white space of Unicode, encoded. *)
Definition go_spaces : list string :=
  encode_scalar <$> [9; 10; 11; 12; 13; 32; 133; 160; 5760; 8192; 8193; 8194; 8195; 8196; 8197; 8198;
                     8199; 8200; 8201; 8202; 8232; 8233; 8239; 8287; 12288].

Definition is_suffix (suffix s : string) : bool :=
  (String.length suffix <=? String.length s)%nat &&
  String.eqb (substring (String.length s - String.length suffix) (String.length suffix) s) suffix.

Fixpoint trim_start (fuel : nat) (s : string) : string :=
  match fuel with
  | O => s
  | S fuel' =>
      match List.find (λ w, String.prefix w s) go_spaces with
      | Some w => trim_start fuel' (drop_string (String.length w) s)
      | None => s
      end
  end.
Fixpoint trim_end (fuel : nat) (s : string) : string :=
  match fuel with
  | O => s
  | S fuel' =>
      match List.find (λ w, is_suffix w s) go_spaces with
      | Some w => trim_end fuel' (substring 0 (String.length s - String.length w) s)
      | None => s
      end
  end.

(** [strings.TrimSpace]; a round removes at least one byte. *)
Definition TrimSpace (s : string) : string :=
  trim_end (String.length s) (trim_start (String.length s) s).

(** The letters of [strings.ToLower] that give an ASCII letter: the ASCII
    capitals, the dotted capital I and the Kelvin sign, in UTF-8.  Results are
    only compared with ASCII texts, so other letters may stay. *)
Definition lower_ascii (c : ascii) : ascii :=
  let n := nat_of_ascii c in
  if (65 <=? n)%nat && (n <=? 90)%nat then ascii_of_nat (n + 32) else c.
Fixpoint ToLower (s : string) : string :=
  match s with
  | "" => ""
  | String c s' =>
      match s with
      | String "196" (String "176" s'') => String "i" (ToLower s'')
      | String "226" (String "132" (String "170" s'')) => String "k" (ToLower s'')
      | _ => String (lower_ascii c) (ToLower s')
      end
  end.

(** ** Numbers in text *)

(** [strconv.ParseUint(s, 10, 32)]. *)
Definition ParseUint32 (s : string) : option Z :=
  let '(m, n, rest) := take_digits s 0 0 in
  if (n =? 0) || negb (String.eqb rest "") then None
  else if m <? 2 ^ 32 then Some m else None.

Definition hex_digit (c : ascii) : option Z :=
  let n := Z.of_nat (nat_of_ascii (lower_ascii c)) in
  if (48 <=? n) && (n <=? 57) then Some (n - 48)
  else if (97 <=? n) && (n <=? 102) then Some (n - 87) else None.

(** A digit of the base. *)
Definition base_digit (hexadecimal : bool) (c : ascii) : option Z :=
  if hexadecimal then hex_digit c else digit_val c.

(** The mantissa of a numeral: digits, underscores and at most one point.  The
    value, the digits after the point, whether there was a digit, a point, an
    underscore, and the rest. *)
Fixpoint mantissa (hexadecimal : bool) (s : string) (m scale : Z) (digits point under : bool)
  : Z * Z * bool * bool * string :=
  match s with
  | "" => (m, scale, digits, under, s)
  | String c s' =>
      if Ascii.eqb c "_" then mantissa hexadecimal s' m scale digits point true
      else if Ascii.eqb c "." then
        if point then (m, scale, digits, under, s) else mantissa hexadecimal s' m scale digits true under
      else
        match base_digit hexadecimal c with
        | Some d => mantissa hexadecimal s' ((if hexadecimal then 16 else 10) * m + d)
                             (if point then scale + 1 else scale) true point under
        | None => (m, scale, digits, under, s)
        end
  end.

(** The digits of an exponent, with underscores. *)
Fixpoint exponent_digits (s : string) (e : Z) (under : bool) : Z * bool * string :=
  match s with
  | "" => (e, under, s)
  | String c s' =>
      if Ascii.eqb c "_" then exponent_digits s' e true
      else match digit_val c with
           | Some d => exponent_digits s' (10 * e + d) under
           | None => (e, under, s)
           end
  end.

(** [underscoreOK]: underscores only separate digits or follow a base prefix. *)
Inductive seen : Type := SeenStart | SeenDigit | SeenUnder | SeenOther.
Fixpoint underscores_ok (hexadecimal : bool) (s : string) (saw : seen) : bool :=
  match s with
  | "" => match saw with SeenUnder => false | _ => true end
  | String c s' =>
      match base_digit hexadecimal c with
      | Some _ => underscores_ok hexadecimal s' SeenDigit
      | None =>
          if Ascii.eqb c "_" then
            match saw with SeenDigit => underscores_ok hexadecimal s' SeenUnder | _ => false end
          else match saw with SeenUnder => false | _ => underscores_ok hexadecimal s' SeenOther end
      end
  end.

(** A numeral: its sign, base, mantissa, digits after the point and exponent. *)
Record numeral := Numeral { negative : bool; hexadecimal : bool; digits : Z; scale : Z; exponent : Z }.

Definition numeral_of (s : string) : option numeral :=
  let '(neg, s1) := take_sign s in
  let '(hexa, s2) :=
    match s1 with
    | String "0" (String x (String c s')) =>
        if Ascii.eqb (lower_ascii x) "x" then (true, String c s') else (false, s1)
    | _ => (false, s1)
    end in
  let '(m, sc, some, under, rest) := mantissa hexa s2 0 0 false false false in
  if negb some then None
  else
    match rest with
    | "" =>
        if hexa || (under && negb (underscores_ok hexa s2 (if hexa then SeenDigit else SeenStart)))
        then None else Some (Numeral neg hexa m sc 0)
    | String c s3 =>
        if negb (Ascii.eqb (lower_ascii c) (if hexa then "p" else "e")%char) then None
        else
          let '(eneg, s4) := take_sign s3 in
          match s4 with
          | String d _ =>
              match digit_val d with
              | None => None
              | Some _ =>
                  let '(e, under', rest') := exponent_digits s4 0 under in
                  if negb (String.eqb rest' "") ||
                     (under' && negb (underscores_ok hexa s2 (if hexa then SeenDigit else SeenStart)))
                  then None
                  else Some (Numeral neg hexa m sc (if eneg then - e else e))
              end
          | "" => None
          end
    end.

(** The value of a numeral with a given exponent. *)
Definition scaled (n : numeral) (e : Z) : Q :=
  let q := if hexadecimal n then (inject_Z (digits n) * 2 ^ (e - 4 * scale n))%Q
           else (inject_Z (digits n) * 10 ^ (e - scale n))%Q in
  if negative n then (- q)%Q else q.

Definition exact (n : numeral) : Q := scaled n (exponent n).

(** [strconv] stops reading an exponent once it has reached 10000. *)
Fixpoint saturate (fuel : nat) (e : Z) : Z :=
  match fuel with
  | O => e
  | S fuel' => if e <? 100000 then e else saturate fuel' (e / 10)
  end.
Definition saturated (e : Z) : Z := Z.sgn e * saturate (Z.to_nat (Z.log2 (Z.abs e))) (Z.abs e).

Fixpoint lower_text (s : string) : string :=
  match s with "" => "" | String c s' => String (lower_ascii c) (lower_text s') end.

(** The named values, without regard to case. *)
Definition special (s : string) : option F64.num :=
  let '(neg, s1) := take_sign s in
  let l := lower_text s1 in
  if String.eqb l "inf" || String.eqb l "infinity" then Some (if neg then F64.NInf else F64.PInf)
  else if String.eqb (lower_text s) "nan" then Some F64.NaN else None.

(** [strconv.ParseFloat(s, 64)]; [None] is an error. *)
Definition ParseFloat (s : string) : option F64.num :=
  match special s with
  | Some x => Some x
  | None =>
      n ← numeral_of s;
      match F64.round (scaled n (saturated (exponent n))) with
      | F64.Fin q => Some (F64.Fin q)
      | _ => None
      end
  end.

(** [new(big.Rat).SetString(s)] and [IsInt]: the exact value; the powers of
    five it needs are bounded. *)
Definition exact_integer (s : string) : bool :=
  match numeral_of s with
  | Some n => (hexadecimal n || (Z.abs (exponent n - scale n) <=? 1000000)) && F64.is_integer (exact n)
  | None => false
  end.

(** ** Dates *)

(** Year, month and day of a number of days after 1970-01-01. *)
Definition civil (days : Z) : Z * Z * Z :=
  let z := days + 719468 in
  let era := z / 146097 in
  let doe := z mod 146097 in
  let yoe := (doe - doe / 1460 + doe / 36524 - doe / 146096) / 365 in
  let doy := doe - (365 * yoe + yoe / 4 - yoe / 100) in
  let mp := (5 * doy + 2) / 153 in
  let month := if mp <? 10 then mp + 3 else mp - 9 in
  (yoe + era * 400 + (if month <=? 2 then 1 else 0), month, doy - (153 * mp + 2) / 5 + 1).

(** [time.Unix(s, 0).UTC().Format(time.RFC3339)] up to the year 9999. *)
Definition rfc3339 (s : Z) : string :=
  let '(y, m, d) := civil (s / 86400) in
  let t := s mod 86400 in
  let two n := pad_start 2 "0" (dec n) in
  pad_start 4 "0" (dec y) +:+ "-" +:+ two m +:+ "-" +:+ two d +:+ "T" +:+
  two (t / 3600) +:+ ":" +:+ two (t / 60 mod 60) +:+ ":" +:+ two (t mod 60) +:+ "Z".

Definition lastRFC3339Second : Z := 253402300799.

(** The tail of [NotificationTime] for a float64 and the text it came from. *)
Definition time_of (seconds : F64.num) (exactText : string) : string :=
  match seconds with
  | F64.Fin q =>
      if Qle_bool q 0 || negb (Qle_bool q (inject_Z lastRFC3339Second)) || negb (F64.is_integer q) then ""
      else if negb (String.eqb exactText "") && negb (exact_integer exactText) then ""
      else rfc3339 (Qfloor q)
  | _ => ""
  end.

Definition NotificationTime (value : gval) : string :=
  match value with
  | GFloat x => time_of x ""
  | GInt z => time_of (F64.of_Z z) ""
  | GNumber text | GString text =>
      match ParseFloat text with Some x => time_of x text | None => "" end
  | _ => ""
  end.

(** ** Slots and their values *)

(** [ParsePlatformNotificationKey]. *)
Definition slot_fields : list string :=
  ["Description"; "DeviceName"; "Service"; "DateTime"; "Type"; "Acknowledged"; "Active"; "Silenced"].

Definition ParsePlatformNotificationKey (key : string) : option (Z * Z * string) :=
  match split_on "/" key with
  | [p0; p1; p2; p3] =>
      if negb (String.eqb p1 "Notifications") then None
      else
        instance ← ParseUint32 p0;
        slot ← ParseUint32 p2;
        if 20 <? slot then None
        else if existsb (String.eqb p3) slot_fields then Some (instance, slot, p3) else None
  | _ => None
  end.

(** [number] is 0, 1 or 2. *)
Definition enum_of (number : F64.num) : option Z :=
  if F64.eqb number (F64.of_Z 0) then Some 0
  else if F64.eqb number (F64.of_Z 1) then Some 1
  else if F64.eqb number (F64.of_Z 2) then Some 2 else None.

(** A digit from 1 to 9 before the exponent. *)
Fixpoint nonzero_digit (s : string) : bool :=
  match s with
  | "" => false
  | String c s' =>
      match digit_val c with Some d => negb (d =? 0) | None => false end || nonzero_digit s'
  end.

Definition level_of_text (text : string) : option Z :=
  number ← ParseFloat text;
  level ← enum_of number;
  if level =? 0 then
    if nonzero_digit (fst (cut_at "e" (ToLower text))) then None else Some 0
  else if exact_integer text then Some level else None.

Definition NativeNotificationLevel (value : gval) : option Z :=
  match value with
  | GFloat x => enum_of x
  | GInt z => enum_of (F64.of_Z z)
  | GNumber text => level_of_text text
  | GString text => level_of_text (TrimSpace text)
  | _ => None
  end.

Definition NativeNotificationBool (value : gval) : option bool :=
  let by_level :=
    level ← NativeNotificationLevel value;
    if level <=? 1 then Some (level =? 1) else None in
  match value with
  | GBool b => Some b
  | GString text =>
      let t := ToLower (TrimSpace text) in
      if String.eqb t "true" then Some true
      else if String.eqb t "false" then Some false
      else by_level
  | _ => by_level
  end.

Definition ValidPlatformNotificationValue (field : string) (value : gval) : bool :=
  match value with
  | GNil => true
  | _ =>
      if existsb (String.eqb field) ["Description"; "DeviceName"; "Service"] then
        match value with GString _ => true | _ => false end
      else if String.eqb field "DateTime" then
        match value with
        | GString _ | GNumber _ | GFloat _ | GInt _ | GBool _ => true
        | _ => false
        end
      else if String.eqb field "Type" then
        match NativeNotificationLevel value with Some _ => true | None => false end
      else if existsb (String.eqb field) ["Acknowledged"; "Active"; "Silenced"] then
        match NativeNotificationBool value with Some _ => true | None => false end
      else false
  end.

Example time_sample : NotificationTime (GNumber "1700000000") = "2023-11-14T22:13:20Z".
Proof. vm_compute. reflexivity. Qed.
Example time_leap : NotificationTime (GString "951782400.0") = "2000-02-29T00:00:00Z".
Proof. vm_compute. reflexivity. Qed.
Example time_fraction : NotificationTime (GNumber "1700000000.00000001") = "".
Proof. vm_compute. reflexivity. Qed.
Example level_sample :
  NativeNotificationLevel <$> [GNumber "2"; GNumber "1.5"; GNumber "0.1e1"; GNumber "1e-400"; GString " 1 ";
                               GString "2.000000000000000000001"; GBool true; GNumber "1_0e-1"]
  = [Some 2; None; Some 1; None; Some 1; None; None; Some 1].
Proof. vm_compute. reflexivity. Qed.

(** ** Parts of a text *)

Lemma split_on_nonempty sep s : split_on sep s ≠ [].
Proof. induction s as [|c s IH]; simpl; [done|]. destruct (split_on sep s); [done|]. by destruct (Ascii.eqb c sep). Qed.

Lemma split_on_app sep a b : split_on sep (a +:+ String sep b) = split_on sep a ++ split_on sep b.
Proof.
  induction a as [|c a IH].
  - change ("" +:+ String sep b) with (String sep b). cbn [split_on].
    pose proof (split_on_nonempty sep b). destruct (split_on sep b); [done|]. by rewrite Ascii.eqb_refl.
  - change (String c a +:+ String sep b) with (String c (a +:+ String sep b)). cbn [split_on]. rewrite IH.
    pose proof (split_on_nonempty sep a). destruct (split_on sep a) as [|w ws]; [done|].
    cbn [app]. by destruct (Ascii.eqb c sep).
Qed.

Lemma substring_all s : substring 0 (String.length s) s = s.
Proof. induction s as [|c s IH]; [done|]. cbn. by rewrite IH. Qed.

Lemma drop_append a s : drop_string (String.length a) (a +:+ s) = s.
Proof.
  unfold drop_string. rewrite length_append. replace (_ + _ - _)%nat with (String.length s) by lia.
  induction a as [|c a IH]; [apply substring_all|exact IH].
Qed.

Lemma prefix_append a s : String.prefix a (a +:+ s) = true.
Proof. induction a as [|c a IH]; [by destruct s|].
  change (String c a +:+ s) with (String c (a +:+ s)). cbn [String.prefix]. by destruct (ascii_dec c c).
Qed.

Lemma prefix_split a s : String.prefix a s = true -> s = a +:+ drop_string (String.length a) s.
Proof.
  intros H. assert (E : ∃ t, s = a +:+ t).
  { revert s H. induction a as [|c a IH]; intros s H; [by exists s|]. destruct s as [|c' s]; [done|].
    cbn in H. destruct (ascii_dec c c') as [->|]; [|done]. destruct (IH s H) as [t ->]. by exists t. }
  destruct E as [t ->]. by rewrite drop_append.
Qed.

Lemma append_inj a s t : a +:+ s = a +:+ t -> s = t.
Proof. induction a as [|c a IH]; [done|]. cbn. intros [= H]. by apply IH. Qed.

(** ** Levels are exact *)

Lemma ascii_codes (P : ascii -> Prop) : (∀ n, (n < 256)%nat -> P (ascii_of_nat n)) -> ∀ c, P c.
Proof. intros H c. rewrite <- (ascii_nat_embedding c). apply H, nat_ascii_bounded. Qed.

Lemma digit_code c d : digit_val c = Some d -> Z.of_nat (nat_of_ascii c) = d + 48 ∧ 0 <= d <= 9.
Proof. unfold digit_val. destruct (_ && _) eqn:E; [|done]. intros [= <-]. bool_cases. lia. Qed.

(** [ToLower] passes over a byte that starts no letter with an ASCII image. *)
Lemma ToLower_cons c s : (nat_of_ascii c < 128)%nat -> ToLower (String c s) = String (lower_ascii c) (ToLower s).
Proof. intros Hc. destruct c as [[] [] [] [] [] [] [] []]; try reflexivity; cbv in Hc; lia. Qed.

Lemma lower_digit c d : digit_val c = Some d -> lower_ascii c = c ∧ (nat_of_ascii c < 128)%nat.
Proof.
  intros [H Hd]%digit_code. unfold lower_ascii.
  rewrite (proj2 (Nat.leb_gt 65 (nat_of_ascii c))) by lia. split; [done|lia].
Qed.

(** The digits of the mantissa, as the code looks for them. *)
Definition has_digit (s : string) : bool := nonzero_digit (fst (cut_at "e" (ToLower s))).

Lemma has_digit_cons c s :
  (nat_of_ascii c < 128)%nat -> lower_ascii c ≠ "e"%char ->
  has_digit (String c s)
  = match digit_val (lower_ascii c) with Some d => negb (d =? 0) | None => false end || has_digit s.
Proof.
  intros Hc He. unfold has_digit. rewrite ToLower_cons by done. cbn [cut_at].
  rewrite (proj2 (Ascii.eqb_neq _ _) He). by destruct (cut_at "e" (ToLower s)).
Qed.

(** The mantissa of a decimal numeral is zero exactly when no other digit
    precedes the exponent. *)
Lemma mantissa_zero s : ∀ m sc dg pt un m' sc' dg' un' rest,
  0 <= m ->
  mantissa false s m sc dg pt un = (m', sc', dg', un', rest) ->
  match rest with "" => True | String c _ => lower_ascii c = "e"%char end ->
  0 <= m' ∧ (m' = 0 ↔ m = 0 ∧ has_digit s = false).
Proof.
  induction s as [|c s IH]; intros m sc dg pt un m' sc' dg' un' rest Hm H Hrest.
  { simpl in H. simplify_eq. unfold has_digit. simpl. tauto. }
  assert (Hstop : match String c s with "" => True | String c _ => lower_ascii c = "e"%char end ->
                  has_digit (String c s) = false).
  { intros He. unfold has_digit. rewrite ToLower_cons, He; [done|].
    revert He. clear. destruct c as [[] [] [] [] [] [] [] []]; intros He; cbv in He |- *; congruence || lia. }
  cbn [mantissa] in H. destruct (Ascii.eqb_spec c "_") as [->|_].
  { rewrite has_digit_cons by (cbv; (lia || done)). by eapply IH. }
  destruct (Ascii.eqb_spec c ".") as [->|_].
  { destruct pt; [simplify_eq/=; by destruct Hrest|].
    rewrite has_digit_cons by (cbv; (lia || done)). by eapply IH. }
  unfold base_digit in H. destruct (digit_val c) as [d|] eqn:Ed.
  - destruct (lower_digit c d Ed) as [El Hc]. pose proof (digit_code c d Ed) as [Hd1 Hd2].
    assert (Hne : lower_ascii c ≠ "e"%char).
    { rewrite El. intros ->. done. }
    rewrite has_digit_cons, El, Ed by done.
    apply IH in H as [H1 H2]; [|lia|done]. split; [done|]. rewrite H2.
    destruct (Z.eqb_spec d 0) as [->|]; cbn [negb orb]; split; intros []; split; try done; lia.
  - simplify_eq. split; [done|]. rewrite Hstop by done. tauto.
Qed.

Lemma numeral_zero s n : numeral_of s = Some n -> hexadecimal n = false ->
  0 <= digits n ∧ (digits n = 0 ↔ has_digit s = false).
Proof.
  unfold numeral_of. intros H Hx. destruct (take_sign s) as [neg s1] eqn:Es.
  assert (Hs : has_digit s = has_digit s1).
  { destruct s as [|c s']; [by simplify_eq/=|]. unfold take_sign in Es.
    destruct (Ascii.eqb_spec c "-") as [->|]; [simplify_eq; rewrite has_digit_cons by (cbv; (lia || done)); reflexivity|].
    destruct (Ascii.eqb_spec c "+") as [->|]; [simplify_eq; rewrite has_digit_cons by (cbv; (lia || done)); reflexivity|].
    destruct c as [[] [] [] [] [] [] [] []]; simplify_eq; done. }
  rewrite Hs. clear Hs Es s.
  destruct (match s1 with String "0" (String x (String c s')) => _ | _ => _ end) as [hexa s2] eqn:Eh.
  destruct (mantissa hexa s2 0 0 false false false) as [[[[m sc] some] under] rest] eqn:Em.
  assert (Hr : hexa = false ∧ digits n = m ∧
               match rest with "" => True | String c _ => lower_ascii c = "e"%char end).
  { destruct some; [|done]. cbn [negb] in H. destruct rest as [|c rest].
    - destruct (hexa || _) eqn:E; [done|]. apply orb_false_iff in E as [-> _]. by simplify_eq.
    - destruct (Ascii.eqb_spec (lower_ascii c) (if hexa then "p" else "e")%char) as [Ec|]; [|done].
      cbn [negb] in H. destruct (take_sign rest) as [eneg s4]. destruct s4 as [|d s4]; [done|].
      destruct (digit_val d); [|done]. destruct (exponent_digits _ _ _) as [[e under'] rest'].
      destruct (_ || _); [done|]. simplify_eq. simpl in Hx. by subst hexa. }
  destruct Hr as (-> & -> & Hr).
  assert (s2 = s1) as ->. { repeat case_match; simplify_eq; done. }
  apply mantissa_zero in Em; [|lia|done]. tauto.
Qed.

Lemma special_first s x : special s = Some x ->
  ∃ c t, (take_sign s).2 = String c t ∧ (c = "i" ∨ c = "I" ∨ c = "n" ∨ c = "N")%char.
Proof.
  unfold special. destruct (take_sign s) as [neg s1] eqn:Es. cbn [snd].
  assert (Hfirst : ∀ w c' w', lower_text w = String c' w' -> ∃ c t, w = String c t ∧ lower_ascii c = c').
  { intros [|c t] c' w' H; simplify_eq/=. eauto. }
  assert (Hi : ∀ c, lower_ascii c = "i"%char -> c = "i"%char ∨ c = "I"%char).
  { intros c. destruct c as [[] [] [] [] [] [] [] []]; intros H; cbv in H; (congruence || tauto). }
  assert (Hn : ∀ c, lower_ascii c = "n"%char -> c = "n"%char ∨ c = "N"%char).
  { intros c. destruct c as [[] [] [] [] [] [] [] []]; intros H; cbv in H; (congruence || tauto). }
  destruct (_ || _) eqn:E.
  - intros _. apply orb_true_iff in E as [E%String.eqb_eq|E%String.eqb_eq];
      apply Hfirst in E as (c & t & -> & E); exists c, t; (split; [done|]); apply Hi in E; tauto.
  - destruct (String.eqb_spec (lower_text s) "nan") as [En|]; [|done]. intros _.
    apply Hfirst in En as (c & t & -> & En). apply Hn in En.
    exists c, t. split; [|tauto]. destruct En as [->| ->]; by simplify_eq/=.
Qed.

Lemma numeral_special s n : numeral_of s = Some n -> special s = None.
Proof.
  destruct (special s) as [x|] eqn:E; [|done]. apply special_first in E as (c & t & E & Hc).
  unfold numeral_of. destruct (take_sign s) as [neg s1]. cbn [snd] in E. subst s1.
  by destruct Hc as [->|[->|[->| ->]]].
Qed.

Lemma saturated_id e : Z.abs e < 100000 -> saturated e = e.
Proof.
  intros H. unfold saturated. replace (saturate _ (Z.abs e)) with (Z.abs e); [lia|].
  generalize (Z.to_nat (Z.log2 (Z.abs e))) as fuel. intros [|fuel]; simpl; [done|].
  by rewrite (proj2 (Z.ltb_lt _ _) H).
Qed.

Lemma round_mag_half (q : Q) : (1 <= q)%Q -> (q * (1 # 2) <= F64.round_mag q)%Q.
Proof.
  intros Hq. pose proof (F64.round_mag_err q) as [H _].
  assert (Hu : (2 ^ F64.ulp_exp q <= q)%Q).
  { unfold F64.ulp_exp. destruct (F64.qlog2_spec q) as [Hl _]; [lra|].
    destruct (Z.max_spec (F64.qlog2 q - 52) (-1074)) as [[_ ->]|[_ ->]].
    - assert (2 ^ (-1074) <= 2 ^ 0)%Q by (apply F64.pow2_le; lia). change (2 ^ 0)%Q with 1%Q in *. lra.
    - assert (2 ^ (F64.qlog2 q - 52) <= 2 ^ F64.qlog2 q)%Q by (apply F64.pow2_le; lia). lra. }
  lra.
Qed.

(** A double that is a small integer is the exact value, when that is an
    integer too. *)
Lemma round_small_integer (q r : Q) (l : Z) :
  F64.is_integer q = true -> F64.round q = F64.Fin r -> (r == inject_Z l)%Q -> Z.abs l <= 2 -> (q == inject_Z l)%Q.
Proof.
  intros Hi Hr El Hl. apply Qeq_bool_eq in Hi. set (z := Qfloor q) in Hi.
  destruct (Z.le_gt_cases (Z.abs z) (2 ^ 53)) as [Hz|Hz].
  { rewrite (F64.round_Z z q Hi Hz) in Hr. injection Hr as <-. by rewrite Hi. }
  exfalso. assert (Hbig : (2 ^ 53 + 1 <= Z.abs z)%Z) by lia.
  assert (Hq : (inject_Z (2 ^ 53 + 1) <= q ∨ inject_Z (2 ^ 53 + 1) <= - q)%Q).
  { destruct (Z.le_gt_cases 0 z); [left|right]; rewrite Hi, <- ?inject_Z_opp; rewrite <- Zle_Qle; lia. }
  assert (Hl2 : (inject_Z (-2) <= inject_Z l <= inject_Z 2)%Q) by (split; rewrite <- Zle_Qle; lia).
  change (inject_Z (2 ^ 53 + 1)) with 9007199254740993%Q in Hq.
  change (inject_Z (-2)) with (-2)%Q in Hl2. change (inject_Z 2) with 2%Q in Hl2.
  unfold F64.round in Hr. destruct (Qcompare_spec q 0) as [E|E|E].
  - lra.
  - destruct (Qle_bool _ _); [done|]. injection Hr as <-. rewrite Qred_correct in El.
    pose proof (round_mag_half (- q)). lra.
  - destruct (Qle_bool _ _); [done|]. injection Hr as <-. rewrite Qred_correct in El.
    pose proof (round_mag_half q). lra.
Qed.

Lemma enum_of_spec x level : enum_of x = Some level ↔
  0 <= level <= 2 ∧ ∃ q, x = F64.Fin q ∧ (q == inject_Z level)%Q.
Proof.
  unfold enum_of. rewrite !F64.of_Z_exact by lia. destruct x as [| | |q]; cbn [F64.eqb].
  1-3: split; [done|]; intros [_ (q & ? & _)]; done.
  assert (Hb : ∀ z, Qeq_bool q (inject_Z z) = true ↔ (q == inject_Z z)%Q) by (intros; apply Qeq_bool_iff).
  split.
  - intros H. repeat case_match; simplify_eq; (split; [lia|]); exists q; (split; [done|]); by apply Hb.
  - intros [Hl (q' & [= <-] & Hq)].
    assert (Hneq : ∀ z, z ≠ level -> Qeq_bool q (inject_Z z) = false).
    { intros z Hz. apply not_true_iff_false. rewrite Hb, Hq. intros Heq. apply Hz. symmetry. by apply inject_Z_injective. }
    assert (Hc : level = 0 ∨ level = 1 ∨ level = 2) by lia.
    destruct Hc as [->|[->| ->]]; rewrite ?Hneq by lia; by rewrite (proj2 (Hb _) Hq).
Qed.

Lemma scaled_zero n e : digits n = 0 -> (scaled n e == 0)%Q.
Proof. intros H. unfold scaled. rewrite H. destruct (hexadecimal n), (negative n); change (inject_Z 0) with 0%Q; ring. Qed.

Lemma pow10_pos (e : Z) : (0 < 10 ^ e)%Q.
Proof. apply Qpower.Qpower_0_lt. lra. Qed.

Lemma scaled_nonzero n e : hexadecimal n = false -> (scaled n e == 0)%Q -> digits n = 0.
Proof.
  intros Hx H. unfold scaled in H. rewrite Hx in H. pose proof (pow10_pos (e - scale n)).
  assert (E : (inject_Z (digits n) * 10 ^ (e - scale n) == 0)%Q) by (destruct (negative n); lra).
  apply Qmult_integral in E as [E|E]; [|lra]. apply (inject_Z_injective (digits n) 0). exact E.
Qed.

(** A decimal number is accepted as a notification level exactly when its
    value, before any rounding, is 0, 1 or 2: neither a fraction below the
    precision of a double nor an underflow passes for a level. *)
Theorem level_exact (text : string) (n : numeral) (level : Z) :
  numeral_of text = Some n -> hexadecimal n = false ->
  Z.abs (exponent n) < 100000 -> Z.abs (exponent n - scale n) <= 1000000 ->
  NativeNotificationLevel (GNumber text) = Some level ↔ 0 <= level <= 2 ∧ (exact n == inject_Z level)%Q.
Proof.
  intros Hn Hx He Hs. cbn [NativeNotificationLevel]. unfold level_of_text, ParseFloat, exact_integer.
  rewrite (numeral_special text n Hn), Hn. cbn [mbind option_bind]. rewrite saturated_id, Hx by done.
  fold (exact n). rewrite (proj2 (Z.leb_le _ _) Hs). cbn [orb andb].
  destruct (numeral_zero text n Hn Hx) as [_ Hz]. unfold has_digit in Hz. split.
  - destruct (F64.round (exact n)) as [| | |r] eqn:Er; try done. cbn [mbind option_bind].
    destruct (enum_of (F64.Fin r)) as [l|] eqn:El; [|done]. cbn [mbind option_bind].
    apply enum_of_spec in El as [Hl (r' & [= <-] & Hr)]. destruct (Z.eqb_spec l 0) as [->|Hl0].
    + destruct (nonzero_digit _); [done|]. intros [= <-]. split; [lia|]. apply scaled_zero. tauto.
    + destruct (F64.is_integer (exact n)) eqn:Ei; [|done]. intros [= <-]. split; [lia|].
      apply (round_small_integer _ r); [done|done|done|lia].
  - intros [Hl Hq]. rewrite (F64.round_Z level (exact n) Hq) by lia. cbn [mbind option_bind].
    rewrite (proj2 (enum_of_spec _ level)) by (split; [done|]; by exists (inject_Z level)).
    cbn [mbind option_bind]. destruct (Z.eqb_spec level 0) as [->|Hl0].
    + rewrite (proj1 Hz); [done|]. by apply (scaled_nonzero n (exponent n)).
    + replace (F64.is_integer (exact n)) with true; [done|]. symmetry. unfold F64.is_integer.
      apply Qeq_eq_bool. rewrite Hq, Qfloor_Z. done.
Qed.

Lemma level_exact_witness :
  NativeNotificationLevel (GNumber "0.02E2") = Some 2 ↔
  0 <= 2 <= 2 ∧ (exact (Numeral false false 2 2 2) == inject_Z 2)%Q.
Proof.
  apply (level_exact "0.02E2" (Numeral false false 2 2 2) 2); [reflexivity|reflexivity|reflexivity|].
  vm_compute. discriminate.
Defined.

(** In hexadecimal text the letter at which the mantissa is cut is a digit. *)
Example underflow_in_hexadecimal :
  NativeNotificationLevel (GString "0xep-2000") = Some 0 ∧ NativeNotificationLevel (GString "0x1p-2000") = None.
Proof. split; vm_compute; reflexivity. Qed.
