(* ===== verification/JsonFields.v ===== *)
(** * Typed fields and the decoding of JSON into them

    The types of the fields of [internal/state/state.go], the values they hold,
    and what [encoding/json] stores into a field: numbers, texts, pointers,
    maps, slices and structures, with the conversions that fail and those that
    leave the field alone.  A decoder goes on after a value of a wrong type and
    reports the first such error at the end. *)

From Stdlib Require Import ZArith QArith Qround Ascii String Lia.
From stdpp Require Import base list option strings gmap fin_maps.
From S2P Require Import Prelude Float64 JsValue Utf8 ControllerCommands NativeLeaves.

#[local] Open Scope string_scope.
#[local] Open Scope list_scope.
#[local] Open Scope Z_scope.

(** ** Types and values *)

Inductive kind : Type :=
| KFloat
| KInt (lo hi : Z)
| KBool
| KString
| KAny
| KRaw
| KPtr (k : kind)
| KMap (k : kind)
| KSlice (k : kind)
| KStruct (fs : list (string * kind)).

(** [None] is nil; a structure lists its fields in the order of its type. *)
Inductive goval : Type :=
| FFloat (x : F64.num)
| FInt (z : Z)
| FBool (b : bool)
| FString (s : string)
| FAny (v : gval)
| FRaw (v : option gval)
| FPtr (o : option goval)
| FMap (o : option (list (string * goval)))
| FSlice (o : option (list goval))
| FStruct (fs : list (string * goval)).

Fixpoint zero (k : kind) : goval :=
  match k with
  | KFloat => FFloat (F64.Fin 0)
  | KInt _ _ => FInt 0
  | KBool => FBool false
  | KString => FString ""
  | KAny => FAny GNil
  | KRaw => FRaw None
  | KPtr _ => FPtr None
  | KMap _ => FMap None
  | KSlice _ => FSlice None
  | KStruct fs => FStruct (List.map (λ f, (fst f, zero (snd f))) fs)
  end.

(** [clearStateField] on the value of a field. *)
Definition cleared (k : kind) : goval :=
  match k with KMap _ => FMap (Some []) | KSlice _ => FSlice (Some []) | _ => zero k end.

(** ** Values of JSON *)

(** [json.Marshal] accepts no infinity and no NaN. *)
Fixpoint encodable (v : gval) : bool :=
  match v with
  | GFloat (F64.Fin _) => true
  | GFloat _ => false
  | GSlice l => forallb encodable l
  | GObject o => forallb (λ e, encodable (snd e)) o
  | _ => true
  end.

(** Text that is not UTF-8 is encoded with replacement characters. *)
Definition coerce (s : string) : string := encode (runes s).

Definition finite (x : F64.num) : option F64.num := match x with F64.Fin _ => Some x | _ => None end.

(** A number as the decoder sees it. *)
Definition float_of (v : gval) : option F64.num :=
  match v with
  | GFloat x => finite x
  | GInt z | GInt32 z => finite (F64.of_Z z)
  | GNumber text => ParseFloat text ≫= finite
  | _ => None
  end.

(** A float64 is written without exponent below 1e21, so its text is that of
    an integer when its value is one. *)
Definition integer_of (v : gval) : option Z :=
  match v with
  | GFloat (F64.Fin q) => if F64.is_integer q then Some (Qfloor q) else None
  | GInt z | GInt32 z => Some z
  | GNumber text =>
      let '(neg, s1) := take_sign text in
      let '(m, n, rest) := take_digits s1 0 0 in
      if (n =? 0) || negb (String.eqb rest "") then None else Some (if neg then - m else m)
  | _ => None
  end.

(** What an [interface{}] receives. *)
Fixpoint any_of (v : gval) : gval :=
  match v with
  | GInt z | GInt32 z => GFloat (F64.of_Z z)
  | GNumber text => match ParseFloat text with Some x => GFloat x | None => GNil end
  | GString s => GString (coerce s)
  | GSlice l => GSlice (List.map any_of l)
  | GObject o => GObject (List.map (λ e, (coerce (fst e), any_of (snd e))) o)
  | _ => v
  end.

(** ** Names of fields *)

(** Case folding of ASCII letters, the long s and the Kelvin sign. *)
Fixpoint fold_name (s : string) : string :=
  match s with
  | "" => ""
  | String c s' =>
      match s with
      | String "197" (String "191" s'') => String "s" (fold_name s'')
      | String "226" (String "132" (String "170" s'')) => String "k" (fold_name s'')
      | _ => String (lower_ascii c) (fold_name s')
      end
  end.

(** The field that a key means: the field of that name, or one that differs
    only in case. *)
Definition find_field (names : list string) (key : string) : option string :=
  match List.find (String.eqb key) names with
  | Some n => Some n
  | None => List.find (λ n, String.eqb (fold_name n) (fold_name key)) names
  end.

(** ** Decoding *)

(** [json.Marshal] writes the keys of a map in order. *)
Definition by_key {A} (o : list (string * A)) : list (string * A) :=
  stable_sort (λ x y, String.ltb (fst y) (fst x)) o.

Definition unless_null (v : gval) (nil : goval) (r : goval * bool) : goval * bool :=
  match v with GNil => (nil, true) | _ => r end.

(** The value that the field has afterwards and whether there was no error. *)
Fixpoint decode (k : kind) (v : gval) (old : goval) : goval * bool :=
  match k with
  | KFloat => unless_null v old (match float_of v with Some x => (FFloat x, true) | None => (old, false) end)
  | KInt lo hi =>
      unless_null v old
        (match integer_of v with
         | Some z => if (lo <=? z) && (z <=? hi) then (FInt z, true) else (old, false)
         | None => (old, false)
         end)
  | KBool => unless_null v old (match v with GBool b => (FBool b, true) | _ => (old, false) end)
  | KString => unless_null v old (match v with GString s => (FString (coerce s), true) | _ => (old, false) end)
  | KAny => (FAny (any_of v), true)
  | KRaw => (FRaw (Some v), true)
  | KPtr k' =>
      unless_null v (FPtr None)
        (let base := match old with FPtr (Some b) => b | _ => zero k' end in
         let r := decode k' v base in (FPtr (Some (fst r)), snd r))
  | KMap k' =>
      unless_null v (FMap None)
        (match v with
         | GObject o =>
             let m := match old with FMap (Some m) => m | _ => [] end in
             let rs := List.map (λ e, (coerce (fst e), decode k' (snd e) (zero k'))) (by_key o) in
             (FMap (Some (set_props m (List.map (λ e, (fst e, fst (snd e))) rs))), forallb (λ e, snd (snd e)) rs)
         | _ => (old, false)
         end)
  | KSlice k' =>
      unless_null v (FSlice None)
        (match v with
         | GSlice l =>
             let rs := List.map (λ x, decode k' x (zero k')) l in
             (FSlice (Some (List.map fst rs)), forallb snd rs)
         | _ => (old, false)
         end)
  | KStruct fs =>
      let decoders := List.map (λ f, (fst f, decode (snd f))) fs in
      unless_null v old
        (match v, old with
         | GObject o, FStruct vals =>
             let r := foldl (λ acc e,
               match find_field (List.map fst fs) (fst e) with
               | Some n =>
                   match assoc n decoders, assoc n (fst acc) with
                   | Some d, Some x => let r := d (snd e) x in (set_prop n (fst r) (fst acc), snd acc && snd r)
                   | _, _ => acc
                   end
               | None => acc
               end) (vals, true) (by_key o) in
             (FStruct (fst r), snd r)
         | _, _ => (old, false)
         end)
  end.

(** ** Well-typed values *)

(** Every number is finite and every integer fits its type. *)
Fixpoint has_kind (k : kind) (v : goval) : bool :=
  match k, v with
  | KFloat, FFloat (F64.Fin _) => true
  | KInt lo hi, FInt z => (lo <=? z) && (z <=? hi)
  | KBool, FBool _ | KString, FString _ | KAny, FAny _ | KRaw, FRaw _ => true
  | KPtr k', FPtr o => match o with Some x => has_kind k' x | None => true end
  | KMap k', FMap o => match o with Some m => forallb (λ e, has_kind k' (snd e)) m | None => true end
  | KSlice k', FSlice o => match o with Some l => forallb (has_kind k') l | None => true end
  | KStruct fs, FStruct vals =>
      (fix all2 fs vals :=
         match fs, vals with
         | [], [] => true
         | f :: fs', x :: vals' => String.eqb (fst f) (fst x) && has_kind (snd f) (snd x) && all2 fs' vals'
         | _, _ => false
         end) fs vals
  | _, _ => false
  end.

(** Types whose zero value is one of theirs. *)
Fixpoint sane (k : kind) : bool :=
  match k with
  | KInt lo hi => (lo <=? 0) && (0 <=? hi)
  | KPtr k' | KMap k' | KSlice k' => sane k'
  | KStruct fs => forallb (λ f, sane (snd f)) fs
  | _ => true
  end.

Section kind_induction.
Variable P : kind -> Prop.
Hypothesis Hfloat : P KFloat.
Hypothesis Hint : ∀ lo hi, P (KInt lo hi).
Hypothesis Hbool : P KBool.
Hypothesis Hstring : P KString.
Hypothesis Hany : P KAny.
Hypothesis Hraw : P KRaw.
Hypothesis Hptr : ∀ k, P k -> P (KPtr k).
Hypothesis Hmap : ∀ k, P k -> P (KMap k).
Hypothesis Hslice : ∀ k, P k -> P (KSlice k).
Hypothesis Hstruct : ∀ fs, Forall (λ f, P (snd f)) fs -> P (KStruct fs).

Fixpoint kind_nested_ind (k : kind) : P k :=
  match k with
  | KFloat => Hfloat
  | KInt lo hi => Hint lo hi
  | KBool => Hbool
  | KString => Hstring
  | KAny => Hany
  | KRaw => Hraw
  | KPtr k' => Hptr k' (kind_nested_ind k')
  | KMap k' => Hmap k' (kind_nested_ind k')
  | KSlice k' => Hslice k' (kind_nested_ind k')
  | KStruct fs =>
      Hstruct fs ((fix go fs : Forall (λ f, P (snd f)) fs :=
        match fs with
        | [] => Forall_nil_2 _
        | f :: fs' => Forall_cons_2 _ f fs' (kind_nested_ind (snd f)) (go fs')
        end) fs)
  end.
End kind_induction.

Definition field_kinds (fs : list (string * kind)) (vals : list (string * goval)) : Prop :=
  Forall2 (λ f x, fst f = fst x ∧ has_kind (snd f) (snd x) = true) fs vals.

Lemma has_kind_struct fs vals : has_kind (KStruct fs) (FStruct vals) = true ↔ field_kinds fs vals.
Proof.
  unfold field_kinds. revert vals. induction fs as [|f fs IH]; intros [|x vals]; simpl.
  - split; [constructor|done].
  - split; [done|inversion 1].
  - split; [done|inversion 1].
  - rewrite Forall2_cons, <- IH, !andb_true_iff, String.eqb_eq. simpl. tauto.
Qed.

Lemma zero_kind k : sane k = true -> has_kind k (zero k) = true.
Proof.
  induction k as [ |lo hi| | | | |k IH|k IH|k IH|fs IH] using kind_nested_ind; intros S; try done.
  apply has_kind_struct. unfold field_kinds. cbn [sane] in S.
  induction IH as [|f fs Hf _ IHfs]; [constructor|]. simpl in *. apply andb_true_iff in S as [S1 S2].
  constructor; [|by apply IHfs]. simpl. by auto.
Qed.

Lemma cleared_kind k : sane k = true -> has_kind k (cleared k) = true.
Proof. intros S. destruct k; try done; by apply (zero_kind _ S). Qed.

Lemma field_kinds_lookup fs vals n x :
  field_kinds fs vals -> assoc n vals = Some x -> ∃ k, assoc n fs = Some k ∧ has_kind k x = true.
Proof.
  unfold field_kinds. induction 1 as [|[m k] [m' y] fs vals [E K] _ IH]; simpl in *; [done|]. subst m'.
  destruct (String.eqb n m); [|done]. intros [= <-]. by exists k.
Qed.

Lemma field_kinds_set fs vals n k x :
  field_kinds fs vals -> assoc n fs = Some k -> has_kind k x = true -> field_kinds fs (set_prop n x vals).
Proof.
  unfold field_kinds. intros F. revert k. induction F as [|[m k'] [m' y] fs vals [E K] F IH]; simpl in *;
    intros k; [done|]. subst m'.
  destruct (String.eqb n m); intros H Hx; constructor; simpl; try done; [split; congruence|by eapply IH].
Qed.

Lemma assoc_decoders {A B} (g : A -> B) (fs : list (string * A)) n :
  assoc n (List.map (λ f, (fst f, g (snd f))) fs) = g <$> assoc n fs.
Proof. induction fs as [|[m k] fs IH]; simpl; [done|]. by destruct (String.eqb n m). Qed.

Lemma set_props_forallb {A} (f : A -> bool) (m entries : list (string * A)) :
  forallb (λ e, f (snd e)) m = true -> forallb (λ e, f (snd e)) entries = true ->
  forallb (λ e, f (snd e)) (set_props m entries) = true.
Proof.
  unfold set_props. revert m. induction entries as [|[k v] entries IH]; intros m Hm; simpl; [done|].
  rewrite andb_true_iff. intros [Hv He]. apply IH; [|done].
  clear IH He. induction m as [|[k' v'] m IHm]; simpl in *; [by rewrite Hv|].
  apply andb_true_iff in Hm as [H1 H2]. destruct (String.eqb k k'); simpl; by rewrite ?Hv, ?H1, ?H2, ?IHm.
Qed.

Lemma finite_Some x y : finite x = Some y -> x = y ∧ ∃ q, y = F64.Fin q.
Proof. destruct x; try done. intros [= <-]. split; [done|by eexists]. Qed.

Lemma float_of_Some v x : float_of v = Some x -> ∃ q, x = F64.Fin q.
Proof.
  destruct v; cbn [float_of]; try done; try (intros H; by apply finite_Some in H as [_ ?]).
  destruct (ParseFloat text); [|done]. intros H. by apply finite_Some in H as [_ ?].
Qed.

(** Decoding keeps the type of a field, whatever the JSON value. *)
Lemma decode_kind k v old :
  sane k = true -> has_kind k old = true -> has_kind k (fst (decode k v old)) = true.
Proof.
  revert v old. induction k as [ |lo hi| | | | |k IH|k IH|k IH|fs IH] using kind_nested_ind; intros v old S H;
    cbn [decode sane] in *; try done.
  - destruct v; cbn [unless_null]; try done;
      (destruct (float_of _) as [y|] eqn:E; [|done]); apply float_of_Some in E as [q ->]; done.
  - destruct v; cbn [unless_null]; try done;
      (destruct (integer_of _) as [n|]; [|done]; destruct ((lo <=? n) && (n <=? hi)) eqn:E; [exact E|done]).
  - destruct v; done.
  - destruct v; done.
  - assert (has_kind (KPtr k) (FPtr (Some (fst (decode k v match old with FPtr (Some b) => b | _ => zero k end)))) = true).
    { apply IH; [done|]. destruct old as [| | | | | |[b|]| | |]; try by apply zero_kind. done. }
    by destruct v.
  - destruct v as [| | | | | | | |o]; cbn [unless_null]; try done. cbn [fst has_kind].
    apply set_props_forallb; [destruct old as [| | | | | | |[m|]| |]; done|].
    apply forallb_forall. intros e He. rewrite map_map in He. apply in_map_iff in He as (e' & <- & _). simpl.
    apply IH; [done|by apply zero_kind].
  - destruct v as [| | | | | | |l|]; cbn [unless_null]; try done. cbn [fst has_kind].
    apply forallb_forall. intros e He. rewrite map_map in He. apply in_map_iff in He as (e' & <- & _).
    apply IH; [done|by apply zero_kind].
  - destruct v as [| | | | | | | |o]; cbn [unless_null]; try done.
    destruct old as [| | | | | | | | |vals]; try done.
    assert (D : ∀ k v old n, assoc n fs = Some k -> has_kind k old = true -> has_kind k (fst (decode k v old)) = true).
    { intros k v old n E. apply assoc_elem in E. rewrite Forall_forall in IH. rewrite forallb_forall in S.
      apply list_elem_of_In in E as E'. specialize (S _ E'). apply (IH _ E); done. }
    clear IH S. cbn [fst]. apply has_kind_struct in H. generalize true at 1.
    induction (by_key o) as [|e es IHes] in vals, H |- *; intros b; cbn [foldl]; [by apply has_kind_struct|].
    destruct (find_field _ _) as [n|]; [|by apply IHes].
    rewrite assoc_decoders. cbn [fst snd].
    destruct (assoc n vals) as [x|] eqn:Ex; [|destruct (decode <$> assoc n fs); by apply IHes].
    destruct (field_kinds_lookup _ _ _ _ H Ex) as (k & Ek & Kx). rewrite Ek. simpl. apply IHes.
    eapply field_kinds_set; [done..|]. by apply (D k _ _ n).
Qed.
