(* ===== verification/StateFields.v ===== *)
(** * The fields of the dashboard's state

    The structures of [internal/state/state.go] as types of [JsonFields], the
    state as a map from JSON names to typed values, and the accesses that the
    code makes by those names: [clearStateField], [json.Unmarshal] of one
    member, the map of available telemetry. *)

From Stdlib Require Import ZArith QArith Qround Ascii String Lia.
From stdpp Require Import base list option strings gmap fin_maps.
From S2P Require Import Prelude Float64 JsValue Utf8 ControllerCommands NativeLeaves JsonFields.

#[local] Open Scope string_scope.
#[local] Open Scope list_scope.
#[local] Open Scope Z_scope.

(** ** Types *)

Definition KInt64 : kind := KInt (- 2 ^ 63) (2 ^ 63 - 1).
Definition KInt32 : kind := KInt MinInt32 MaxInt32.
Definition KUint32 : kind := KInt 0 (2 ^ 32 - 1).

Definition KDailyStats : kind := KStruct
  [("grid_energy", KRaw); ("solar_kwh", KFloat); ("solar_money", KFloat); ("grid_kwh", KFloat);
   ("grid_money", KFloat); ("batt_in_kwh", KFloat); ("batt_out_kwh", KFloat); ("batt_net_kwh", KFloat);
   ("produced_yesterday", KFloat); ("pv_inverter_daily", KSlice KFloat);
   ("pv_inverter_yesterday", KSlice KFloat); ("mppt_yesterday", KSlice KFloat); ("produced_today", KFloat);
   ("produced_dollars", KFloat); ("battery_in", KFloat); ("battery_out", KFloat);
   ("battery_in_yesterday", KFloat); ("battery_out_yesterday", KFloat); ("mppt_daily", KSlice KFloat);
   ("pv_total_daily", KFloat)].

Definition KSolarSource : kind := KStruct
  [("name", KString); ("pv_voltage", KFloat); ("current", KFloat); ("power", KFloat)].

Definition KBattery : kind := KStruct
  [("instance", KString); ("serial", KString); ("temperature", KPtr KFloat);
   ("min_cell_voltage", KPtr KFloat); ("max_cell_voltage", KPtr KFloat); ("min_voltage_cell_id", KString);
   ("max_voltage_cell_id", KString); ("telemetry_available", KMap KBool); ("name", KString);
   ("voltage", KFloat); ("current", KFloat); ("power", KFloat); ("soc", KFloat); ("state", KString);
   ("time_to_go", KString)].

Definition KESSMode : kind := KStruct
  [("selected", KString); ("selection_supported", KBool); ("request_id", KString); ("error", KString);
   ("vebus_mode", KPtr KInt64); ("battery_life_state", KInt64); ("hub4_mode", KInt64);
   ("is_external", KBool); ("mode_name", KString)].

Definition KSolarForecast : kind := KStruct
  [("date", KString); ("generated_at", KString); ("today_kwh", KFloat); ("tomorrow_kwh", KFloat)].

Definition KNotification : kind := KStruct
  [("id", KString); ("level", KString); ("title", KString); ("body", KString); ("source", KString);
   ("ts", KString)].

Definition KCameraEvent : kind := KStruct
  [("camera", KString); ("url", KString); ("ts", KString)].

Definition KCharger : kind := KStruct
  [("instance", KString); ("serial", KString); ("telemetry_available", KMap KBool); ("name", KString);
   ("pv_voltage", KFloat); ("current", KFloat); ("power", KFloat)].

Definition KCerboDevice : kind := KStruct
  [("kind", KString); ("instance", KInt64); ("name", KString); ("soc", KPtr KFloat); ("power", KPtr KFloat)].

Definition KGridBackupStatus : kind := KStruct
  [("enabled", KBool); ("available", KBool); ("service", KPtr KString); ("device_instance", KPtr KUint32);
   ("name", KPtr KString); ("power", KPtr KFloat); ("measurement_time", KPtr KFloat);
   ("age_seconds", KPtr KFloat)].

Definition KSetpointOverrideStatus : kind := KStruct
  [("value", KPtr KInt32); ("last_error", KPtr KString); ("request_id", KPtr KString)].

(** The fields of [State] by their names in JSON; the three private ones are not decoded. *)
Definition stateFields : list (string * kind) :=
  [("setpoint_override", KPtr KSetpointOverrideStatus); ("setpoint_override_observed_at", KPtr KFloat);
   ("setpoint_override_controls_available", KBool); ("electricity_tariff_observed_at", KPtr KFloat);
   ("electricity_tariff_controls_available", KBool); ("grid_l1_available", KPtr KBool);
   ("grid_l2_available", KPtr KBool); ("grid_l3_available", KPtr KBool);
   ("grid_backup", KPtr KGridBackupStatus); ("grid_using_backup", KBool);
   ("grid_backup_observed_at", KPtr KFloat); ("inverter_available", KPtr KBool); ("ui_config", KMap KAny);
   ("dvcc_limits", KMap KAny); ("limits", KMap KAny); ("perf", KMap KAny); ("loop_interval", KFloat);
   ("grid_control_valid", KPtr KBool); ("grid_control_reason", KPtr KString); ("grid_loss_state", KString);
   ("grid_loss_hold_seconds", KPtr KFloat); ("grid_loss_elapsed", KPtr KFloat);
   ("grid_loss_remaining", KPtr KFloat); ("grid_loss_zero_applied", KPtr KBool);
   ("telemetry_available", KMap KBool); ("g3", KFloat); ("t3", KFloat); ("water_valve_mode", KInt64);
   ("pump_mode", KInt64); ("water_pump_mode", KInt64); ("gateway_capabilities", KMap KBool);
   ("booleans", KMap KAny); ("features", KMap KAny); ("daily_stats", KDailyStats); ("ess_mode", KESSMode);
   ("ess_mode_observed_at", KPtr KFloat); ("ess_mode_controls_available", KBool);
   ("solar_forecast", KPtr KSolarForecast); ("solar_total", KFloat); ("mppt_total", KFloat);
   ("pv_inverter_total", KFloat); ("pv_total", KFloat); ("gt", KFloat); ("g1", KFloat); ("g2", KFloat);
   ("tt", KFloat); ("t1", KFloat); ("t2", KFloat); ("bc", KFloat); ("bv", KFloat); ("bp", KFloat);
   ("setpoint", KFloat); ("battery_voltage", KFloat); ("battery_current", KFloat); ("battery_power", KFloat);
   ("battery_soc", KFloat); ("inverter_state", KString); ("uptime", KFloat); ("ha_connected", KBool);
   ("ha_direct_connected", KBool); ("version", KString); ("dashboard_version", KString);
   ("console", KSlice KString); ("notifications", KSlice KNotification); ("camera_event", KPtr KCameraEvent);
   ("batteries", KSlice KBattery); ("solar_sources", KSlice KSolarSource);
   ("mppt_chargers", KSlice KCharger); ("mppt_individual", KSlice KFloat); ("pv_inverters", KSlice KCharger);
   ("loads", KMap KFloat); ("load_names", KMap KString); ("car_charging_power", KFloat); ("car_soc", KFloat);
   ("ev_charging_kw", KFloat); ("ev_power", KFloat); ("ev_charging_power", KFloat); ("ev_present", KBool);
   ("evcharger_present", KBool); ("discovered_water_ev", KSlice KCerboDevice); ("water_level", KFloat);
   ("water_valve", KBool); ("pump_switch", KBool); ("dishwasher_running", KBool);
   ("dishwasher_duration", KFloat); ("dishwasher_time", KFloat); ("dishwasher_active", KBool);
   ("washer_time", KFloat); ("washer_power", KFloat); ("dryer_time", KFloat); ("dryer_power", KFloat);
   ("only_charging", KBool); ("no_feed", KBool); ("house_support", KBool); ("charge_battery", KBool);
   ("do_not_supply_charger", KBool); ("set_limit_to_ev_charger", KBool); ("minimize_charging", KBool);
   ("dry_run", KPtr KBool)].

(** ** The state *)

Record State := MkState { fields : gmap string goval; NativeESSObserved : bool }.

Definition field_kind (name : string) : kind := default KBool (assoc name stateFields).

(** The value of a field; a field that was never set has its zero value. *)
Definition field (name : string) (st : State) : goval := default (zero (field_kind name)) (fields st !! name).

Definition set_field (name : string) (v : goval) (st : State) : State :=
  MkState (<[name := v]> (fields st)) (NativeESSObserved st).

Definition with_native_ess (b : bool) (st : State) : State := MkState (fields st) b.

Definition clearStateField (name : string) (st : State) : State :=
  match assoc name stateFields with Some k => set_field name (cleared k) st | None => st end.

(** [json.Unmarshal] of an object with the one member [key]: the state and
    whether there was no error. *)
Definition unmarshal_field (key : string) (v : gval) (st : State) : State * bool :=
  match find_field (List.map fst stateFields) key with
  | Some n => let r := decode (field_kind n) v (field n st) in (set_field n (fst r) st, snd r)
  | None => (st, true)
  end.

(** ** Available telemetry *)

Definition bool_of (v : goval) : bool := match v with FBool b => b | _ => false end.

Definition availability (st : State) : option (list (string * goval)) :=
  match field "telemetry_available" st with FMap o => o | _ => None end.

(** [st.TelemetryAvailable[key]], also of a nil map. *)
Definition available (st : State) (key : string) : bool :=
  match availability st ≫= assoc key with Some v => bool_of v | None => false end.

(** [st.TelemetryAvailable[key] = b]; assigning to a nil map panics. *)
Definition set_available (key : string) (b : bool) (st : State) : option State :=
  m ← availability st;
  Some (set_field "telemetry_available" (FMap (Some (set_prop key (FBool b) m))) st).

(** ** Facts *)

Definition typed (st : State) : Prop :=
  ∀ name k, assoc name stateFields = Some k -> has_kind k (field name st) = true.

Lemma stateFields_sane name k : assoc name stateFields = Some k -> sane k = true.
Proof.
  intros H. apply assoc_elem, list_elem_of_In in H.
  assert (S : forallb (λ f, sane (snd f)) stateFields = true) by (vm_compute; reflexivity).
  rewrite forallb_forall in S. apply (S _ H).
Qed.

Lemma field_set n v m st : field m (set_field n v st) = if decide (n = m) then v else field m st.
Proof.
  unfold field, set_field. simpl. case_decide as E; [by rewrite E, lookup_insert_eq|by rewrite lookup_insert_ne].
Qed.

Lemma field_set_eq n v st : field n (set_field n v st) = v.
Proof. rewrite field_set. by case_decide. Qed.

Lemma field_set_ne n m v st : n ≠ m -> field m (set_field n v st) = field m st.
Proof. intros H. rewrite field_set. by case_decide. Qed.

Lemma typed_set name v st :
  (∀ k, assoc name stateFields = Some k -> has_kind k v = true) -> typed st -> typed (set_field name v st).
Proof. intros Hv Ht m k Hm. rewrite field_set. case_decide as E; [subst m; by apply Hv|by apply Ht]. Qed.

Lemma typed_clear name st : typed st -> typed (clearStateField name st).
Proof.
  intros Ht. unfold clearStateField. destruct (assoc name stateFields) as [k|] eqn:E; [|done].
  apply typed_set; [|done]. intros k' Hk. rewrite E in Hk. injection Hk as <-.
  by apply cleared_kind, (stateFields_sane name).
Qed.

Lemma find_field_elem names key n : find_field names key = Some n -> n ∈ names.
Proof.
  unfold find_field. destruct (List.find (String.eqb key) names) as [m|] eqn:E; intros H.
  - injection H as <-. apply find_some in E as [E _]. by apply list_elem_of_In.
  - apply find_some in H as [H _]. by apply list_elem_of_In.
Qed.

Lemma find_field_exact names key : key ∈ names -> find_field names key = Some key.
Proof.
  intros H. unfold find_field. destruct (List.find (String.eqb key) names) as [m|] eqn:E.
  - apply find_some in E as [_ E]. apply String.eqb_eq in E. by subst.
  - exfalso. apply list_elem_of_In in H. pose proof (find_none _ _ E _ H) as E'. by rewrite String.eqb_refl in E'.
Qed.

Lemma typed_unmarshal key v st : typed st -> typed (fst (unmarshal_field key v st)).
Proof.
  intros Ht. unfold unmarshal_field. destruct (find_field _ key) as [n|] eqn:E; [|done]. simpl.
  apply typed_set; [|done]. intros k Hk. unfold field_kind. rewrite Hk. simpl.
  apply decode_kind; [by eapply stateFields_sane|]. by apply Ht.
Qed.

Lemma typed_zero b : typed (MkState ∅ b).
Proof.
  intros name k Hk. unfold field, field_kind. rewrite Hk. simpl. rewrite lookup_empty. simpl.
  by apply zero_kind, (stateFields_sane name).
Qed.

(** Everything but the availability map. *)
Lemma set_available_field key b st st' name :
  set_available key b st = Some st' -> name ≠ "telemetry_available" -> field name st' = field name st.
Proof.
  unfold set_available. destruct (availability st); [|done]. intros [= <-] H. by rewrite field_set_ne.
Qed.

Lemma set_available_lookup key b st st' k :
  set_available key b st = Some st' -> available st' k = if String.eqb k key then b else available st k.
Proof.
  unfold set_available. destruct (availability st) as [m|] eqn:E; [|done]. intros [= <-].
  unfold available at 1, availability at 1. rewrite field_set_eq. simpl. rewrite assoc_set_prop.
  unfold available. rewrite E. simpl. by destruct (String.eqb k key).
Qed.

Lemma set_available_Some key b st : is_Some (availability st) -> is_Some (set_available key b st).
Proof. intros [m H]. unfold set_available. rewrite H. by eexists. Qed.

Lemma set_available_is_Some key b st st' : set_available key b st = Some st' -> is_Some (availability st').
Proof.
  unfold set_available. destruct (availability st); [|done]. intros [= <-]. unfold availability.
  rewrite field_set_eq. by eexists.
Qed.

Lemma typed_available key b st st' : set_available key b st = Some st' -> typed st -> typed st'.
Proof.
  unfold set_available. destruct (availability st) as [m|] eqn:E; [|done]. intros [= <-] Ht.
  apply typed_set; [|done]. intros k [= <-]. cbn [has_kind].
  specialize (Ht "telemetry_available" _ eq_refl). unfold availability in E.
  destruct (field "telemetry_available" st) as [| | | | | | |o| |]; try done. subst o. cbn [has_kind] in Ht.
  clear -Ht. induction m as [|[k v] m IH]; simpl in *; [done|]. apply andb_true_iff in Ht as [H1 H2].
  destruct (String.eqb key k); simpl; [done|]. by rewrite H1, IH.
Qed.
