(* ===== verification/CerboLeaves.v ===== *)
(** * Leaves of the Cerbo's devices

    The accessors at the top of [internal/mqtt/cerbo.go]: numbers and texts of
    one device, powers, the devices of one kind of service, their order.  A
    device is a map from paths to decoded JSON values; a kind of service is a
    map from "instance/path".  The order in which the language iterates over a
    map is a variable of the sections that depend on it. *)

From Stdlib Require Import ZArith QArith Qround Ascii String Lia.
From stdpp Require Import base list option strings gmap fin_maps sorting.
From S2P Require Import Prelude Float64 JsValue ControllerCommands NativeLeaves JsonFields.

#[local] Open Scope string_scope.
#[local] Open Scope list_scope.
#[local] Open Scope Z_scope.

(** ** Numbers and keys *)

(** [number]: a finite number of one of the numeric types. *)
Definition number (v : gval) : option F64.num :=
  match v with
  | GFloat x => finite x
  | GInt z => finite (F64.of_Z z)
  | _ => None
  end.

(** [strconv.Atoi] for 64-bit integers. *)
Definition Atoi (s : string) : option Z :=
  let '(neg, s1) := take_sign s in
  let '(m, n, rest) := take_digits s1 0 0 in
  let z := if neg then - m else m in
  if (n =? 0) || negb (String.eqb rest "") then None
  else if (- 2 ^ 63 <=? z) && (z <? 2 ^ 63) then Some z else None.

(** The comparison of [sortedStringKeys]. *)
Definition key_less (x y : string) : bool :=
  match Atoi x, Atoi y with
  | Some a, Some b => a <? b
  | _, _ => String.ltb x y
  end.

(** ** One device *)

Abbreviation leaves := (gmap string gval).

(** [d[p]] of a possibly nil map. *)
Definition leaf (d : leaves) (p : string) : gval := default GNil (d !! p).

Definition leaf_num (d : leaves) (paths : list string) : option F64.num :=
  head (omap (λ p, number (leaf d p)) paths).

Definition leaf_str (d : leaves) (paths : list string) : string :=
  default "" (head (omap (λ p,
    match leaf d p with
    | GString s => if String.eqb (TrimSpace s) "" then None else Some (TrimSpace s)
    | _ => None
    end) paths)).

(** The sum of what is there: [total] and whether anything was. *)
Definition add_known (acc : F64.num * bool) (x : option F64.num) : F64.num * bool :=
  match x with Some n => (F64.add (fst acc) n, true) | None => acc end.

Definition sum_known (xs : list (option F64.num)) : option F64.num :=
  let '(total, have) := foldl add_known (F64.of_Z 0, false) xs in
  if (have : bool) then Some total else None.

Definition leaf_sum (d : leaves) (paths : list string) : option F64.num :=
  sum_known ((λ p, leaf_num d [p]) <$> paths).

Definition acPower (d : leaves) : option F64.num :=
  match leaf_num d ["Ac/Power"] with
  | Some n => Some n
  | None => leaf_sum d ["Ac/L1/Power"; "Ac/L2/Power"; "Ac/L3/Power"]
  end.

Definition dcPower (d : leaves) : option F64.num :=
  match leaf_num d ["Dc/0/Power"] with
  | Some n => Some n
  | None =>
      match leaf_num d ["Dc/0/Voltage"], leaf_num d ["Dc/0/Current"] with
      | Some v, Some i => Some (F64.mul v i)
      | _, _ => None
      end
  end.

Definition device_enabled (d : leaves) : bool :=
  match d !! "Connected" with
  | None => true
  | Some _ =>
      match leaf_num d ["Connected"] with Some n => F64.eqb n (F64.of_Z 1) | None => false end
  end.

Definition deviceName (d : leaves) (fallback : string) : string :=
  let s := leaf_str d ["CustomName"; "ProductName"] in
  if String.eqb s "" then fallback else s.

(** ** The devices of one kind *)

(** The instance and the path of a key, when the instance is a number. *)
Definition split_key (key : string) : option (string * string) :=
  match cut_at "/" key with
  | (id, Some p) => match Atoi id with Some _ => Some (id, p) | None => None end
  | _ => None
  end.

Definition add_leaf (key : string) (value : gval) (out : gmap string leaves) : gmap string leaves :=
  match split_key key with
  | Some (id, p) => <[id := <[p := value]> (default ∅ (out !! id))]> out
  | None => out
  end.

Definition grouped (service : leaves) : gmap string leaves := map_fold add_leaf ∅ service.

Abbreviation Services := (gmap string (gmap string gval)).

(** [all[kind]] of a possibly missing kind. *)
Definition service (all : Services) (kind : string) : leaves := default ∅ (all !! kind).

Definition devices (all : Services) (kind : string) : gmap string leaves :=
  filter (λ e, device_enabled e.2 = true) (grouped (service all kind)).

Section order.
(** The keys of a map in the order of one iteration over it.  [sort.Slice]
    leaves the order of equal keys open, as this does. *)
Variable iterate : gmap string leaves -> list string.

Definition sortedStringKeys (ds : gmap string leaves) : list string :=
  stable_sort (λ x y, key_less y x) (iterate ds).

(** The devices in that order. *)
Definition in_order (ds : gmap string leaves) : list (string * leaves) :=
  omap (λ id, pair id <$> ds !! id) (sortedStringKeys ds).

Definition firstNum (ds : gmap string leaves) (paths : list string) : option F64.num :=
  head (omap (λ e, leaf_num e.2 paths) (in_order ds)).

(** [firstLeaf]: whether the path was seen, and its number. *)
Definition firstLeaf (ds : gmap string leaves) (path : string) : option (option F64.num) :=
  head (omap (λ e, number <$> e.2 !! path) (in_order ds)).
End order.

(** ** Derived readings *)

Definition Min (x y : F64.num) : F64.num := if F64.ltb y x then y else x.
Definition Max (x y : F64.num) : F64.num := if F64.ltb x y then y else x.

(** [math.Round] of a number that is not negative. *)
Definition Round (x : F64.num) : F64.num :=
  match x with F64.Fin q => F64.Fin (inject_Z (Qfloor (q + (1 # 2)))) | _ => x end.

(** [54.4-40] is a constant expression, rounded once. *)
Definition VoltageSOC (v : F64.num) : F64.num :=
  let share := F64.div (F64.sub v (F64.of_Z 40)) (F64.round (144 # 10)) in
  Round (Max (F64.of_Z 0) (Min (F64.of_Z 100) (F64.mul share (F64.of_Z 100)))).

Definition stateFromCurrent (v : F64.num) : string :=
  if F64.ltb (F64.Fin (1 # 2)) v then "Charging"
  else if F64.ltb v (F64.Fin (- 1 # 2)) then "Discharging"
  else "Idle".

(** [int(x)]: truncation; outside the range of the type the result depends on
    the platform. *)
Definition go_int (overflow : F64.num -> Z) (x : F64.num) : Z :=
  match x with
  | F64.Fin q => if (- 2 ^ 63 <=? F64.Qtrunc q) && (F64.Qtrunc q <? 2 ^ 63) then F64.Qtrunc q else overflow x
  | _ => overflow x
  end.

(** ** Keys *)

Lemma cut_at_spec sep s before after :
  cut_at sep s = (before, Some after) -> s = before +:+ String sep after.
Proof.
  revert before; induction s as [|c s IH]; intros before; cbn [cut_at]; [done|].
  destruct (Ascii.eqb_spec c sep) as [->|Hne]; [by intros [= <- <-]|].
  destruct (cut_at sep s) as [b a]. intros [= <- ->]. by rewrite (IH b eq_refl).
Qed.

Lemma split_key_spec key id p :
  split_key key = Some (id, p) -> key = id +:+ "/" +:+ p ∧ is_Some (Atoi id).
Proof.
  unfold split_key. destruct (cut_at "/" key) as [before [after|]] eqn:E; [|done].
  destruct (Atoi before) as [z|] eqn:A; [|done]. intros [= <- <-].
  split; [by apply cut_at_spec in E|by exists z].
Qed.

Definition no_slash (s : string) : bool := negb (contains "/" s).

Lemma cut_at_key id p : no_slash id = true -> cut_at "/" (id +:+ "/" +:+ p) = (id, Some p).
Proof.
  unfold no_slash. intros H. apply negb_true_iff in H.
  induction id as [|c id IH]; [done|].
  change (String c id +:+ "/" +:+ p) with (String c (id +:+ "/" +:+ p)). cbn [cut_at].
  cbn [contains] in H. apply orb_false_iff in H as [H1 H2].
  destruct (Ascii.eqb_spec c "/") as [->|_]; [by destruct id|]. by rewrite IH.
Qed.

(** The grouped devices, as a function of the leaves. *)
Definition device_leaf (service : leaves) (id p : string) : option gval :=
  if decide (split_key (id +:+ "/" +:+ p) = Some (id, p)) then service !! (id +:+ "/" +:+ p) else None.

Lemma grouped_lookup (m : leaves) id p : (default ∅ (grouped m !! id) : leaves) !! p = device_leaf m id p.
Proof.
  unfold grouped, device_leaf. revert m.
  apply (map_fold_weak_ind (λ r m, (default ∅ (r !! id) : leaves) !! p =
    if decide (split_key (id +:+ "/" +:+ p) = Some (id, p)) then m !! (id +:+ "/" +:+ p) else None)).
  { rewrite lookup_empty. cbn [default]. case_decide; by rewrite ?lookup_empty. }
  intros key v m r Hnew IH. unfold add_leaf. destruct (split_key key) as [[id' p']|] eqn:E.
  - destruct (split_key_spec _ _ _ E) as [-> _]. destruct (decide (id = id')) as [->|Hid].
    + rewrite lookup_insert_eq. simpl. destruct (decide (p = p')) as [->|Hp].
      * rewrite lookup_insert_eq. rewrite decide_True by done. by rewrite lookup_insert_eq.
      * rewrite lookup_insert_ne by done. rewrite IH. case_decide as D; [|done].
        rewrite lookup_insert_ne; [done|]. intros Heq. rewrite Heq in E. congruence.
    + rewrite lookup_insert_ne by done. rewrite IH. case_decide as D; [|done].
      rewrite lookup_insert_ne; [done|]. intros Heq. rewrite Heq in E. congruence.
  - rewrite IH. case_decide as D; [|done]. rewrite lookup_insert_ne; [done|]. intros ->. congruence.
Qed.

Lemma grouped_key (m : leaves) id : is_Some (grouped m !! id) -> is_Some (Atoi id).
Proof.
  unfold grouped. revert m. apply (map_fold_weak_ind (λ r m, is_Some (r !! id) -> is_Some (Atoi id))).
  { rewrite lookup_empty. by intros []. }
  intros key v m r _ IH. unfold add_leaf. destruct (split_key key) as [[id' p']|] eqn:E; [|done].
  destruct (decide (id = id')) as [->|Hid]; [by destruct (split_key_spec _ _ _ E)|].
  by rewrite lookup_insert_ne.
Qed.

Lemma devices_Some all kind id d :
  devices all kind !! id = Some d ->
  is_Some (Atoi id) ∧ device_enabled d = true ∧ ∀ p, d !! p = device_leaf (service all kind) id p.
Proof.
  unfold devices. rewrite map_lookup_filter_Some. intros [H He]. split; [by eapply grouped_key|].
  split; [done|]. intros p. by rewrite <- grouped_lookup, H.
Qed.

(** ** Order *)

Lemma elem_of_keys {A} (m : gmap string A) id : id ∈ (map_to_list m).*1 ↔ is_Some (m !! id).
Proof.
  rewrite list_elem_of_fmap. split.
  - intros ([k v] & -> & H). apply elem_of_map_to_list in H. by exists v.
  - intros [v H]. exists (id, v). split; [done|]. by apply elem_of_map_to_list.
Qed.

(** An iteration visits every key once. *)
Definition visits_all (iterate : gmap string leaves -> list string) : Prop :=
  ∀ ds, iterate ds ≡ₚ (map_to_list ds).*1.

Lemma visits_elem it (ds : gmap string leaves) id : visits_all it -> id ∈ it ds ↔ is_Some (ds !! id).
Proof. intros Hit. by rewrite <- elem_of_keys, (Hit ds : it ds ≡ₚ _). Qed.

Lemma sorted_elem it ds id : visits_all it -> id ∈ sortedStringKeys it ds ↔ is_Some (ds !! id).
Proof. intros Hit. unfold sortedStringKeys. by rewrite stable_sort_perm, visits_elem. Qed.

(** No integer names two devices. *)
Definition canonical (ds : gmap string leaves) : Prop :=
  ∀ id id', is_Some (ds !! id) -> is_Some (ds !! id') -> Atoi id = Atoi id' -> id = id'.

Definition key_value (id : string) : Z := default 0 (Atoi id).
Definition key_le (x y : string) : Prop := key_value x <= key_value y.

#[local] Instance key_le_trans : Transitive key_le.
Proof. unfold key_le. intros x y z. lia. Qed.

Lemma sorted_keys_sorted l :
  Forall (λ id, is_Some (Atoi id)) l -> StronglySorted key_le (stable_sort (λ x y, key_less y x) l).
Proof.
  apply (stable_sort_sorted (λ x y, key_less y x) (λ id, is_Some (Atoi id)) key_le);
    intros x y [a Ha] [b Hb]; unfold key_less, key_le, key_value; rewrite Ha, Hb; simpl; intros E; bool_hyps; lia.
Qed.

Lemma sortedStringKeys_unique it1 it2 ds :
  visits_all it1 -> visits_all it2 -> canonical ds -> (∀ id, is_Some (ds !! id) -> is_Some (Atoi id)) ->
  sortedStringKeys it1 ds = sortedStringKeys it2 ds.
Proof.
  intros H1 H2 Hc Hk.
  assert (F : ∀ it, visits_all it -> Forall (λ id, is_Some (Atoi id)) (it ds)).
  { intros it Hit. apply Forall_forall. intros id. rewrite visits_elem by done. apply Hk. }
  apply (StronglySorted_unique_strong key_le).
  - intros x y. rewrite !sorted_elem by done. intros Hx Hy Hxy Hyx. apply Hc; [done..|].
    destruct (Hk x Hx) as [a Ha], (Hk y Hy) as [b Hb].
    unfold key_le, key_value in *. rewrite Ha, Hb in Hxy, Hyx. simpl in Hxy, Hyx. rewrite Ha, Hb. f_equal. lia.
  - by apply sorted_keys_sorted, F.
  - by apply sorted_keys_sorted, F.
  - unfold sortedStringKeys. by rewrite !stable_sort_perm, (H1 ds : it1 ds ≡ₚ _), (H2 ds : it2 ds ≡ₚ _).
Qed.

Lemma in_order_unique it1 it2 all kind :
  visits_all it1 -> visits_all it2 -> canonical (devices all kind) ->
  in_order it1 (devices all kind) = in_order it2 (devices all kind).
Proof.
  intros H1 H2 Hc. unfold in_order. erewrite sortedStringKeys_unique; [done..|].
  intros id [d Hd]. by apply devices_Some in Hd as [? _].
Qed.

Lemma elem_of_in_order it ds id d : visits_all it -> (id, d) ∈ in_order it ds ↔ ds !! id = Some d.
Proof.
  intros Hit. unfold in_order. rewrite list_elem_of_omap. split.
  - intros (x & _ & H). destruct (ds !! x) as [y|] eqn:E; cbn in H; congruence.
  - intros H. exists id. split; [|by rewrite H]. apply sorted_elem; [done|]. by exists d.
Qed.
