(* ===== verification/CerboOverlay.v ===== *)
(** * The telemetry reducer

    [cerboOverlay] of [internal/mqtt/cerbo.go] with [applyEVOverlay] and
    [applyESSOverlay] of [internal/mqtt/ev_ess.go]: one function from the cached
    leaves to the dashboard's fields, used for MQTT messages and for gateway
    snapshots.  Each part of the function that writes a group of fields is a
    definition here; [cerboOverlay] runs them in the order of the code. *)

From Stdlib Require Import ZArith QArith Qround Ascii String Lia.
From stdpp Require Import base list option strings gmap fin_maps sorting.
From S2P Require Import Prelude Float64 JsValue ControllerCommands NativeLeaves CerboLeaves.

#[local] Open Scope string_scope.
#[local] Open Scope list_scope.
#[local] Open Scope Z_scope.

(** ** Rows *)

Record CerboOptions := MkOptions {
  TankInstance : Z; PumpInstance : Z; ValveInstance : Z; EVInstance : Z; EVChargerInstance : Z }.

Record Battery := MkBattery {
  b_instance : string; b_name : string; b_serial : string;
  b_voltage : option F64.num; b_current : option F64.num; b_power : option F64.num; b_soc : option F64.num;
  b_state : string; b_timeToGo : string;
  b_temperature : option F64.num; b_minCell : option F64.num; b_maxCell : option F64.num;
  b_minCellId : string; b_maxCellId : string }.

Record Charger := MkCharger {
  c_instance : string; c_name : string; c_serial : string;
  c_pvVoltage : option F64.num; c_current : option F64.num; c_power : option F64.num }.

Record CerboDevice := MkDevice {
  d_kind : string; d_instance : Z; d_name : string; d_soc : option F64.num; d_power : option F64.num }.

Record ESSMode := MkMode {
  BatteryLifeState : Z; Hub4Mode : Z; IsExternal : bool; ModeName : string }.

(** What the reducer puts under a key. *)
Inductive oval : Type :=
| ONum (x : F64.num)
| OBool (b : bool)
| OInt (z : Z)
| OStr (s : string)
| OBatteries (l : list Battery)
| OChargers (l : list Charger)
| ONums (l : list F64.num)
| OLoads (m : gmap string F64.num)
| ONames (m : gmap string string)
| ODevices (l : list CerboDevice)
| OMode (m : ESSMode).

Abbreviation Out := (gmap string oval).

(** The local function [put]. *)
Definition put (key : string) (x : option F64.num) (out : Out) : Out :=
  match x with Some n => <[key := ONum n]> out | None => out end.

Definition number_at (out : Out) (key : string) : option F64.num :=
  match out !! key with Some (ONum n) => Some n | _ => None end.

Definition inverterStates (code : Z) : option string :=
  match code with
  | 0 => Some "Off" | 1 => Some "Low Power" | 2 => Some "Fault" | 3 => Some "Bulk" | 4 => Some "Absorption"
  | 5 => Some "Float" | 6 => Some "Storage" | 7 => Some "Equalize" | 8 => Some "Passthru" | 9 => Some "Inverting"
  | 10 => Some "Power assist" | 11 => Some "Power supply" | 252 => Some "External control"
  | _ => None
  end.

Section reducer.
Variable iterate : gmap string leaves -> list string.
Variable overflow : F64.num -> Z.
Variable all : Services.

Abbreviation devices := (devices all).
Abbreviation firstNum := (firstNum iterate).
Abbreviation firstLeaf := (firstLeaf iterate).
Abbreviation in_order := (in_order iterate).
Abbreviation go_int := (go_int overflow).

(** ** Grid and consumption *)

(** The active input counts only when systemcalc calls it mains or shore. *)
Definition active_input (p : string) : option F64.num :=
  match firstNum (devices "system") ["Ac/ActiveIn/Source"] with
  | Some input =>
      if F64.eqb input (F64.of_Z 1) || F64.eqb input (F64.of_Z 3) then
        head (omap (λ e,
          match leaf_num e.2 ["Ac/ActiveIn/Connected"] with
          | Some c => if F64.eqb c (F64.of_Z 0) then None
                      else leaf_num e.2 ["Ac/ActiveIn/" +:+ p +:+ "/P"; "Ac/ActiveIn/" +:+ p +:+ "/Power"]
          | None => leaf_num e.2 ["Ac/ActiveIn/" +:+ p +:+ "/P"; "Ac/ActiveIn/" +:+ p +:+ "/Power"]
          end) (in_order (devices "vebus")))
      else None
  | None => None
  end.

(** The number and whether an authoritative leaf was seen. *)
Definition grid_reading (p : string) : option F64.num * bool :=
  match firstLeaf (devices "system") ("Ac/Grid/" +:+ p +:+ "/Power") with
  | Some r => (r, true)
  | None =>
      match firstLeaf (devices "grid") ("Ac/" +:+ p +:+ "/Power") with
      | Some r => (r, true)
      | None => (active_input p, false)
      end
  end.

Definition is_known (x : option F64.num) : bool := match x with Some _ => true | None => false end.

Definition or_zero (x : option F64.num) : F64.num := default (F64.of_Z 0) x.

Definition consumption (p : string) : option F64.num :=
  match firstNum (devices "system") ["Ac/Consumption/" +:+ p +:+ "/Power"] with
  | Some n => Some n
  | None =>
      let a := firstNum (devices "system") ["Ac/ConsumptionOnInput/" +:+ p +:+ "/Power"] in
      let b := firstNum (devices "system") ["Ac/ConsumptionOnOutput/" +:+ p +:+ "/Power"] in
      if is_known a || is_known b then Some (F64.add (or_zero a) (or_zero b)) else None
  end.

(** One round of the loop over the phases; [i] is the phase's digit. *)
Definition phase (i : string) (out : Out) : Out :=
  let p := "L" +:+ i in
  let '(n, seen) := grid_reading p in
  let out := if seen || is_known n then <["grid_l" +:+ i +:+ "_available" := OBool (is_known n)]> out else out in
  let out := put ("g" +:+ i) n out in
  put ("t" +:+ i) (consumption p) out.

Definition group_sum (prefix : string) (out : Out) : option F64.num :=
  sum_known ((λ i, number_at out (prefix +:+ i)) <$> ["1"; "2"; "3"]).

Definition absent (out : Out) (key : string) : bool := match out !! key with None => true | Some _ => false end.

Definition grid_total (out : Out) : Out :=
  match group_sum "g" out with
  | Some total => put "gt" (Some total) out
  | None =>
      if absent out "grid_l1_available" && absent out "grid_l2_available" && absent out "grid_l3_available"
      then put "gt" (firstNum (devices "grid") ["Ac/Power"]) out
      else out
  end.

Definition consumption_total (out : Out) : Out := put "tt" (group_sum "t" out) out.

(** ** Inverter *)

Definition inverter (out : Out) : Out :=
  let out := put "setpoint" (firstNum (devices "vebus") ["Hub4/L1/AcPowerSetpoint"]) out in
  match firstNum (devices "vebus") ["State"] with
  | Some code =>
      <["inverter_state" := OStr (default ("? (" +:+ dec (go_int code) +:+ ")") (inverterStates (go_int code)))]> out
  | None => out
  end.

(** ** Batteries *)

(** [fmt.Sprintf("%dh %02dm", s/3600, s%3600/60)]. *)
Definition time_to_go (s : Z) : string :=
  dec (s / 3600) +:+ "h " +:+ pad_start 2 "0" (dec (s mod 3600 / 60)) +:+ "m".

Definition battery_row (id : string) (d : leaves) : Battery :=
  let current := leaf_num d ["Dc/0/Current"] in
  let state := match current with Some i => stateFromCurrent i | None => "" end in
  MkBattery id (deviceName d ("Battery " +:+ id)) (leaf_str d ["Serial"])
    (leaf_num d ["Dc/0/Voltage"]) current (dcPower d) (leaf_num d ["Soc"]) state
    (match leaf_num d ["TimeToGo"] with
     | Some seconds =>
         if F64.ltb (F64.of_Z 0) seconds && F64.ltb seconds (F64.of_Z (14 * 86400)) && negb (String.eqb state "Idle")
         then time_to_go (go_int seconds) else ""
     | None => ""
     end)
    (leaf_num d ["Dc/0/Temperature"]) (leaf_num d ["System/MinCellVoltage"]) (leaf_num d ["System/MaxCellVoltage"])
    (leaf_str d ["System/MinVoltageCellId"]) (leaf_str d ["System/MaxVoltageCellId"]).

Definition nonempty (ds : gmap string leaves) : bool := negb (bool_decide (ds = ∅)).

Definition battery_rows (out : Out) : Out :=
  let bats := devices "battery" in
  if nonempty bats
  then <["batteries" := OBatteries ((λ e, battery_row e.1 e.2) <$> in_order bats)]> out else out.

(** The battery that systemcalc selects, or the only one. *)
Definition selected_battery : leaves :=
  let bats := devices "battery" in
  match firstNum (devices "system") ["Dc/Battery/Instance"] with
  | Some n => default ∅ (bats !! dec (go_int n))
  | None => match map_to_list bats with [e] => e.2 | _ => default ∅ (bats !! "") end
  end.

Definition is_shunt (d : leaves) : bool := contains "shunt" (ToLower (deviceName d "")).

(** The first shunt that reports a voltage, or the first shunt. *)
Definition smart_shunt : leaves :=
  let shunts := List.filter is_shunt (snd <$> in_order (devices "battery")) in
  match List.find (λ d, is_known (leaf_num d ["Dc/0/Voltage"])) shunts with
  | Some d => d
  | None => default ∅ (head shunts)
  end.

Definition or_else (x y : option F64.num) : option F64.num := match x with Some n => Some n | None => y end.

Definition bank_metrics (out : Out) : Out :=
  let sys quantity := firstNum (devices "system") ["Dc/Battery/" +:+ quantity] in
  let voltage := or_else (or_else (leaf_num smart_shunt ["Dc/0/Voltage"]) (sys "Voltage"))
                         (leaf_num selected_battery ["Dc/0/Voltage"]) in
  let out := put "bv" voltage (put "battery_voltage" voltage out) in
  let out := match or_else (leaf_num smart_shunt ["Dc/0/Voltage"]) (sys "Voltage") with
             | Some v => <["battery_soc" := ONum (VoltageSOC v)]> out
             | None => out
             end in
  let current := or_else (or_else (leaf_num smart_shunt ["Dc/0/Current"]) (sys "Current"))
                         (leaf_num selected_battery ["Dc/0/Current"]) in
  let out := put "bc" current (put "battery_current" current out) in
  let power := or_else (or_else (dcPower smart_shunt) (sys "Power")) (dcPower selected_battery) in
  put "bp" power (put "battery_power" power out).

(** ** Solar *)

Definition mppt_row (id : string) (d : leaves) : Charger :=
  MkCharger id (deviceName d ("Solar charger " +:+ id)) (leaf_str d ["Serial"])
    (leaf_num d ["Pv/V"]) (leaf_num d ["Dc/0/Current"])
    (or_else (leaf_num d ["Yield/Power"]) (dcPower d)).

Definition pv_row (id : string) (d : leaves) : Charger :=
  MkCharger id (deviceName d ("PV inverter " +:+ id)) (leaf_str d ["Serial"])
    (leaf_num d ["Ac/L1/Voltage"]) (leaf_num d ["Ac/L1/Current"]) (acPower d).

Definition mppt_rows : list Charger := (λ e, mppt_row e.1 e.2) <$> in_order (devices "solarcharger").
Definition pv_rows : list Charger := (λ e, pv_row e.1 e.2) <$> in_order (devices "pvinverter").

Definition system_pv : option F64.num :=
  sum_known (flat_map (λ location,
    (λ i, firstNum (devices "system") ["Ac/" +:+ location +:+ "/L" +:+ i +:+ "/Power"]) <$> ["1"; "2"; "3"])
    ["PvOnGrid"; "PvOnOutput"; "PvOnGenset"]).

Definition solar (out : Out) : Out :=
  let out := if nonempty (devices "solarcharger")
             then <["mppt_individual" := ONums (omap c_power mppt_rows)]>
                    (<["mppt_chargers" := OChargers mppt_rows]> out)
             else out in
  let out := if nonempty (devices "pvinverter") then <["pv_inverters" := OChargers pv_rows]> out else out in
  let mppt := or_else (firstNum (devices "system") ["Dc/Pv/Power"]) (sum_known (c_power <$> mppt_rows)) in
  let pv := or_else system_pv (sum_known (c_power <$> pv_rows)) in
  let out := put "pv_inverter_total" pv (put "pv_total" mppt (put "mppt_total" mppt out)) in
  if is_known mppt || is_known pv
  then <["solar_total" := ONum (F64.add (or_zero mppt) (or_zero pv))]> out else out.

(** ** Loads and water *)

Definition loads (out : Out) : Out :=
  let ac := devices "acload" in
  if nonempty ac
  then <["load_names" := ONames (map_imap (λ id d, if is_known (acPower d)
                                                   then Some (deviceName d ("AC Load " +:+ id)) else None) ac)]>
         (<["loads" := OLoads (omap acPower ac)]> out)
  else out.

(** [n == math.Trunc(n)] and [0 <= n <= 2]. *)
Definition mode_of (n : F64.num) : option Z :=
  match n with
  | F64.Fin q => if F64.is_integer q && Qle_bool 0 q && Qle_bool q 2 then Some (Qfloor q) else None
  | _ => None
  end.

Definition instance_num (kind : string) (inst : Z) (path : string) : option F64.num :=
  leaf_num (default ∅ (devices kind !! dec inst)) [path].

Definition put_switch (key : string) (x : option F64.num) (out : Out) : Out :=
  match x with
  | Some n =>
      if F64.eqb n (F64.of_Z 0) || F64.eqb n (F64.of_Z 1) then <[key := OBool (F64.eqb n (F64.of_Z 1))]> out else out
  | None => out
  end.

Definition put_mode (key : string) (x : option F64.num) (out : Out) : Out :=
  match x ≫= mode_of with Some m => <[key := OInt m]> out | None => out end.

Definition water (o : CerboOptions) (out : Out) : Out :=
  let out := put "water_level" ((λ n, F64.mul n (F64.of_Z 1)) <$> instance_num "tank" (TankInstance o) "Level") out in
  let out := put_switch "pump_switch" (instance_num "pump" (PumpInstance o) "State") out in
  let out := put_switch "water_valve" (instance_num "pump" (ValveInstance o) "State") out in
  let out := put_mode "pump_mode" (instance_num "pump" (PumpInstance o) "Mode") out in
  let out := put_mode "water_valve_mode" (instance_num "pump" (ValveInstance o) "Mode") out in
  match out !! "pump_mode" with Some mode => <["water_pump_mode" := mode]> out | None => out end.

(** ** Vehicles *)

Definition evSOC (d : leaves) : option F64.num :=
  match leaf_num d ["Soc"] with
  | Some n => if F64.leb (F64.of_Z 0) n && F64.leb n (F64.of_Z 100) then Some n else None
  | None => None
  end.

Definition selectEV (ds : gmap string leaves) (preferred : Z) : leaves :=
  if 0 <=? preferred then default ∅ (ds !! dec preferred)
  else default ∅ (List.find (λ d, is_known (evSOC d) || is_known (acPower d)) (snd <$> in_order ds)).

Definition inventory_rows (kind : string) : list CerboDevice :=
  (λ e, MkDevice kind (default 0 (Atoi e.1)) (deviceName e.2 (kind +:+ " " +:+ e.1)) (evSOC e.2) (acPower e.2))
  <$> in_order (devices kind).

Definition applyEVOverlay (o : CerboOptions) (out : Out) : Out :=
  let evs := devices "ev" in
  let chargers := devices "evcharger" in
  let out := <["discovered_water_ev" := ODevices (flat_map inventory_rows ["ev"; "evcharger"; "tank"; "pump"])]> out in
  let out := <["ev_present" := OBool (nonempty evs)]> out in
  let out := <["evcharger_present" := OBool (nonempty chargers)]> out in
  let ev := selectEV evs (EVInstance o) in
  let charger := selectEV chargers (EVChargerInstance o) in
  let out := put "car_charging_power" (acPower ev) (put "ev_power" (acPower ev) out) in
  let out := put "ev_charging_kw" ((λ n, F64.div n (F64.of_Z 1000)) <$> acPower charger)
               (put "ev_charging_power" (acPower charger) out) in
  match evSOC ev with
  | Some n => put "car_soc" (Some n) out
  | None => if EVInstance o <? 0 then put "car_soc" (evSOC charger) out else out
  end.

(** ** ESS *)

(** [x >= 0 && x == float64(int(x))], with the integer. *)
Definition natural (x : F64.num) : option Z :=
  if negb (F64.ltb x (F64.of_Z 0)) && F64.eqb x (F64.of_Z (go_int x)) then Some (go_int x) else None.

Definition ess_of (d : leaves) : option ESSMode :=
  hub ← leaf_num d ["Settings/CGwacs/Hub4Mode"] ≫= natural;
  let bl := leaf_num d ["Settings/CGwacs/BatteryLife/State"] ≫= natural in
  let external := F64.eqb (or_zero (leaf_num d ["Settings/CGwacs/Hub4Mode"])) (F64.of_Z 3) in
  if hub =? 3 then Some (MkMode (default 0 bl) hub external "External control")
  else if hub =? 1 then
    match bl with
    | None => None
    | Some s => Some (MkMode s hub external
                        (if (s =? 0) || (s =? 10) then "Optimized without BatteryLife"
                         else if s =? 9 then "Keep batteries charged" else "Optimized (BatteryLife)"))
    end
  else Some (MkMode (default 0 bl) hub external ("Unknown (" +:+ dec hub +:+ ")")).

Definition applyESSOverlay (out : Out) : Out :=
  match head (omap (λ e, ess_of e.2) (in_order (devices "settings"))) with
  | Some mode => <["ess_mode" := OMode mode]> out
  | None => out
  end.

(** ** The reducer *)

Definition cerboOverlay (o : CerboOptions) : Out :=
  let out := phase "3" (phase "2" (phase "1" ∅)) in
  let out := consumption_total (grid_total out) in
  let out := bank_metrics (battery_rows (inverter out)) in
  let out := water o (loads (solar out)) in
  applyESSOverlay (applyEVOverlay o out).
End reducer.

(** The fields that only direct telemetry fills. *)
Definition directFields : list string :=
  ["grid_l1_available"; "grid_l2_available"; "grid_l3_available"; "g1"; "g2"; "g3"; "gt"; "t1"; "t2"; "t3"; "tt";
   "bv"; "bc"; "bp"; "battery_soc"; "battery_voltage"; "battery_current"; "battery_power"; "setpoint";
   "inverter_state"; "solar_total"; "mppt_total"; "pv_total"; "pv_inverter_total"; "batteries"; "mppt_chargers";
   "mppt_individual"; "pv_inverters"; "loads"; "load_names"; "ev_power"; "car_charging_power"; "ev_charging_kw";
   "ev_charging_power"; "car_soc"; "ev_present"; "evcharger_present"; "discovered_water_ev"; "ess_mode";
   "water_level"; "water_valve"; "pump_switch"; "water_valve_mode"; "pump_mode"; "water_pump_mode"].
