(* ===== verification/Notifications.v ===== *)
(** * The notification banners of the Go server

    [internal/mqtt/notifications.go], with the parts of [internal/mqtt/client.go]
    and [push.go] that reset it, and the second implementation of the same
    banners for gateway snapshots in [internal/gateway/map.go].  Handlers run
    under the client's locks, so a handler is one step; decoding a message may
    overlap anything, which is why a callback carries the push generation and
    the MQTT session it began in.  [encoding/json] is not modelled: a message
    carries the decoded payload. *)

From Stdlib Require Import ZArith Ascii String Lia.
From stdpp Require Import base list option strings gmap fin_maps.
From S2P Require Import Prelude Float64 JsValue Utf8 ControllerCommands NativeLeaves.

#[local] Open Scope string_scope.
#[local] Open Scope list_scope.
#[local] Open Scope Z_scope.

(** ** Banners *)

Record Notification := MkNotification {
  ID : string;
  Level : string;
  Title : string;
  Body : string;
  Source : string;
  Ts : string;
  PushIncomplete : bool
}.

Definition maxNotifications : nat := 100.

(** [kept[len(kept)-maxNotifications:]] when there are more. *)
Definition newest (ns : list Notification) : list Notification :=
  drop (length ns - maxNotifications) ns.

Definition without (id : string) (ns : list Notification) : list Notification :=
  List.filter (λ n, negb (String.eqb (ID n) id)) ns.

Definition upsertNotification (ns : list Notification) (n : Notification) : list Notification :=
  newest (without (ID n) ns ++ [n]).

Definition native (n : Notification) : bool := String.prefix "victron-" (ID n).

(** ** Names *)

Definition is_upper (r : Z) : bool := between 65 90 r.

Fixpoint last_char (s : string) : option ascii :=
  match s with "" => None | String c "" => Some c | String _ s' => last_char s' end.
Definition lastIsLower (s : string) : bool :=
  match last_char s with Some c => between 97 122 (byte_of c) | None => false end.

(** [splitCamel]: the loop over the runes, with the words found and [current]. *)
Definition camel_step (acc : list string * string) (ch : Z) : list string * string :=
  let '(words, current) := acc in
  if is_upper ch && negb (String.eqb current "") && lastIsLower current
  then (words ++ [current], encode_rune ch)
  else if (ch =? 95) || (ch =? 45) || (ch =? 32)
  then (if String.eqb current "" then acc else (words ++ [current], ""))
  else (words, current +:+ encode_rune ch).

Definition splitCamel (s : string) : list string :=
  let '(words, current) := foldl camel_step ([], "") (runes s) in
  if String.eqb current "" then words else words ++ [current].

(** [strings.ToUpper] of one byte: a byte that is not ASCII is no text and
    becomes the replacement character. *)
Definition upper_byte (c : ascii) : string :=
  let n := nat_of_ascii c in
  if (128 <=? n)%nat then encode_scalar RUNE_ERROR
  else if (97 <=? n)%nat && (n <=? 122)%nat then String (ascii_of_nat (n - 32)) "" else String c "".

Definition capitalize (s : string) : string :=
  match s with "" => "" | String c s' => upper_byte c +:+ s' end.

Definition prettyAlarmName (name : string) : string := JsValue.join " " (capitalize <$> splitCamel name).

Definition isAllDigits (s : string) : bool :=
  negb (String.eqb s "") && forallb (λ r, between 48 57 r) (runes s).

Definition prettyServiceName (service : string) : string :=
  match cut_at "_" service with
  | (name, Some inst) =>
      if isAllDigits inst then capitalize name +:+ " " +:+ inst else capitalize service
  | _ => capitalize service
  end.

(** ** Platform slots *)

Record platformSlotState := MkSlot {
  inst : Z;
  slot : Z;
  description : string;
  deviceName : string;
  service : string;
  dateTime : string;
  notifType : Z;
  hasType : bool;
  pushTypeKnown : bool;
  active : option bool;
  acknowledged : bool
}.

Definition new_slot (i s : Z) : platformSlotState := MkSlot i s "" "" "" "" 0 false false None false.

Definition slot_key (i s : Z) : string := dec i +:+ "-" +:+ dec s.
Definition bannerID (ps : platformSlotState) : string := "victron-platform-" +:+ slot_key (inst ps) (slot ps).

Definition toNotification (ps : platformSlotState) : option Notification :=
  if acknowledged ps then None
  else
    let desc := TrimSpace (description ps) in
    if String.eqb desc "" then None
    else
      let level := if hasType ps
                   then if notifType ps =? 0 then "warning" else if notifType ps =? 2 then "info" else "alarm"
                   else "alarm" in
      let body := if String.eqb (deviceName ps) "" then service ps else deviceName ps in
      Some (MkNotification (bannerID ps) level desc body "victron" (dateTime ps) (negb (pushTypeKnown ps))).

Definition with_texts (d n s t : string) (ps : platformSlotState) : platformSlotState :=
  MkSlot (inst ps) (slot ps) d n s t (notifType ps) (hasType ps) (pushTypeKnown ps) (active ps) (acknowledged ps).
Definition with_type (ty : Z) (has known : bool) (ps : platformSlotState) : platformSlotState :=
  MkSlot (inst ps) (slot ps) (description ps) (deviceName ps) (service ps) (dateTime ps) ty has known
         (active ps) (acknowledged ps).
Definition with_flags (a : option bool) (k : bool) (ps : platformSlotState) : platformSlotState :=
  MkSlot (inst ps) (slot ps) (description ps) (deviceName ps) (service ps) (dateTime ps) (notifType ps)
         (hasType ps) (pushTypeKnown ps) a k.

Definition set_text (field text : string) (ps : platformSlotState) : platformSlotState :=
  if String.eqb field "Description" then with_texts text (deviceName ps) (service ps) (dateTime ps) ps
  else if String.eqb field "DeviceName" then with_texts (description ps) text (service ps) (dateTime ps) ps
  else if String.eqb field "Service" then with_texts (description ps) (deviceName ps) text (dateTime ps) ps
  else ps.
Definition set_dateTime (t : string) (ps : platformSlotState) : platformSlotState :=
  with_texts (description ps) (deviceName ps) (service ps) t ps.

Definition clearField (field : string) (ps : platformSlotState) : platformSlotState :=
  if String.eqb field "DateTime" then set_dateTime "" ps
  else if String.eqb field "Type" then with_type (notifType ps) false false ps
  else if String.eqb field "Acknowledged" then with_flags (active ps) false ps
  else if String.eqb field "Active" then with_flags None (acknowledged ps) ps
  else set_text field "" ps.

Definition is_text (v : gval) : bool := match v with GString _ => true | _ => false end.

Definition setType (value : gval) (ps : platformSlotState) : platformSlotState :=
  match NativeNotificationLevel value with
  | Some level => with_type level true (negb (is_text value)) ps
  | None => with_type (notifType ps) (hasType ps) false ps
  end.

(** A value that is not nil. *)
Definition setField (field : string) (value : gval) (ps : platformSlotState) : platformSlotState :=
  if String.eqb field "DateTime" then set_dateTime (NotificationTime value) ps
  else if String.eqb field "Type" then setType value ps
  else if String.eqb field "Acknowledged" then
    match NativeNotificationBool value with Some b => with_flags (active ps) b ps | None => ps end
  else if String.eqb field "Active" then
    match NativeNotificationBool value with Some b => with_flags (Some b) (acknowledged ps) ps | None => ps end
  else match value with GString str => set_text field (TrimSpace str) ps | _ => ps end.

Definition updateField (field : string) (value : gval) (ps : platformSlotState) : platformSlotState :=
  match value with GNil => clearField field ps | _ => setField field value ps end.

(** ** The client *)

Record Client := MkClient {
  notifications : list Notification;
  platformSlots : gmap string platformSlotState;
  platformNotifsSeen : bool;
  alarmValues : gmap string Z;
  gatewayMode : bool;
  pushGeneration : Z;
  mqttSession : Z
}.

Definition NewClient : Client := MkClient [] ∅ false ∅ false 0 0.

Definition with_notifications (ns : list Notification) (c : Client) : Client :=
  MkClient ns (platformSlots c) (platformNotifsSeen c) (alarmValues c) (gatewayMode c) (pushGeneration c)
           (mqttSession c).

(** What [encoding/json] makes of a payload that should be [{"value": ...}]. *)
Inductive payload : Type :=
| Empty
| Malformed
| Fields (o : list (string * gval)).

(** The fields of a controller notification after decoding. *)
Record raw_notification := MkRaw {
  raw_id : string; raw_level : string; raw_title : string; raw_body : string; raw_source : string; raw_ts : string }.

(** The banner of a controller message. *)
Definition controller_banner (raw : raw_notification) : option Notification :=
  let id := TrimSpace (raw_id raw) in
  let title := TrimSpace (raw_title raw) in
  if String.eqb id "" && String.eqb title "" then None
  else
    let level := ToLower (TrimSpace (raw_level raw)) in
    Some (MkNotification (if String.eqb id "" then title else id)
            (if existsb (String.eqb level) ["info"; "warning"; "alarm"] then level else "info")
            (if String.eqb title "" then id else title) (raw_body raw)
            (if String.eqb (raw_source raw) "" then "inverter-control" else raw_source raw)
            (raw_ts raw) false).

(** [applyNotificationMessage] after its checks. *)
Definition apply_raw (raw : raw_notification) (c : Client) : Client :=
  match controller_banner raw with
  | Some n => with_notifications (upsertNotification (notifications c) n) c
  | None => c
  end.

Definition decodeAlarmValue (p : payload) : option Z :=
  match p with
  | Empty => Some 0
  | Malformed => None
  | Fields o =>
      match assoc "value" o with
      | None => None
      | Some GNil => Some 0
      | Some v => NativeNotificationLevel v
      end
  end.

(** The banner of an alarm topic at value 1 or 2. *)
Definition alarm_banner (topic : string) (value : Z) : Notification :=
  let parts := split_on "/" topic in
  let part i := default "" (parts !! i) in
  let n := length parts in
  let svc := if (4 <? n)%nat
             then part 2%nat +:+ (if (5 <? n)%nat && String.eqb (part 4%nat) "Alarms" then "_" +:+ part 3%nat else "")
             else "device" in
  let name := if (4 <? n)%nat then part (n - 1)%nat else topic in
  MkNotification ("victron-" +:+ topic) (if value =? 2 then "alarm" else "warning") (prettyServiceName svc)
    (prettyAlarmName name +:+ ": " +:+ (if value =? 2 then "Alarm" else "Warning")) "victron" "" false.

(** [onAlarmMessage], with [setAlarmValue]. *)
Definition onAlarmMessage (topic : string) (p : payload) (c : Client) : Client :=
  if platformNotifsSeen c then c
  else
    match decodeAlarmValue p with
    | None => c
    | Some value =>
        if default 0 (alarmValues c !! topic) =? value then c
        else
          let c := MkClient (notifications c) (platformSlots c) (platformNotifsSeen c)
                            (<[topic := value]> (alarmValues c)) (gatewayMode c) (pushGeneration c)
                            (mqttSession c) in
          if (value =? 1) || (value =? 2)
          then with_notifications (upsertNotification (notifications c) (alarm_banner topic value)) c
          else with_notifications (without ("victron-" +:+ topic) (notifications c)) c
    end.

Definition validPortal (portal : string) : bool :=
  negb (String.eqb portal "") &&
  forallb (λ r, between 97 122 r || between 65 90 r || between 48 57 r || (r =? 45) || (r =? 95)) (runes portal).

Record platformNotificationUpdate := MkUpdate { u_inst : Z; u_slot : Z; u_field : string; u_value : gval }.

Definition decodePlatformNotification (topic : string) (p : payload) : option platformNotificationUpdate :=
  match split_on "/" topic with
  | [p0; portal; p2; p3; p4; p5; p6] =>
      if negb (String.eqb p0 "N") || negb (validPortal portal) || negb (String.eqb p2 "platform") ||
         negb (String.eqb p4 "Notifications") then None
      else
        '(i, s, field) ← ParsePlatformNotificationKey (String.concat "/" [p3; p4; p5; p6]);
        value ← match p with Empty => Some GNil | Malformed => None | Fields o => assoc "value" o end;
        if ValidPlatformNotificationValue field value then Some (MkUpdate i s field value) else None
  | _ => None
  end.

Definition updated_slots (u : platformNotificationUpdate) (slots : gmap string platformSlotState)
  : gmap string platformSlotState :=
  let key := slot_key (u_inst u) (u_slot u) in
  <[key := updateField (u_field u) (u_value u) (default (new_slot (u_inst u) (u_slot u)) (slots !! key))]> slots.

Section client.
(** The order in which the language iterates over a map. *)
Variable iterate : gmap string platformSlotState -> list platformSlotState.

Definition updatePlatformSlots (u : platformNotificationUpdate) (c : Client) : Client :=
  MkClient (notifications c) (updated_slots u (platformSlots c)) true (alarmValues c) (gatewayMode c)
           (pushGeneration c) (mqttSession c).

(** [applyPlatformNotification] after its checks: banners that are not native
    stay, native ones are rebuilt from the slots. *)
Definition apply_update (u : platformNotificationUpdate) (c : Client) : Client :=
  let c := updatePlatformSlots u c in
  let kept := List.filter (λ n, negb (native n)) (notifications c) in
  with_notifications (newest (kept ++ omap toNotification (iterate (platformSlots c)))) c.

(** ** Callbacks and resets *)

Inductive message : Type :=
| Raw (raw : raw_notification)
| Platform (topic : string) (p : payload)
| Alarm (topic : string) (p : payload).

(** [applyNotificationMessage], [applyPlatformNotification] and
    [applyCerboAlarm] with the generation and session that the callback began
    in, after decoding. *)
Definition apply_message (m : message) (generation session : Z) (c : Client) : Client :=
  if gatewayMode c || negb (generation =? pushGeneration c) || negb (session =? mqttSession c) then c
  else
    match m with
    | Raw raw => apply_raw raw c
    | Platform topic p =>
        match decodePlatformNotification topic p with Some u => apply_update u c | None => c end
    | Alarm topic p => onAlarmMessage topic p c
    end.

Definition resetNativeNotifications (clearBanners : bool) (c : Client) : Client :=
  let ns := notifications c in
  MkClient (if clearBanners
            then List.filter (λ n, negb (String.eqb (Source n) "victron") && negb (native n)) ns
            else ns)
           ∅ false ∅ (gatewayMode c) (pushGeneration c) (mqttSession c).

Definition advanceMQTTSession (c : Client) : Client :=
  resetNativeNotifications (negb (gatewayMode c))
    (MkClient (notifications c) (platformSlots c) (platformNotifsSeen c) (alarmValues c) (gatewayMode c)
              (pushGeneration c) (mqttSession c + 1)).

Definition resetPush (c : Client) : Client :=
  MkClient (notifications c) (platformSlots c) (platformNotifsSeen c) (alarmValues c) (gatewayMode c)
           (pushGeneration c + 1) (mqttSession c).
Definition resetMQTTPush (c : Client) : Client := if gatewayMode c then c else resetPush c.

Definition set_gateway (b : bool) (c : Client) : Client :=
  MkClient (notifications c) (platformSlots c) (platformNotifsSeen c) (alarmValues c) b (pushGeneration c)
           (mqttSession c).
Definition EnableGatewayMode (c : Client) : Client :=
  resetNativeNotifications true (resetPush (set_gateway true c)).
Definition DisableGatewayMode (c : Client) : Client :=
  resetNativeNotifications true (resetPush (set_gateway false c)).

(** The part of [ApplyState] that concerns the banners: a gateway snapshot
    replaces them unless it carries none. *)
Definition ApplyState (ns : option (list Notification)) (c : Client) : Client :=
  with_notifications (default (notifications c) ns) c.

Inductive event : Type :=
| Callback (m : message) (generation session : Z)
| AdvanceSession
| ResetMQTTPush
| ResetGatewayPush
| EnableGateway
| DisableGateway
| Snapshot (ns : option (list Notification)).

Definition step (c : Client) (e : event) : Client :=
  match e with
  | Callback m generation session => apply_message m generation session c
  | AdvanceSession => advanceMQTTSession c
  | ResetMQTTPush => resetMQTTPush c
  | ResetGatewayPush => if gatewayMode c then resetPush c else c
  | EnableGateway => EnableGatewayMode c
  | DisableGateway => DisableGatewayMode c
  | Snapshot ns => ApplyState ns c
  end.

Definition run (es : list event) (c : Client) : Client := foldl step c es.

(** ** Callbacks of a retired session *)

(** A callback that began before [c], at the latest. *)
Definition began_by (c : Client) (e : event) : Prop :=
  match e with
  | Callback _ generation session => generation <= pushGeneration c ∧ session <= mqttSession c
  | _ => False
  end.
#[local] Instance began_by_dec c e : Decision (began_by c e).
Proof. destruct e; apply _. Defined.

(** Counters only grow. *)
Definition grows (c c' : Client) : Prop :=
  pushGeneration c <= pushGeneration c' ∧ mqttSession c <= mqttSession c'.
#[local] Instance grows_order : PreOrder grows.
Proof. split; unfold grows; [intros c; lia|intros c1 c2 c3; lia]. Qed.

Definition counters (c : Client) : bool * Z * Z := (gatewayMode c, pushGeneration c, mqttSession c).

Lemma apply_message_counters m g s c : counters (apply_message m g s c) = counters c.
Proof.
  unfold apply_message. destruct (_ || _); [done|]. destruct m as [raw|topic p|topic p].
  - unfold apply_raw. by destruct (controller_banner raw).
  - by destruct (decodePlatformNotification topic p).
  - unfold onAlarmMessage. repeat case_match; done.
Qed.

Lemma step_grows c e : grows c (step c e).
Proof.
  unfold grows. destruct e as [m g s| | | | | |ns]; cbn [step].
  - pose proof (apply_message_counters m g s c) as H. unfold counters in H. injection H as _ -> ->. lia.
  - unfold advanceMQTTSession. simpl. lia.
  - unfold resetMQTTPush. destruct (gatewayMode c); simpl; lia.
  - destruct (gatewayMode c); simpl; lia.
  - simpl. lia.
  - simpl. lia.
  - simpl. lia.
Qed.

(** A step after which callbacks that began before it must be silent. *)
Definition retires (e : event) (c : Client) : Prop :=
  match e with
  | AdvanceSession | EnableGateway | DisableGateway => True
  | ResetMQTTPush => gatewayMode c = false
  | ResetGatewayPush => gatewayMode c = true
  | _ => False
  end.

Lemma retires_counters e c : retires e c ->
  pushGeneration c < pushGeneration (step c e) ∨ mqttSession c < mqttSession (step c e).
Proof.
  destruct e; cbn [retires step]; intros H; try done.
  - right. unfold advanceMQTTSession. simpl. lia.
  - left. unfold resetMQTTPush. rewrite H. simpl. lia.
  - left. rewrite H. simpl. lia.
  - left. simpl. lia.
  - left. simpl. lia.
Qed.

Lemma late_callback c c' e :
  began_by c e -> pushGeneration c < pushGeneration c' ∨ mqttSession c < mqttSession c' -> step c' e = c'.
Proof.
  destruct e as [m g s| | | | | |]; cbn [began_by step]; try done. intros [Hg Hs] H.
  unfold apply_message.
  destruct (Z.eqb_spec g (pushGeneration c')), (Z.eqb_spec s (mqttSession c')); cbn [negb];
    rewrite ?orb_true_r; try done. lia.
Qed.

Lemma run_ignores c c' es :
  pushGeneration c < pushGeneration c' ∨ mqttSession c < mqttSession c' ->
  run es c' = run (filter (λ e, ¬ began_by c e) es) c'.
Proof.
  revert c'. induction es as [|e es IH]; intros c' H; [done|]. cbn [run foldl].
  rewrite filter_cons. destruct (decide (¬ began_by c e)) as [Hb|Hb].
  - cbn [run foldl]. apply IH. pose proof (step_grows c' e) as [H1 H2]. lia.
  - destruct (decide (began_by c e)) as [Hb'|]; [|done]. rewrite (late_callback c c' e Hb' H). by apply IH.
Qed.

(** C12: Once the connection is lost or the source switched, the callbacks that
    began before leave no trace, however late they finish and whatever else
    happens; and at that moment no native banner is left unless the banners
    are the gateway's. *)
Theorem retired_callbacks_silent (c : Client) (e : event) (es : list event) :
  retires e c ->
  run (e :: es) c = run (e :: filter (λ e', ¬ began_by c e') es) c ∧
  (e ≠ ResetMQTTPush -> e ≠ ResetGatewayPush -> e = AdvanceSession ∧ gatewayMode c = true ∨
     (∀ n, n ∈ notifications (step c e) -> native n = false ∧ Source n ≠ "victron") ∧
     platformNotifsSeen (step c e) = false ∧ alarmValues (step c e) = ∅).
Proof.
  intros Hr. split.
  - cbn [run foldl]. apply run_ignores. by apply retires_counters.
  - assert (Hf : ∀ ns n, n ∈ List.filter (λ n, negb (String.eqb (Source n) "victron") && negb (native n)) ns ->
                 native n = false ∧ Source n ≠ "victron").
    { intros ns n Hn. apply list_elem_of_In, filter_In in Hn as [_ Hn].
      apply andb_true_iff in Hn as [H1 H2]. split; [by apply negb_true_iff|].
      apply negb_true_iff, String.eqb_neq in H1. done. }
    destruct e; cbn [retires step] in *; try done; intros H1 H2.
    + destruct (gatewayMode c) eqn:Eg; [by left|right].
      unfold advanceMQTTSession. rewrite Eg. cbn. split; [apply Hf|done].
    + right. split; [apply Hf|done].
    + right. split; [apply Hf|done].
Qed.

(** ** Lists of banners *)

Lemma newest_length ns : length (newest ns) = Nat.min maxNotifications (length ns).
Proof. unfold newest. rewrite length_drop. unfold maxNotifications. lia. Qed.

Lemma newest_sublist ns : newest ns `sublist_of` ns.
Proof. apply sublist_drop. Qed.

Lemma newest_elem n ns : n ∈ ns -> n ∈ newest ns ∨ length (newest ns) = maxNotifications.
Proof.
  intros Hn. destruct (decide (length ns <= maxNotifications)%nat) as [Hl|Hl].
  - left. unfold newest. by replace (length ns - maxNotifications)%nat with 0%nat by lia.
  - right. rewrite newest_length. lia.
Qed.

Lemma without_elem id n ns : n ∈ without id ns ↔ n ∈ ns ∧ ID n ≠ id.
Proof.
  unfold without. rewrite !list_elem_of_In, filter_In. rewrite negb_true_iff, String.eqb_neq. done.
Qed.

Lemma ids_sublist ns ns' : ns `sublist_of` ns' -> NoDup (ID <$> ns') -> NoDup (ID <$> ns).
Proof. intros Hs Hnd. eapply sublist_NoDup; [exact Hnd|]. by apply fmap_sublist. Qed.

Lemma length_without id ns : NoDup (ID <$> ns) -> (length ns <= S (length (without id ns)))%nat.
Proof.
  induction ns as [|n ns IH]; intros Hnd; [simpl; lia|]. simpl in Hnd. apply NoDup_cons in Hnd as [Hn Hnd].
  unfold without. simpl. destruct (String.eqb_spec (ID n) id) as [<-|]; simpl.
  - rewrite forallb_filter_id; [done|]. apply forallb_forall. intros m Hm.
    apply negb_true_iff, String.eqb_neq. intros E. apply Hn. rewrite <- E.
    apply list_elem_of_fmap_2. by apply list_elem_of_In.
  - specialize (IH Hnd). unfold without in IH. lia.
Qed.

Lemma upsert_elem n m ns : m ∈ upsertNotification ns n -> m = n ∨ (m ∈ ns ∧ ID m ≠ ID n).
Proof.
  unfold upsertNotification. intros Hm. apply (sublist_subseteq _ _ (newest_sublist _)) in Hm.
  apply elem_of_app in Hm as [Hm|Hm]; [right; by apply without_elem|left; by apply list_elem_of_singleton].
Qed.

Lemma upsert_NoDup ns n : NoDup (ID <$> ns) -> NoDup (ID <$> upsertNotification ns n).
Proof.
  intros Hnd. apply (ids_sublist _ _ (newest_sublist _)). rewrite fmap_app. apply NoDup_app. split; [|split].
  - by apply (ids_sublist _ ns), Hnd; apply filter_sublist.
  - intros i Hi. apply list_elem_of_fmap in Hi as (m & -> & Hm). apply without_elem in Hm as [_ Hm].
    simpl. by rewrite list_elem_of_singleton.
  - apply NoDup_singleton.
Qed.

Lemma upsert_keeps ns n m : NoDup (ID <$> ns) -> ID m ≠ ID n ->
  m ∈ ns ∨ length ns = maxNotifications ->
  m ∈ upsertNotification ns n ∨ length (upsertNotification ns n) = maxNotifications.
Proof.
  intros Hnd Hne [Hm|Hl]; unfold upsertNotification.
  - apply newest_elem. apply elem_of_app. left. by apply without_elem.
  - right. rewrite newest_length, length_app. pose proof (length_without (ID n) ns Hnd). cbn [length]. lia.
Qed.

(** ** The banners are current *)

Hypothesis iterate_perm : ∀ m, iterate m ≡ₚ (map_to_list m).*2.

Definition keyed (m : gmap string platformSlotState) : Prop :=
  ∀ key ps, m !! key = Some ps -> slot_key (inst ps) (slot ps) = key.

(** Every native banner has its cause in the latest values of the source. *)
Definition shown (c : Client) (n : Notification) : Prop :=
  if platformNotifsSeen c
  then ∃ key ps, platformSlots c !! key = Some ps ∧ toNotification ps = Some n
  else ∃ topic v, alarmValues c !! topic = Some v ∧ (v = 1 ∨ v = 2) ∧ n = alarm_banner topic v.

#[local] Arguments shown : simpl never.

Record coherent (c : Client) : Prop := {
  ids_distinct : NoDup (ID <$> notifications c);
  bounded : (length (notifications c) <= maxNotifications)%nat;
  slots_keyed : keyed (platformSlots c);
  natives_shown n : n ∈ notifications c -> native n = true -> gatewayMode c = false ∧ shown c n;
  slots_shown key ps n : platformNotifsSeen c = true -> platformSlots c !! key = Some ps ->
    toNotification ps = Some n -> n ∈ notifications c ∨ length (notifications c) = maxNotifications
}.

Lemma toNotification_ID ps n : toNotification ps = Some n -> ID n = bannerID ps.
Proof. unfold toNotification. repeat case_match; intros; by simplify_eq. Qed.

Lemma banner_native ps n : toNotification ps = Some n -> native n = true.
Proof. intros H. unfold native. rewrite (toNotification_ID ps n H). reflexivity. Qed.

Lemma app_inj_l (a b b' : string) : a +:+ b = a +:+ b' -> b = b'.
Proof. induction a as [|c a IH]; [done|]. intros H. injection H as H. by apply IH. Qed.

Lemma alarm_ID topic topic' v v' : ID (alarm_banner topic v) = ID (alarm_banner topic' v') -> topic = topic'.
Proof. apply app_inj_l. Qed.

Lemma updateField_slot f v ps : inst (updateField f v ps) = inst ps ∧ slot (updateField f v ps) = slot ps.
Proof.
  unfold updateField, clearField, setField, setType, set_dateTime, set_text. repeat case_match; done.
Qed.

Lemma updated_slots_keyed u m : keyed m -> keyed (updated_slots u m).
Proof.
  intros Hk key ps. unfold updated_slots. rewrite lookup_insert_Some.
  intros [[<- <-]|[_ H]]; [|by apply Hk].
  destruct (updateField_slot (u_field u) (u_value u)
              (default (new_slot (u_inst u) (u_slot u)) (m !! slot_key (u_inst u) (u_slot u)))) as [-> ->].
  destruct (m !! slot_key (u_inst u) (u_slot u)) as [ps|] eqn:E; [by apply Hk|done].
Qed.

(** The banners of a set of slots, whatever the order of iteration. *)
Lemma slot_banners_elem m n :
  n ∈ omap toNotification (iterate m) ↔ ∃ key ps, m !! key = Some ps ∧ toNotification ps = Some n.
Proof.
  rewrite list_elem_of_omap. setoid_rewrite iterate_perm. split.
  - intros (ps & Hps & Hn). apply list_elem_of_fmap in Hps as ([key ps'] & -> & Hps).
    apply elem_of_map_to_list in Hps. eauto.
  - intros (key & ps & Hps & Hn). exists ps. split; [|done].
    apply list_elem_of_fmap. exists (key, ps). split; [done|]. by apply elem_of_map_to_list.
Qed.

Lemma slot_banners_NoDup m : keyed m -> NoDup (ID <$> omap toNotification (iterate m)).
Proof.
  intros Hk. rewrite (iterate_perm m).
  assert (Hl : ∀ key ps, (key, ps) ∈ map_to_list m -> slot_key (inst ps) (slot ps) = key)
    by (intros key ps H; apply Hk; by apply elem_of_map_to_list).
  pose proof (NoDup_fst_map_to_list m) as Hnd.
  induction (map_to_list m) as [|[key ps] l IH]; [by apply NoDup_nil|].
  simpl in Hnd. apply NoDup_cons in Hnd as [Hnew Hnd]. cbn [fmap list_fmap omap list_omap snd].
  assert (Hrest : NoDup (ID <$> omap toNotification l.*2)) by (apply IH; [|done]; intros; apply Hl; by right).
  destruct (toNotification ps) as [n|] eqn:En; [|done]. cbn [fmap list_fmap].
  apply NoDup_cons. split; [|done]. intros Hin. apply list_elem_of_fmap in Hin as (n' & E & Hn').
  apply list_elem_of_omap in Hn' as (ps' & Hps' & En').
  rewrite (toNotification_ID _ _ En), (toNotification_ID _ _ En') in E. unfold bannerID in E.
  apply app_inj_l in E. apply list_elem_of_fmap in Hps' as ([key' ps''] & -> & Hin).
  cbn [snd] in E. rewrite (Hl key ps) in E by left. rewrite (Hl key' ps'') in E by (by right). subst key'.
  apply Hnew. by apply (list_elem_of_fmap_2 fst _ _ Hin).
Qed.

Lemma coherent_new : coherent NewClient.
Proof. split; try done. - apply NoDup_nil_2. - simpl. unfold maxNotifications. lia. - by intros n ?%not_elem_of_nil. Qed.

Lemma coherent_raw raw c :
  (∀ n, controller_banner raw = Some n -> native n = false) -> coherent c -> coherent (apply_raw raw c).
Proof.
  intros Hn [C1 C2 C3 C4 C5]. unfold apply_raw. destruct (controller_banner raw) as [n|]; [|by split].
  specialize (Hn n eq_refl). split; cbn.
  - by apply upsert_NoDup.
  - unfold upsertNotification. rewrite newest_length. lia.
  - done.
  - intros m Hm Hnat. apply upsert_elem in Hm as [->|[Hm _]]; [congruence|]. by apply C4.
  - intros key ps m Hseen Hps Hm. apply upsert_keeps; [done| |by eapply C5].
    intros E. apply banner_native in Hm. unfold native in *. congruence.
Qed.

Lemma coherent_alarm topic p c : gatewayMode c = false -> coherent c -> coherent (onAlarmMessage topic p c).
Proof.
  intros Hg C. unfold onAlarmMessage. destruct (platformNotifsSeen c) eqn:Eseen; [done|].
  destruct (decodeAlarmValue p) as [v|]; [|done]. destruct (_ =? v); [done|].
  destruct C as [C1 C2 C3 C4 C5]. cbn [notifications with_notifications].
  assert (Hold : ∀ c' n, n ∈ notifications c -> native n = true -> ID n ≠ "victron-" +:+ topic ->
            platformNotifsSeen c' = false -> alarmValues c' = <[topic := v]> (alarmValues c) -> shown c' n).
  { intros c' n Hn Hnat Hid Es Ea. apply C4 in Hn as [_ Hs]; [|done]. unfold shown in *.
    rewrite Eseen in Hs. rewrite Es, Ea. destruct Hs as (t & w & Ht & Hw & ->). exists t, w. split; [|done].
    rewrite lookup_insert_ne; [done|]. intros ->. by apply Hid. }
  assert (Hseen : ∀ P : Prop, platformNotifsSeen c = true -> P) by (intros P; congruence).
  destruct ((v =? 1) || (v =? 2)) eqn:Ev; split; cbn; rewrite ?Eseen; try done.
  - by apply upsert_NoDup.
  - unfold upsertNotification. rewrite newest_length. lia.
  - intros n Hn Hnat. split; [done|]. apply upsert_elem in Hn as [->|[Hn Hid]].
    + unfold shown. cbn. exists topic, v. rewrite lookup_insert_eq. split; [done|]. split; [|done]. bool_cases; lia.
    + by apply Hold.
  - by apply (ids_sublist _ _ (filter_sublist _ _)).
  - etrans; [|exact C2]. apply sublist_length, filter_sublist.
  - intros n Hn Hnat. split; [done|]. apply without_elem in Hn as [Hn Hid].
    by apply Hold.
Qed.

Lemma coherent_update u c : gatewayMode c = false -> coherent c -> coherent (apply_update u c).
Proof.
  intros Hg [C1 C2 C3 C4 C5]. pose proof (updated_slots_keyed u _ C3) as Hk.
  set (m := updated_slots u (platformSlots c)) in *.
  unfold apply_update, updatePlatformSlots. cbn [notifications platformSlots]. fold m. split; cbn.
  - apply (ids_sublist _ _ (newest_sublist _)). rewrite fmap_app. apply NoDup_app. split; [|split].
    + by apply (ids_sublist _ _ (filter_sublist _ _)).
    + intros i Hi Hi'. apply list_elem_of_fmap in Hi as (n & -> & Hn). apply list_elem_of_fmap in Hi' as (n' & E & Hn').
      apply list_elem_of_In, filter_In in Hn as [_ Hn]. apply slot_banners_elem in Hn' as (key & ps & _ & Hn').
      apply banner_native in Hn'. unfold native in *. rewrite E, Hn' in Hn. done.
    + by apply slot_banners_NoDup.
  - rewrite newest_length. lia.
  - done.
  - intros n Hn Hnat. split; [done|]. apply (sublist_subseteq _ _ (newest_sublist _)) in Hn.
    apply elem_of_app in Hn as [Hn|Hn].
    + apply list_elem_of_In, filter_In in Hn as [_ Hn]. by rewrite Hnat in Hn.
    + unfold shown. cbn. by apply slot_banners_elem.
  - intros key ps n _ Hps Hn. apply newest_elem. apply elem_of_app. right. apply slot_banners_elem. eauto.
Qed.

Lemma coherent_cleared c :
  NoDup (ID <$> notifications c) -> (length (notifications c) <= maxNotifications)%nat ->
  coherent (resetNativeNotifications true c).
Proof.
  intros C1 C2. unfold resetNativeNotifications. split; cbn; try done.
  - by apply (ids_sublist _ _ (filter_sublist _ _)).
  - etrans; [|exact C2]. apply sublist_length, filter_sublist.
  - intros n Hn Hnat. apply list_elem_of_In, filter_In in Hn as [_ Hn]. by rewrite Hnat, andb_false_r in Hn.
Qed.

Lemma coherent_gateway c : gatewayMode c = true -> coherent c -> coherent (resetNativeNotifications false c).
Proof.
  intros Hg [C1 C2 C3 C4 C5]. split; cbn; try done.
  intros n Hn Hnat. destruct (C4 n Hn Hnat). congruence.
Qed.

(** Controller messages that do not pose as native ones; no snapshots. *)
Definition mqtt_only (e : event) : Prop :=
  match e with
  | Callback (Raw raw) _ _ => ∀ n, controller_banner raw = Some n -> native n = false
  | Snapshot (Some _) => False
  | _ => True
  end.

Lemma coherent_counters c pg ms :
  coherent c ->
  coherent (MkClient (notifications c) (platformSlots c) (platformNotifsSeen c) (alarmValues c) (gatewayMode c) pg ms).
Proof. intros [C1 C2 C3 C4 C5]. by split. Qed.

Lemma coherent_step e c : mqtt_only e -> coherent c -> coherent (step c e).
Proof.
  intros He C. destruct e as [m g s| | | | | |ns]; cbn [step].
  - unfold apply_message. destruct (_ || _) eqn:E; [done|]. apply orb_false_iff in E as [[Hg _]%orb_false_iff _].
    destruct m as [raw|topic p|topic p].
    + by apply coherent_raw.
    + destruct (decodePlatformNotification topic p); [by apply coherent_update|done].
    + by apply coherent_alarm.
  - unfold advanceMQTTSession. destruct (gatewayMode c) eqn:Eg; cbn [negb].
    + apply coherent_gateway; [done|]. rewrite <- Eg. by apply coherent_counters.
    + apply coherent_cleared; apply C.
  - unfold resetMQTTPush. destruct (gatewayMode c); [done|]. by apply coherent_counters.
  - destruct (gatewayMode c); [|done]. by apply coherent_counters.
  - apply coherent_cleared; apply C.
  - apply coherent_cleared; apply C.
  - destruct ns as [ns|]; [done|]. unfold ApplyState. cbn. by destruct c.
Qed.

(** C13: Over MQTT the banners are at most a hundred with distinct identifiers.
    Every native banner is what the latest values say: a slot that still asks
    for it, or, as long as no slot has been seen, an alarm whose last value is
    1 or 2.  And no slot's banner is missing, unless a hundred banners are
    shown. *)
Theorem banners_current (es : list event) (n : Notification) :
  Forall mqtt_only es ->
  let c := run es NewClient in
  NoDup (ID <$> notifications c) ∧ (length (notifications c) <= 100)%nat ∧
  (n ∈ notifications c -> native n = true ->
     if platformNotifsSeen c
     then ∃ key ps, platformSlots c !! key = Some ps ∧ toNotification ps = Some n
     else ∃ topic v, alarmValues c !! topic = Some v ∧ (v = 1 ∨ v = 2) ∧ n = alarm_banner topic v) ∧
  (∀ key ps, platformNotifsSeen c = true -> platformSlots c !! key = Some ps -> toNotification ps = Some n ->
     n ∈ notifications c ∨ length (notifications c) = 100%nat).
Proof.
  intros Hes c. assert (C : coherent c).
  { subst c. unfold run. pose proof coherent_new as Hc. revert Hc. generalize NewClient.
    induction Hes as [|e es He _ IH]; intros c Hc; [done|]. cbn [foldl]. apply IH. by apply coherent_step. }
  destruct C as [C1 C2 C3 C4 C5]. split; [done|]. split; [done|]. split.
  - intros Hn Hnat. by apply C4.
  - intros key ps Hseen Hps Hn. by eapply C5.
Qed.
End client.

(** ** A concrete run *)

Definition in_order (m : gmap string platformSlotState) : list platformSlotState := (map_to_list m).*2.

Definition leaf_message (leaf : string) (v : gval) : message :=
  Platform ("N/c0619ab4a585/platform/0/Notifications/" +:+ leaf) (Fields [("value", v)]).

Definition sample_alarm : message :=
  Alarm "N/c0619ab4a585/battery/512/Alarms/HighCellVoltage" (Fields [("value", GNumber "2")]).

Definition sample_events : list event := [
  Callback (Raw (MkRaw " cmd-7 " "WARNING" "" "limit reached" "" "")) 0 0;
  Callback sample_alarm 0 0;
  Callback (leaf_message "3/Description" (GString "High temperature ")) 0 0;
  Callback (leaf_message "3/Type" (GNumber "0")) 0 0].

Example alarm_shown :
  notifications (run in_order (take 2 sample_events) NewClient)
  = [MkNotification "cmd-7" "warning" "cmd-7" "limit reached" "inverter-control" "" false;
     MkNotification "victron-N/c0619ab4a585/battery/512/Alarms/HighCellVoltage" "alarm" "Battery 512"
                    "High Cell Voltage: Alarm" "victron" "" false].
Proof. vm_compute. reflexivity. Qed.

Example slot_replaces_alarm :
  notifications (run in_order sample_events NewClient)
  = [MkNotification "cmd-7" "warning" "cmd-7" "limit reached" "inverter-control" "" false;
     MkNotification "victron-platform-0-3" "warning" "High temperature" "" "victron" "" false].
Proof. vm_compute. reflexivity. Qed.

(** A name that does not begin with an ASCII letter loses its first byte. *)
Example capitalize_breaks_text : valid_utf8 (capitalize (encode [233; 116])) = false.
Proof. vm_compute. reflexivity. Qed.

Lemma banners_current_witness :
  let c := run in_order sample_events NewClient in
  NoDup (ID <$> notifications c) ∧
  (MkNotification "victron-platform-0-3" "warning" "High temperature" "" "victron" "" false
     ∈ notifications c ∨ length (notifications c) = 100%nat).
Proof.
  set (n := MkNotification "victron-platform-0-3" "warning" "High temperature" "" "victron" "" false).
  assert (Hes : Forall mqtt_only sample_events).
  { repeat apply Forall_cons_2; [|exact I|exact I|exact I|apply Forall_nil_2].
    intros m Hm. vm_compute in Hm. injection Hm as <-. reflexivity. }
  destruct (banners_current in_order (λ m, Permutation_refl _) sample_events n Hes) as (H1 & _ & _ & H4).
  split; [exact H1|].
  destruct (platformSlots (run in_order sample_events NewClient) !! "0-3") as [ps|] eqn:E; [|vm_compute in E; discriminate].
  apply (H4 "0-3" ps); [vm_compute; reflexivity|exact E|].
  vm_compute in E. injection E as <-. vm_compute. reflexivity.
Defined.

Lemma retired_callbacks_silent_witness :
  let c := run in_order (take 2 sample_events) NewClient in
  run in_order [AdvanceSession; Callback sample_alarm 0 0; Callback sample_alarm 0 1] c
  = run in_order [AdvanceSession; Callback sample_alarm 0 1] c.
Proof.
  intros c.
  destruct (retired_callbacks_silent in_order c AdvanceSession
              [Callback sample_alarm 0 0; Callback sample_alarm 0 1] I) as [H _].
  rewrite H. f_equal.
Defined.
