(* ===== verification/OverlayState.v ===== *)
(** * Direct telemetry in the dashboard's state

    The part of [Client] in [internal/mqtt/cerbo.go] and
    [internal/mqtt/controller.go] that owns telemetry: the cached leaves, the
    fields that direct telemetry has claimed, the state they are written to,
    the frames of the controller that are merged into it, and the resets.
    [None] stands for a panic.  Times are milliseconds. *)

From Stdlib Require Import ZArith QArith Qround Ascii String Lia.
From stdpp Require Import base list option strings gmap fin_maps sorting.
From S2P Require Import Prelude Float64 JsValue Utf8 ControllerCommands NativeLeaves Notifications JsonFields StateFields CerboLeaves CerboOverlay.

#[local] Open Scope string_scope.
#[local] Open Scope list_scope.
#[local] Open Scope Z_scope.

(** ** Encoding the overlay *)

Definition omit_string (key s : string) : list (string * gval) := if String.eqb s "" then [] else [(key, GString s)].
Definition omit_number (key : string) (x : option F64.num) : list (string * gval) :=
  match x with Some n => [(key, GFloat n)] | None => [] end.
Definition omit_zero (key : string) (x : F64.num) : list (string * gval) :=
  if F64.eqb x (F64.of_Z 0) then [] else [(key, GFloat x)].
Definition known (key : string) (x : option F64.num) : string * gval := (key, GBool (is_known x)).

Definition battery_json (b : Battery) : gval :=
  GObject (
    omit_string "instance" (b_instance b) ++ omit_string "serial" (b_serial b) ++
    omit_number "temperature" (b_temperature b) ++ omit_number "min_cell_voltage" (b_minCell b) ++
    omit_number "max_cell_voltage" (b_maxCell b) ++ omit_string "min_voltage_cell_id" (b_minCellId b) ++
    omit_string "max_voltage_cell_id" (b_maxCellId b) ++
    [("telemetry_available", GObject [known "current" (b_current b); known "power" (b_power b);
                                      known "soc" (b_soc b); known "voltage" (b_voltage b)]);
     ("name", GString (b_name b)); ("voltage", GFloat (or_zero (b_voltage b)));
     ("current", GFloat (or_zero (b_current b))); ("power", GFloat (or_zero (b_power b)));
     ("soc", GFloat (or_zero (b_soc b)))] ++
    omit_string "state" (b_state b) ++ omit_string "time_to_go" (b_timeToGo b)).

Definition charger_json (c : Charger) : gval :=
  GObject (
    omit_string "instance" (c_instance c) ++ omit_string "serial" (c_serial c) ++
    [("telemetry_available", GObject [known "current" (c_current c); known "power" (c_power c);
                                      known "pv_voltage" (c_pvVoltage c)]);
     ("name", GString (c_name c))] ++ omit_zero "pv_voltage" (or_zero (c_pvVoltage c)) ++
    [("current", GFloat (or_zero (c_current c))); ("power", GFloat (or_zero (c_power c)))]).

Definition device_json (d : CerboDevice) : gval :=
  GObject ([("kind", GString (d_kind d)); ("instance", GInt (d_instance d)); ("name", GString (d_name d))] ++
           omit_number "soc" (d_soc d) ++ omit_number "power" (d_power d)).

Definition mode_json (m : ESSMode) : gval :=
  GObject [("selection_supported", GBool false); ("battery_life_state", GInt (BatteryLifeState m));
           ("hub4_mode", GInt (Hub4Mode m)); ("is_external", GBool (IsExternal m)); ("mode_name", GString (ModeName m))].

Definition marshal (v : oval) : gval :=
  match v with
  | ONum x => GFloat x
  | OBool b => GBool b
  | OInt z => GInt z
  | OStr s => GString s
  | OBatteries l => GSlice (battery_json <$> l)
  | OChargers l => GSlice (charger_json <$> l)
  | ONums l => GSlice (GFloat <$> l)
  | OLoads m => GObject (prod_map id GFloat <$> map_to_list m)
  | ONames m => GObject (prod_map id GString <$> map_to_list m)
  | ODevices l => GSlice (device_json <$> l)
  | OMode m => mode_json m
  end.

(** [json.Marshal(out)]: the members in order, or an error. *)
Definition marshal_out (out : Out) : option (list (string * gval)) :=
  let o := prod_map id marshal <$> map_to_list out in
  if encodable (GObject o) then Some (by_key o) else None.

(** ** The client *)

Record Client := MkClient {
  cerboLeaves : Services;
  cerboOwned : gset string;
  state : State;
  options : CerboOptions;
  portalID : string;
  nativeLastSeen : option Z;
  controllerESSMode : option goval;
  controllerESSObserved : option F64.num;
  controllerLastSeen : option Z;
  controllerLiveAt : option Z;
  waterModeObserved : gmap string Z
}.

Definition with_state (st : State) (c : Client) : Client :=
  MkClient (cerboLeaves c) (cerboOwned c) st (options c) (portalID c) (nativeLastSeen c) (controllerESSMode c)
    (controllerESSObserved c) (controllerLastSeen c) (controllerLiveAt c) (waterModeObserved c).
Definition with_leaves (all : Services) (c : Client) : Client :=
  MkClient all (cerboOwned c) (state c) (options c) (portalID c) (nativeLastSeen c) (controllerESSMode c)
    (controllerESSObserved c) (controllerLastSeen c) (controllerLiveAt c) (waterModeObserved c).
Definition with_owned (keys : gset string) (c : Client) : Client :=
  MkClient (cerboLeaves c) keys (state c) (options c) (portalID c) (nativeLastSeen c) (controllerESSMode c)
    (controllerESSObserved c) (controllerLastSeen c) (controllerLiveAt c) (waterModeObserved c).
Definition with_seen (t : option Z) (c : Client) : Client :=
  MkClient (cerboLeaves c) (cerboOwned c) (state c) (options c) (portalID c) t (controllerESSMode c)
    (controllerESSObserved c) (controllerLastSeen c) (controllerLiveAt c) (waterModeObserved c).
Definition with_ess (mode : option goval) (at_ : option F64.num) (c : Client) : Client :=
  MkClient (cerboLeaves c) (cerboOwned c) (state c) (options c) (portalID c) (nativeLastSeen c) mode at_
    (controllerLastSeen c) (controllerLiveAt c) (waterModeObserved c).
Definition with_controller (seen live : option Z) (c : Client) : Client :=
  MkClient (cerboLeaves c) (cerboOwned c) (state c) (options c) (portalID c) (nativeLastSeen c) (controllerESSMode c)
    (controllerESSObserved c) seen live (waterModeObserved c).
Definition with_water (m : gmap string Z) (c : Client) : Client :=
  MkClient (cerboLeaves c) (cerboOwned c) (state c) (options c) (portalID c) (nativeLastSeen c) (controllerESSMode c)
    (controllerESSObserved c) (controllerLastSeen c) (controllerLiveAt c) m.

Definition with_portal (portal : string) (c : Client) : Client :=
  MkClient (cerboLeaves c) (cerboOwned c) (state c) (options c) portal (nativeLastSeen c) (controllerESSMode c)
    (controllerESSObserved c) (controllerLastSeen c) (controllerLiveAt c) (waterModeObserved c).

(** Runs a step for every element. *)
Fixpoint each {A S} (f : A -> S -> option S) (l : list A) (s : S) : option S :=
  match l with [] => Some s | x :: l' => s' ← f x s; each f l' s' end.

Definition emptyAvailability : goval := FMap (Some ((λ k, (k, FBool false)) <$> directFields)).

Definition initCerboMaps (c : Client) : Client :=
  match availability (state c) with
  | Some _ => c
  | None => with_state (set_field "telemetry_available" emptyAvailability (state c)) c
  end.

(** [mode.SelectionSupported] of a decoded mode. *)
Definition selection_supported (mode : goval) : bool :=
  match mode with
  | FStruct fs => match assoc "selection_supported" fs with Some v => bool_of v | None => false end
  | _ => false
  end.

Definition mark (b : bool) (key : string) (st : State) : option State := set_available key b (clearStateField key st).

Definition hub4_suffix : string := "/Settings/CGwacs/Hub4Mode".

Section client.
Variable iterate : gmap string leaves -> list string.
Variable overflow : F64.num -> Z.

Definition overlay (c : Client) : Out := cerboOverlay iterate overflow (cerboLeaves c) (options c).

(** Whether a settings leaf has claimed the ESS mode. *)
Definition claims_ess (c : Client) : bool :=
  existsb (is_suffix hub4_suffix) (map_to_list (service (cerboLeaves c) "settings")).*1.

Definition applyCerboOverlays (c : Client) : option Client :=
  let c := initCerboMaps c in
  let out := overlay c in
  let owned := if claims_ess c then {["ess_mode"]} ∪ cerboOwned c else cerboOwned c in
  let st := with_native_ess (bool_decide ("ess_mode" ∈ owned)) (state c) in
  st ← each (mark false) (elements (owned ∖ dom out)) st;
  st ← each (mark true) (elements (dom out)) st;
  let st := match marshal_out out with
            | Some o => foldl (λ st e, fst (unmarshal_field e.1 e.2 st)) st o
            | None => st
            end in
  let st := match controllerESSMode c with
            | Some mode => if selection_supported mode then set_field "ess_mode" mode st else st
            | None => st
            end in
  Some (with_state st (with_owned (owned ∪ dom out) c)).

(** ** Messages from the devices *)

Definition supportedKind (kind : string) : bool :=
  existsb (String.eqb kind) ["system"; "grid"; "battery"; "solarcharger"; "pvinverter"; "vebus"; "acload"; "tank";
                             "pump"; "ev"; "evcharger"; "settings"].

Definition metadata_path (path : string) : bool :=
  is_suffix "Name" path || String.eqb path "Serial" || is_suffix "CellId" path ||
  String.eqb path "Dc/Battery/BatteryService".

(** The value that is cached for a received one; [None] rejects it. *)
Definition accepted_value (path : string) (value : gval) : option gval :=
  let value := match value with
               | GNil => GNil
               | _ => if String.eqb path "Connected" then
                        match number value with
                        | Some n => if F64.eqb n (F64.of_Z 0) || F64.eqb n (F64.of_Z 1) then value else GNil
                        | None => GNil
                        end
                      else value
               end in
  match value with
  | GNil => Some GNil
  | GString _ => if metadata_path path then Some value else None
  | _ => match number value with Some _ => Some value | None => None end
  end.

Definition cache (kind key : string) (value : gval) (all : Services) : Services :=
  <[kind := <[key := value]> (service all kind)]> all.

(** The leaves of an instance that disappeared; a kind without leaves stays as it is. *)
Definition forget (kind instance : string) (all : Services) : Services :=
  match all !! kind with
  | Some m => <[kind := filter (λ e, String.prefix (instance +:+ "/") e.1 = false) m]> all
  | None => all
  end.

(** The client and whether the message was applied. *)
Definition handleCerboDevice (topic : string) (p : payload) (now : Z) (c : Client) : option (Client * bool) :=
  match split_on "/" topic with
  | p0 :: portal :: kind :: instance :: rest =>
      if negb (String.eqb p0 "N") || negb (supportedKind kind) ||
         (negb (String.eqb (portalID c) "") && negb (String.eqb portal (portalID c))) ||
         match Atoi instance with Some _ => false | None => true end
      then Some (c, false)
      else
        let c := initCerboMaps c in
        match p with
        | Empty =>
            c ← applyCerboOverlays (with_leaves (forget kind instance (cerboLeaves c)) c);
            Some (c, true)
        | Malformed => Some (c, false)
        | Fields o =>
            match rest, assoc "value" o with
            | _ :: _, Some value =>
                let path := String.concat "/" rest in
                match accepted_value path value with
                | None => Some (c, false)
                | Some value =>
                    let key := instance +:+ "/" +:+ path in
                    let c := match value with
                             | GNil =>
                                 let probe := with_leaves (cache kind key (GFloat (F64.of_Z 0)) (cerboLeaves c)) c in
                                 with_owned (cerboOwned c ∪ dom (overlay probe)) c
                             | _ => c
                             end in
                    c ← applyCerboOverlays (with_seen (Some now) (with_leaves (cache kind key value (cerboLeaves c)) c));
                    Some (c, true)
                end
            | _, _ => Some (c, false)
            end
        end
  | _ => Some (c, false)
  end.

(** ** Frames of the controller *)

Definition controllerFields : list string :=
  ["grid_backup"; "grid_using_backup"; "booleans"; "features"; "ess_mode"; "dry_run"; "daily_stats";
   "solar_forecast"; "ui_config"; "dvcc_limits"; "limits"; "perf"; "loop_interval"; "grid_control_valid";
   "grid_control_reason"; "grid_loss_state"; "grid_loss_hold_seconds"; "grid_loss_elapsed"; "grid_loss_remaining";
   "grid_loss_zero_applied"; "version"; "uptime"].

Definition isNativeSectionField (key : string) : bool :=
  existsb (String.eqb key)
    ["g1"; "g2"; "g3"; "gt"; "t1"; "t2"; "t3"; "tt"; "setpoint_override"; "setpoint_override_observed_at";
     "setpoint_override_controls_available"; "electricity_tariff_observed_at"; "electricity_tariff_controls_available";
     "grid_l1_available"; "grid_l2_available"; "grid_l3_available"; "grid_backup_observed_at"; "loads"; "load_names";
     "water_level"; "pump_switch"; "water_valve"; "pump_mode"; "water_pump_mode"; "water_valve_mode"; "battery_soc";
     "gateway_capabilities"; "telemetry"; "car_soc"; "ev_power"; "car_charging_power"; "ev_charging_kw";
     "ev_charging_power"; "ev_present"; "evcharger_present"; "discovered_water_ev"; "ess_mode_observed_at";
     "ess_mode_controls_available"].

(** [strings.TrimPrefix]. *)
Definition TrimPrefix (prefix s : string) : string :=
  if String.prefix prefix s then drop_string (String.length prefix) s else s.

Definition control_flags : list string :=
  ["only_charging"; "no_feed"; "house_support"; "charge_battery"; "do_not_supply_charger"; "set_limit_to_ev_charger";
   "minimize_charging"].

Definition IsControlFlag (key : string) : bool :=
  existsb (String.eqb (TrimPrefix "input_boolean." (TrimSpace key))) control_flags.

Definition ControlBool (v : gval) : option bool :=
  match v with
  | GBool b => Some b
  | GFloat x => if F64.eqb x (F64.of_Z 0) || F64.eqb x (F64.of_Z 1) then Some (F64.eqb x (F64.of_Z 1)) else None
  | GInt z => if (z =? 0) || (z =? 1) then Some (z =? 1) else None
  | GString s =>
      let t := ToLower (TrimSpace s) in
      if existsb (String.eqb t) ["true"; "on"; "1"] then Some true
      else if existsb (String.eqb t) ["false"; "off"; "0"] then Some false
      else None
  | _ => None
  end.

Definition add_flag (flags : list (string * goval)) (e : string * gval) : list (string * goval) :=
  let canonical := TrimPrefix "input_boolean." e.1 in
  if IsControlFlag canonical
  then match ControlBool e.2 with Some b => set_prop canonical (FAny (GBool b)) flags | None => flags end
  else set_prop e.1 (FAny e.2) flags.

(** [controllerBooleans]; the values of an object in the order of iteration. *)
Definition controllerBooleans (raw : option gval) : list (string * goval) :=
  match raw with Some (GObject o) => foldl add_flag [] o | _ => [] end.

Definition flag_value (flags : list (string * goval)) (key : string) : goval :=
  match assoc key flags with Some (FAny (GBool b)) => FBool b | _ => FBool false end.

(** One field of [applyControllerFields], whose loops touch distinct fields. *)
Definition apply_controller_field (data : list (string * gval)) (key : string) (st : State) : State :=
  if available st key || (String.eqb key "ess_mode" && NativeESSObserved st) then st
  else
    let st := clearStateField key st in
    match assoc key data with
    | Some v => if encodable v then fst (unmarshal_field key v st) else st
    | None => st
    end.

Definition FormatHeaderToggles : gval :=
  GSlice ((λ e, GObject [("id", GString e.1); ("label", GString e.2); ("entity", GString e.1)]) <$>
    [("only_charging", "ONLY CHARGING"); ("no_feed", "NO FEED"); ("house_support", "HOUSE SUPPORT");
     ("charge_battery", "CHARGE BATTERY"); ("do_not_supply_charger", "DO NOT SUPPLY EV");
     ("set_limit_to_ev_charger", "LIMIT TO EV"); ("minimize_charging", "MINIMIZE CHARGING")]).

(** The receipts of earlier frames: an empty snapshot also ends overrides. *)
Definition forget_receipts (present : bool) (st : State) : State :=
  let st := set_field "grid_backup_observed_at" (FPtr None) (set_field "ess_mode_observed_at" (FPtr None) st) in
  if present then st
  else set_field "electricity_tariff_observed_at" (FPtr None)
         (set_field "setpoint_override_observed_at" (FPtr None) (set_field "setpoint_override" (FPtr None) st)).

(** A mode that can be selected replaces the native one. *)
Definition store_mode (data : list (string * gval)) (st : State) : State :=
  match assoc "ess_mode" data with
  | Some (GObject o) =>
      let r := decode KESSMode (GObject o) (zero KESSMode) in
      if encodable (GObject o) && snd r && selection_supported (fst r) then set_field "ess_mode" (fst r) st else st
  | _ => st
  end.

Definition store_dry_run (data : list (string * gval)) (st : State) : State :=
  set_field "dry_run" (match assoc "dry_run" data with
                       | Some (GBool b) => FPtr (Some (FBool b))
                       | _ => FPtr None
                       end) st.

Definition store_flags (flags : list (string * goval)) (st : State) : State :=
  foldl (λ st key, set_field key (flag_value flags key) st) (set_field "booleans" (FMap (Some flags)) st) control_flags.

Definition ui_entries (st : State) : list (string * goval) :=
  match field "ui_config" st with FMap (Some m) => m | _ => [] end.

Definition lacks_toggles (ui : list (string * goval)) : bool :=
  match assoc "header_toggles" ui with Some (FAny GNil) | None => true | _ => false end.

Definition ensure_toggles (present : bool) (st : State) : State :=
  let ui := ui_entries st in
  set_field "ui_config"
    (FMap (Some (if present && lacks_toggles ui then set_prop "header_toggles" (FAny FormatHeaderToggles) ui else ui))) st.

Definition ApplyControllerSnapshot (data : list (string * gval)) (st : State) : State :=
  let present := negb (Nat.eqb (length data) 0) in
  let st := set_field "inverter_available" (FPtr (Some (FBool present))) (forget_receipts present st) in
  let st := foldl (λ st key, apply_controller_field data key st) st controllerFields in
  let st := store_dry_run data (store_mode data st) in
  ensure_toggles present (store_flags (controllerBooleans (assoc "booleans" data)) st).

(** The members that the merge stores, in the order of iteration, and those
    that decoded without error. *)
Definition merge_member (owned : gset string) (acc : State * list (string * gval)) (e : string * gval)
    : State * list (string * gval) :=
  let '(st, clean) := acc in
  if bool_decide (e.1 ∈ owned) || String.eqb e.1 "telemetry_available" || isNativeSectionField e.1 ||
     negb (encodable e.2)
  then acc
  else let r := unmarshal_field e.1 e.2 st in (fst r, if (snd r : bool) then set_prop e.1 e.2 clean else clean).

Definition mark_direct (clean : list (string * gval)) (key : string) (st : State) : option State :=
  match assoc key clean with
  | Some GNil | None => Some st
  | Some _ => set_available key true st
  end.

Variable current_version : string.

Definition mergeDaemonState (data : list (string * gval)) (c : Client) : option Client :=
  let c := initCerboMaps c in
  let '(st, clean) := foldl (merge_member (cerboOwned c)) (state c, []) data in
  st ← each (mark_direct clean) directFields st;
  st ← (if bool_decide ("ess_mode" ∈ cerboOwned c) then Some st else set_available "ess_mode" false st);
  let st := set_field "dashboard_version" (FString current_version) (ApplyControllerSnapshot data st) in
  applyCerboOverlays (with_state st c).

(** [observeESSMode]. *)
Definition observeESSMode (data : list (string * gval)) (retained : bool) (now : Z) (c : Client) : Client :=
  if Nat.eqb (length data) 0 then with_ess None None c
  else
    match assoc "ess_mode" data with
    | None => c
    | Some (GObject o) =>
        let r := decode KESSMode (GObject o) (zero KESSMode) in
        if encodable (GObject o) && snd r
        then with_ess (Some (fst r)) (if retained then None else Some (unix_seconds now)) c
        else with_ess None None c
    | Some _ => with_ess None None c
    end.

(** A pointer to a number. *)
Definition pointer (x : option F64.num) : goval := FPtr (FFloat <$> x).

(** [applyControllerMessage] for a state frame, without the receipts that
    [ControllerCommands] models. *)
Definition applyControllerState (data : list (string * gval)) (retained : bool) (now : Z) (c : Client) : option Client :=
  let c := with_controller (Some now) (if retained then None else Some now) c in
  c ← mergeDaemonState data (observeESSMode data retained now c);
  let st := set_field "ess_mode_observed_at" (pointer (controllerESSObserved c)) (state c) in
  let st := match field "grid_backup" st with
            | FPtr (Some (FStruct fs)) =>
                set_field "grid_backup_observed_at" (default (FPtr None) (assoc "measurement_time" fs)) st
            | _ => st
            end in
  Some (with_state st c).

(** ** Expiry and resets *)

Definition optionalTelemetryTTL : Z := 120000.

Definition expireOptionalTelemetry (now : Z) (c : Client) : option (Client * bool) :=
  let c := initCerboMaps c in
  match controllerLastSeen c with
  | Some seen =>
      if (now - seen <? 0) || (optionalTelemetryTTL <? now - seen) then
        st ← (if bool_decide ("ess_mode" ∈ cerboOwned c) then Some (state c)
              else set_available "ess_mode" false (state c));
        Some (with_controller None None (with_ess None None (with_state (ApplyControllerSnapshot [] st) c)), true)
      else Some (c, false)
  | None => Some (c, false)
  end.

Definition optional_fields : list string :=
  ["ess_mode"; "ev_power"; "car_charging_power"; "car_soc"; "ev_charging_kw"; "ev_charging_power"; "ev_present";
   "evcharger_present"; "discovered_water_ev"].

Definition clearOptionalTelemetry (c : Client) : option Client :=
  let c := initCerboMaps (with_ess None None c) in
  st ← each (mark false) optional_fields (state c);
  Some (with_controller None None (with_state (ApplyControllerSnapshot [] st) c)).

(** Nothing of direct telemetry is known any more. *)
Definition clear_direct (st : State) : option State := each (mark false) directFields st.

Definition invalidateCerbo (c : Client) : option Client :=
  let c := initCerboMaps c in
  st ← clear_direct (ApplyControllerSnapshot [] (state c));
  Some (with_state st (with_seen None (with_leaves ∅ c))).

(** What [EnableGatewayMode] and [DisableGatewayMode] do under the lock of the state. *)
Definition switch_source (c : Client) : option Client :=
  c ← clearOptionalTelemetry (with_seen None c);
  Some (with_water ∅ c).

(** The reset in [Subscribe]. *)
Definition reset_inventory (c : Client) : option Client := applyCerboOverlays (with_leaves ∅ c).

(** The state of a gateway's snapshot, before what the controller adds. *)
Definition CerboSnapshotToState (all : Services) (o : CerboOptions) : option State :=
  state <$> applyCerboOverlays (MkClient all ∅ (MkState ∅ false) o "" None None None None None ∅).

(** ** Readiness of controls *)

Definition within_30s (at_ : option Z) (now : Z) : bool :=
  match at_ with Some t => (0 <=? now - t) && (now - t <=? 30000) | None => false end.

Definition water_key (which : string) : string := if String.eqb which "valve" then "water_valve_mode" else "pump_mode".

Definition waterControlReady (which : string) (now : Z) (c : Client) : bool :=
  available (state c) (water_key which) && within_30s (waterModeObserved c !! water_key which) now.

Definition controllerControlReady (now : Z) (c : Client) : bool :=
  match field "inverter_available" (state c) with
  | FPtr (Some v) => bool_of v && within_30s (controllerLiveAt c) now
  | _ => false
  end.

(** [updateWaterModeObservation] on the parts of a topic. *)
Definition observe_water_key (key instance : string) (inst : Z) (changed retained : bool) (now : Z) (c : Client) : Client :=
  if negb (String.eqb instance (dec inst)) then c
  else
    let m := delete key (waterModeObserved c) in
    with_water (if changed && negb retained && available (state c) key then <[key := now]> m else m) c.

Definition updateWaterModeObservation (parts : list string) (changed retained : bool) (now : Z) (c : Client) : Client :=
  match parts with
  | [_; _; kind; instance; leaf] =>
      if String.eqb kind "pump" && String.eqb leaf "Mode" then
        let c := observe_water_key "pump_mode" instance (PumpInstance (options c)) changed retained now c in
        observe_water_key "water_valve_mode" instance (ValveInstance (options c)) changed retained now c
      else c
  | _ => c
  end.

(** The critical section of [applyCerboDeviceMessage]. *)
Definition applyCerboDevice (topic : string) (p : payload) (retained : bool) (now : Z) (c : Client)
    : option (Client * bool) :=
  '(c, changed) ← handleCerboDevice topic p now c;
  Some (updateWaterModeObservation (split_on "/" topic) changed retained now c, changed).

(** ** What happens to a client *)

(** [acceptPortal] under its lock: the first valid portal is kept. *)
Definition acceptPortal (portal : string) (c : Client) : Client :=
  if validPortal portal && String.eqb (portalID c) "" then with_portal portal c else c.

Inductive event : Type :=
| DeviceMessage (topic : string) (p : payload) (retained : bool) (now : Z)
| ControllerFrame (data : list (string * gval)) (retained : bool) (now : Z)
| PortalFound (portal : string)
| Expiry (now : Z)
| Subscribed
| ConnectionLost
| GatewayLost
| SourceSwitched.

Definition step (e : event) (c : Client) : option Client :=
  match e with
  | DeviceMessage topic p retained now => fst <$> applyCerboDevice topic p retained now c
  | ControllerFrame data retained now => applyControllerState data retained now c
  | PortalFound portal => Some (acceptPortal portal c)
  | Expiry now => fst <$> expireOptionalTelemetry now c
  | Subscribed => reset_inventory c
  | ConnectionLost => invalidateCerbo c
  | GatewayLost => clearOptionalTelemetry c
  | SourceSwitched => switch_source c
  end.
End client.

(** [NewClient] after [SetWaterConfig] and [SetEVConfig]. *)
Definition initial_state : State :=
  set_field "booleans" (FMap (Some [])) (set_field "features" (FMap (Some []))
    (set_field "dashboard_version" (FString "dev") (set_field "version" (FString "0.0.0")
      (set_field "console" (FSlice (Some [])) (MkState ∅ false))))).

Definition NewClient (o : CerboOptions) (portal : string) : Client :=
  initCerboMaps (MkClient ∅ ∅ initial_state o portal None None None None None ∅).
