(* ===== verification/OverlayFacts.v ===== *)
(** * Properties of the telemetry reducer

    The reducer does not depend on the order of maps, writes only the fields of
    direct telemetry, and takes an authoritative null for an answer. *)

From Stdlib Require Import ZArith QArith Qround Ascii String Lia.
From stdpp Require Import base list option strings gmap fin_maps sorting.
From S2P Require Import Prelude Float64 JsValue ControllerCommands NativeLeaves JsonFields CerboLeaves CerboOverlay.

#[local] Open Scope string_scope.
#[local] Open Scope list_scope.
#[local] Open Scope Z_scope.

(** ** The fields that are written *)

(** [out] differs from [out0] at most in the fields [ks]. *)
Definition touches (ks : list string) (out0 out : Out) : Prop := ∀ k, k ∉ ks -> out !! k = out0 !! k.

Ltac listed := apply (bool_decide_unpack _); vm_compute; exact I.

Lemma touches_refl ks out : touches ks out out.
Proof. done. Qed.

Lemma touches_insert ks k v out0 out : k ∈ ks -> touches ks out0 out -> touches ks out0 (<[k := v]> out).
Proof. intros Hk Ho k' Hk'. rewrite lookup_insert_ne; [by apply Ho|]. by intros <-. Qed.

Lemma touches_put ks k x out0 out : k ∈ ks -> touches ks out0 out -> touches ks out0 (put k x out).
Proof. destruct x; [apply touches_insert|done]. Qed.

Lemma touches_trans ks ks' out0 out1 out2 :
  touches ks out0 out1 -> touches ks' out1 out2 -> touches (ks ++ ks') out0 out2.
Proof. intros H1 H2 k Hk. rewrite not_elem_of_app in Hk. rewrite H2, H1; tauto. Qed.

Lemma touches_sub ks ks' out0 out : ks ⊆ ks' -> touches ks out0 out -> touches ks' out0 out.
Proof. intros Hs H k Hk. apply H. set_solver. Qed.

Ltac written :=
  repeat first
    [ apply touches_refl
    | apply touches_put; [listed|]
    | apply touches_insert; [listed|]
    | case_match ].

Section reducer.
Variable iterate : gmap string leaves -> list string.
Variable overflow : F64.num -> Z.
Variable all : Services.
Implicit Types out : Out.

Definition phase_fields (i : string) : list string := ["grid_l" +:+ i +:+ "_available"; "g" +:+ i; "t" +:+ i].

Lemma phase_touches i out : touches (phase_fields i) out (phase iterate all i out).
Proof.
  unfold phase. destruct (grid_reading iterate all ("L" +:+ i)) as [n seen].
  assert (H : ∀ k, k ∈ phase_fields i -> ∀ v out', touches (phase_fields i) out out' ->
    touches (phase_fields i) out (put k v out')) by (intros; by apply touches_put).
  apply H; [set_solver|]. apply H; [set_solver|]. destruct (seen || _); [|done].
  apply touches_insert; [set_solver|done].
Qed.

Definition total_fields : list string := ["gt"; "tt"].
Lemma totals_touches out : touches total_fields out (consumption_total (grid_total iterate all out)).
Proof. unfold consumption_total, grid_total. written. Qed.

Definition unit_fields : list string :=
  ["setpoint"; "inverter_state"; "batteries"; "bv"; "bc"; "bp"; "battery_soc"; "battery_voltage"; "battery_current";
   "battery_power"].
Lemma unit_touches out :
  touches unit_fields out
    (bank_metrics iterate overflow all (battery_rows iterate overflow all (inverter iterate overflow all out))).
Proof.
  unfold bank_metrics. set (out1 := battery_rows _ _ _ _).
  assert (H : touches unit_fields out out1) by (unfold out1, battery_rows, inverter; written).
  repeat first [exact H | apply touches_put; [listed|] | apply touches_insert; [listed|] | case_match].
Qed.

Definition solar_fields : list string :=
  ["solar_total"; "mppt_total"; "pv_total"; "pv_inverter_total"; "mppt_chargers"; "mppt_individual"; "pv_inverters"].
Lemma solar_touches out : touches solar_fields out (solar iterate all out).
Proof. unfold solar. written. Qed.

Definition water_fields : list string :=
  ["loads"; "load_names"; "water_level"; "water_valve"; "pump_switch"; "water_valve_mode"; "pump_mode";
   "water_pump_mode"].
Lemma water_touches o out : touches water_fields out (water all o (loads all out)).
Proof. unfold water, loads, put_switch, put_mode. written. Qed.

Definition ev_fields : list string :=
  ["ev_power"; "car_charging_power"; "ev_charging_kw"; "ev_charging_power"; "car_soc"; "ev_present";
   "evcharger_present"; "discovered_water_ev"; "ess_mode"].
Lemma ev_touches o out :
  touches ev_fields out (applyESSOverlay iterate overflow all (applyEVOverlay iterate all o out)).
Proof. unfold applyESSOverlay, applyEVOverlay. written. Qed.

Definition later_fields : list string :=
  total_fields ++ unit_fields ++ solar_fields ++ water_fields ++ ev_fields.

(** What the reducer does after the phases. *)
Lemma later_touches o :
  touches later_fields (phase iterate all "3" (phase iterate all "2" (phase iterate all "1" ∅)))
    (cerboOverlay iterate overflow all o).
Proof.
  unfold later_fields, cerboOverlay. eapply touches_trans; [apply totals_touches|].
  eapply touches_trans; [apply unit_touches|]. eapply touches_trans; [apply solar_touches|].
  eapply touches_trans; [apply water_touches|]. apply ev_touches.
Qed.

Lemma overlay_within o k : is_Some (cerboOverlay iterate overflow all o !! k) -> k ∈ directFields.
Proof.
  assert (T : touches (((phase_fields "1" ++ phase_fields "2") ++ phase_fields "3") ++ later_fields) ∅
                      (cerboOverlay iterate overflow all o)).
  { eapply touches_trans; [|apply later_touches].
    repeat (eapply touches_trans; [|apply phase_touches]). apply phase_touches. }
  intros H. destruct (decide (k ∈ directFields)) as [|Hk]; [done|]. exfalso. rewrite T in H.
  - rewrite lookup_empty in H. by destruct H.
  - intros Hin. apply Hk. clear H Hk. revert k Hin. apply Forall_forall. listed.
Qed.
End reducer.

(** ** Order *)

Section order.
Context (it1 it2 : gmap string leaves -> list string) (overflow : F64.num -> Z) (all : Services).
Hypothesis same_order : ∀ kind, in_order it1 (devices all kind) = in_order it2 (devices all kind).

Lemma firstNum_same kind paths : firstNum it1 (devices all kind) paths = firstNum it2 (devices all kind) paths.
Proof. unfold firstNum. by rewrite same_order. Qed.

Lemma firstLeaf_same kind path : firstLeaf it1 (devices all kind) path = firstLeaf it2 (devices all kind) path.
Proof. unfold firstLeaf. by rewrite same_order. Qed.

Lemma phase_same i out : phase it1 all i out = phase it2 all i out.
Proof.
  assert (A : active_input it1 all ("L" +:+ i) = active_input it2 all ("L" +:+ i))
    by (unfold active_input; by rewrite firstNum_same, same_order).
  unfold phase, grid_reading, consumption. by rewrite A, !firstLeaf_same, !firstNum_same.
Qed.

Lemma grid_total_same out : grid_total it1 all out = grid_total it2 all out.
Proof. unfold grid_total. by rewrite firstNum_same. Qed.

Lemma inverter_same out : inverter it1 overflow all out = inverter it2 overflow all out.
Proof. unfold inverter. by rewrite !firstNum_same. Qed.

Lemma battery_rows_same out : battery_rows it1 overflow all out = battery_rows it2 overflow all out.
Proof. unfold battery_rows. by rewrite same_order. Qed.

Lemma bank_metrics_same out : bank_metrics it1 overflow all out = bank_metrics it2 overflow all out.
Proof.
  assert (B : selected_battery it1 overflow all = selected_battery it2 overflow all)
    by (unfold selected_battery; by rewrite firstNum_same).
  assert (S : smart_shunt it1 all = smart_shunt it2 all) by (unfold smart_shunt; by rewrite same_order).
  unfold bank_metrics. by rewrite B, S, !firstNum_same.
Qed.

Lemma solar_same out : solar it1 all out = solar it2 all out.
Proof.
  assert (M : mppt_rows it1 all = mppt_rows it2 all) by (unfold mppt_rows; by rewrite same_order).
  assert (R : pv_rows it1 all = pv_rows it2 all) by (unfold pv_rows; by rewrite same_order).
  assert (P : system_pv it1 all = system_pv it2 all) by (unfold system_pv; simpl; by rewrite !firstNum_same).
  unfold solar. by rewrite M, R, P, firstNum_same.
Qed.

Lemma ev_same o out : applyEVOverlay it1 all o out = applyEVOverlay it2 all o out.
Proof.
  assert (V : ∀ kind z, selectEV it1 (devices all kind) z = selectEV it2 (devices all kind) z)
    by (intros; unfold selectEV; by rewrite same_order).
  assert (I : ∀ kind, inventory_rows it1 all kind = inventory_rows it2 all kind)
    by (intros; unfold inventory_rows; by rewrite same_order).
  assert (F : flat_map (inventory_rows it1 all) ["ev"; "evcharger"; "tank"; "pump"] =
              flat_map (inventory_rows it2 all) ["ev"; "evcharger"; "tank"; "pump"]) by (simpl; by rewrite !I).
  unfold applyEVOverlay. by rewrite F, !V.
Qed.

Lemma ess_same out : applyESSOverlay it1 overflow all out = applyESSOverlay it2 overflow all out.
Proof. unfold applyESSOverlay. by rewrite same_order. Qed.

Lemma overlay_same o : cerboOverlay it1 overflow all o = cerboOverlay it2 overflow all o.
Proof.
  unfold cerboOverlay. rewrite !phase_same, grid_total_same, inverter_same, battery_rows_same, bank_metrics_same,
    solar_same, ev_same. apply ess_same.
Qed.
End order.

(** C27: The reducer is a function of the leaves: the order in which the maps are
    iterated over does not matter, unless two instances of a kind are written
    as one integer in two ways. *)
Theorem overlay_deterministic (it1 it2 : gmap string leaves -> list string) (overflow : F64.num -> Z)
    (all : Services) (o : CerboOptions) :
  visits_all it1 -> visits_all it2 -> (∀ kind, canonical (devices all kind)) ->
  cerboOverlay it1 overflow all o = cerboOverlay it2 overflow all o.
Proof.
  intros H1 H2 Hc. apply overlay_same. intros kind. by apply in_order_unique.
Qed.

(** ** Authoritative readings *)

Lemma grid_reading_null it all p :
  firstLeaf it (devices all "system") ("Ac/Grid/" +:+ p +:+ "/Power") = Some None ->
  grid_reading it all p = (None, true).
Proof. intros H. unfold grid_reading. by rewrite H. Qed.

Lemma phase_null it all i out :
  firstLeaf it (devices all "system") ("Ac/Grid/" +:+ ("L" +:+ i) +:+ "/Power") = Some None ->
  out !! ("g" +:+ i) = None -> "g" +:+ i ≠ "t" +:+ i -> "grid_l" +:+ i +:+ "_available" ∉ ["g" +:+ i; "t" +:+ i] ->
  phase it all i out !! ("g" +:+ i) = None ∧
  phase it all i out !! ("grid_l" +:+ i +:+ "_available") = Some (OBool false).
Proof.
  intros H Ho Hne Hav. unfold phase. rewrite (grid_reading_null _ _ _ H). cbn [orb is_known put].
  rewrite !not_elem_of_cons in Hav. destruct Hav as (Hag & Hat & _).
  destruct (consumption it all ("L" +:+ i)); cbn [put];
    rewrite ?(lookup_insert_ne _ ("t" +:+ i)) by congruence; rewrite lookup_insert_eq, lookup_insert_ne by done; done.
Qed.

(** What systemcalc reports as unknown stays unknown: an explicit null for a
    phase of the grid is not replaced by the reading of a meter or an inverter,
    the phase is marked as unavailable. *)
Theorem authoritative_null it overflow all o i :
  i ∈ ["1"; "2"; "3"] ->
  firstLeaf it (devices all "system") ("Ac/Grid/" +:+ ("L" +:+ i) +:+ "/Power") = Some None ->
  cerboOverlay it overflow all o !! ("g" +:+ i) = None ∧
  cerboOverlay it overflow all o !! ("grid_l" +:+ i +:+ "_available") = Some (OBool false).
Proof.
  intros Hi H. rewrite !(later_touches it overflow all o).
  2, 3: revert i Hi H; intros i Hi _; revert i Hi; apply Forall_forall; listed.
  assert (K : ∀ j k out, k ∉ phase_fields j -> phase it all j out !! k = out !! k)
    by (intros; by apply phase_touches).
  repeat (apply elem_of_cons in Hi as [->|Hi]; [
    repeat match goal with
    | |- context [phase it all ?j ?out !! ?k] => rewrite (K j k out) by listed
    end; apply phase_null; [exact H|rewrite ?K by listed; apply lookup_empty|listed|listed]|]).
  by apply elem_of_nil in Hi.
Qed.

Lemma after_totals it overflow all o k :
  k ∉ unit_fields ++ solar_fields ++ water_fields ++ ev_fields ->
  cerboOverlay it overflow all o !! k =
  consumption_total (grid_total it all (phase it all "3" (phase it all "2" (phase it all "1" ∅)))) !! k.
Proof.
  intros Hk. unfold cerboOverlay.
  assert (T : ∀ out, touches (unit_fields ++ solar_fields ++ water_fields ++ ev_fields) out
    (applyESSOverlay it overflow all (applyEVOverlay it all o (water all o (loads all (solar it all
      (bank_metrics it overflow all (battery_rows it overflow all (inverter it overflow all out))))))))).
  { intros out. eapply touches_trans; [apply unit_touches|]. eapply touches_trans; [apply solar_touches|].
    eapply touches_trans; [apply water_touches|]. apply ev_touches. }
  by apply T.
Qed.

Lemma put_lookup k x out : put k x out !! k = match x with Some n => Some (ONum n) | None => out !! k end.
Proof. destruct x; simpl; [apply lookup_insert_eq|done]. Qed.

Lemma put_lookup_ne k k' x out : k ≠ k' -> put k x out !! k' = out !! k'.
Proof. intros. destruct x; simpl; [by apply lookup_insert_ne|done]. Qed.

Lemma phases_leave_totals it all k :
  k ∈ total_fields -> phase it all "3" (phase it all "2" (phase it all "1" ∅)) !! k = None.
Proof.
  intros Hk. rewrite !phase_touches; [apply lookup_empty|..]; revert k Hk; apply Forall_forall; listed.
Qed.

(** The totals are the sums of the phases that the dashboard shows, and only
    without any reading of a phase the meter's own total counts. *)
Theorem totals_are_sums it overflow all o :
  let out := cerboOverlay it overflow all o in
  let grid := (λ i, number_at out ("g" +:+ i)) <$> ["1"; "2"; "3"] in
  let unseen := forallb (λ i, absent out ("grid_l" +:+ i +:+ "_available")) ["1"; "2"; "3"] in
  number_at out "gt" = or_else (sum_known grid)
                         (if unseen then firstNum it (devices all "grid") ["Ac/Power"] else None) ∧
  number_at out "tt" = sum_known ((λ i, number_at out ("t" +:+ i)) <$> ["1"; "2"; "3"]).
Proof.
  set (out3 := phase it all "3" (phase it all "2" (phase it all "1" ∅))).
  assert (R : ∀ k, k ∉ later_fields -> cerboOverlay it overflow all o !! k = out3 !! k)
    by (intros; by apply later_touches).
  assert (Hgt : out3 !! "gt" = None) by (apply phases_leave_totals; listed).
  assert (Htt : out3 !! "tt" = None) by (apply phases_leave_totals; listed).
  assert (G : ∀ k, k ≠ "gt" -> grid_total it all out3 !! k = out3 !! k).
  { intros k Hk. unfold grid_total. destruct (group_sum "g" out3); [by apply put_lookup_ne|].
    case_match; [by apply put_lookup_ne|done]. }
  cbv zeta. simpl. cbv [String.append]. unfold number_at, absent. rewrite (after_totals _ _ _ _ "gt"), (after_totals _ _ _ _ "tt") by listed. fold out3.
  rewrite !(R "g1"), !(R "g2"), !(R "g3"), !(R "t1"), !(R "t2"), !(R "t3"), !(R "grid_l1_available"),
    !(R "grid_l2_available"), !(R "grid_l3_available") by listed.
  unfold consumption_total. rewrite put_lookup, put_lookup_ne by done. split.
  - unfold grid_total. change (group_sum "g" out3) with (sum_known [number_at out3 "g1"; number_at out3 "g2"; number_at out3 "g3"]).
    unfold number_at, absent. destruct (sum_known _) as [total|]; [by rewrite put_lookup|].
    rewrite andb_true_r, andb_assoc. destruct (_ && _ && _); [|by rewrite Hgt].
    rewrite put_lookup, Hgt. by destruct (firstNum _ _ _).
  - rewrite G, Htt by done. unfold group_sum, number_at. simpl. cbv [String.append]. rewrite !G by done.
    by destruct (sum_known _).
Qed.

(** ** Concrete services *)

Definition canonical_bool (ds : gmap string leaves) : bool :=
  let ids := (map_to_list ds).*1 in
  forallb (λ x, forallb (λ y, negb (bool_decide (Atoi x = Atoi y)) || String.eqb x y) ids) ids.

Lemma canonical_true ds : canonical_bool ds = true -> canonical ds.
Proof.
  intros H id id' Hi Hi' E. unfold canonical_bool in H. rewrite forallb_forall in H.
  assert (K : ∀ x, is_Some (ds !! x) -> List.In x (map_to_list ds).*1)
    by (intros; by apply list_elem_of_In, elem_of_keys).
  specialize (H id (K id Hi)). rewrite forallb_forall in H. specialize (H id' (K id' Hi')).
  rewrite (bool_decide_true _ E) in H. by apply String.eqb_eq.
Qed.

Definition map_order (ds : gmap string leaves) : list string := (map_to_list ds).*1.
Definition reversed_order (ds : gmap string leaves) : list string := rev (map_to_list ds).*1.
Definition two_batteries : Services :=
  {["battery" := {["0/Dc/0/Voltage" := GInt 52; "0/Dc/0/Current" := GInt 3; "10/Dc/0/Voltage" := GInt 51;
                   "9/Dc/0/Voltage" := GInt 50]}]}.
Definition some_options : CerboOptions := MkOptions 0 0 0 (-1) (-1).

Lemma overlay_deterministic_witness :
  cerboOverlay map_order (λ _, 0) two_batteries some_options =
  cerboOverlay reversed_order (λ _, 0) two_batteries some_options.
Proof.
  apply overlay_deterministic.
  - intros ds. done.
  - intros ds. symmetry. apply Permutation_rev.
  - intros kind. apply canonical_true. destruct (decide (kind = "battery")) as [->|Hk]; [vm_compute; reflexivity|].
    assert (E : service two_batteries kind = ∅) by (unfold service, two_batteries; by rewrite lookup_singleton_ne).
    unfold devices. rewrite E. vm_compute. reflexivity.
Defined.

Definition null_phase : Services :=
  {["system" := {["0/Ac/Grid/L1/Power" := GNil]}; "grid" := {["30/Ac/L1/Power" := GInt 900]}]}.

Lemma authoritative_null_witness :
  cerboOverlay map_order (λ _, 0) null_phase some_options !! "g1" = None ∧
  cerboOverlay map_order (λ _, 0) null_phase some_options !! "grid_l1_available" = Some (OBool false).
Proof.
  apply (authoritative_null map_order (λ _, 0) null_phase some_options "1").
  - by left.
  - vm_compute. reflexivity.
Defined.
