(* ===== verification/DirectTelemetry.v ===== *)
(** * Properties of direct telemetry in the state

    A field that a device's leaf has claimed shows what the leaves say or is
    marked as unavailable, whatever the controller publishes and whatever is
    reset in between; fields keep their types; the frames that crash the
    merge; what an overflow does. *)

From Stdlib Require Import ZArith QArith Qround Ascii String Lia.
From stdpp Require Import base list option strings gmap fin_maps sorting.
From S2P Require Import Prelude Float64 JsValue Utf8 ControllerCommands NativeLeaves Notifications JsonFields StateFields CerboLeaves CerboOverlay OverlayState OverlayFacts.

#[local] Open Scope string_scope.
#[local] Open Scope list_scope.
#[local] Open Scope Z_scope.

(** ** Steps on the state *)

Definition TA : string := "telemetry_available".

Lemma each_ind {A S} (f : A -> S -> option S) (P : S -> Prop) (l : list A) :
  (∀ x s s', x ∈ l -> f x s = Some s' -> P s -> P s') ->
  ∀ s s', each f l s = Some s' -> P s -> P s'.
Proof.
  induction l as [|x l IH]; intros Hf s s' H Hs; simpl in H; [congruence|].
  destruct (f x s) as [s1|] eqn:E; [|done]. simpl in H. apply (IH (λ x s s' Hx, Hf x s s' ltac:(by right)) s1); [done|].
  apply (Hf x s); [by left|done..].
Qed.

Lemma each_Some {A S} (f : A -> S -> option S) (P : S -> Prop) (l : list A) s :
  (∀ x s, P s -> ∃ s', f x s = Some s' ∧ P s') -> P s -> ∃ s', each f l s = Some s' ∧ P s'.
Proof.
  intros Hf. revert s. induction l as [|x l IH]; intros s Hs; simpl; [by eexists|].
  destruct (Hf x s Hs) as (s1 & E & Hs1). rewrite E. simpl. by apply IH.
Qed.

Lemma availability_set n v st : n ≠ TA -> availability (set_field n v st) = availability st.
Proof. intros H. unfold availability. by rewrite field_set_ne. Qed.

Lemma available_set n v st k : n ≠ TA -> available (set_field n v st) k = available st k.
Proof. intros H. unfold available. by rewrite availability_set. Qed.

Lemma direct_declared k : k ∈ directFields -> ∃ kd, assoc k stateFields = Some kd ∧ k ≠ TA.
Proof.
  intros H. assert (D : Forall (λ k, is_Some (assoc k stateFields) ∧ k ≠ TA) directFields) by listed.
  rewrite Forall_forall in D. destruct (D k H) as [[kd Hk] Hne]. by exists kd.
Qed.

Lemma field_kind_assoc k kd : assoc k stateFields = Some kd -> field_kind k = kd.
Proof. intros H. unfold field_kind. by rewrite H. Qed.

Definition cleared_field (k : string) : goval := cleared (field_kind k).

Lemma clear_is_set k st : k ∈ directFields -> clearStateField k st = set_field k (cleared_field k) st.
Proof.
  intros H. destruct (direct_declared k H) as (kd & Hk & _). unfold clearStateField, cleared_field.
  by rewrite Hk, (field_kind_assoc k kd).
Qed.

Lemma mark_spec b key st st' :
  key ∈ directFields -> mark b key st = Some st' ->
  (∀ n, n ≠ TA -> field n st' = if decide (n = key) then cleared_field key else field n st) ∧
  (∀ k, available st' k = if decide (k = key) then b else available st k) ∧
  NativeESSObserved st' = NativeESSObserved st.
Proof.
  intros Hk. unfold mark. rewrite clear_is_set by done. destruct (direct_declared key Hk) as (_ & _ & Hne). intros E.
  split; [|split].
  - intros n Hn. rewrite (set_available_field _ _ _ _ _ E) by done. rewrite field_set.
    destruct (decide (key = n)), (decide (n = key)); congruence.
  - intros k. rewrite (set_available_lookup _ _ _ _ _ E), available_set by done.
    destruct (String.eqb_spec k key), (decide (k = key)); congruence.
  - unfold set_available in E. destruct (availability _); [|done]. by injection E as <-.
Qed.

Lemma mark_Some b key st : key ∈ directFields -> is_Some (availability st) ->
  ∃ st', mark b key st = Some st' ∧ is_Some (availability st').
Proof.
  intros Hk H. unfold mark. rewrite clear_is_set by done. destruct (direct_declared key Hk) as (_ & _ & Hne).
  destruct (set_available_Some key b (set_field key (cleared_field key) st)) as [st' E].
  { by rewrite availability_set. }
  exists st'. split; [done|]. by eapply set_available_is_Some.
Qed.

Lemma each_mark b l st st' :
  l ⊆ directFields -> each (mark b) l st = Some st' ->
  (∀ n, n ≠ TA -> field n st' = if decide (n ∈ l) then cleared_field n else field n st) ∧
  (∀ k, available st' k = if decide (k ∈ l) then b else available st k) ∧
  NativeESSObserved st' = NativeESSObserved st.
Proof.
  revert st. induction l as [|x l IH]; intros st Hl H; simpl in H.
  { injection H as <-. done. }
  destruct (mark b x st) as [st1|] eqn:E; [|done]. simpl in H.
  destruct (mark_spec b x st st1 (Hl x ltac:(by left)) E) as (F1 & A1 & N1).
  destruct (IH st1 (λ y Hy, Hl y ltac:(by right)) H) as (F2 & A2 & N2). split; [|split; [|congruence]].
  - intros n Hn. rewrite F2, F1 by done. destruct (decide (n ∈ l)), (decide (n ∈ x :: l)) as [Hx|Hx],
      (decide (n = x)) as [->|]; try done; exfalso; rewrite elem_of_cons in Hx; tauto.
  - intros k. rewrite A2, A1. destruct (decide (k ∈ l)), (decide (k ∈ x :: l)) as [Hx|Hx],
      (decide (k = x)) as [->|]; try done; exfalso; rewrite elem_of_cons in Hx; tauto.
Qed.

Lemma each_mark_Some b l st : l ⊆ directFields -> is_Some (availability st) ->
  ∃ st', each (mark b) l st = Some st' ∧ is_Some (availability st').
Proof.
  revert st. induction l as [|x l IH]; intros st Hl H; simpl; [by exists st|].
  destruct (mark_Some b x st (Hl x ltac:(by left)) H) as (st1 & E & H1). rewrite E. simpl.
  apply IH; [|done]. intros y Hy. apply Hl. by right.
Qed.

(** ** Storing the overlay *)

Definition store (o : list (string * gval)) (st : State) : State :=
  foldl (λ st e, fst (unmarshal_field e.1 e.2 st)) st o.

Definition names : list string := List.map fst stateFields.

Lemma unmarshal_exact k v st :
  k ∈ directFields -> fst (unmarshal_field k v st) = set_field k (fst (decode (field_kind k) v (field k st))) st.
Proof.
  intros H. unfold unmarshal_field. rewrite find_field_exact; [done|].
  revert k H. apply Forall_forall. listed.
Qed.

Lemma store_spec o st n :
  NoDup o.*1 -> o.*1 ⊆ directFields ->
  field n (store o st) = match assoc n o with
                         | Some v => fst (decode (field_kind n) v (field n st))
                         | None => field n st
                         end.
Proof.
  revert st. induction o as [|[k v] o IH]; intros st Hnd Hl; [done|]. unfold store. cbn [foldl]. fold (store o).
  cbn [fst snd]. csimpl in *. apply NoDup_cons in Hnd as [Hk Hnd].
  rewrite unmarshal_exact by (apply Hl; by left). fold (store o (set_field k (decode (field_kind k) v (field k st)).1 st)).
  rewrite IH by (done || (intros y Hy; apply Hl; by right)). cbn [assoc].
  destruct (String.eqb_spec n k) as [->|Hne].
  - apply assoc_None in Hk as ->. by rewrite field_set_eq.
  - rewrite !field_set_ne by done. done.
Qed.

Lemma store_other o st n : o.*1 ⊆ directFields -> n ∉ o.*1 -> field n (store o st) = field n st.
Proof.
  revert st. induction o as [|[k v] o IH]; intros st Hl Hn; [done|]. unfold store. cbn [foldl fst snd].
  fold (store o (unmarshal_field k v st).1). csimpl in *. apply not_elem_of_cons in Hn as [Hne Hn].
  rewrite unmarshal_exact by (apply Hl; by left).
  rewrite IH by (done || (intros y Hy; apply Hl; by right)). by rewrite field_set_ne.
Qed.

Lemma store_native o st : NativeESSObserved (store o st) = NativeESSObserved st.
Proof.
  revert st. induction o as [|[k v] o IH]; intros st; [done|]. unfold store. cbn [foldl fst snd].
  fold (store o (unmarshal_field k v st).1). rewrite IH. unfold unmarshal_field. by destruct (find_field _ k).
Qed.

Lemma marshal_out_spec out o :
  marshal_out out = Some o ->
  NoDup o.*1 ∧ (∀ k, k ∈ o.*1 ↔ is_Some (out !! k)) ∧ ∀ k, assoc k o = marshal <$> out !! k.
Proof.
  unfold marshal_out. destruct (encodable _); [|done]. intros [= <-].
  assert (P : by_key (prod_map id marshal <$> map_to_list out) ≡ₚ prod_map id marshal <$> map_to_list out)
    by apply stable_sort_perm.
  assert (K : (prod_map id marshal <$> map_to_list out).*1 = (map_to_list out).*1)
    by (rewrite <- list_fmap_compose; done).
  assert (N : NoDup (by_key (prod_map id marshal <$> map_to_list out)).*1)
    by (rewrite P, K; apply NoDup_fst_map_to_list).
  split; [done|]. split.
  - intros k. rewrite P, K. apply elem_of_keys.
  - intros k. destruct (out !! k) as [v|] eqn:E; simpl.
    + apply elem_assoc; [done|]. rewrite P. apply list_elem_of_fmap. exists (k, v).
      split; [done|]. by apply elem_of_map_to_list.
    + apply assoc_None. rewrite P, K, elem_of_keys, E. by intros [].
Qed.

(** ** The reducer's result in the state *)

Section client.
Variable iterate : gmap string leaves -> list string.
Variable overflow : F64.num -> Z.
Abbreviation overlay := (overlay iterate overflow).
Abbreviation applyCerboOverlays := (applyCerboOverlays iterate overflow).

(** What the dashboard shows of a field: the reduced value as it is encoded and
    decoded again; the zero value when there is none or it cannot be encoded. *)
Definition shown_value (out : Out) (k : string) : goval :=
  match marshal_out out, out !! k with
  | Some _, Some v => fst (decode (field_kind k) (marshal v) (cleared_field k))
  | _, _ => cleared_field k
  end.

Definition claimed (c : Client) : gset string :=
  (if claims_ess c then {["ess_mode"]} ∪ cerboOwned c else cerboOwned c) ∪ dom (overlay c).

Lemma initCerboMaps_spec c :
  is_Some (availability (state (initCerboMaps c))) ∧ overlay (initCerboMaps c) = overlay c ∧
  claims_ess (initCerboMaps c) = claims_ess c ∧ cerboLeaves (initCerboMaps c) = cerboLeaves c ∧
  cerboOwned (initCerboMaps c) = cerboOwned c ∧ options (initCerboMaps c) = options c ∧
  controllerESSMode (initCerboMaps c) = controllerESSMode c ∧
  (∀ n, n ≠ TA -> field n (state (initCerboMaps c)) = field n (state c)) ∧
  (∀ k, available (state (initCerboMaps c)) k = available (state c) k).
Proof.
  unfold initCerboMaps. destruct (availability (state c)) as [m|] eqn:E.
  - split; [by rewrite E; eexists|done].
  - split; [unfold availability; cbn [state with_state]; rewrite field_set_eq; by eexists|].
    do 6 (split; [done|]). split.
    + intros n Hn. cbn [state with_state]. by rewrite field_set_ne.
    + intros k. unfold available. rewrite E. simpl. unfold availability. cbn [state with_state]. rewrite field_set_eq.
      unfold emptyAvailability. cbn [mbind option_bind].
      match goal with |- context [assoc k ?m] => destruct (assoc k m) as [v|] eqn:Ek end; [|done].
      apply assoc_elem, list_elem_of_fmap in Ek as (x & Ex & _). by injection Ex as _ ->.
Qed.

Lemma dom_direct c : elements (dom (overlay c)) ⊆ directFields.
Proof. intros k Hk. apply elem_of_elements, elem_of_dom in Hk. by eapply overlay_within. Qed.

(** Every claimed field is one of direct telemetry. *)
Definition claims_direct (c : Client) : Prop := ∀ k, k ∈ cerboOwned c -> k ∈ directFields.

Lemma claimed_direct c : claims_direct c -> elements (claimed c) ⊆ directFields.
Proof.
  intros H k Hk. apply elem_of_elements in Hk. unfold claimed in Hk. apply elem_of_union in Hk as [Hk|Hk].
  - destruct (claims_ess c); [|by apply H]. apply elem_of_union in Hk as [Hk%elem_of_singleton|Hk]; [|by apply H].
    subst k. listed.
  - by apply (dom_direct c k), elem_of_elements.
Qed.

Lemma apply_Some c : claims_direct c -> is_Some (applyCerboOverlays c).
Proof.
  intros Hc. destruct (initCerboMaps_spec c) as (A & O & L & _ & W & _ & M & _). unfold OverlayState.applyCerboOverlays.
  rewrite O, L, W, M. set (owned := if claims_ess c then _ else _).
  assert (Hl : elements (owned ∖ dom (overlay c)) ⊆ directFields).
  { intros k Hk. apply (claimed_direct c Hc k). unfold claimed. fold owned. clear -Hk. set_solver. }
  destruct (each_mark_Some false _ (with_native_ess (bool_decide ("ess_mode" ∈ owned)) (state (initCerboMaps c))) Hl A)
    as (st1 & E1 & A1). rewrite E1. simpl.
  destruct (each_mark_Some true _ st1 (dom_direct c) A1) as (st2 & E2 & A2). rewrite E2. simpl. by eexists.
Qed.

(** The result of reducing and storing. *)
Record reduced (c c' : Client) : Prop := {
  r_leaves : cerboLeaves c' = cerboLeaves c;
  r_options : options c' = options c;
  r_owned : cerboOwned c' = claimed c;
  r_available : ∀ k, k ∈ claimed c -> available (state c') k = bool_decide (k ∈ dom (overlay c));
  r_field : ∀ k, k ∈ claimed c -> k ≠ "ess_mode" -> field k (state c') = shown_value (overlay c) k;
  r_other : ∀ k, k ∉ claimed c -> k ≠ "ess_mode" -> k ≠ TA -> field k (state c') = field k (state c)
}.

Lemma apply_reduced c c' : claims_direct c -> applyCerboOverlays c = Some c' -> reduced c c'.
Proof.
  intros Hc. destruct (initCerboMaps_spec c) as (A & O & L & Le & W & Op & M & F & Av).
  unfold OverlayState.applyCerboOverlays. rewrite O, L, W, M. set (owned := if claims_ess c then _ else _).
  assert (Hl : elements (owned ∖ dom (overlay c)) ⊆ directFields).
  { intros k Hk. apply (claimed_direct c Hc k). unfold claimed. fold owned. clear -Hk. set_solver. }
  destruct (each _ _ _) as [st1|] eqn:E1; [|done]. simpl.
  destruct (each _ _ st1) as [st2|] eqn:E2; [|done]. simpl. intros [= <-].
  destruct (each_mark _ _ _ _ Hl E1) as (F1 & A1 & _). destruct (each_mark _ _ _ _ (dom_direct c) E2) as (F2 & A2 & _).
  set (st3 := match marshal_out (overlay c) with Some o => _ | None => st2 end).
  set (st4 := match controllerESSMode c with Some mode => _ | None => st3 end).
  assert (S4 : ∀ k, k ≠ "ess_mode" -> field k st4 = field k st3).
  { intros k Hk. unfold st4. destruct (controllerESSMode c) as [m|]; [|done].
    destruct (selection_supported m); [by rewrite field_set_ne|done]. }
  assert (S3 : ∀ k, k ∉ dom (overlay c) -> field k st3 = field k st2).
  { intros k Hk. unfold st3. destruct (marshal_out (overlay c)) as [o|] eqn:Eo; [|done].
    destruct (marshal_out_spec _ _ Eo) as (N & K & _). fold (store o st2). apply store_other.
    - intros y Hy. apply K in Hy. by eapply overlay_within.
    - by rewrite K, <- elem_of_dom. }
  assert (SA : ∀ k, available st4 k = available st2 k).
  { assert (TA ∉ dom (overlay c)).
    { intros H%elem_of_dom. apply overlay_within in H. revert H. listed. }
    intros k. unfold available, availability. by rewrite S4, S3 by done. }
  split; cbn [cerboLeaves options cerboOwned state with_state with_owned].
  - done.
  - done.
  - done.
  - intros k Hk. rewrite SA, A2. destruct (decide (k ∈ elements (dom (overlay c)))) as [H|H]; rewrite elem_of_elements in H.
    + by rewrite bool_decide_true.
    + rewrite bool_decide_false by done. rewrite A1, decide_True; [done|]. apply elem_of_elements.
      unfold claimed in Hk. fold owned in Hk. clear -Hk H. set_solver.
  - intros k Hk Hess. rewrite S4 by done.
    assert (Hne : k ≠ TA).
    { intros ->. apply elem_of_elements, (claimed_direct c Hc) in Hk. revert Hk. listed. }
    destruct (decide (k ∈ dom (overlay c))) as [H|H].
    + assert (C2 : field k st2 = cleared_field k) by (rewrite F2, decide_True by (done || by apply elem_of_elements); done).
      apply elem_of_dom in H as [v Hv].
      unfold st3, shown_value. rewrite Hv. destruct (marshal_out (overlay c)) as [o|] eqn:Eo; [|done].
      destruct (marshal_out_spec _ _ Eo) as (N & K & G). fold (store o st2). rewrite store_spec.
      * rewrite G, Hv. simpl. by rewrite C2.
      * done.
      * intros y Hy. apply K in Hy. by eapply overlay_within.
    + rewrite S3 by done. unfold shown_value. rewrite (not_elem_of_dom_1 _ _ H).
      transitivity (cleared_field k); [|by destruct (marshal_out _)].
      rewrite F2, decide_False by (done || by rewrite elem_of_elements).
      rewrite F1 by done. rewrite decide_True; [done|]. apply elem_of_elements.
      unfold claimed in Hk. fold owned in Hk. clear -Hk H. set_solver.
  - intros k Hk Hess Hne. unfold claimed in Hk. fold owned in Hk. apply not_elem_of_union in Hk as [Hk1 Hk2].
    rewrite S4, S3, F2, decide_False, F1, decide_False by (done || rewrite elem_of_elements; set_solver).
    cbn [with_native_ess]. change (field k (with_native_ess _ ?st)) with (field k st). by apply F.
Qed.

(** ** What a snapshot of the controller leaves alone *)

(** [st] differs from [st0] at most in the fields [ks]. *)
Definition alters (ks : list string) (st0 st : State) : Prop := ∀ k, k ∉ ks -> field k st = field k st0.

Lemma alters_set ks k v st0 st : k ∈ ks -> alters ks st0 st -> alters ks st0 (set_field k v st).
Proof. intros Hk H n Hn. rewrite field_set_ne; [by apply H|]. by intros <-. Qed.

Lemma alters_available ks st0 st k : TA ∉ ks -> alters ks st0 st -> available st k = available st0 k.
Proof. intros Ht H. unfold available, availability. by rewrite (H "telemetry_available" Ht). Qed.

Lemma find_exact key : key ∈ names -> find_field names key = Some key.
Proof. apply find_field_exact. Qed.

Lemma alters_controller_field ks data key st0 st :
  key ∈ ks -> key ∈ names -> alters ks st0 st -> alters ks st0 (apply_controller_field data key st).
Proof.
  intros Hk Hn H. unfold apply_controller_field. destruct (_ || _); [done|].
  assert (C : alters ks st0 (clearStateField key st)).
  { unfold clearStateField. destruct (assoc key stateFields); [by apply alters_set|done]. }
  destruct (assoc key data) as [v|]; [|done]. destruct (encodable v); [|done].
  unfold unmarshal_field. fold names. rewrite (find_exact _ Hn). by apply alters_set.
Qed.

Lemma alters_fold ks (f : State -> string -> State) (l : list string) st0 st :
  (∀ key st, key ∈ l -> alters ks st0 st -> alters ks st0 (f st key)) ->
  alters ks st0 st -> alters ks st0 (foldl f st l).
Proof.
  revert st. induction l as [|x l IH]; intros st Hf H; simpl; [done|].
  apply IH; [intros; apply Hf; [by right|done]|]. apply Hf; [by left|done].
Qed.

Definition snapshot_fields : list string :=
  controllerFields ++ control_flags ++
  ["grid_backup_observed_at"; "ess_mode_observed_at"; "electricity_tariff_observed_at"; "setpoint_override_observed_at";
   "setpoint_override"; "inverter_available"].

Lemma snapshot_alters data st : alters snapshot_fields st (ApplyControllerSnapshot data st).
Proof.
  unfold ApplyControllerSnapshot, ensure_toggles, store_flags, store_dry_run. apply alters_set; [listed|]. apply alters_fold.
  { intros key st' Hk H. apply alters_set; [|done]. unfold snapshot_fields. rewrite !elem_of_app. tauto. }
  do 2 (apply alters_set; [listed|]).
  match goal with |- alters _ _ (store_mode _ ?s) => assert (F : alters snapshot_fields st s) end.
  { apply alters_fold.
    - intros key st' Hk H. apply alters_controller_field; [|revert key Hk; apply Forall_forall; listed|done].
      unfold snapshot_fields. rewrite !elem_of_app. tauto.
    - apply alters_set; [listed|]. unfold forget_receipts.
      case_match; repeat (apply alters_set; [listed|]); done. }
  unfold store_mode. repeat case_match; try exact F. apply alters_set; [listed|exact F].
Qed.

Lemma snapshot_keeps data st k :
  k ∈ directFields -> k ≠ "ess_mode" -> field k (ApplyControllerSnapshot data st) = field k st.
Proof.
  intros Hk Hne. apply snapshot_alters.
  assert (D : Forall (λ k, k = "ess_mode" ∨ k ∉ snapshot_fields) directFields) by listed.
  rewrite Forall_forall in D. destruct (D k Hk) as [?|?]; done.
Qed.

Lemma snapshot_available data st k : available (ApplyControllerSnapshot data st) k = available st k.
Proof. eapply alters_available; [|apply snapshot_alters]. listed. Qed.

Lemma snapshot_availability data st : availability (ApplyControllerSnapshot data st) = availability st.
Proof. unfold availability. rewrite (snapshot_alters data st "telemetry_available"); [done|listed]. Qed.

(** ** Types *)

Lemma typed_const name v k : assoc name stateFields = Some k -> has_kind k v = true ->
  ∀ k', assoc name stateFields = Some k' -> has_kind k' v = true.
Proof. intros E H k' E'. rewrite E in E'. by injection E' as <-. Qed.

Lemma typed_fold {A} (f : State -> A -> State) (l : list A) st :
  (∀ x st, x ∈ l -> typed st -> typed (f st x)) -> typed st -> typed (foldl f st l).
Proof.
  revert st. induction l as [|x l IH]; intros st Hf H; simpl; [done|].
  apply IH; [intros; apply Hf; [by right|done]|]. apply Hf; [by left|done].
Qed.

Lemma typed_controller_field data key st : typed st -> typed (apply_controller_field data key st).
Proof.
  intros H. unfold apply_controller_field. destruct (_ || _); [done|]. pose proof (typed_clear key st H) as C.
  destruct (assoc key data) as [v|]; [|done]. destruct (encodable v); [|done]. by apply typed_unmarshal.
Qed.

Lemma flag_value_kind flags key : has_kind KBool (flag_value flags key) = true.
Proof. unfold flag_value. by destruct (assoc key flags) as [[| | | |[]| | | | |]|]. Qed.

Lemma add_flag_any flags e :
  forallb (λ x, has_kind KAny (snd x)) flags = true -> forallb (λ x, has_kind KAny (snd x)) (add_flag flags e) = true.
Proof.
  intros H. assert (S : ∀ k v, forallb (λ x, has_kind KAny (snd x)) (set_prop k (FAny v) flags) = true).
  { intros k v. apply (set_props_forallb (has_kind KAny) flags [(k, FAny v)] H). done. }
  unfold add_flag. destruct (IsControlFlag _); [|apply S]. destruct (ControlBool _); [apply S|done].
Qed.

Lemma controllerBooleans_any raw : forallb (λ x, has_kind KAny (snd x)) (controllerBooleans raw) = true.
Proof.
  unfold controllerBooleans. destruct raw as [[| | | | | | | |o]|]; try done.
  assert (G : ∀ flags, forallb (λ x, has_kind KAny (snd x)) flags = true ->
    forallb (λ x, has_kind KAny (snd x)) (foldl add_flag flags o) = true).
  { induction o as [|e o IH]; intros flags H; [done|]. simpl. by apply IH, add_flag_any. }
  by apply G.
Qed.

Lemma sane_mode : sane KESSMode = true.
Proof. reflexivity. Qed.

Lemma decoded_mode o : has_kind KESSMode (fst (decode KESSMode (GObject o) (zero KESSMode))) = true.
Proof. apply decode_kind; [apply sane_mode|by apply zero_kind, sane_mode]. Qed.

Ltac set_typed k := apply typed_set; [apply (typed_const _ _ k); [reflexivity|try reflexivity]|].

Lemma snapshot_typed data st : typed st -> typed (ApplyControllerSnapshot data st).
Proof.
  intros H. unfold ApplyControllerSnapshot.
  assert (T1 : ∀ b st, typed st -> typed (forget_receipts b st)).
  { intros b st' T. unfold forget_receipts.
    destruct b; repeat first [exact T|set_typed (KPtr KFloat)|set_typed (KPtr KSetpointOverrideStatus)]. }
  assert (T2 : ∀ st, typed st -> typed (store_mode data st)).
  { intros st' T. unfold store_mode. repeat case_match; try exact T. set_typed KESSMode; [|exact T]. apply decoded_mode. }
  assert (T3 : ∀ st, typed st -> typed (store_dry_run data st)).
  { intros st' T. unfold store_dry_run. set_typed (KPtr KBool); [|exact T]. by repeat case_match. }
  assert (T4 : ∀ raw st, typed st -> typed (store_flags (controllerBooleans raw) st)).
  { intros raw st' T. unfold store_flags. apply typed_fold.
    - intros key st'' Hk T'. apply typed_set; [|done]. intros k Ek.
      assert (k = KBool) as ->; [|apply flag_value_kind].
      assert (D : Forall (λ key, assoc key stateFields = Some KBool) control_flags) by (repeat constructor).
      rewrite Forall_forall in D. rewrite (D key Hk) in Ek. congruence.
    - set_typed (KMap KAny); [|exact T]. apply controllerBooleans_any. }
  assert (T5 : ∀ b st, typed st -> typed (ensure_toggles b st)).
  { intros b st' T. unfold ensure_toggles. set_typed (KMap KAny); [|exact T].
    assert (U : forallb (λ x, has_kind KAny (snd x)) (ui_entries st') = true).
    { specialize (T "ui_config" _ eq_refl). unfold ui_entries.
      by destruct (field "ui_config" st') as [| | | | | | |[m|]| |]. }
    cbn [has_kind]. destruct (b && _); [|exact U].
    by apply (set_props_forallb (has_kind KAny) _ [("header_toggles", FAny FormatHeaderToggles)] U). }
  apply T5, T4, T3, T2. apply typed_fold; [intros; by apply typed_controller_field|].
  set_typed (KPtr KBool). by apply T1.
Qed.

(** ** The invariant *)

(** A claimed field that is available shows the reduced value of the leaves;
    one that is not has its zero value. *)
Definition truthful (c : Client) : Prop :=
  ∀ k, k ∈ cerboOwned c -> k ≠ "ess_mode" ->
    if available (state c) k
    then is_Some (overlay c !! k) ∧ field k (state c) = shown_value (overlay c) k
    else field k (state c) = cleared_field k.

Definition mode_typed (c : Client) : Prop :=
  match controllerESSMode c with Some m => has_kind KESSMode m = true | None => True end ∧
  has_kind (KPtr KFloat) (pointer (controllerESSObserved c)) = true.

Lemma mode_typed_same c c' :
  controllerESSMode c' = controllerESSMode c -> controllerESSObserved c' = controllerESSObserved c ->
  mode_typed c -> mode_typed c'.
Proof. unfold mode_typed. by intros -> ->. Qed.

Lemma init_mode c : mode_typed c -> mode_typed (initCerboMaps c).
Proof. unfold initCerboMaps. by destruct (availability (state c)). Qed.

Record coherent (c : Client) : Prop := {
  co_direct : claims_direct c;
  co_typed : typed (state c);
  co_mode : mode_typed c;
  co_truth : truthful c
}.

(** The invariant only looks at these components. *)
Definition same_view (c c' : Client) : Prop :=
  cerboLeaves c' = cerboLeaves c ∧ cerboOwned c' = cerboOwned c ∧ options c' = options c ∧
  (∀ k, k ∈ directFields -> k ≠ "ess_mode" ->
     field k (state c') = field k (state c) ∧ available (state c') k = available (state c) k).

Lemma same_view_truthful c c' : claims_direct c -> same_view c c' -> truthful c -> truthful c'.
Proof.
  intros D (L & W & O & F) T k Hk Hne. rewrite W in Hk. destruct (F k (D k Hk) Hne) as [Ef Ea].
  unfold OverlayState.overlay. rewrite Ef, Ea, L, O. by apply T.
Qed.

Lemma init_coherent c : coherent c -> coherent (initCerboMaps c).
Proof.
  intros [D T M R]. destruct (initCerboMaps_spec c) as (A & O & _ & L & W & Op & E & F & Av). split.
  - intros k. rewrite W. apply D.
  - unfold initCerboMaps. destruct (availability (state c)); [done|]. cbn [state with_state].
    apply typed_set; [|done]. apply (typed_const _ _ (KMap KBool)); [reflexivity|]. by vm_compute.
  - by apply init_mode.
  - apply (same_view_truthful c); [done| |done]. split; [done|]. split; [done|]. split; [done|].
    intros k Hk _. destruct (direct_declared k Hk) as (_ & _ & Hne). by split; [apply F|apply Av].
Qed.

Lemma mark_typed b key st st' : mark b key st = Some st' -> typed st -> typed st'.
Proof. intros H T. eapply typed_available; [exact H|]. by apply typed_clear. Qed.

Lemma each_mark_typed b l st st' : each (mark b) l st = Some st' -> typed st -> typed st'.
Proof. apply each_ind. intros x s s' _. apply mark_typed. Qed.

Lemma apply_coherent c c' :
  claims_direct c -> typed (state c) -> mode_typed c -> applyCerboOverlays c = Some c' -> coherent c'.
Proof.
  intros D T M H. pose proof (apply_reduced c c' D H) as R. split.
  - intros k. rewrite (r_owned _ _ R). intros Hk. by apply (claimed_direct c D k), elem_of_elements.
  - assert (T0 : typed (state (initCerboMaps c))).
    { unfold initCerboMaps. destruct (availability (state c)); [done|]. cbn [state with_state].
      apply typed_set; [|done]. apply (typed_const _ _ (KMap KBool)); [reflexivity|]. by vm_compute. }
    unfold OverlayState.applyCerboOverlays in H.
    destruct (each _ _ _) as [st1|] eqn:E1; [|done]. simpl in H.
    destruct (each _ _ st1) as [st2|] eqn:E2; [|done]. simpl in H. injection H as <-. cbn [state with_state].
    apply each_mark_typed in E1; [|exact T0]. apply each_mark_typed in E2; [|done].
    assert (T3 : typed (match marshal_out (OverlayState.overlay iterate overflow (initCerboMaps c)) with
                        | Some o => foldl (λ st e, fst (unmarshal_field e.1 e.2 st)) st2 o
                        | None => st2
                        end)).
    { destruct (marshal_out _) as [o|]; [|exact E2]. apply typed_fold; [|exact E2]. intros x st _. apply typed_unmarshal. }
    destruct (initCerboMaps_spec c) as (_ & _ & _ & _ & _ & _ & E & _). rewrite E.
    destruct M as [M _]. destruct (controllerESSMode c) as [m|]; [|exact T3].
    destruct (selection_supported m); [|exact T3]. by set_typed KESSMode.
  - unfold OverlayState.applyCerboOverlays in H.
    destruct (each _ _ _) as [st1|]; [|done]. simpl in H. destruct (each _ _ st1) as [st2|]; [|done].
    simpl in H. injection H as <-. apply (mode_typed_same (initCerboMaps c)); [done..|by apply init_mode].
  - intros k Hk Hne. rewrite (r_owned _ _ R) in Hk.
    assert (O : overlay c' = overlay c)
      by (unfold OverlayState.overlay; by rewrite (r_leaves _ _ R), (r_options _ _ R)).
    rewrite O, (r_available _ _ R k Hk), (r_field _ _ R k Hk Hne). case_bool_decide as B.
    + split; [by apply elem_of_dom|done].
    + unfold shown_value. rewrite (not_elem_of_dom_1 _ _ B). by destruct (marshal_out _).
Qed.

(** ** Every event keeps the invariant *)

(** Comparing a reset with its unfolding must not run it. *)
Strategy 100 [invalidateCerbo clear_direct clearOptionalTelemetry].

Lemma handle_coherent topic p now c c' b :
  handleCerboDevice iterate overflow topic p now c = Some (c', b) -> coherent c -> coherent c'.
Proof.
  intros H C. unfold handleCerboDevice in H.
  destruct (split_on "/" topic) as [|p0 [|portal [|kind [|instance rest]]]]; try (injection H as <- <-; exact C).
  destruct (_ || _ || _ || _); [by injection H as <- <-|].
  apply init_coherent in C. pose proof C as [D T M R]. set (c0 := initCerboMaps c) in *. clearbody c0.
  destruct p as [| |o].
  - destruct (OverlayState.applyCerboOverlays _ _ _) as [c1|] eqn:E; [|done]. simpl in H. injection H as <- <-.
    by apply apply_coherent in E.
  - by injection H as <- <-.
  - destruct rest as [|r rest]; [by injection H as <- <-|].
    destruct (assoc "value" o) as [value|]; [|by injection H as <- <-].
    destruct (accepted_value _ value) as [v|]; [|by injection H as <- <-].
    match type of H with context [with_leaves ?l ?cl] => set (c1 := cl) in H end.
    assert (C1 : claims_direct c1 ∧ state c1 = state c0 ∧ mode_typed c1).
    { unfold c1. destruct v; try done. split; [|done]. intros k. cbn [cerboOwned with_owned].
      rewrite elem_of_union. intros [Hk|Hk]; [by apply D|]. apply elem_of_dom in Hk. by eapply overlay_within. }
    destruct C1 as (D1 & S1 & M1). clearbody c1.
    destruct (OverlayState.applyCerboOverlays _ _ _) as [c2|] eqn:E; [|done]. simpl in H. injection H as <- <-.
    apply apply_coherent in E; [done|exact D1|..]; cbn [state with_seen with_leaves]; [by rewrite S1|exact M1].
Qed.

Lemma water_view key inst i b r now c : same_view c (observe_water_key key inst i b r now c) ∧
  state (observe_water_key key inst i b r now c) = state c ∧
  (mode_typed c -> mode_typed (observe_water_key key inst i b r now c)).
Proof. unfold observe_water_key. by destruct (negb _). Qed.

Lemma coherent_view c c' :
  same_view c c' -> state c' = state c -> (mode_typed c -> mode_typed c') -> coherent c -> coherent c'.
Proof.
  intros V S E [D T M R]. split.
  - intros k. destruct V as (_ & -> & _). apply D.
  - by rewrite S.
  - by apply E.
  - by apply (same_view_truthful c).
Qed.

Lemma update_water_coherent parts b r now c :
  coherent c -> coherent (updateWaterModeObservation parts b r now c).
Proof.
  intros C. unfold updateWaterModeObservation.
  destruct parts as [|? [|? [|kind [|instance [|leaf [|]]]]]]; try done. destruct (_ && _); [|done].
  assert (K : ∀ key i c, coherent c -> coherent (observe_water_key key instance i b r now c)).
  { intros key i c' C'. destruct (water_view key instance i b r now c') as (V & S & E). by apply (coherent_view c'). }
  by apply K, K.
Qed.

Lemma merge_member_typed owned acc e : typed (fst acc) -> typed (fst (merge_member owned acc e)).
Proof.
  intros T. unfold merge_member. destruct acc as [st clean]. destruct (_ || _ || _ || _); [done|].
  by apply typed_unmarshal.
Qed.

Lemma merge_members_typed owned data acc : typed (fst acc) -> typed (fst (foldl (merge_member owned) acc data)).
Proof. revert acc. induction data as [|e data IH]; intros acc T; [done|]. simpl. by apply IH, merge_member_typed. Qed.

Lemma merge_coherent v data c c' :
  mergeDaemonState iterate overflow v data c = Some c' -> coherent c -> coherent c'.
Proof.
  intros H C. apply init_coherent in C. pose proof C as [D T M R].
  unfold mergeDaemonState in H. set (c0 := initCerboMaps c) in *. clearbody c0.
  pose proof (merge_members_typed (cerboOwned c0) data (state c0, []) T) as T1.
  destruct (foldl _ _ data) as [st clean]. cbn [fst] in T1.
  destruct (each _ _ st) as [st1|] eqn:E1; [|done]. simpl in H.
  assert (T2 : typed st1).
  { revert E1 T1. apply each_ind. intros k s s' _. unfold mark_direct.
    destruct (assoc k clean) as [[]|]; try (intros [= ->]; done); intros; by eapply typed_available. }
  destruct (if bool_decide _ then _ else _) as [st2|] eqn:E2; [|done]. simpl in H.
  assert (T3 : typed st2).
  { destruct (bool_decide _); [by injection E2 as <-|by eapply typed_available]. }
  apply apply_coherent in H; [done|exact D| |exact M]. cbn [state with_state].
  set_typed KString. by apply snapshot_typed.
Qed.

(** A time in milliseconds that a double holds exactly. *)
Definition timely (now : Z) : Prop := 0 <= now <= 2 ^ 53.

Lemma unix_seconds_finite now : timely now -> ∃ q, unix_seconds now = F64.Fin q.
Proof.
  intros [H1 H2]. unfold unix_seconds. rewrite !F64.of_Z_exact by lia. cbn [F64.div]. cbn [Qeq_bool].
  destruct (Z.eq_dec now 0) as [->|Hne]; [by eexists; vm_compute|].
  assert (P : (0 < inject_Z now / inject_Z 1000)%Q).
  { apply Qlt_shift_div_l; [done|]. rewrite Qmult_0_l. apply (F64.inject_lt 0). lia. }
  assert (B : (inject_Z now / inject_Z 1000 < 2 ^ 53)%Q).
  { apply Qlt_shift_div_r; [done|]. rewrite (F64.pow2_Z 53), <- inject_Z_mult by lia. apply F64.inject_lt. lia. }
  exact (F64.round_small _ P B).
Qed.

Lemma observe_coherent data r now c : timely now -> coherent c -> coherent (observeESSMode data r now c).
Proof.
  intros Hn [D T M R].
  assert (N : ∀ m at_, match m with Some x => has_kind KESSMode x = true | None => True end ->
    has_kind (KPtr KFloat) (pointer at_) = true -> coherent (with_ess m at_ c)) by (intros; by split).
  unfold observeESSMode. destruct (Nat.eqb _ _); [by apply N|].
  destruct (assoc "ess_mode" data) as [[]|]; try (by apply N); [|by split].
  destruct (_ && _); [|by apply N]. apply N; [apply decoded_mode|].
  destruct r; [done|]. by destruct (unix_seconds_finite now Hn) as [q ->].
Qed.

Lemma measurement_kind st fs :
  typed st -> field "grid_backup" st = FPtr (Some (FStruct fs)) ->
  has_kind (KPtr KFloat) (default (FPtr None) (assoc "measurement_time" fs)) = true.
Proof.
  intros T E. specialize (T "grid_backup" _ eq_refl). rewrite E in T.
  change (has_kind KGridBackupStatus (FStruct fs) = true) in T. apply has_kind_struct in T.
  destruct (assoc "measurement_time" fs) as [x|] eqn:Ex; [|done].
  destruct (field_kinds_lookup _ _ _ _ T Ex) as (k & Ek & Hk). simpl in Ek. by injection Ek as <-.
Qed.


Variable version : string.
Abbreviation step := (step iterate overflow version).

Lemma observed_coherent k x c :
  k ∈ ["ess_mode_observed_at"; "grid_backup_observed_at"] -> has_kind (KPtr KFloat) x = true ->
  coherent c -> coherent (with_state (set_field k x (state c)) c).
Proof.
  intros Hk Hx [D T M R]. assert (D2 : (k ∉ directFields) ∧ k ≠ TA ∧ assoc k stateFields = Some (KPtr KFloat)).
  { repeat (apply elem_of_cons in Hk as [->|Hk]; [split; [listed|done]|]). by apply elem_of_nil in Hk. }
  destruct D2 as (Hd & Ht & Ek). split; [done| |done|].
  - cbn [state with_state]. apply typed_set; [|done]. by apply (typed_const _ _ (KPtr KFloat)).
  - apply (same_view_truthful c); [done| |done]. do 3 (split; [done|]). intros n Hn _. cbn [state with_state].
    split; [|by apply available_set]. apply field_set_ne. by intros ->.
Qed.

Lemma frame_coherent data r now c c' :
  timely now -> applyControllerState iterate overflow version data r now c = Some c' -> coherent c -> coherent c'.
Proof.
  intros Hn H C. unfold applyControllerState in H.
  destruct (mergeDaemonState _ _ _ _ _) as [c1|] eqn:E; [|done]. simpl in H. injection H as <-.
  apply merge_coherent in E; [|apply observe_coherent; [done|by destruct C]].
  set (c2 := with_state (set_field "ess_mode_observed_at" (pointer (controllerESSObserved c1)) (state c1)) c1).
  assert (C2 : coherent c2) by (apply observed_coherent; [listed|by destruct E as [_ _ [_ ?] _]|done]).
  change (set_field "ess_mode_observed_at" _ _) with (state c2).
  destruct (field "grid_backup" (state c2)) as [| | | | | |[[| | | | | | | | |fs]|]| | |] eqn:G; try exact C2.
  apply (observed_coherent "grid_backup_observed_at" _ c2); [listed| |done].
  eapply measurement_kind; [|exact G]. apply C2.
Qed.

(** A reset that keeps the leaves, or forgets them all. *)
Lemma reset_coherent l data c st :
  l ⊆ directFields -> claims_direct c -> typed (state c) -> truthful c ->
  each (mark false) l (state c) = Some st ->
  coherent (with_controller None None (with_ess None None (with_state (ApplyControllerSnapshot data st) c))).
Proof.
  intros Hl D T R E. destruct (each_mark _ _ _ _ Hl E) as (F & A & _). split.
  - exact D.
  - apply snapshot_typed. by eapply each_mark_typed.
  - done.
  - intros k Hk Hne. specialize (R k Hk Hne). pose proof (D k Hk) as Hd.
    destruct (direct_declared k Hd) as (_ & _ & Ht). cbn [state with_controller with_ess with_state].
    rewrite snapshot_available, A. rewrite snapshot_keeps, F by done. by destruct (decide (k ∈ l)).
Qed.

Lemma expiry_coherent now c c' b : expireOptionalTelemetry now c = Some (c', b) -> coherent c -> coherent c'.
Proof.
  intros H C. unfold expireOptionalTelemetry in H. apply init_coherent in C.
  set (c0 := initCerboMaps c) in *. clearbody c0.
  destruct (controllerLastSeen c0) as [seen|]; [|by injection H as <- <-].
  destruct (_ || _); [|by injection H as <- <-]. destruct C as [D T M R].
  destruct (bool_decide _); simpl in H.
  - injection H as <- <-. apply (reset_coherent [] [] c0 (state c0)); [by intros ? ?%elem_of_nil|done..].
  - destruct (set_available _ _ _) as [st|] eqn:E; [|done]. simpl in H. injection H as <- <-. split.
    + exact D.
    + apply snapshot_typed. by eapply typed_available.
    + done.
    + intros k Hk Hne. specialize (R k Hk Hne). pose proof (D k Hk) as Hd.
      destruct (direct_declared k Hd) as (_ & _ & Ht). cbn [state with_controller with_ess with_state].
      rewrite snapshot_available, (set_available_lookup _ _ _ _ _ E), snapshot_keeps by done.
      rewrite (set_available_field _ _ _ _ _ E) by done. destruct (String.eqb_spec k "ess_mode"); done.
Qed.

Lemma clear_direct_spec st st' : clear_direct st = Some st' ->
  (∀ k, k ∈ directFields -> field k st' = cleared_field k ∧ available st' k = false) ∧ (typed st -> typed st').
Proof.
  intros E. split; [|intros T; by eapply each_mark_typed].
  destruct (each_mark _ _ _ _ (λ k Hk, Hk) E) as (F & A & _). intros k Hk.
  destruct (direct_declared k Hk) as (_ & _ & Ht). specialize (A k). specialize (F k Ht).
  destruct (decide (k ∈ directFields)) as [_|Hq]; [done|by destruct (Hq Hk)].
Qed.

Lemma clear_direct_Some st : is_Some (availability st) -> is_Some (clear_direct st).
Proof. intros H. destruct (each_mark_Some false directFields st (λ k Hk, Hk) H) as (st' & E & _). by exists st'. Qed.

Lemma marked_coherent c st :
  coherent c -> clear_direct (ApplyControllerSnapshot [] (state c)) = Some st ->
  coherent (with_state st (with_seen None (with_leaves ∅ c))).
Proof.
  intros [D T M R] E. apply clear_direct_spec in E as [F Ty]. split; [exact D| |exact M|].
  - by apply Ty, snapshot_typed.
  - intros k Hk _. destruct (F k (D k Hk)) as [Fk Ak]. cbn [state with_state]. by rewrite Ak, Fk.
Qed.

Lemma invalidate_eq c :
  invalidateCerbo c =
    match clear_direct (ApplyControllerSnapshot [] (state (initCerboMaps c))) with
    | Some st => Some (with_state st (with_seen None (with_leaves ∅ (initCerboMaps c))))
    | None => None
    end.
Proof. reflexivity. Qed.

Lemma invalidate_inv c c' : invalidateCerbo c = Some c' ->
  ∃ st, clear_direct (ApplyControllerSnapshot [] (state (initCerboMaps c))) = Some st ∧
        c' = with_state st (with_seen None (with_leaves ∅ (initCerboMaps c))).
Proof. rewrite invalidate_eq. destruct (clear_direct _) as [st|]; [|done]. intros H. injection H as <-. eauto. Qed.

Lemma lost_coherent c c' : invalidateCerbo c = Some c' -> coherent c -> coherent c'.
Proof. intros (st & E & ->)%invalidate_inv C%init_coherent. by apply marked_coherent. Qed.

Lemma source_coherent c c' : clearOptionalTelemetry c = Some c' -> coherent c -> coherent c'.
Proof.
  intros H C. unfold clearOptionalTelemetry in H.
  assert (C0 : coherent (initCerboMaps (with_ess None None c))) by (apply init_coherent; by destruct C).
  set (c0 := initCerboMaps _) in *. assert (E0 : controllerESSMode c0 = None ∧ controllerESSObserved c0 = None).
  { unfold c0, initCerboMaps. by destruct (availability _). }
  clearbody c0. destruct C0 as [D T M R]. destruct (each _ _ _) as [st|] eqn:E; [|done]. simpl in H. injection H as <-.
  assert (L : optional_fields ⊆ directFields) by listed.
  pose proof (reset_coherent optional_fields [] c0 st L D T R E) as [D' T' M' R'].
  split; [exact D'|exact T'| |exact R']. unfold mode_typed. cbn. destruct E0 as [-> ->]. done.
Qed.

Lemma switch_coherent c c' : switch_source c = Some c' -> coherent c -> coherent c'.
Proof.
  intros H C. unfold switch_source in H. destruct (clearOptionalTelemetry _) as [c1|] eqn:E; [|done].
  injection H as <-. apply source_coherent in E; [|by destruct C]. by destruct E.
Qed.

Lemma device_coherent topic p r now c c' b :
  applyCerboDevice iterate overflow topic p r now c = Some (c', b) -> coherent c -> coherent c'.
Proof.
  intros H C. unfold applyCerboDevice in H. destruct (handleCerboDevice _ _ _ _ _ _) as [[c1 b1]|] eqn:E; [|done].
  simpl in H. injection H as <- <-. apply update_water_coherent. by eapply handle_coherent.
Qed.

Lemma reset_inventory_coherent c c' : reset_inventory iterate overflow c = Some c' -> coherent c -> coherent c'.
Proof. intros H [D T M R]. exact (apply_coherent (with_leaves ∅ c) c' D T M H). Qed.

Lemma portal_coherent portal c : coherent c -> coherent (acceptPortal portal c).
Proof. intros C. unfold acceptPortal. destruct (_ && _); [|done]. destruct C. by split. Qed.

Lemma fst_Some {A B} (r : option (A * B)) x : fst <$> r = Some x -> ∃ y, r = Some (x, y).
Proof. destruct r as [[a b]|]; [|done]. intros [= <-]. by exists b. Qed.

Definition in_time (e : event) : Prop := match e with ControllerFrame _ _ now => timely now | _ => True end.

Lemma step_coherent e c c' : step e c = Some c' -> in_time e -> coherent c -> coherent c'.
Proof.
  destruct e as [topic p r now|data r now|portal|now| | | |]; intros H Hn C.
  - apply fst_Some in H as [b H]. exact (device_coherent _ _ _ _ _ _ _ H C).
  - exact (frame_coherent _ _ _ _ _ Hn H C).
  - injection H as <-. by apply portal_coherent.
  - apply fst_Some in H as [b H]. exact (expiry_coherent _ _ _ _ H C).
  - exact (reset_inventory_coherent _ _ H C).
  - exact (lost_coherent _ _ H C).
  - exact (source_coherent _ _ H C).
  - exact (switch_coherent _ _ H C).
Qed.

Lemma new_coherent o portal : coherent (NewClient o portal).
Proof.
  apply init_coherent. split.
  - done.
  - cbn [state]. unfold initial_state. set_typed (KMap KAny). set_typed (KMap KAny). set_typed KString. set_typed KString.
    set_typed (KSlice KString). apply typed_zero.
  - done.
  - done.
Qed.

Lemma run_coherent o portal es c :
  run_steps step es (NewClient o portal) = Some c -> Forall in_time es -> coherent c.
Proof.
  intros H T. eapply (run_steps_ind_if step in_time); [|exact H|exact T|apply new_coherent].
  intros e c0 c' E Hn C. by eapply step_coherent.
Qed.
End client.
