(* ===== verification/DirectFacts.v ===== *)
(** * What the dashboard may rely on in direct telemetry

    The properties of runs of a client: truth and types of the fields, the
    precedence of the devices over the controller, the frames that panic, what
    an overflow and a lost connection leave. *)

From Stdlib Require Import ZArith QArith Qround Ascii String Lia.
From stdpp Require Import base list option strings gmap fin_maps sorting.
From S2P Require Import Prelude Float64 JsValue Utf8 ControllerCommands NativeLeaves Notifications JsonFields StateFields CerboLeaves CerboOverlay OverlayState OverlayFacts DirectTelemetry.

#[local] Open Scope string_scope.
#[local] Open Scope list_scope.
#[local] Open Scope Z_scope.

Section facts.
Variable iterate : gmap string leaves -> list string.
Variable overflow : F64.num -> Z.
Variable version : string.
Abbreviation step := (step iterate overflow version).
Abbreviation overlay := (overlay iterate overflow).

(** The states that a client can reach. *)
Definition reachable (c : Client) : Prop :=
  ∃ o portal es, Forall in_time es ∧ run_steps step es (NewClient o portal) = Some c.

Lemma reachable_coherent c : reachable c -> coherent iterate overflow c.
Proof. intros (o & portal & es & T & H). by eapply run_coherent. Qed.

(** ** Merging a frame *)

(** The client that a frame is merged into. *)
Lemma merge_inv data c c' :
  mergeDaemonState iterate overflow version data c = Some c' ->
  ∃ st, applyCerboOverlays iterate overflow (with_state st (initCerboMaps c)) = Some c'.
Proof.
  unfold mergeDaemonState. destruct (foldl _ _ data) as [st clean].
  destruct (each _ _ st) as [st1|]; [|done]. simpl. destruct (if bool_decide _ then _ else _) as [st2|]; [|done].
  simpl. intros H. by eexists.
Qed.

Lemma observe_view data r now c :
  cerboLeaves (observeESSMode data r now c) = cerboLeaves c ∧ cerboOwned (observeESSMode data r now c) = cerboOwned c ∧
  options (observeESSMode data r now c) = options c ∧ state (observeESSMode data r now c) = state c.
Proof. unfold observeESSMode. repeat case_match; done. Qed.

Lemma with_state_overlay st c : overlay (with_state st c) = overlay c.
Proof. done. Qed.

Lemma receipts_keep k c st :
  k ∈ directFields -> st = set_field "ess_mode_observed_at" (pointer (controllerESSObserved c)) (state c) ->
  let st' := match field "grid_backup" st with
             | FPtr (Some (FStruct fs)) =>
                 set_field "grid_backup_observed_at" (default (FPtr None) (assoc "measurement_time" fs)) st
             | _ => st
             end in
  field k st' = field k (state c) ∧ available st' k = available (state c) k.
Proof.
  intros Hk ->. assert (D : Forall (λ k, k ≠ "ess_mode_observed_at" ∧ k ≠ "grid_backup_observed_at") directFields)
    by listed. rewrite Forall_forall in D. destruct (D k Hk) as [D1 D2].
  cbv zeta. repeat case_match; rewrite ?field_set_ne, ?available_set by done; done.
Qed.

(** What the devices claim, a frame of the controller does not change. *)
Lemma frame_keeps_claims data r now c c' :
  claims_direct c -> applyControllerState iterate overflow version data r now c = Some c' ->
  overlay c' = overlay c ∧ ∀ k, k ∈ cerboOwned c -> k ≠ "ess_mode" ->
    available (state c') k = bool_decide (k ∈ dom (overlay c)) ∧ field k (state c') = shown_value (overlay c) k.
Proof.
  intros D H. unfold applyControllerState in H. set (ca := with_controller _ _ c) in *.
  destruct (mergeDaemonState _ _ _ _ _) as [c1|] eqn:E; [|done]. simpl in H. injection H as <-.
  apply merge_inv in E as [st E]. destruct (observe_view data r now ca) as (L & W & Op & _).
  destruct (initCerboMaps_spec iterate overflow (observeESSMode data r now ca)) as (_ & O & _ & Le & We & Opt & _).
  assert (D' : claims_direct (with_state st (initCerboMaps (observeESSMode data r now ca)))).
  { intros k. cbn [cerboOwned with_state]. rewrite We, W. apply D. }
  pose proof (apply_reduced _ _ _ _ D' E) as [Rl Ro Rw Ra Rf _]. cbn [cerboLeaves options with_state] in Rl, Ro.
  assert (O' : overlay c1 = overlay c).
  { unfold OverlayState.overlay. by rewrite Rl, Ro, Le, Opt, L, Op. }
  split; [exact O'|]. intros k Hk Hne. pose proof (D k Hk) as Hd.
  assert (C : k ∈ claimed iterate overflow (with_state st (initCerboMaps (observeESSMode data r now ca)))).
  { unfold claimed. cbn [cerboOwned with_state]. rewrite We, W.
    apply elem_of_union_l. case_match; [apply elem_of_union_r|]; exact Hk. }
  assert (O2 : overlay (with_state st (initCerboMaps (observeESSMode data r now ca))) = overlay c).
  { unfold OverlayState.overlay. cbn [cerboLeaves options with_state]. by rewrite Le, Opt, L, Op. }
  destruct (receipts_keep k c1 _ Hd eq_refl) as [F A]. cbn [state with_state]. cbv zeta in F, A.
  rewrite F, A, (Ra k C), (Rf k C Hne). by rewrite O2.
Qed.




(** ** The same telemetry through the gateway *)


(** ** Events that panic *)

(** A member that leaves the map of available telemetry nil. *)
Definition nils_availability (e : string * gval) : Prop :=
  e.1 ≠ TA ∧ find_field names e.1 = Some TA ∧ e.2 = GNil.

Lemma decode_map_Some kd v m :
  v ≠ GNil -> is_Some (match fst (decode (KMap kd) v (FMap (Some m))) with FMap o => o | _ => None end).
Proof. intros Hv. destruct v; cbn; first [done | congruence | eexists; reflexivity]. Qed.

Lemma merge_member_is_Some owned acc e :
  ¬ nils_availability e -> is_Some (availability (fst acc)) -> is_Some (availability (fst (merge_member owned acc e))).
Proof.
  intros N [m H]. unfold merge_member. destruct acc as [st clean]. cbn [fst] in H.
  destruct (_ || String.eqb e.1 "telemetry_available" || _ || _) eqn:G; [by exists m|].
  assert (e.1 ≠ TA) by (intros E; unfold TA in E; rewrite E, String.eqb_refl, orb_true_r in G; done).
  unfold unmarshal_field. destruct (find_field _ e.1) as [n|] eqn:F; cbn [fst]; [|by exists m].
  destruct (decide (n = TA)) as [->|Hn]; [|rewrite availability_set by done; by exists m].
  unfold availability in *. rewrite field_set_eq. destruct (field "telemetry_available" st) eqn:Ef; try done.
  subst o. unfold TA. rewrite Ef. apply decode_map_Some. intros Hv. by apply N.
Qed.

Lemma merge_members_is_Some owned data acc :
  Forall (λ e, ¬ nils_availability e) data -> is_Some (availability (fst acc)) ->
  is_Some (availability (fst (foldl (merge_member owned) acc data))).
Proof. revert acc. induction data as [|e data IH]; intros acc F H; [done|]. inversion F; subst. simpl. auto using merge_member_is_Some. Qed.

Lemma mark_direct_Some clean k st : is_Some (availability st) ->
  ∃ st', mark_direct clean k st = Some st' ∧ is_Some (availability st').
Proof.
  intros H. unfold mark_direct. destruct (set_available_Some k true st H) as [st' E].
  assert (is_Some (availability st')) by (by eapply set_available_is_Some).
  destruct (assoc k clean) as [[]|]; eauto.
Qed.

Lemma frame_Some data r now c :
  claims_direct c -> Forall (λ e, ¬ nils_availability e) data ->
  is_Some (applyControllerState iterate overflow version data r now c).
Proof.
  intros D F. unfold applyControllerState, mergeDaemonState. set (ca := observeESSMode _ _ _ _).
  assert (Dc : claims_direct (initCerboMaps ca)).
  { destruct (initCerboMaps_spec iterate overflow ca) as (_ & _ & _ & _ & We & _). intros k. rewrite We. unfold ca.
    destruct (observe_view data r now (with_controller (Some now) (if r then None else Some now) c)) as (_ & -> & _).
    apply D. }
  destruct (initCerboMaps_spec iterate overflow ca) as (A & _).
  pose proof (merge_members_is_Some (cerboOwned (initCerboMaps ca)) data (state (initCerboMaps ca), []) F A) as A1.
  destruct (foldl _ _ data) as [st clean]. cbn [fst] in A1.
  destruct (each_Some (mark_direct clean) (λ st, is_Some (availability st)) directFields st) as (st1 & E1 & A2);
    [intros; by apply mark_direct_Some|done|]. rewrite E1. cbn [mbind option_bind].
  destruct (set_available_Some "ess_mode" false st1 A2) as [st2 E2].
  assert (S : ∀ st f, is_Some (c1 ← applyCerboOverlays iterate overflow (with_state st (initCerboMaps ca)); Some (f c1 : Client))).
  { intros s f. destruct (apply_Some iterate overflow (with_state s (initCerboMaps ca)) Dc) as [c1 E].
    rewrite E. by eexists. }
  case_bool_decide; [|rewrite E2]; cbn [mbind option_bind]; apply S.
Qed.

Lemma reset_Some b l st : l ⊆ directFields -> is_Some (availability st) -> is_Some (each (mark b) l st).
Proof. intros L H. destruct (each_mark_Some b l st L H) as (st' & -> & _). by eexists. Qed.

Lemma handle_Some topic p now c : claims_direct c -> is_Some (handleCerboDevice iterate overflow topic p now c).
Proof.
  intros D. unfold handleCerboDevice.
  destruct (split_on "/" topic) as [|p0 [|portal [|kind [|instance rest]]]]; try (by eexists).
  destruct (_ || _ || _ || _); [by eexists|].
  destruct (initCerboMaps_spec iterate overflow c) as (_ & _ & _ & _ & We & _). set (c0 := initCerboMaps c) in *.
  assert (D0 : claims_direct c0) by (intros k; rewrite We; apply D). clearbody c0.
  assert (S : ∀ c1, claims_direct c1 -> ∃ x, (c2 ← applyCerboOverlays iterate overflow c1; Some (c2, true)) = Some x).
  { intros c1 D1. destruct (apply_Some iterate overflow c1 D1) as [c2 ->]. by eexists. }
  destruct p as [| |o]; [by apply S|by eexists|].
  destruct rest as [|r rest]; [by eexists|]. destruct (assoc "value" o) as [value|]; [|by eexists].
  destruct (accepted_value _ value) as [v|]; [|by eexists]. apply S.
  destruct v; try done. intros k. cbn [cerboOwned with_owned with_seen with_leaves].
  rewrite elem_of_union. intros [Hk|Hk]; [by apply D0|]. apply elem_of_dom in Hk. by eapply overlay_within.
Qed.

Definition harmless (e : event) : Prop :=
  match e with ControllerFrame data _ _ => Forall (λ x, ¬ nils_availability x) data | _ => True end.

Lemma bind_Some {A B} (m : option A) (f : A -> B) : is_Some m -> is_Some (x ← m; Some (f x)).
Proof. intros [x ->]. by eexists. Qed.

Lemma expiry_Some now c : is_Some (expireOptionalTelemetry now c).
Proof.
  unfold expireOptionalTelemetry. destruct (initCerboMaps_spec iterate overflow c) as (A & _).
  destruct (controllerLastSeen (initCerboMaps c)); [|by eexists]. destruct (_ || _); [|by eexists].
  apply bind_Some. case_bool_decide; [by eexists|by apply set_available_Some].
Qed.

Lemma lost_Some c : is_Some (invalidateCerbo c).
Proof.
  rewrite invalidate_eq. destruct (initCerboMaps_spec iterate overflow c) as (A & _).
  destruct (clear_direct_Some (ApplyControllerSnapshot [] (state (initCerboMaps c)))) as [st ->];
    [by rewrite snapshot_availability|by eexists].
Qed.

Lemma source_Some c : is_Some (clearOptionalTelemetry c).
Proof.
  unfold clearOptionalTelemetry. destruct (initCerboMaps_spec iterate overflow (with_ess None None c)) as (A & _).
  apply bind_Some. apply reset_Some; [listed|exact A].
Qed.

Lemma claims_with_leaves l c : claims_direct c -> claims_direct (with_leaves l c).
Proof. done. Qed.

(** C24: Nothing that arrives makes the client panic, except one kind of frame: an
    assignment to the nil map of available telemetry needs a member whose name
    differs from "telemetry_available" in case only and whose value is null. *)
Theorem only_null_availability_panics c e : reachable c -> harmless e -> is_Some (step e c).
Proof.
  intros C%reachable_coherent H. pose proof (co_direct _ _ _ C) as D.
  destruct e as [topic p r now|data r now|portal|now| | | |]; cbn [OverlayState.step].
  - apply fmap_is_Some. unfold applyCerboDevice. destruct (handle_Some topic p now c D) as [[c1 b] ->]. by eexists.
  - by apply frame_Some.
  - by eexists.
  - apply fmap_is_Some, expiry_Some.
  - exact (apply_Some iterate overflow (with_leaves ∅ c) D).
  - apply lost_Some.
  - apply source_Some.
  - apply bind_Some, source_Some.
Qed.

Lemma set_available_None k b st : availability st = None -> set_available k b st = None.
Proof. intros H. unfold set_available. by rewrite H. Qed.

Lemma mark_nil_None clean l st : availability st = None -> each (mark_direct clean) l st = Some st ∨ each (mark_direct clean) l st = None.
Proof.
  intros H. induction l as [|k l IH]; [by left|].
  assert (M : mark_direct clean k st = Some st ∨ mark_direct clean k st = None).
  { unfold mark_direct. rewrite set_available_None by done. destruct (assoc k clean) as [[]|]; auto. }
  cbn [each]. destruct M as [-> | ->]; [exact IH|by right].
Qed.

(** A merge that loses the map fails, while the ESS mode is not claimed. *)
Lemma merge_nil data c :
  "ess_mode" ∉ cerboOwned (initCerboMaps c) ->
  availability (fst (foldl (merge_member (cerboOwned (initCerboMaps c))) (state (initCerboMaps c), []) data)) = None ->
  mergeDaemonState iterate overflow version data c = None.
Proof.
  intros Hess H. unfold mergeDaemonState. destruct (foldl _ _ data) as [st clean]. cbn [fst] in H.
  rewrite bool_decide_false by done.
  destruct (mark_nil_None clean directFields st H) as [-> | ->]; [|done]. cbn [mbind option_bind].
  by rewrite set_available_None.
Qed.

Lemma member_nil owned acc key :
  (∀ k, k ∈ owned -> k ∈ directFields) -> nils_availability (key, GNil) ->
  availability (fst (merge_member owned acc (key, GNil))) = None.
Proof.
  intros D (Hne & Hf & _). cbn [fst] in Hne, Hf. destruct acc as [st clean].
  assert (Hown : key ∉ owned).
  { intros Hk%D. assert (X : Forall (λ k, find_field names k ≠ Some TA) directFields) by listed.
    rewrite Forall_forall in X. by apply (X key Hk). }
  assert (Hsec : isNativeSectionField key = false).
  { destruct (isNativeSectionField key) eqn:E; [|done]. exfalso. unfold isNativeSectionField in E.
    apply existsb_exists in E as (x & Hx & ->%String.eqb_eq). apply list_elem_of_In in Hx.
    clear Hne Hown. revert x Hx Hf. apply (Forall_forall (λ x, find_field names x ≠ Some TA)). listed. }
  unfold merge_member. cbn [fst snd]. rewrite (bool_decide_false _ Hown), Hsec.
  destruct (String.eqb_spec key "telemetry_available") as [|_]; [done|]. cbn [orb encodable negb].
  unfold unmarshal_field. fold names. rewrite Hf. cbn [fst snd]. change (field_kind TA) with (KMap KBool).
  unfold availability. by rewrite field_set_eq.
Qed.

Lemma frame_eq data r now c :
  mergeDaemonState iterate overflow version data
    (observeESSMode data r now (with_controller (Some now) (if r then None else Some now) c)) = None ->
  step (ControllerFrame data r now) c = None.
Proof. intros H. cbn [OverlayState.step]. unfold applyControllerState. by rewrite H. Qed.

(** Such a frame: the last member to reach the map sets it to nil, and while no
    device has claimed the ESS mode the next assignment panics. *)
Theorem null_availability_panics data key r now c :
  reachable c -> "ess_mode" ∉ cerboOwned c -> nils_availability (key, GNil) ->
  step (ControllerFrame (data ++ [(key, GNil)]) r now) c = None.
Proof.
  intros C%reachable_coherent Hess Hn. pose proof (co_direct _ _ _ C) as D. apply frame_eq.
  set (ca := observeESSMode _ _ _ _).
  assert (We : cerboOwned (initCerboMaps ca) = cerboOwned c).
  { destruct (initCerboMaps_spec iterate overflow ca) as (_ & _ & _ & _ & -> & _).
    unfold ca. apply (observe_view _ r now (with_controller (Some now) (if r then None else Some now) c)). }
  apply merge_nil; [by rewrite We|]. rewrite foldl_app. cbn [foldl]. apply member_nil; [|done].
  intros k. rewrite We. apply D.
Qed.

(** ** Losing the connection *)

(** After a lost connection nothing of direct telemetry is shown: every field
    is blank and unavailable, and no leaf is left to refill it. *)
Theorem lost_connection_blanks c c' k :
  step ConnectionLost c = Some c' -> k ∈ directFields ->
  cerboLeaves c' = ∅ ∧ nativeLastSeen c' = None ∧ available (state c') k = false ∧ field k (state c') = cleared_field k.
Proof.
  intros (st & E & ->)%invalidate_inv Hk. apply clear_direct_spec in E as [F _].
  destruct (F k Hk) as [Fk Ak]. done.
Qed.

(** ** Values that cannot be encoded *)

(** One value of the overlay that has no JSON form, an infinite product for
    example, blanks all of direct telemetry, yet every field stays marked as
    available. *)
Theorem overflow_blanks_telemetry c c' k :
  reachable c -> applyCerboOverlays iterate overflow c = Some c' -> marshal_out (overlay c) = None ->
  k ∈ dom (overlay c) -> k ≠ "ess_mode" ->
  available (state c') k = true ∧ field k (state c') = cleared_field k.
Proof.
  intros C%reachable_coherent H M Hk Hne. pose proof (apply_reduced _ _ _ _ (co_direct _ _ _ C) H) as R.
  assert (Hc : k ∈ claimed iterate overflow c) by (by apply elem_of_union_r).
  rewrite (r_available _ _ _ _ R k Hc), (r_field _ _ _ _ R k Hc Hne), bool_decide_true by done.
  split; [done|]. unfold shown_value. by rewrite M.
Qed.
End facts.

(** ** Concrete runs *)

Definition in_map_order (ds : gmap string leaves) : list string := (map_to_list ds).*1.
Definition to_zero (_ : F64.num) : Z := 0.
Definition plain_options : CerboOptions := MkOptions 0 0 0 (-1) (-1).
Definition value_message (topic : string) (v : gval) : event := DeviceMessage topic (Fields [("value", v)]) false 1000.
Definition run (es : list event) (c : Client) : option Client := run_steps (step in_map_order to_zero "1.0.0") es c.
Definition start : Client := NewClient plain_options "portal".

(** The client at the end of a run. *)
Definition after (es : list event) : Client := default start (run es start).

Lemma after_reachable es :
  forallb (λ e, match e with ControllerFrame _ _ now => (0 <=? now) && (now <=? 2 ^ 53) | _ => true end) es = true ->
  bool_decide (is_Some (run es start)) = true -> reachable in_map_order to_zero "1.0.0" (after es).
Proof.
  intros T H. apply bool_decide_eq_true in H. exists plain_options, "portal", es. split.
  - apply Forall_forall. intros e He. rewrite forallb_forall in T. apply list_elem_of_In in He.
    specialize (T e He). destruct e; try done. cbn [in_time]. apply andb_true_iff in T as [T1 T2].
    split; [by apply Z.leb_le|by apply Z.leb_le].
  - unfold after. destruct H as [c H]. change (run es start = Some (default start (run es start))). by rewrite H.
Qed.

Definition owns (c : Client) (k : string) : bool := bool_decide (k ∈ cerboOwned c).
Definition shows (c : Client) (k : string) : bool := bool_decide (k ∈ dom (overlay in_map_order to_zero c)).
Lemma owns_true c k : owns c k = true -> k ∈ cerboOwned c.
Proof. apply bool_decide_eq_true. Qed.
Lemma owns_false c k : owns c k = false -> k ∉ cerboOwned c.
Proof. apply bool_decide_eq_false. Qed.
Lemma shows_true c k : shows c k = true -> k ∈ dom (overlay in_map_order to_zero c).
Proof. apply bool_decide_eq_true. Qed.

Definition grid_message : event := value_message "N/portal/system/0/Ac/Grid/L1/Power" (GInt 120).
Definition rival_frame : list (string * gval) := [("g1", GInt 7); ("G1", GInt 8); ("gt", GInt 9); ("bogus", GNil)].



Definition odd_frame : list (string * gval) :=
  [("uptime", GString "long"); ("limits", GObject [("max", GInt 5)]); ("console", GSlice [GString "a"; GInt 1])].


Lemma only_null_availability_panics_witness :
  is_Some (step in_map_order to_zero "1.0.0" (ControllerFrame [("telemetry_available", GNil)] false 3000)
             (after [grid_message])).
Proof.
  apply (only_null_availability_panics in_map_order to_zero "1.0.0").
  - apply after_reachable; vm_compute; reflexivity.
  - repeat constructor. intros (H & _ & _). by apply H.
Defined.

Lemma null_availability_panics_witness :
  step in_map_order to_zero "1.0.0" (ControllerFrame ([("uptime", GInt 1)] ++ [("Telemetry_Available", GNil)]) false 3000)
    (after [grid_message]) = None.
Proof.
  apply (null_availability_panics in_map_order to_zero "1.0.0").
  - apply after_reachable; vm_compute; reflexivity.
  - apply owns_false. vm_compute. reflexivity.
  - split; [done|]. split; [vm_compute; reflexivity|done].
Defined.

Lemma lost_connection_blanks_witness :
  let c' := after [grid_message; ConnectionLost] in
  cerboLeaves c' = ∅ ∧ nativeLastSeen c' = None ∧ available (state c') "g1" = false ∧
  field "g1" (state c') = cleared_field "g1".
Proof.
  apply (lost_connection_blanks in_map_order to_zero "1.0.0" (after [grid_message])).
  - vm_compute. reflexivity.
  - listed.
Defined.

Definition huge (path : string) : event :=
  value_message ("N/portal/battery/0/Dc/0/" +:+ path) (GFloat (F64.of_Z (10 ^ 200))).

Lemma overflow_blanks_telemetry_witness :
  let c := after [grid_message; huge "Voltage"] in
  let c' := after [grid_message; huge "Voltage"; huge "Current"] in
  field "g1" (state c) = FFloat (F64.of_Z 120) ∧
  available (state c') "g1" = true ∧ field "g1" (state c') = cleared_field "g1".
Proof.
  set (c := after [grid_message; huge "Voltage"]). set (c' := after [grid_message; huge "Voltage"; huge "Current"]).
  split; [vm_compute; reflexivity|].
  apply (overflow_blanks_telemetry in_map_order to_zero "1.0.0" c').
  - apply after_reachable; vm_compute; reflexivity.
  - vm_compute. reflexivity.
  - vm_compute. reflexivity.
  - apply shows_true. vm_compute. reflexivity.
  - done.
Defined.

