(* ===== verification/PushSamples.v ===== *)
(** * Samples of the devices for push

    [NativePushSamples] of [internal/mqtt/push.go] on the cached leaves, and
    [applyCerboDeviceMessage] of [internal/mqtt/cerbo.go], which hands them to
    the push processor: a reading that the message did not bring itself is
    never a sample. *)

From Stdlib Require Import ZArith QArith Ascii String Lia.
From stdpp Require Import base list option strings gmap fin_maps sorting.
From S2P Require Import Prelude Float64 JsValue Utf8 PushPayload PushStore PushProcessor ControllerCommands NativeLeaves Notifications JsonFields StateFields CerboLeaves CerboOverlay OverlayState OverlayFacts DirectTelemetry.

#[local] Open Scope string_scope.
#[local] Open Scope list_scope.
#[local] Open Scope Z_scope.

(** ** The samples *)

(** The leaves of one instance, by the rest of their path. *)
Definition add_instance (inst key : string) (value : gval) (d : leaves) : leaves :=
  if String.prefix (inst +:+ "/") key then <[drop_string (String.length (inst +:+ "/")) key := value]> d else d.

Definition instance_leaves (inst : string) (m : leaves) : leaves := map_fold (add_instance inst) ∅ m.

Definition water_kind (kind : string) : bool := String.eqb kind "pump" || String.eqb kind "valve".

(** A reading of a sampled value. *)
Definition measured (kind : string) (lo hi : Z) (value : gval) : option F64.num :=
  match number value with
  | Some n =>
      if F64.leb (F64.of_Z lo) n && F64.leb n (F64.of_Z hi) &&
         (negb (water_kind kind) || F64.eqb n (F64.of_Z 0) || F64.eqb n (F64.of_Z 1))
      then Some n else None
  | None => None
  end.

Section samples.
Variable iterate : gmap string leaves -> list string.
Variable overflow : F64.num -> Z.
Variable all : Services.
Variable changed : string.

(** The local function [add]. *)
Definition add (kind id leaf : string) (value : gval) (enabled : bool) (lo hi : Z) : list Sample :=
  if negb (String.eqb changed "") && negb (String.eqb changed (id +:+ "/" +:+ leaf)) &&
     negb (String.eqb changed (id +:+ "/Connected"))
  then []
  else [MkSample kind id
          (if enabled && (String.eqb changed "" || String.eqb changed (id +:+ "/" +:+ leaf))
           then measured kind lo hi value else None)].

Definition water_sample (kind : string) (instance : Z) : list Sample :=
  let d := instance_leaves (dec instance) (service all "pump") in
  let name := match d !! "State" with Some _ => "State" | None => "Status" end in
  add kind ("pump/" +:+ dec instance) name (leaf d name) (device_enabled d) 0 1.

(** [d[path]] of a device that may be missing. *)
Definition leaf_of (ds : gmap string leaves) (id path : string) : gval := leaf (default ∅ (ds !! id)) path.
Definition present (ds : gmap string leaves) (id : string) : bool := bool_decide (is_Some (ds !! id)).

Definition charger_sample (instance : Z) : list Sample :=
  let chargers := devices all "evcharger" in
  let id := if instance <? 0
            then head (omap (λ e, match leaf_num e.2 ["Ac/Power"] with Some _ => Some e.1 | None => None end)
                         (in_order iterate chargers))
            else Some (dec instance) in
  match id with
  | Some id =>
      if String.eqb id "" then []
      else add "ev" ("evcharger/" +:+ id) "Ac/Power" (leaf_of chargers id "Ac/Power") (present chargers id) 0 1000000000
  | None => []
  end.

Definition unknown_sample (kind id : string) : list Sample := [MkSample kind id None].

(** The instance that systemcalc selects. *)
Definition selected_instance : option string :=
  head (omap (λ e, match leaf_num e.2 ["Dc/Battery/Instance"] with
                   | Some n => dec <$> natural overflow n
                   | None => None
                   end) (in_order iterate (devices all "system"))).

Definition battery_sample : list Sample :=
  let batteries := devices all "battery" in
  let selected := match selected_instance with
                  | Some s => s
                  | None => match map_to_list batteries with [(id, _)] => id | _ => "" end
                  end in
  (if String.eqb selected "" && (String.prefix "battery/" changed || String.prefix "system/" changed)
   then unknown_sample "soc" "battery/unknown" else []) ++
  (if String.eqb selected "" then []
   else add "soc" ("battery/" +:+ selected) "Soc" (leaf_of batteries selected "Soc") (present batteries selected) 0 100).

Definition soc_sample : list Sample :=
  match head (omap (λ e, pair e.1 <$> e.2 !! "Dc/Battery/Soc") (in_order iterate (devices all "system"))) with
  | Some (id, value) => add "soc" ("system/" +:+ id) "Dc/Battery/Soc" value true 0 100
  | None => battery_sample
  end.

(** A disconnected device ends its baseline. *)
Definition disconnect_samples : list Sample :=
  (if is_suffix "/Dc/Battery/Instance" changed then unknown_sample "soc" "battery/selection" else []) ++
  (if is_suffix "/Connected" changed
   then match split_on "/" changed with
        | [kind; instance; _] =>
            if String.eqb kind "evcharger" then unknown_sample "ev" (kind +:+ "/" +:+ instance)
            else if String.eqb kind "battery" || String.eqb kind "system"
            then unknown_sample "soc" (kind +:+ "/" +:+ instance) else []
        | _ => []
        end
   else []).

Definition NativePushSamples (o : CerboOptions) : list Sample :=
  water_sample "pump" (PumpInstance o) ++ water_sample "valve" (ValveInstance o) ++
  charger_sample (EVChargerInstance o) ++ soc_sample ++ disconnect_samples.
End samples.

(** ** A message of a device *)

Definition forgotten (x : Sample) : Sample := MkSample (SampleKind x) (SampleID x) None.

Definition changed_path (topic : string) (p : payload) : string :=
  let parts := split_on "/" topic in
  String.concat "/" (drop 2 parts) +:+
  (match p with Empty => if Nat.eqb (length parts) 4 then "/Connected" else "" | _ => "" end).

(** The critical section of [applyCerboDeviceMessage]: the client, whether the
    message was applied, and what push observes. *)
Definition applyCerboDeviceMessage iterate overflow (topic : string) (p : payload) (retained : bool) (now : Z)
    (c : Client) : option (Client * bool * Observation) :=
  '(c, changed) ← applyCerboDevice iterate overflow topic p retained now c;
  let o := options c in
  let samples := NativePushSamples iterate overflow (cerboLeaves c) (changed_path topic p)
                   (MkOptions 0 (PumpInstance o) (ValveInstance o) 0 (EVChargerInstance o)) in
  Some (c, changed, MkObservation None (if (changed : bool) then samples else forgotten <$> samples) retained false).

(** ** Leaves of an instance *)

Lemma instance_leaves_lookup inst m p : instance_leaves inst m !! p = m !! (inst +:+ "/" +:+ p).
Proof.
  unfold instance_leaves. revert m.
  apply (map_fold_weak_ind (λ r m, r !! p = m !! (inst +:+ "/" +:+ p))); [by rewrite !lookup_empty|].
  intros key v m r Hnew IH. unfold add_instance. destruct (String.prefix _ key) eqn:E.
  - apply prefix_split in E. set (q := drop_string _ key) in *. destruct (decide (p = q)) as [->|Hp].
    + rewrite lookup_insert_eq. rewrite append_assoc in E. rewrite <- E. by rewrite lookup_insert_eq.
    + rewrite lookup_insert_ne by done. rewrite IH, lookup_insert_ne; [done|].
      intros Hk. rewrite E, append_assoc in Hk. by apply append_inj, append_inj in Hk.
  - rewrite IH, lookup_insert_ne; [done|]. intros ->. by rewrite <- append_assoc, prefix_append in E.
Qed.

Lemma device_service all kind id d leaf v :
  devices all kind !! id = Some d -> d !! leaf = Some v -> service all kind !! (id +:+ "/" +:+ leaf) = Some v.
Proof.
  intros Hd Hl. destruct (devices_Some _ _ _ _ Hd) as (_ & _ & E). rewrite E in Hl. unfold device_leaf in Hl.
  by destruct (decide _).
Qed.

(** ** Where a reading comes from *)

(** The kinds of samples: the service, the kind of the sample, the leaf and the range. *)
Definition sources : list (string * string * string * (Z * Z)) :=
  [("pump", "pump", "State", (0, 1)); ("pump", "pump", "Status", (0, 1)); ("pump", "valve", "State", (0, 1));
   ("pump", "valve", "Status", (0, 1)); ("evcharger", "ev", "Ac/Power", (0, 1000000000));
   ("system", "soc", "Dc/Battery/Soc", (0, 100)); ("battery", "soc", "Soc", (0, 100))].

Definition brought (all : Services) (changed : string) (x : Sample) (n : F64.num) : Prop :=
  ∃ svc inst leaf lo hi value,
    (svc, SampleKind x, leaf, (lo, hi)) ∈ sources ∧ SampleID x = svc +:+ "/" +:+ inst ∧
    changed = svc +:+ "/" +:+ inst +:+ "/" +:+ leaf ∧
    service all svc !! (inst +:+ "/" +:+ leaf) = Some value ∧ measured (SampleKind x) lo hi value = Some n.

Lemma measured_nil kind lo hi : measured kind lo hi GNil = None.
Proof. done. Qed.

Lemma add_brought all changed svc kind inst name value enabled lo hi x n :
  changed ≠ "" -> (svc, kind, name, (lo, hi)) ∈ sources ->
  (value ≠ GNil -> service all svc !! (inst +:+ "/" +:+ name) = Some value) ->
  x ∈ add changed kind (svc +:+ "/" +:+ inst) name value enabled lo hi -> Value x = Some n ->
  brought all changed x n.
Proof.
  intros Hc Hs Hv Hx Hn. unfold add in Hx. destruct (_ && _ && _); [by apply elem_of_nil in Hx|].
  apply list_elem_of_singleton in Hx as ->. cbn [Value SampleKind SampleID] in Hn.
  destruct (String.eqb_spec changed "") as [|_]; [done|]. cbn [orb] in Hn.
  destruct enabled; [|done]. cbn [andb] in Hn.
  destruct (String.eqb_spec changed ((svc +:+ "/" +:+ inst) +:+ "/" +:+ name)) as [E|]; [|done].
  exists svc, inst, name, lo, hi, value. split; [done|]. split; [done|]. split; [by rewrite E, !append_assoc|].
  split; [apply Hv; by intros ->|done].
Qed.

Lemma leaf_Some d p : leaf d p ≠ GNil -> d !! p = Some (leaf d p).
Proof. unfold leaf. by destruct (d !! p). Qed.

Lemma leaf_of_service all kind id p :
  leaf_of (devices all kind) id p ≠ GNil ->
  service all kind !! (id +:+ "/" +:+ p) = Some (leaf_of (devices all kind) id p).
Proof.
  unfold leaf_of. intros H. apply leaf_Some in H. destruct (devices all kind !! id) as [d|] eqn:E; [|done].
  by eapply device_service.
Qed.

Lemma in_unknown kind id x n : x ∈ unknown_sample kind id -> Value x = Some n -> False.
Proof. intros ->%list_elem_of_singleton. done. Qed.

Section brought.
Variable iterate : gmap string leaves -> list string.
Variable overflow : F64.num -> Z.
Variable all : Services.
Variable changed : string.
Hypothesis iterates : visits_all iterate.
Hypothesis changed_some : changed ≠ "".

Lemma water_brought kind instance x n :
  kind ∈ ["pump"; "valve"] -> x ∈ water_sample all changed kind instance -> Value x = Some n ->
  brought all changed x n.
Proof.
  intros Hk Hx Hn. unfold water_sample in Hx. set (name := match _ !! "State" with Some _ => _ | None => _ end) in Hx.
  refine (add_brought all changed "pump" kind (dec instance) name _ _ 0 1 x n changed_some _ _ Hx Hn).
  - unfold name. repeat (apply elem_of_cons in Hk as [->|Hk]; [destruct (_ !! "State"); listed|]).
    by apply elem_of_nil in Hk.
  - intros H. rewrite <- instance_leaves_lookup. by apply leaf_Some.
Qed.

Lemma charger_brought instance x n :
  x ∈ charger_sample iterate all changed instance -> Value x = Some n -> brought all changed x n.
Proof.
  intros Hx Hn. unfold charger_sample in Hx. destruct (if instance <? 0 then _ else _) as [id|]; [|by apply elem_of_nil in Hx].
  destruct (String.eqb id ""); [by apply elem_of_nil in Hx|].
  refine (add_brought all changed "evcharger" "ev" id "Ac/Power" _ _ 0 1000000000 x n changed_some _ _ Hx Hn); [listed|].
  apply leaf_of_service.
Qed.

Lemma battery_brought x n : x ∈ battery_sample iterate overflow all changed -> Value x = Some n -> brought all changed x n.
Proof.
  intros Hx Hn. unfold battery_sample in Hx. set (selected := match selected_instance _ _ _ with Some _ => _ | None => _ end) in Hx.
  apply elem_of_app in Hx as [Hx|Hx].
  - destruct (_ && _); [|by apply elem_of_nil in Hx]. by destruct (in_unknown _ _ _ _ Hx Hn).
  - destruct (String.eqb selected ""); [by apply elem_of_nil in Hx|].
    refine (add_brought all changed "battery" "soc" selected "Soc" _ _ 0 100 x n changed_some _ _ Hx Hn); [listed|].
    apply leaf_of_service.
Qed.

Lemma soc_brought x n : x ∈ soc_sample iterate overflow all changed -> Value x = Some n -> brought all changed x n.
Proof.
  intros Hx Hn. unfold soc_sample in Hx. destruct (head _) as [[id value]|] eqn:E; [|by apply battery_brought].
  refine (add_brought all changed "system" "soc" id "Dc/Battery/Soc" _ _ 0 100 x n changed_some _ _ Hx Hn); [listed|].
  intros _. apply head_Some_elem_of in E. apply list_elem_of_omap in E as ([id' d] & Hd & Hv).
  apply elem_of_in_order in Hd; [|exact iterates]. cbn [fst snd] in Hv.
  destruct (d !! "Dc/Battery/Soc") as [v|] eqn:Ev; [|done]. injection Hv as -> ->. by eapply device_service.
Qed.

Lemma disconnect_brought x n : x ∈ disconnect_samples changed -> Value x = Some n -> brought all changed x n.
Proof.
  intros Hx Hn. exfalso. unfold disconnect_samples in Hx.
  repeat first [apply elem_of_app in Hx as [Hx|Hx]
               | by destruct (in_unknown _ _ _ _ Hx Hn) | by apply elem_of_nil in Hx | case_match].
Qed.

(** Every reading in the samples is the leaf that changed. *)
Lemma samples_brought o x n :
  x ∈ NativePushSamples iterate overflow all changed o -> Value x = Some n -> brought all changed x n.
Proof.
  unfold NativePushSamples. rewrite !elem_of_app. intros [H|[H|[H|[H|H]]]].
  - apply (water_brought "pump" (PumpInstance o)); [by left|done].
  - apply (water_brought "valve" (ValveInstance o)); [by right; left|done].
  - by apply (charger_brought (EVChargerInstance o)).
  - by apply soc_brought.
  - by apply disconnect_brought.
Qed.
End brought.

(** ** What a message leaves in the cache *)

Section message.
Variable iterate : gmap string leaves -> list string.
Variable overflow : F64.num -> Z.

Lemma apply_leaves c c' : applyCerboOverlays iterate overflow c = Some c' -> cerboLeaves c' = cerboLeaves c.
Proof.
  destruct (initCerboMaps_spec iterate overflow c) as (_ & _ & _ & L & _). unfold applyCerboOverlays.
  destruct (each _ _ _) as [st1|]; [|done]. cbn [mbind option_bind]. destruct (each _ _ st1) as [st2|]; [|done].
  cbn [mbind option_bind]. intros [= <-]. exact L.
Qed.

(** The leaves of the instance that a message names, after it was applied. *)
Inductive cached (c : Client) (p : payload) (kind instance path : string) : Prop :=
| cached_none : p = Empty -> (∀ leaf, service (cerboLeaves c) kind !! (instance +:+ "/" +:+ leaf) = None) ->
    cached c p kind instance path
| cached_value o v v' : p = Fields o -> assoc "value" o = Some v -> accepted_value path v = Some v' ->
    service (cerboLeaves c) kind !! (instance +:+ "/" +:+ path) = Some v' -> cached c p kind instance path.

Lemma forget_service kind instance all leaf : service (forget kind instance all) kind !! (instance +:+ "/" +:+ leaf) = None.
Proof.
  unfold forget, service. destruct (all !! kind) as [m|] eqn:E; [|by rewrite E].
  rewrite lookup_insert_eq. simpl. apply map_lookup_filter_None. right. intros x _.
  cbn [fst]. by rewrite <- append_assoc, prefix_append.
Qed.

Lemma cache_service kind key value all : service (cache kind key value all) kind !! key = Some value.
Proof. unfold service, cache. rewrite lookup_insert_eq. simpl. apply lookup_insert_eq. Qed.

Lemma handle_cached topic p now c c' :
  handleCerboDevice iterate overflow topic p now c = Some (c', true) ->
  ∃ portal kind instance rest,
    split_on "/" topic = "N" :: portal :: kind :: instance :: rest ∧ supportedKind kind = true ∧
    (p ≠ Empty -> rest ≠ []) ∧ cached c' p kind instance (String.concat "/" rest).
Proof.
  unfold handleCerboDevice. destruct (split_on "/" topic) as [|p0 [|portal [|kind [|instance rest]]]]; try done.
  destruct (String.eqb_spec p0 "N") as [->|]; [|done]. destruct (supportedKind kind) eqn:K; [|done].
  cbn [negb orb]. destruct (_ || _); [done|]. intros H. exists portal, kind, instance, rest.
  split; [done|]. split; [done|]. destruct p as [| |o]; [|done|].
  - split; [done|]. destruct (applyCerboOverlays _ _ _) as [c1|] eqn:E; [|done]. injection H as <-.
    apply cached_none; [done|]. intros leaf. rewrite (apply_leaves _ _ E). apply forget_service.
  - destruct rest as [|r rest]; [done|]. split; [done|]. destruct (assoc "value" o) as [v|] eqn:V; [|done].
    destruct (accepted_value _ v) as [v'|] eqn:A; [|done].
    match type of H with (c0 ← applyCerboOverlays _ _ ?c1; _) = _ => destruct (applyCerboOverlays iterate overflow c1) as [c2|] eqn:E end;
      [|done].
    injection H as <-. eapply cached_value; [done|exact V|exact A|]. rewrite (apply_leaves _ _ E).
    cbn [cerboLeaves with_seen with_leaves]. rewrite (cache_service kind). done.
Qed.

Lemma update_water_leaves parts b r now c : cerboLeaves (updateWaterModeObservation parts b r now c) = cerboLeaves c.
Proof.
  unfold updateWaterModeObservation. destruct parts as [|? [|? [|kind [|instance [|leaf [|]]]]]]; try done.
  destruct (_ && _); [|done].
  destruct (water_view "pump_mode" instance (PumpInstance (options c)) b r now c) as ((L & _) & _).
  set (c1 := observe_water_key "pump_mode" _ _ _ _ _ _) in *.
  destruct (water_view "water_valve_mode" instance (ValveInstance (options c1)) b r now c1) as ((L' & _) & _).
  by rewrite L', L.
Qed.

Lemma accepted_number path v v' n : accepted_value path v = Some v' -> number v' = Some n -> v' = v.
Proof. unfold accepted_value. repeat case_match; intros [= <-] Hn; try done; congruence. Qed.

Lemma measured_number kind lo hi v n : measured kind lo hi v = Some n -> number v = Some n.
Proof. unfold measured. destruct (number v) as [m|]; [|done]. destruct (_ && _ && _); [|done]. done. Qed.

Lemma kind_no_slash kind : supportedKind kind = true -> no_slash kind = true.
Proof.
  intros H. apply existsb_exists in H as (x & Hx & ->%String.eqb_eq). apply list_elem_of_In in Hx. revert x Hx.
  apply Forall_forall. listed.
Qed.

Lemma first_part a b s t : no_slash a = true -> no_slash b = true -> a +:+ "/" +:+ s = b +:+ "/" +:+ t -> a = b ∧ s = t.
Proof.
  intros Ha Hb E. pose proof (cut_at_key a s Ha) as E1. pose proof (cut_at_key b t Hb) as E2.
  rewrite E in E1. rewrite E1 in E2. by injection E2.
Qed.

Lemma concat_cons sep x l : l ≠ [] -> String.concat sep (x :: l) = x +:+ sep +:+ String.concat sep l.
Proof. by destruct l. Qed.
End message.

(** ** A message and the deliveries it causes *)

Lemma ltb_leb x y : F64.ltb y x = true -> F64.leb x y = false.
Proof.
  destruct x as [| | |a], y as [| | |b]; try done. unfold F64.leb. cbn [F64.ltb F64.eqb]. intros H.
  apply negb_true_iff in H. assert (L : (b < a)%Q).
  { apply Qnot_le_lt. intros Hle. apply Qle_bool_iff in Hle. congruence. }
  apply orb_false_iff. split.
  - apply negb_false_iff, Qle_bool_iff, Qlt_le_weak, L.
  - apply not_true_iff_false. intros E. apply Qeq_bool_iff in E. rewrite E in L. by apply Qlt_irrefl in L.
Qed.

(** A value that stays the same crosses no threshold. *)
Lemma transition_same kind x : PushProcessor.finite x = true -> transition kind x x = ("", "", "").
Proof.
  intros Hx. unfold transition. destruct (String.eqb kind "ev"); [by rewrite Bool.eqb_reflx|].
  assert (E : F64.eqb x x = true) by (destruct x; try done; by apply Qeq_bool_iff).
  rewrite E, orb_true_r. destruct (_ || _); [done|]. destruct (String.eqb kind "soc"); [|done].
  destruct (F64.ltb (F64.of_Z 20) x) eqn:L; [|done]. by rewrite (ltb_leb _ _ L), !andb_false_r.
Qed.

Section causes.
Variable iterate : gmap string leaves -> list string.
Variable overflow : F64.num -> Z.

(** The reading that a message brings for a sample. *)
Definition message_reading (topic : string) (p : payload) (x : Sample) (n : F64.num) : Prop :=
  ∃ portal path o v svc leaf lo hi,
    split_on "/" topic = "N" :: portal :: path ∧ p = Fields o ∧ assoc "value" o = Some v ∧
    (svc, SampleKind x, leaf, (lo, hi)) ∈ sources ∧ String.concat "/" path = SampleID x +:+ "/" +:+ leaf ∧
    measured (SampleKind x) lo hi v = Some n.

Lemma changed_path_parts topic p portal kind instance rest :
  split_on "/" topic = "N" :: portal :: kind :: instance :: rest -> (p ≠ Empty -> rest ≠ []) ->
  ∃ path, changed_path topic p = kind +:+ "/" +:+ instance +:+ "/" +:+ path ∧
          (p ≠ Empty -> path = String.concat "/" rest).
Proof.
  intros Hs Hr. unfold changed_path. rewrite Hs. cbn [drop length]. destruct rest as [|r rest].
  - destruct p as [| |o]; [|by exfalso; apply Hr..]. exists "Connected". split; [|done].
    cbn [Nat.eqb String.concat]. by rewrite !append_assoc.
  - exists (String.concat "/" (r :: rest)). split; [|done].
    rewrite (concat_cons "/" kind), (concat_cons "/" instance) by done.
    destruct p; cbn [Nat.eqb]; apply append_nil_r.
Qed.

Lemma brought_cached c p kind instance path path' changed x n :
  supportedKind kind = true -> cached c p kind instance path ->
  changed = kind +:+ "/" +:+ instance +:+ "/" +:+ path' -> (p ≠ Empty -> path' = path) ->
  brought (cerboLeaves c) changed x n ->
  ∃ o v svc leaf lo hi, p = Fields o ∧ assoc "value" o = Some v ∧ (svc, SampleKind x, leaf, (lo, hi)) ∈ sources ∧
    changed = SampleID x +:+ "/" +:+ leaf ∧ measured (SampleKind x) lo hi v = Some n.
Proof.
  intros Hk Hc -> Hp (svc & inst & leaf & lo & hi & value & Hsrc & Hid & Hch & Hv & Hm).
  assert (K : no_slash svc = true).
  { assert (F : Forall (λ e : string * string * string * (Z * Z), no_slash e.1.1.1 = true) sources) by listed.
    rewrite Forall_forall in F. exact (F _ Hsrc). }
  destruct (first_part kind svc _ _ (kind_no_slash _ Hk) K Hch) as [-> E].
  rewrite <- E in Hv. destruct Hc as [-> N|o v v' -> Ho Ha Hs]; [by rewrite N in Hv|].
  rewrite Hp, Hs in Hv by done. injection Hv as ->. pose proof (measured_number _ _ _ _ _ Hm) as Hn.
  rewrite (accepted_number _ _ _ _ Ha Hn) in Hm. exists o, v, svc, leaf, lo, hi. split; [done|]. split; [done|].
  split; [done|]. split; [by rewrite Hid, E, !append_assoc|done].
Qed.

(** A reading that push observes is the value of the message itself. *)
Lemma message_samples topic p r now c c' ch ob x n :
  visits_all iterate -> applyCerboDeviceMessage iterate overflow topic p r now c = Some (c', ch, ob) ->
  x ∈ Samples ob -> Value x = Some n -> ch = true ∧ message_reading topic p x n.
Proof.
  intros Hit H Hx Hn. unfold applyCerboDeviceMessage in H.
  destruct (applyCerboDevice _ _ _ _ _ _ _) as [[c1 ch1]|] eqn:E; [|done]. cbn [mbind option_bind] in H.
  injection H as <- <- <-. cbn [Samples] in Hx. destruct ch1; [|by apply list_elem_of_fmap in Hx as (y & -> & _)].
  split; [done|]. unfold applyCerboDevice in E. destruct (handleCerboDevice _ _ _ _ _ _) as [[c2 ch2]|] eqn:Eh; [|done].
  cbn [mbind option_bind] in E. injection E as <- ->.
  destruct (handle_cached _ _ _ _ _ _ _ Eh) as (portal & kind & instance & rest & Hs & Hk & Hr & Hc).
  rewrite update_water_leaves in Hx. destruct (changed_path_parts _ _ _ _ _ _ Hs Hr) as (path' & Ep & Hpath).
  apply (samples_brought iterate overflow _ (changed_path topic p) Hit ltac:(rewrite Ep; by destruct kind) _ _ n) in Hx; [|exact Hn].
  destruct (brought_cached _ _ _ _ _ _ _ _ _ Hk Hc Ep Hpath Hx) as (o & v & svc & leaf & lo & hi & -> & Ho & Hsrc & Hch & Hm).
  exists portal, (kind :: instance :: rest), o, v, svc, leaf, lo, hi. repeat (split; [done|]). split; [|done].
  rewrite <- Hch, Ep, Hpath by done. rewrite (concat_cons "/" kind), (concat_cons "/" instance) by (done || by apply Hr).
  done.
Qed.
End causes.

Section push.
Variable iterate : gmap string leaves -> list string.
Variable overflow : F64.num -> Z.
Variable sha256 : string -> string.
Context {S : Type} `{EventStoreLaws S}.

(** C14: Every delivery that a device's message puts on the queue comes from the
    reading in this very message, which was not retained, was applied, and
    crosses the threshold against the reading of the same device at most thirty
    seconds before: no cached leaf, no repeated value and no other device's
    reading notifies anybody. *)
Theorem device_message_admits topic p retained at_ c c' changed ob now proc proc' (s s' : S) err item :
  visits_all iterate ->
  applyCerboDeviceMessage iterate overflow topic p retained at_ c = Some (c', changed, ob) ->
  Observe sha256 ob now (proc, s) = ((proc', s'), err) -> item ∈ queued s' -> item ∉ queued s ->
  retained = false ∧ changed = true ∧
  ∃ x n prev t kind title body,
    message_reading topic p x n ∧ baselines proc !! sample_key x = Some (Baseline prev t) ∧
    t <= now <= t + 30 * 1000000000 ∧ transition (SampleKind x) prev n = (kind, title, body) ∧ kind ≠ "" ∧
    ItemPayload item = payload_of sha256 kind "victron" (sample_key x) title body now now.
Proof.
  intros Hit Ha Ho Hin Hnew. destruct (observe_cause _ _ _ _ _ _ _ _ _ Ho Hin Hnew) as (_ & Hr & _ & Hcause).
  assert (R : Retained ob = retained ∧ Notifications ob = None).
  { unfold applyCerboDeviceMessage in Ha. destruct (applyCerboDevice _ _ _ _ _ _ _) as [[? ?]|]; [|done].
    by injection Ha as <- <- <-. }
  destruct R as [<- Hns]. split; [exact Hr|].
  destruct Hcause as [(ns & Hn & _)|(before & x & after & n & prev & kind & title & body & Hxs & Hx & Hf & Ht & Hk & Hp & _ & Hb)];
    [by rewrite Hns in Hn|].
  destruct (message_samples _ _ _ _ _ _ _ _ _ _ x n Hit Ha ltac:(rewrite Hxs; apply elem_of_app; right; by left) Hx) as [Hch Hread].
  split; [exact Hch|]. destruct Hb as [(t & Hb & Hage)|(y & Hy & Hkey & Hyv)].
  - exists x, n, prev, t, kind, title, body. done.
  - exfalso. destruct (message_samples _ _ _ _ _ _ _ _ _ _ y prev Hit Ha ltac:(rewrite Hxs; apply elem_of_app; by left) Hyv) as [_ Hready].
    destruct Hread as (? & ? & o & v & ? & ? & ? & ? & _ & -> & Hv & _ & _ & Hm).
    destruct Hready as (? & ? & o' & v' & ? & ? & ? & ? & _ & [= <-] & Hv' & _ & _ & Hm').
    apply measured_number in Hm, Hm'. rewrite Hv in Hv'. injection Hv' as <-. rewrite Hm in Hm'. injection Hm' as ->.
    rewrite transition_same in Ht by done. by injection Ht as <- _ _.
Qed.
End push.

(** ** A concrete message *)

#[local] Existing Instance sample_durable.
#[local] Existing Instance sample_durable_laws.

Definition in_key_order (ds : gmap string leaves) : list string := (map_to_list ds).*1.
Definition zero_overflow (_ : F64.num) : Z := 0.
Definition water_client : Client := NewClient (MkOptions 0 0 1 (-1) (-1)) "portal".
Definition pump_topic : string := "N/portal/pump/0/State".
Definition pump_on : payload := Fields [("value", GInt 1)].
Definition pump_result : option (Client * bool * Observation) :=
  applyCerboDeviceMessage in_key_order zero_overflow pump_topic pump_on false 1000 water_client.
Definition pump_observation : Observation := match pump_result with Some r => snd r | None => MkObservation None [] false false end.
Definition pump_client : Client := match pump_result with Some r => fst (fst r) | None => water_client end.
Definition watching : Processor :=
  MkProcessor "e1" "mqtt" 0 true true {["pump:pump/0" := Baseline (F64.of_Z 0) 59000000000]} ∅ {["pump" := "pump/0"]}.
Definition pump_observed : (Processor * Store) * option push_error :=
  Observe sample_sha256 pump_observation 60000000000 (watching, sample_subscribed).
Definition pump_item : delivery := default sample_item (head (Queue (data (snd (fst pump_observed))))).

Lemma device_message_admits_witness :
  PushPayload.Title (ItemPayload pump_item) = "Water pump on" ∧
  false = false ∧ true = true ∧
  ∃ x n prev t kind title body,
    message_reading pump_topic pump_on x n ∧ baselines watching !! sample_key x = Some (Baseline prev t) ∧
    t <= 60000000000 <= t + 30 * 1000000000 ∧ transition (SampleKind x) prev n = (kind, title, body) ∧ kind ≠ "" ∧
    ItemPayload pump_item = payload_of sample_sha256 kind "victron" (sample_key x) title body 60000000000 60000000000.
Proof.
  split; [vm_compute; reflexivity|].
  apply (device_message_admits in_key_order zero_overflow sample_sha256 pump_topic pump_on false 1000 water_client
    pump_client true pump_observation 60000000000 watching (fst (fst pump_observed)) sample_subscribed
    (snd (fst pump_observed)) None pump_item).
  - intros ds. done.
  - vm_compute. reflexivity.
  - vm_compute. reflexivity.
  - apply list_elem_of_In. vm_compute. left. reflexivity.
  - apply not_elem_of_nil.
Defined.
