(* ===== verification/PushTransport.v ===== *)
(** * The way to the push services

    [internal/push/transport.go]: the hosts and addresses that the server may
    connect to on behalf of a subscriber, the dialer that enforces it, and the
    canonical form of a subscription's keys.  What [net], [net/netip] and
    [encoding/base64] do with these values is written out; the resolver and the
    network answer through arguments. *)

From Stdlib Require Import ZArith Ascii String Lia.
From stdpp Require Import base list option strings.
From S2P Require Import Prelude JsValue Utf8 ControllerCommands NativeLeaves.

#[local] Open Scope string_scope.
#[local] Open Scope list_scope.
#[local] Open Scope Z_scope.

(** ** Hosts *)

Definition host_char (c : ascii) : bool :=
  let n := byte_of c in between 97 122 n || between 48 57 n || (n =? 45).

Definition is_dash (c : option ascii) : bool := match c with Some c => byte_of c =? 45 | None => false end.

Definition host_label (label : string) : bool :=
  let cs := list_ascii_of_string label in
  negb (String.eqb label "") && Nat.leb (length cs) 63 && negb (is_dash (head cs)) && negb (is_dash (last cs)) &&
  forallb host_char cs.

Definition knownProvider (host : string) : bool :=
  Nat.leb (String.length host) 253 && forallb host_label (split_on "." host) &&
  (String.eqb host "fcm.googleapis.com" || String.eqb host "updates.push.services.mozilla.com" ||
   is_suffix ".push.apple.com" host || is_suffix ".notify.windows.com" host).

(** ** Addresses *)

(** [netip.Addr]; the numbers have 32 and 128 bits. *)
Inductive Addr : Type :=
| NoAddr
| V4 (bits : Z)
| V6 (bits : Z) (zone : string).

Definition well_formed (a : Addr) : Prop :=
  match a with NoAddr => True | V4 b => 0 <= b < 2 ^ 32 | V6 b _ => 0 <= b < 2 ^ 128 end.

Definition mapped (bits : Z) : bool := Z.shiftr bits 32 =? 65535.

Definition Unmap (a : Addr) : Addr :=
  match a with V6 b _ => if mapped b then V4 (Z.land b (Z.ones 32)) else a | _ => a end.

(** [netip.Prefix]: the address and its length. *)
Inductive Prefix : Type :=
| P4 (bits len : Z)
| P6 (bits len : Z).

Definition same_head (width len x y : Z) : bool := Z.shiftr x (width - len) =? Z.shiftr y (width - len).

Definition Contains (p : Prefix) (a : Addr) : bool :=
  match p, a with
  | P4 b len, V4 x => same_head 32 len x b
  | P6 b len, V6 x "" => same_head 128 len x b
  | _, _ => false
  end.

(** Four numbers of eight bits. *)
Definition dotted (a b c d : Z) : Z := Z.lor (Z.shiftl a 24) (Z.lor (Z.shiftl b 16) (Z.lor (Z.shiftl c 8) d)).

(** The three first groups of sixteen bits. *)
Definition groups (a b c : Z) : Z := Z.lor (Z.shiftl a 112) (Z.lor (Z.shiftl b 96) (Z.shiftl c 80)).

Definition blockedNetworks : list Prefix :=
  [P4 (dotted 0 0 0 0) 8; P4 (dotted 100 64 0 0) 10; P4 (dotted 192 0 0 0) 24; P4 (dotted 192 0 2 0) 24;
   P4 (dotted 192 88 99 0) 24; P4 (dotted 198 18 0 0) 15; P4 (dotted 198 51 100 0) 24; P4 (dotted 203 0 113 0) 24;
   P4 (dotted 240 0 0 0) 4; P6 0 96; P6 (groups 100 65435 0) 96; P6 (groups 100 65435 1) 48; P6 (groups 256 0 0) 64;
   P6 (groups 8193 0 0) 23; P6 (groups 16383 0 0) 20; P6 (groups 8193 3512 0) 32; P6 (groups 8194 0 0) 16].

Definition IsLoopback (a : Addr) : bool :=
  match a with V4 b => Z.shiftr b 24 =? 127 | V6 b _ => b =? 1 | NoAddr => false end.

Definition IsMulticast (a : Addr) : bool :=
  match a with V4 b => Z.shiftr b 28 =? 14 | V6 b _ => Z.shiftr b 120 =? 255 | NoAddr => false end.

Definition IsLinkLocalUnicast (a : Addr) : bool :=
  match a with V4 b => Z.shiftr b 16 =? 43518 | V6 b _ => Z.shiftr b 118 =? 1018 | NoAddr => false end.

Definition IsPrivate (a : Addr) : bool :=
  match a with
  | V4 b => (Z.shiftr b 24 =? 10) || (Z.shiftr b 20 =? 2753) || (Z.shiftr b 16 =? 49320)
  | V6 b _ => Z.shiftr b 121 =? 126
  | NoAddr => false
  end.

(** Of an address that is not a mapped one. *)
Definition IsGlobalUnicast (a : Addr) : bool :=
  match a with
  | NoAddr => false
  | V4 b => negb (b =? 0) && negb (b =? 2 ^ 32 - 1) && negb (IsLoopback a) && negb (IsMulticast a) &&
            negb (IsLinkLocalUnicast a)
  | V6 b z => negb ((b =? 0) && String.eqb z "") && negb (IsLoopback a) && negb (IsMulticast a) &&
              negb (IsLinkLocalUnicast a)
  end.

Definition zone_of (a : Addr) : string := match a with V6 _ z => z | _ => "" end.
Definition is_six (a : Addr) : bool := match a with V6 _ _ => true | _ => false end.
Definition is_valid (a : Addr) : bool := match a with NoAddr => false | _ => true end.

Definition publicAddress (address : Addr) : bool :=
  let address := Unmap address in
  if is_six address && negb (Contains (P6 (groups 8192 0 0) 3) address) then false
  else if negb (is_valid address) || negb (IsGlobalUnicast address) || IsPrivate address || IsLoopback address ||
          IsLinkLocalUnicast address || negb (String.eqb (zone_of address) "") then false
  else negb (existsb (λ network, Contains network address) blockedNetworks).

(** ** Dialing *)

Definition index_of (c : ascii) (cs : list ascii) : option nat := fst <$> list_find (λ d, d = c) cs.

(** The host and the port, or nothing when there is an error. *)
Definition SplitHostPort (hostport : string) : option (string * string) :=
  let cs := list_ascii_of_string hostport in
  let has c cs := existsb (Ascii.eqb c) cs in
  match index_of ":" (rev cs) with
  | None => None
  | Some k =>
      let i := (length cs - 1 - k)%nat in
      let port := string_of_list_ascii (drop (i + 1) cs) in
      match cs with
      | "["%char :: _ =>
          match index_of "]" cs with
          | None => None
          | Some e =>
              if negb (Nat.eqb (e + 1) i) then None
              else if has "["%char (drop 1 cs) || has "]"%char (drop (e + 1) cs) then None
              else Some (string_of_list_ascii (take (e - 1) (drop 1 cs)), port)
          end
      | _ =>
          let host := take i cs in
          if has ":"%char host || has "["%char cs || has "]"%char cs then None
          else Some (string_of_list_ascii host, port)
      end
  end.

Inductive dial_error : Type := errPushEndpoint | errPushDNS | errPushDNSProhibited | errPushConnection.

(** What happens to the attempts: whether the n-th connects, and whether the
    context is over after it. *)
Record attempts := { connects : nat -> Addr -> bool; over : nat -> bool }.

Section dialing.
(** The resolver; [None] is an error. *)
Variable lookup : string -> option (list Addr).
Variable net : attempts.

(** The addresses that are dialed, in order, and whether one connected. *)
Fixpoint dial_each (n : nat) (addresses : list Addr) : list Addr * option Addr :=
  match addresses with
  | [] => ([], None)
  | ip :: rest =>
      if connects net n ip then ([ip], Some ip)
      else if over net n then ([ip], None)
      else let r := dial_each (S n) rest in (ip :: fst r, snd r)
  end.

(** The addresses that were dialed on port 443, and the result. *)
Definition validatedDial (address : string) : list Addr * (Addr + dial_error) :=
  match SplitHostPort address with
  | None => ([], inr errPushEndpoint)
  | Some (host, port) =>
      if negb (String.eqb port "443") || negb (knownProvider host) then ([], inr errPushEndpoint)
      else match lookup host with
           | None => ([], inr errPushDNS)
           | Some addresses =>
               if Nat.eqb (length addresses) 0 || Nat.ltb 32 (length addresses) then ([], inr errPushDNS)
               else if negb (forallb publicAddress addresses) then ([], inr errPushDNSProhibited)
               else match dial_each 0 addresses with
                    | (dialed, Some ip) => (dialed, inl ip)
                    | (dialed, None) => (dialed, inr errPushConnection)
                    end
           end
  end.
End dialing.

(** ** Keys *)

(** The URL alphabet of [encoding/base64]. *)
Definition sextet (c : ascii) : option Z :=
  let n := byte_of c in
  if between 65 90 n then Some (n - 65)
  else if between 97 122 n then Some (n - 71)
  else if between 48 57 n then Some (n + 4)
  else if n =? 45 then Some 62
  else if n =? 95 then Some 63
  else None.

Definition letter (z : Z) : ascii :=
  to_byte (if z <? 26 then z + 65 else if z <? 52 then z + 71 else if z <? 62 then z - 4 else if z =? 62 then 45 else 95).

(** The bytes of four, three and two letters; surplus bits are dropped. *)
Definition three_bytes (a b c d : Z) : list Z := [4 * a + b / 16; 16 * (b mod 16) + c / 4; 64 * (c mod 4) + d].
Definition two_bytes (a b c : Z) : list Z := [4 * a + b / 16; 16 * (b mod 16) + c / 4].
Definition one_byte (a b : Z) : list Z := [4 * a + b / 16].

(** Line breaks are skipped. *)
Definition line_break (c : ascii) : bool := (byte_of c =? 10) || (byte_of c =? 13).
Definition significant (s : string) : list ascii := List.filter (λ c, negb (line_break c)) (list_ascii_of_string s).

(** [base64.RawURLEncoding.DecodeString]. *)
Fixpoint raw_decode (cs : list ascii) : option (list Z) :=
  match cs with
  | [] => Some []
  | [_] => None
  | [a; b] => x ← sextet a; y ← sextet b; Some (one_byte x y)
  | [a; b; c] => x ← sextet a; y ← sextet b; z ← sextet c; Some (two_bytes x y z)
  | a :: b :: c :: d :: cs' =>
      x ← sextet a; y ← sextet b; z ← sextet c; w ← sextet d; rest ← raw_decode cs';
      Some (three_bytes x y z w ++ rest)
  end.

(** [base64.URLEncoding.DecodeString]: the last four may end in one or two [=]. *)
Definition is_pad (c : ascii) : bool := Ascii.eqb c "=".

Fixpoint padded_decode (cs : list ascii) : option (list Z) :=
  match cs with
  | [] => Some []
  | a :: b :: c :: d :: cs' =>
      match cs', is_pad c, is_pad d with
      | [], true, true => x ← sextet a; y ← sextet b; Some (one_byte x y)
      | [], false, true => x ← sextet a; y ← sextet b; z ← sextet c; Some (two_bytes x y z)
      | _, _, _ =>
          x ← sextet a; y ← sextet b; z ← sextet c; w ← sextet d; rest ← padded_decode cs';
          Some (three_bytes x y z w ++ rest)
      end
  | _ => None
  end.

(** [base64.RawURLEncoding.EncodeToString]. *)
Fixpoint raw_encode (bytes : list Z) : list ascii :=
  match bytes with
  | [] => []
  | [p] => [letter (p / 4); letter (16 * (p mod 4))]
  | [p; q] => [letter (p / 4); letter (16 * (p mod 4) + q / 16); letter (4 * (q mod 16))]
  | p :: q :: r :: bytes' =>
      letter (p / 4) :: letter (16 * (p mod 4) + q / 16) :: letter (4 * (q mod 16) + r / 64) :: letter (r mod 64) ::
      raw_encode bytes'
  end.

Definition decode_key (raw : string) : option (list Z) :=
  if Nat.ltb 128 (String.length raw) then None
  else match raw_decode (significant raw) with
       | Some b => Some b
       | None => padded_decode (significant raw)
       end.

Record Subscription := MkSubscription { Endpoint : string; P256dh : string; Auth : string }.

(** ** Endpoints *)

(** [url.URL], as far as an endpoint's parts are looked at. *)
Record URL := MkURL {
  Scheme : string; Opaque : string; has_user : bool; Host : string; Path : string; Fragment : string }.

Definition is_digit (c : ascii) : bool := between 48 57 (byte_of c).
Definition digits (s : string) : bool := forallb is_digit (list_ascii_of_string s).

(** The host and the port of [Host], as [Hostname] and [Port] split it. *)
Definition split_url_host (hostPort : string) : string * string :=
  let cs := list_ascii_of_string hostPort in
  let '(host, port) :=
    match index_of ":" (rev cs) with
    | Some k =>
        let i := (length cs - 1 - k)%nat in
        let port := string_of_list_ascii (drop (i + 1) cs) in
        if digits port then (string_of_list_ascii (take i cs), port) else (hostPort, "")
    | None => (hostPort, "")
    end in
  if String.prefix "[" host && is_suffix "]" host then (substring 1 (String.length host - 2) host, port)
  else (host, port).

Definition Hostname (u : URL) : string := fst (split_url_host (Host u)).
Definition Port (u : URL) : string := snd (split_url_host (Host u)).

(** [netip.ParseAddr] of a text without colons: four decimal numbers. *)
Definition octet (s : string) : bool :=
  let '(m, n, rest) := take_digits s 0 0 in
  negb (n =? 0) && String.eqb rest "" && (m <=? 255) && (String.eqb s "0" || negb (String.prefix "0" s)).

Definition names_address (host : string) : bool :=
  let parts := split_on "." host in Nat.eqb (length parts) 4 && forallb octet parts.

Definition maxEndpointBytes : nat := 2048.

Section subscriptions.
(** [url.Parse], and whether 65 bytes are a point of the curve. *)
Variable Parse : string -> option URL.
Variable on_curve : list Z -> bool.

Definition validateEndpoint (endpoint : string) : option URL :=
  if String.eqb endpoint "" || Nat.ltb maxEndpointBytes (String.length endpoint) ||
     negb (String.eqb (TrimSpace endpoint) endpoint) then None
  else match Parse endpoint with
       | None => None
       | Some u =>
           if negb (String.eqb (Scheme u) "https") || negb (String.eqb (Opaque u) "") || has_user u ||
              negb (String.eqb (Fragment u) "") || contains "#" endpoint || String.eqb (Path u) "" then None
           else
             let host := Hostname u in
             if String.eqb host "" || negb (String.eqb host (ToLower host)) || negb (knownProvider host) ||
                (negb (String.eqb (Port u) "") && negb (String.eqb (Port u) "443")) || is_suffix ":" (Host u) then None
             else if names_address host then None
             else Some u
       end.

Definition validateSubscription (s : Subscription) : bool :=
  match validateEndpoint (Endpoint s) with Some _ => true | None => false end &&
  match raw_decode (significant (Auth s)) with Some b => Nat.eqb (length b) 16 | None => false end &&
  match raw_decode (significant (P256dh s)) with Some b => Nat.eqb (length b) 65 && on_curve b | None => false end.

Definition canonicalSubscription (sub : Subscription) : option Subscription :=
  p256dh ← decode_key (P256dh sub);
  auth ← decode_key (Auth sub);
  let sub := MkSubscription (Endpoint sub) (string_of_list_ascii (raw_encode p256dh))
               (string_of_list_ascii (raw_encode auth)) in
  if validateSubscription sub then Some sub else None.
End subscriptions.

(** ** What is public *)

Lemma shiftr_range x k v : 0 <= k -> (Z.shiftr x k =? v) = (v * 2 ^ k <=? x) && (x <=? v * 2 ^ k + (2 ^ k - 1)).
Proof.
  intros Hk. rewrite Z.shiftr_div_pow2 by done. assert (P : 0 < 2 ^ k) by (by apply Z.pow_pos_nonneg).
  pose proof (Z.div_mod x (2 ^ k) ltac:(lia)). pose proof (Z.mod_pos_bound x (2 ^ k) P).
  apply eq_true_iff_eq. rewrite andb_true_iff, Z.eqb_eq, !Z.leb_le. split; [intros <-; lia|]. intros. nia.
Qed.

(** The addresses of the special-purpose registries, as intervals. *)
Definition within (x : Z) (r : Z * Z) : bool := (fst r <=? x) && (x <=? snd r).

Definition reserved4 : list (Z * Z) :=
  [(dotted 0 0 0 0, dotted 0 255 255 255); (dotted 10 0 0 0, dotted 10 255 255 255);
   (dotted 100 64 0 0, dotted 100 127 255 255); (dotted 127 0 0 0, dotted 127 255 255 255);
   (dotted 169 254 0 0, dotted 169 254 255 255); (dotted 172 16 0 0, dotted 172 31 255 255);
   (dotted 192 0 0 0, dotted 192 0 0 255); (dotted 192 0 2 0, dotted 192 0 2 255);
   (dotted 192 88 99 0, dotted 192 88 99 255); (dotted 192 168 0 0, dotted 192 168 255 255);
   (dotted 198 18 0 0, dotted 198 19 255 255); (dotted 198 51 100 0, dotted 198 51 100 255);
   (dotted 203 0 113 0, dotted 203 0 113 255); (dotted 224 0 0 0, dotted 255 255 255 255)].

Definition up_to (lo len : Z) : Z * Z := (lo, lo + 2 ^ (128 - len) - 1).

Definition reserved6 : list (Z * Z) :=
  [up_to (groups 8193 0 0) 23; up_to (groups 8193 3512 0) 32; up_to (groups 8194 0 0) 16; up_to (groups 16383 0 0) 20].

Definition public4 (x : Z) : bool := negb (existsb (within x) reserved4).
Definition public6 (x : Z) (zone : string) : bool :=
  String.eqb zone "" && within x (up_to (groups 8192 0 0) 3) && negb (existsb (within x) reserved6).

(** IPv4 addresses are those of an IPv6 address that maps one, too. *)
Definition public (a : Addr) : bool :=
  match a with
  | NoAddr => false
  | V4 x => public4 x
  | V6 x zone => if within x (up_to (Z.shiftl 65535 32) 96) then public4 (x - Z.shiftl 65535 32) else public6 x zone
  end.

Lemma if_negb_and (a b : bool) : (if a then false else b) = negb a && b.
Proof. by destruct a. Qed.

(** Comparisons of leading bits as intervals, with numbers for constants. *)
Ltac closed_numbers :=
  repeat match goal with
    | |- context [dotted ?a ?b ?c ?d] => let v := eval vm_compute in (dotted a b c d) in change (dotted a b c d) with v
    | |- context [up_to ?a ?b] => let v := eval vm_compute in (up_to a b) in change (up_to a b) with v
    | |- context [groups ?a ?b ?c] => let v := eval vm_compute in (groups a b c) in change (groups a b c) with v
    end.

Lemma same_head_range width len x y :
  0 <= width - len ->
  same_head width len x y =
    within x (Z.shiftr y (width - len) * 2 ^ (width - len), (Z.shiftr y (width - len) + 1) * 2 ^ (width - len) - 1).
Proof.
  intros H. unfold same_head, within. cbn [fst snd]. rewrite shiftr_range by done. f_equal. f_equal. lia.
Qed.

Ltac to_ranges :=
  closed_numbers;
  repeat match goal with
    | |- context [same_head ?w ?l ?x ?y] =>
        rewrite (same_head_range w l x y) by lia;
        match goal with |- context [within x ?r] => let r' := eval vm_compute in r in progress change (within x r) with (within x r') end
    | |- context [Z.shiftr ?x ?k =? ?v] =>
        rewrite (shiftr_range x k v) by done
    end;
  unfold within; cbn [fst snd];
  repeat match goal with |- context [2 ^ ?k] => let v := eval vm_compute in (2 ^ k) in change (2 ^ k) with v end.

Lemma public4_spec x : 0 <= x < 2 ^ 32 -> publicAddress (V4 x) = public4 x.
Proof.
  intros H. unfold publicAddress, public4. cbn [Unmap is_six andb is_valid negb orb IsGlobalUnicast zone_of IsPrivate
    IsLoopback IsLinkLocalUnicast IsMulticast String.eqb existsb Contains blockedNetworks reserved4].
  to_ranges. rewrite if_negb_and. lia.
Qed.

Lemma contains_zoned p x zone : zone ≠ "" -> Contains p (V6 x zone) = false.
Proof. intros H. destruct p; [done|]. by destruct zone. Qed.

Lemma public6_spec x zone : 0 <= x < 2 ^ 128 -> mapped x = false -> publicAddress (V6 x zone) = public6 x zone.
Proof.
  intros H M. unfold publicAddress, public6. cbn [Unmap]. rewrite M.
  destruct (String.eqb_spec zone "") as [->|Hz]; [|by cbn [is_six]; rewrite contains_zoned].
  cbn [is_six andb is_valid negb orb IsGlobalUnicast zone_of IsPrivate IsLoopback IsLinkLocalUnicast IsMulticast
    String.eqb existsb Contains blockedNetworks reserved6].
  to_ranges. rewrite !if_negb_and. lia.
Qed.

(** C35: What the server may connect to are exactly the addresses outside of the
    special-purpose ranges, of either family, IPv4 also where IPv6 maps it. *)
Theorem public_addresses a : well_formed a -> publicAddress a = public a.
Proof.
  intros H. destruct a as [|x|x zone]; [done|by apply public4_spec|]. cbn [well_formed] in H. unfold public.
  assert (M : mapped x = within x (up_to (Z.shiftl 65535 32) 96)).
  { unfold mapped. to_ranges. lia. }
  rewrite <- M. destruct (mapped x) eqn:E; [|by apply public6_spec].
  assert (U : Unmap (V6 x zone) = V4 (x - Z.shiftl 65535 32)).
  { cbn [Unmap]. rewrite E. f_equal. rewrite Z.land_ones by done.
    unfold mapped in E. apply Z.eqb_eq in E. rewrite Z.shiftr_div_pow2 in E by done.
    change (Z.shiftl 65535 32) with 281470681743360. pose proof (Z.div_mod x (2 ^ 32)). lia. }
  rewrite <- public4_spec.
  - unfold publicAddress. rewrite U. done.
  - unfold mapped in E. rewrite shiftr_range in E by done. change (Z.shiftl 65535 32) with 281470681743360. lia.
Qed.

(** ** What is dialed *)

Lemma dial_each_prefix net n addresses : ∃ rest, addresses = fst (dial_each net n addresses) ++ rest.
Proof.
  revert n. induction addresses as [|ip l IH]; intros n; cbn [dial_each]; [by exists []|].
  destruct (connects net n ip); [by exists l|]. destruct (over net n); [by exists l|].
  destruct (IH (S n)) as [rest E]. exists rest. cbn [fst]. by rewrite E at 1.
Qed.

Lemma dial_each_last net n addresses ip : snd (dial_each net n addresses) = Some ip -> last (fst (dial_each net n addresses)) = Some ip.
Proof.
  revert n. induction addresses as [|a l IH]; intros n; cbn [dial_each]; [done|].
  destruct (connects net n a); [by intros [= ->]|]. destruct (over net n); [done|]. cbn [fst snd]. intros H.
  specialize (IH _ H). by rewrite last_cons, IH.
Qed.

(** C9: Whatever a subscription names, the resolver answers and the network does,
    the server opens connections to public addresses of the known services on
    port 443 only, at most one for each of at most 32 answers and in their
    order; one private answer rules out the public ones next to it. *)
Theorem dials_only_public lookup net address dialed result :
  validatedDial lookup net address = (dialed, result) -> dialed ≠ [] ->
  ∃ host addresses rest,
    SplitHostPort address = Some (host, "443") ∧ knownProvider host = true ∧ lookup host = Some addresses ∧
    addresses = dialed ++ rest ∧ (length addresses <= 32)%nat ∧
    Forall (λ ip, well_formed ip -> public ip = true) addresses ∧
    (∀ ip, result = inl ip -> last dialed = Some ip).
Proof.
  unfold validatedDial. destruct (SplitHostPort address) as [[host port]|]; [|by intros [= <- <-]].
  destruct (String.eqb_spec port "443") as [->|]; [|by intros [= <- <-]].
  destruct (knownProvider host) eqn:K; [|by intros [= <- <-]]. cbn [negb orb].
  destruct (lookup host) as [addresses|] eqn:L; [|by intros [= <- <-]].
  destruct (Nat.eqb _ _ || Nat.ltb _ _) eqn:B; [by intros [= <- <-]|].
  destruct (forallb publicAddress addresses) eqn:P; [|by intros [= <- <-]]. cbn [negb].
  intros H Hd. destruct (dial_each_prefix net 0 addresses) as [rest E].
  assert (D : dialed = fst (dial_each net 0 addresses) ∧
              ∀ ip, result = inl ip -> snd (dial_each net 0 addresses) = Some ip).
  { destruct (dial_each net 0 addresses) as [d [ip|]]; injection H as <- <-; split; try done; by intros ? [= ->]. }
  destruct D as [-> R]. exists host, addresses, rest. split; [done|]. split; [done|]. split; [done|]. split; [done|].
  split; [|split].
  - apply orb_false_iff in B as [_ B]. by apply Nat.ltb_ge in B.
  - rewrite forallb_forall in P. apply Forall_forall. intros ip Hip W. rewrite <- public_addresses by done.
    by apply P, list_elem_of_In.
  - intros ip Hr. by apply dial_each_last, R.
Qed.

(** ** A valid endpoint is one that is dialed *)

(** The address that the HTTP transport dials for an https URL. *)
Definition dial_address (u : URL) : string :=
  Hostname u +:+ ":" +:+ (if String.eqb (Port u) "" then "443" else Port u).

Definition name_char (c : ascii) : bool := host_char c || Ascii.eqb c ".".

Lemma list_of_append a b : list_ascii_of_string (a +:+ b) = list_ascii_of_string a ++ list_ascii_of_string b.
Proof. induction a as [|c a IH]; [done|]. cbn. by rewrite <- IH. Qed.

Lemma split_chars P sep s :
  forallb (λ w, forallb P (list_ascii_of_string w)) (split_on sep s) = true ->
  forallb (λ c, P c || Ascii.eqb c sep) (list_ascii_of_string s) = true.
Proof.
  induction s as [|c s IH]; [done|]. cbn [split_on list_ascii_of_string forallb].
  destruct (split_on sep s) as [|w ws] eqn:E; [by apply split_on_nonempty in E|].
  destruct (Ascii.eqb c sep); cbn [forallb list_ascii_of_string]; rewrite ?orb_true_r, ?orb_false_r, ?andb_true_iff.
  - intros (_ & H). split; [done|]. apply IH. by rewrite <- andb_true_iff in H.
  - intros ((H1 & H2) & H). split; [done|]. apply IH. cbn [forallb]. by rewrite H2.
Qed.

Lemma provider_chars host : knownProvider host = true -> forallb name_char (list_ascii_of_string host) = true.
Proof.
  unfold knownProvider. rewrite !andb_true_iff. intros ((_ & H) & _). apply split_chars.
  rewrite forallb_forall in H |- *. intros w Hw. specialize (H w Hw). unfold host_label in H.
  rewrite !andb_true_iff in H. apply H.
Qed.

Lemma no_char P (c : ascii) cs : forallb P cs = true -> P c = false -> existsb (Ascii.eqb c) cs = false.
Proof.
  intros H Hc. apply not_true_iff_false. intros (x & Hx & ->%Ascii.eqb_eq)%existsb_exists.
  rewrite forallb_forall in H. by rewrite (H _ Hx) in Hc.
Qed.

Lemma split_name host : forallb name_char (list_ascii_of_string host) = true -> host ≠ "" ->
  SplitHostPort (host +:+ ":443") = Some (host, "443").
Proof.
  intros H Hne. unfold SplitHostPort. rewrite list_of_append. set (cs := list_ascii_of_string host) in *.
  set (tail := list_ascii_of_string ":443"). rewrite rev_app_distr.
  change (index_of ":" (rev tail ++ rev cs)) with (Some 3%nat). cbv beta iota zeta.
  replace (length (cs ++ tail) - 1 - 3)%nat with (length cs) by (rewrite length_app; cbn; lia).
  rewrite take_app_length, (Nat.add_comm (length cs) 1), <- skipn_skipn, drop_app_length.
  assert (N : ∀ c, name_char c = false -> existsb (Ascii.eqb c) cs = false) by (intros c; by apply no_char).
  assert (A : ∀ c, name_char c = false -> existsb (Ascii.eqb c) (cs ++ tail) = existsb (Ascii.eqb c) tail)
    by (intros c Hc; by rewrite existsb_app, N).
  rewrite !A, N by done. cbn [existsb list_ascii_of_string Ascii.eqb Bool.eqb orb drop Nat.add].
  assert (S : string_of_list_ascii cs = host) by apply string_of_list_ascii_of_string.
  rewrite S. destruct cs as [|c cs'] eqn:E; [by destruct host|]. cbn [app].
  cbn [forallb] in H. apply andb_true_iff in H as [H _].
  destruct c as [[] [] [] [] [] [] [] []]; done.
Qed.

(** What passes for an endpoint when a browser subscribes is what the dialer
    accepts when a delivery is sent: an https URL of a known service, on port
    443, never a bare address. *)
Theorem endpoint_dialable Parse endpoint u :
  validateEndpoint Parse endpoint = Some u ->
  Parse endpoint = Some u ∧ Scheme u = "https" ∧ knownProvider (Hostname u) = true ∧
  names_address (Hostname u) = false ∧ SplitHostPort (dial_address u) = Some (Hostname u, "443").
Proof.
  unfold validateEndpoint. destruct (_ || _ || _); [done|]. destruct (Parse endpoint) as [v|]; [|done].
  destruct (_ || contains "#" endpoint || _) eqn:B1; [done|]. destruct (_ || is_suffix ":" (Host v)) eqn:B2; [done|].
  destruct (names_address _) eqn:N; [done|]. intros [= ->].
  rewrite !orb_false_iff in B1. rewrite !orb_false_iff in B2. destruct B1 as ((((( B1 & _) & _) & _) & _) & _).
  destruct B2 as ((((Hn & _) & Hk) & Hp) & _). apply negb_false_iff in B1, Hk. apply String.eqb_eq in B1.
  split; [done|]. split; [done|]. split; [done|]. split; [done|]. unfold dial_address.
  assert (P : (if String.eqb (Port u) "" then "443" else Port u) = "443").
  { destruct (String.eqb (Port u) ""); [done|]. cbn [negb andb] in Hp. by apply negb_false_iff, String.eqb_eq in Hp. }
  rewrite P. apply split_name; [by apply provider_chars|]. intros E. by rewrite E in Hn.
Qed.

Definition push_answers (host : string) : option (list Addr) :=
  if String.eqb host "fcm.googleapis.com" then Some [V4 (dotted 142 250 74 106); V6 (groups 10752 5200 16395) ""] else None.
Definition second_connects : attempts := {| connects n _ := Nat.eqb n 1; over _ := false |}.

Lemma public_addresses_witness :
  publicAddress (V6 (Z.lor (Z.shiftl 65535 32) (dotted 10 0 0 1)) "") =
  public (V6 (Z.lor (Z.shiftl 65535 32) (dotted 10 0 0 1)) "").
Proof. apply public_addresses. vm_compute. split; [discriminate|reflexivity]. Defined.

Lemma dials_only_public_witness :
  ∃ host addresses rest,
    SplitHostPort "fcm.googleapis.com:443" = Some (host, "443") ∧ knownProvider host = true ∧
    push_answers host = Some addresses ∧
    addresses = [V4 (dotted 142 250 74 106); V6 (groups 10752 5200 16395) ""] ++ rest ∧ (length addresses <= 32)%nat ∧
    Forall (λ ip, well_formed ip -> public ip = true) addresses ∧
    (∀ ip, inl (V6 (groups 10752 5200 16395) "") = (inl ip : Addr + dial_error) ->
       last [V4 (dotted 142 250 74 106); V6 (groups 10752 5200 16395) ""] = Some ip).
Proof.
  apply (dials_only_public push_answers second_connects "fcm.googleapis.com:443").
  - vm_compute. reflexivity.
  - done.
Defined.

(** ** Canonical keys *)

Definition byte_range (b : Z) : Prop := 0 <= b < 256.

Lemma sextet_letter z : 0 <= z < 64 -> sextet (letter z) = Some z.
Proof.
  intros H. pose proof (zrange_forall (λ z, match sextet (letter z) with Some w => w =? z | None => false end) 64 z) as E.
  specialize (E ltac:(vm_compute; reflexivity) H). cbv beta in E.
  destruct (sextet (letter z)); [|done]. by apply Z.eqb_eq in E as ->.
Qed.

Lemma letter_significant z : 0 <= z < 64 -> line_break (letter z) = false.
Proof.
  intros H. apply negb_true_iff. apply (zrange_forall (λ z, negb (line_break (letter z))) 64 z); [|done].
  vm_compute. reflexivity.
Qed.

Lemma sextet_range c z : sextet c = Some z -> 0 <= z < 64.
Proof.
  unfold sextet. destruct (between 65 90 _) eqn:E1; [apply between_spec in E1; intros [= <-]; lia|].
  destruct (between 97 122 _) eqn:E2; [apply between_spec in E2; intros [= <-]; lia|].
  destruct (between 48 57 _) eqn:E3; [apply between_spec in E3; intros [= <-]; lia|].
  destruct (_ =? 45); [intros [= <-]; lia|]. destruct (_ =? 95); [intros [= <-]; lia|done].
Qed.

Lemma bytes_ind (P : list Z -> Prop) :
  P [] -> (∀ p, P [p]) -> (∀ p q, P [p; q]) -> (∀ p q r l, P l -> P (p :: q :: r :: l)) -> ∀ l, P l.
Proof.
  intros H0 H1 H2 H3. fix IH 1. intros [|p [|q [|r l]]]; [exact H0|apply H1|apply H2|]. apply H3, IH.
Qed.

Lemma letters_ind (P : list ascii -> Prop) :
  P [] -> (∀ a, P [a]) -> (∀ a b, P [a; b]) -> (∀ a b c, P [a; b; c]) ->
  (∀ a b c d l, P l -> P (a :: b :: c :: d :: l)) -> ∀ l, P l.
Proof.
  intros H0 H1 H2 H3 H4. fix IH 1. intros [|a [|b [|c [|d l]]]]; [exact H0|apply H1|apply H2|apply H3|]. apply H4, IH.
Qed.

(** The bytes of valid letters are bytes. *)
Ltac byte_bounds :=
  repeat match goal with H : sextet _ = Some _ |- _ => apply sextet_range in H end;
  repeat (apply Forall_cons; split); try apply Forall_nil; unfold byte_range;
  try (Z.div_mod_to_equations; lia).

Lemma raw_decode_range cs bytes : raw_decode cs = Some bytes -> Forall byte_range bytes.
Proof.
  revert bytes. induction cs as [|a|a b|a b c|a b c d cs IH] using letters_ind; intros bytes H; simpl in H.
  - by injection H as <-.
  - done.
  - destruct (sextet a) eqn:Ea, (sextet b) eqn:Eb; try done. injection H as <-. byte_bounds.
  - destruct (sextet a) eqn:Ea, (sextet b) eqn:Eb, (sextet c) eqn:Ec; try done. injection H as <-. byte_bounds.
  - destruct (sextet a) eqn:Ea, (sextet b) eqn:Eb, (sextet c) eqn:Ec, (sextet d) eqn:Ed; try done. simpl in H.
    destruct (raw_decode cs) as [rest|]; [|done]. injection H as <-. specialize (IH rest eq_refl).
    byte_bounds. done.
Qed.

Lemma raw_decode_encode bytes : Forall byte_range bytes -> raw_decode (raw_encode bytes) = Some bytes.
Proof.
  unfold byte_range. induction bytes as [|p|p q|p q r bytes IH] using bytes_ind; intros H; [done|..];
    repeat (apply Forall_cons in H as [? H]); cbn [raw_encode raw_decode];
    rewrite !sextet_letter by (Z.div_mod_to_equations; lia); cbn [mbind option_bind].
  - unfold one_byte. do 2 f_equal. Z.div_mod_to_equations; lia.
  - unfold two_bytes. repeat f_equal; Z.div_mod_to_equations; lia.
  - rewrite IH by done. unfold three_bytes. cbn [mbind option_bind app].
    repeat f_equal; Z.div_mod_to_equations; lia.
Qed.

Lemma padded_decode_range cs bytes : padded_decode cs = Some bytes -> Forall byte_range bytes.
Proof.
  revert bytes. induction cs as [|a|a b|a b c|a b c d cs IH] using letters_ind; intros bytes H; try done.
  { injection H as <-. done. }
  assert (G : (x ← sextet a; y ← sextet b; z ← sextet c; w ← sextet d; rest ← padded_decode cs;
               Some (three_bytes x y z w ++ rest)) = Some bytes -> Forall byte_range bytes).
  { intros G. destruct (sextet a) eqn:Ea, (sextet b) eqn:Eb, (sextet c) eqn:Ec, (sextet d) eqn:Ed; try done.
    simpl in G. destruct (padded_decode cs) as [rest|]; [|done]. injection G as <-. specialize (IH rest eq_refl).
    byte_bounds. done. }
  cbn [padded_decode] in H. destruct cs as [|e cs]; [|by apply G].
  destruct (is_pad c), (is_pad d); try (by apply G).
  - destruct (sextet a) eqn:Ea, (sextet b) eqn:Eb; try done. injection H as <-. byte_bounds.
  - destruct (sextet a) eqn:Ea, (sextet b) eqn:Eb, (sextet c) eqn:Ec; try done. injection H as <-. byte_bounds.
Qed.

Lemma significant_encode bytes :
  Forall byte_range bytes -> significant (string_of_list_ascii (raw_encode bytes)) = raw_encode bytes.
Proof.
  unfold significant, byte_range. rewrite list_ascii_of_string_of_list_ascii.
  induction bytes as [|p|p q|p q r bytes IH] using bytes_ind; intros H; [done|..];
    repeat (apply Forall_cons in H as [? H]); cbn [raw_encode List.filter];
    rewrite !letter_significant by (Z.div_mod_to_equations; lia); cbn [negb]; [done|done|].
  by rewrite IH.
Qed.

(** The text of [raw_encode] is read back, also as a key. *)
Definition key_text (bytes : list Z) : string := string_of_list_ascii (raw_encode bytes).

Lemma key_text_decode bytes : Forall byte_range bytes -> raw_decode (significant (key_text bytes)) = Some bytes.
Proof. intros H. unfold key_text. by rewrite significant_encode, raw_decode_encode. Qed.

Lemma length_raw_encode bytes : (3 * length (raw_encode bytes) <= 4 * length bytes + 2)%nat.
Proof. induction bytes as [|p|p q|p q r bytes IH] using bytes_ind; cbn [raw_encode length]; lia. Qed.

Lemma length_of_list_ascii l : String.length (string_of_list_ascii l) = length l.
Proof. induction l as [|c l IH]; [done|]. cbn. by rewrite IH. Qed.

Lemma decode_key_text bytes :
  Forall byte_range bytes -> (length bytes <= 65)%nat -> decode_key (key_text bytes) = Some bytes.
Proof.
  intros H Hl. unfold decode_key. rewrite key_text_decode by done.
  pose proof (length_raw_encode bytes). unfold key_text. rewrite length_of_list_ascii.
  by rewrite (proj2 (Nat.ltb_ge _ _)) by lia.
Qed.

Lemma decode_key_range s bytes : decode_key s = Some bytes -> Forall byte_range bytes.
Proof.
  unfold decode_key. destruct (Nat.ltb _ _); [done|]. destruct (raw_decode _) as [b|] eqn:E.
  - intros [= <-]. by eapply raw_decode_range.
  - apply padded_decode_range.
Qed.

Section canonical.
Variable Parse : string -> option URL.
Variable on_curve : list Z -> bool.
Abbreviation canonicalSubscription := (canonicalSubscription Parse on_curve).

Lemma canonical_inv s s' : canonicalSubscription s = Some s' ->
  ∃ p a, decode_key (P256dh s) = Some p ∧ decode_key (Auth s) = Some a ∧ length p = 65%nat ∧ length a = 16%nat ∧
    s' = MkSubscription (Endpoint s) (key_text p) (key_text a) ∧
    validateSubscription Parse on_curve s' = true.
Proof.
  unfold PushTransport.canonicalSubscription. destruct (decode_key (P256dh s)) as [p|] eqn:P; [|done].
  destruct (decode_key (Auth s)) as [a|] eqn:A; [|done]. cbn [mbind option_bind].
  destruct (validateSubscription _ _ _) eqn:V; [|done]. intros [= <-]. exists p, a.
  assert (L : length p = 65%nat ∧ length a = 16%nat).
  { revert V. unfold validateSubscription. cbn [Endpoint P256dh Auth].
    change (string_of_list_ascii (raw_encode p)) with (key_text p).
    change (string_of_list_ascii (raw_encode a)) with (key_text a).
    rewrite !key_text_decode by (by eapply decode_key_range). rewrite !andb_true_iff, !Nat.eqb_eq. tauto. }
  by destruct L.
Qed.

Lemma canonical_key s s' k k' :
  canonicalSubscription s = Some s' -> (k, k') ∈ [(P256dh s, P256dh s'); (Auth s, Auth s')] ->
  decode_key k' = decode_key k.
Proof.
  intros (p & a & P & A & Lp & La & -> & _)%canonical_inv Hk. cbn [P256dh Auth] in Hk.
  repeat (apply elem_of_cons in Hk as [[= -> ->]|Hk]); [| |by apply elem_of_nil in Hk];
    rewrite decode_key_text; try done; try (by eapply decode_key_range); lia.
Qed.

(** A subscription is stored in one form, however the browser wrote its keys:
    with or without padding, with line breaks, with surplus bits.  The form
    keeps the bytes, is its own form, and is shared exactly by the
    subscriptions with the same endpoint and bytes. *)
Theorem canonical_form s s' :
  canonicalSubscription s = Some s' ->
  Endpoint s' = Endpoint s ∧ decode_key (P256dh s') = decode_key (P256dh s) ∧
  decode_key (Auth s') = decode_key (Auth s) ∧ canonicalSubscription s' = Some s' ∧
  ∀ t t', canonicalSubscription t = Some t' ->
    t' = s' ↔ Endpoint t = Endpoint s ∧ decode_key (P256dh t) = decode_key (P256dh s) ∧
              decode_key (Auth t) = decode_key (Auth s).
Proof.
  intros H. pose proof (canonical_key s s' (P256dh s) (P256dh s') H ltac:(by left)) as Kp.
  pose proof (canonical_key s s' (Auth s) (Auth s') H ltac:(by right; left)) as Ka.
  destruct (canonical_inv s s' H) as (p & a & P & A & Lp & La & E & V).
  split; [by rewrite E|]. split; [done|]. split; [done|]. split.
  - unfold PushTransport.canonicalSubscription. rewrite Kp, Ka, P, A. cbn [mbind option_bind].
    assert (E' : MkSubscription (Endpoint s') (string_of_list_ascii (raw_encode p)) (string_of_list_ascii (raw_encode a)) = s')
      by (by rewrite E). by rewrite E', V.
  - intros t t' Ht. destruct (canonical_inv t t' Ht) as (p' & a' & P' & A' & Lp' & La' & E' & _).
    rewrite P, A, P', A', E, E'. split.
    + intros [= He Hp Ha]. split; [done|].
      assert (D : decode_key (key_text p') = decode_key (key_text p) ∧ decode_key (key_text a') = decode_key (key_text a))
        by (by rewrite Hp, Ha).
      rewrite !decode_key_text in D; [exact D|..]; try (by eapply decode_key_range); lia.
    + intros (-> & [= ->] & [= ->]). done.
Qed.
End canonical.

Definition sample_subscription (pad : string) : Subscription :=
  MkSubscription "https://fcm.googleapis.com/x" (key_text (repeat 7 65) +:+ pad) (key_text (repeat 9 16) +:+ pad +:+ pad).

(** A parser of plain URLs: a scheme, a host and a path. *)
Definition plain_parse (s : string) : option URL :=
  match cut_at "/" s with
  | (scheme, Some rest) =>
      match cut_at "/" (drop_string 1 rest) with
      | (host, Some path) => Some (MkURL (substring 0 (String.length scheme - 1) scheme) "" false host ("/" +:+ path) "")
      | _ => None
      end
  | _ => None
  end.
Definition any_point (_ : list Z) : bool := true.

Lemma canonical_form_witness :
  canonicalSubscription plain_parse any_point (sample_subscription "") = Some (sample_subscription "") ∧
  sample_subscription "=" ≠ sample_subscription "" ∧
  Endpoint (sample_subscription "") = Endpoint (sample_subscription "=") ∧
  decode_key (P256dh (sample_subscription "")) = decode_key (P256dh (sample_subscription "=")).
Proof.
  destruct (canonical_form plain_parse any_point (sample_subscription "=") (sample_subscription "")) as (E & P & _ & C & _).
  - vm_compute. reflexivity.
  - split; [exact C|]. split; [by vm_compute|]. split; [exact E|exact P].
Defined.

Lemma endpoint_dialable_witness :
  validateEndpoint plain_parse "https://web.push.apple.com:443/device" ≠ None ∧
  names_address "10.0.0.1" = true ∧ validateEndpoint plain_parse "https://10.0.0.1/push" = None ∧
  plain_parse "https://web.push.apple.com:443/device" = Some (MkURL "https" "" false "web.push.apple.com:443" "/device" "") ∧
  SplitHostPort (dial_address (MkURL "https" "" false "web.push.apple.com:443" "/device" "")) =
    Some ("web.push.apple.com", "443").
Proof.
  destruct (endpoint_dialable plain_parse "https://web.push.apple.com:443/device"
              (MkURL "https" "" false "web.push.apple.com:443" "/device" "")) as (P & _ & _ & _ & S).
  - vm_compute. reflexivity.
  - split; [by vm_compute|]. split; [by vm_compute|]. split; [by vm_compute|]. split; [exact P|exact S].
Defined.
