(* ===== verification/PushRoutes.v ===== *)
(** * The notification API

    [internal/push/routes.go]: what the routes under [/api/notifications] check
    and answer, with the methods of [store.go] behind them, the strict decoding
    of bodies and preferences of [model.go], and [service.go]: when the service
    is available, and the diagnostics of failed observations.  Media types and
    URLs are parsed by the library; a body is what its reader yields, an object
    with its members in the order of the text. *)

From Stdlib Require Import ZArith Ascii String Sorted Lia.
From stdpp Require Import base list option strings gmap fin_maps sorting pretty.
From S2P Require Import Prelude Float64 JsValue Utf8 ControllerCommands NativeLeaves JsonFields PushTransport PushPayload PushStore PushProcessor.

#[local] Open Scope string_scope.
#[local] Open Scope list_scope.
#[local] Open Scope Z_scope.

(** ** Bodies *)

(** What reading and parsing a body yields; more than one value is no JSON. *)
Inductive received : Type := TooLarge | NotJSON | JSON (v : gval).

(** A structure without unknown fields; [null] leaves it alone. *)
Definition into_struct {A} (names : list string) (set : string -> gval -> A -> option A) (v : gval) (a : A) : option A :=
  match v with
  | GNil => Some a
  | GObject o => foldl (λ acc e, a ← acc; n ← find_field names e.1; set n e.2 a) (Some a) o
  | _ => None
  end.

Definition text_field (v : gval) (old : string) : option string :=
  match v with GNil => Some old | GString s => Some (coerce s) | _ => None end.

Definition read_endpoint (v : gval) : option string := into_struct ["endpoint"] (λ _, text_field) v "".

(** [Preferences.UnmarshalJSON]: exactly the four members, each a boolean. *)
Definition UnmarshalJSON (v : gval) : option Preferences :=
  o ← as_object v;
  let fields := set_props [] o in
  let flag name := match assoc name fields with Some (GBool b) => Some b | _ => None end in
  if Nat.eqb (length fields) 4 then
    native ← flag "native"; ev ← flag "ev"; water ← flag "water"; low ← flag "lowBattery";
    Some (Prefs native ev water low)
  else None.

Definition read_keys : gval -> PushTransport.Subscription -> option PushTransport.Subscription :=
  into_struct ["p256dh"; "auth"] (λ n v s,
    if String.eqb n "auth"
    then t ← text_field v (PushTransport.Auth s); Some (PushTransport.MkSubscription (PushTransport.Endpoint s) (PushTransport.P256dh s) t)
    else t ← text_field v (PushTransport.P256dh s); Some (PushTransport.MkSubscription (PushTransport.Endpoint s) t (PushTransport.Auth s))).

Definition read_subscription : gval -> PushTransport.Subscription -> option PushTransport.Subscription :=
  into_struct ["endpoint"; "expirationTime"; "keys"] (λ n v s,
    if String.eqb n "endpoint"
    then t ← text_field v (PushTransport.Endpoint s); Some (PushTransport.MkSubscription t (PushTransport.P256dh s) (PushTransport.Auth s))
    else if String.eqb n "keys" then read_keys v s
    else match v with GNil => Some s | _ => _ ← float_of v; Some s end).

Definition no_subscription : PushTransport.Subscription := PushTransport.MkSubscription "" "" "".

(** The body of a registration: two pointers. *)
Definition read_registration (v : gval) : option (option PushTransport.Subscription * option Preferences) :=
  into_struct ["subscription"; "preferences"] (λ n v b,
    if String.eqb n "subscription" then
      match v with
      | GNil => Some (None, b.2)
      | _ => s ← read_subscription v (default no_subscription b.1); Some (Some s, b.2)
      end
    else
      match v with
      | GNil => Some (b.1, None)
      | _ => p ← UnmarshalJSON v; Some (b.1, Some p)
      end) v (None, None).

(** ** Answers *)

Inductive api_error : Type := InvalidEndpoint | StoreError (e : push_error) | OtherError.

Inductive response : Type :=
| Abort (status : Z) (message : string)
| Status (registered : bool) (preferences : Preferences)
| Registered (preferences : Preferences)
| Removed
| QueuedTest.

Definition status_code (r : response) : Z :=
  match r with Abort status _ => status | QueuedTest => 202 | _ => 200 end.

Definition replyError (e : api_error) : response :=
  match e with
  | InvalidEndpoint => Abort 400 "invalid or unsupported push subscription"
  | StoreError errConflict => Abort 409 "subscription key conflict"
  | StoreError errNotFound => Abort 404 "subscription not registered"
  | StoreError errCapacity | StoreError errRateLimit => Abort 429 "notification limit reached"
  | _ => Abort 503 "notifications unavailable"
  end.

Definition readJSON {A} (read : gval -> option A) (body : received) : response + A :=
  let bad status := inl (Abort status "invalid notification request") in
  match body with
  | TooLarge => bad 413
  | NotJSON => bad 400
  | JSON v => match read v with Some a => inr a | None => bad 400 end
  end.

(** ** Requests *)

Record Request := MkRequest {
  Origin : string; SecFetchSite : string; ContentType : string; HostHeader : string; Body : received }.

(** The routes that need the guard. *)
Inductive route : Type := SubscriptionStatusRoute | RegisterRoute | DeleteRoute | TestRoute.

Definition Available (s : Store) : bool := negb (closed s) && negb (failed s).

Section routes.
Variable Parse : string -> option PushTransport.URL.
Variable RawQuery : PushTransport.URL -> string.
(** [mime.ParseMediaType]: the media type. *)
Variable ParseMediaType : string -> option string.
Variable on_curve : list Z -> bool.
Variable subscriptionID : string -> string.
Variable sha256 : string -> string.

Definition same_https_origin (r : Request) : bool :=
  match Parse (Origin r) with
  | Some o =>
      String.eqb (Scheme o) "https" && String.eqb (Host o) (HostHeader r) && negb (has_user o) &&
      String.eqb (Path o) "" && String.eqb (RawQuery o) "" && String.eqb (Fragment o) "" &&
      (String.eqb (SecFetchSite r) "" || String.eqb (SecFetchSite r) "same-origin")
  | None => false
  end.

Definition is_json (r : Request) : bool :=
  match ParseMediaType (ContentType r) with Some media => String.eqb media "application/json" | None => false end.

(** The guard of the mutations; [None] lets the request through. *)
Definition guard (r : Request) (available : bool) : option response :=
  if negb (same_https_origin r) then Some (Abort 403 "same-origin HTTPS request required")
  else if negb (is_json r) then Some (Abort 400 "JSON request required")
  else if negb available then Some (Abort 503 "notifications unavailable")
  else None.

(** ** The store's methods *)

Definition SubscriptionStatus (endpoint : string) (d : diskState) : Preferences * bool :=
  match Subscriptions d !! subscriptionID endpoint with
  | Some sub =>
      if String.eqb (Endpoint (StoredSub sub)) endpoint then (StoredPrefs sub, true) else (DefaultPreferences, false)
  | None => (DefaultPreferences, false)
  end.

Definition stored_form (s : PushTransport.Subscription) : Subscription :=
  MkSubscription (PushTransport.Endpoint s) (PushTransport.Auth s) (PushTransport.P256dh s).

(** Why [canonicalSubscription] refuses: the errors of [validateSubscription]
    about keys are not [errPushEndpoint]. *)
Definition subscription_error (s : PushTransport.Subscription) : api_error :=
  match decode_key (PushTransport.P256dh s), decode_key (PushTransport.Auth s) with
  | Some _, Some _ => match validateEndpoint Parse (PushTransport.Endpoint s) with Some _ => OtherError | None => InvalidEndpoint end
  | _, _ => InvalidEndpoint
  end.

Definition stored (r : Store * option push_error) : Store * option api_error := (r.1, StoreError <$> r.2).

Definition Register (sub : PushTransport.Subscription) (prefs : Preferences) (saved : bool) (s : Store) : Store * option api_error :=
  match canonicalSubscription Parse on_curve sub with
  | None => (s, Some (subscription_error sub))
  | Some sub => stored (mutate (register subscriptionID (stored_form sub) prefs) saved s)
  end.

Definition Delete (endpoint : string) (saved : bool) (s : Store) : Store * option api_error :=
  stored (mutate (remove subscriptionID endpoint) saved s).

(** [id] is what [randomID] returns, [now] in nanoseconds. *)
Definition QueueTest (endpoint : string) (id : option string) (now : Z) (saved : bool) (s : Store) : Store * option api_error :=
  match id with
  | None => (s, Some OtherError)
  | Some id =>
      let payload := payload_of sha256 "test" "system" id "Test notification" "Web Push is working for this browser." now now in
      stored (mutate (queueTest subscriptionID payload endpoint (unix_milli now)) saved s)
  end.

(** ** The handlers *)

Definition readEndpoint (body : received) : response + string :=
  match readJSON read_endpoint body with
  | inl r => inl r
  | inr endpoint => match validateEndpoint Parse endpoint with Some _ => inr endpoint | None => inl (replyError InvalidEndpoint) end
  end.

Definition answered (ok : response) (r : Store * option api_error) : Store * response :=
  (r.1, match r.2 with Some e => replyError e | None => ok end).

Definition serve_registration (body : received) (saved : bool) (s : Store) : Store * response :=
  match readJSON read_registration body with
  | inl r => (s, r)
  | inr (Some sub, Some prefs) => answered (Registered prefs) (Register sub prefs saved s)
  | inr _ => (s, replyError InvalidEndpoint)
  end.

Definition with_endpoint (body : received) (s : Store) (k : string -> Store * response) : Store * response :=
  match readEndpoint body with inl r => (s, r) | inr endpoint => k endpoint end.

Definition handle (rt : route) (body : received) (id : option string) (now : Z) (saved : bool) (s : Store)
    : Store * response :=
  match rt with
  | SubscriptionStatusRoute =>
      with_endpoint body s (λ endpoint,
        let '(prefs, registered) := SubscriptionStatus endpoint (data s) in (s, Status registered prefs))
  | RegisterRoute => serve_registration body saved s
  | DeleteRoute => with_endpoint body s (λ endpoint, answered Removed (Delete endpoint saved s))
  | TestRoute => with_endpoint body s (λ endpoint, answered QueuedTest (QueueTest endpoint id now saved s))
  end.

(** ** The service *)

Record diagnostics := MkDiagnostics { FailureCount : Z; LastFailureCategory : string; LastFailureAtMs : Z }.

(** [NewService] makes the processor with the store; without a store it is not
    looked at. *)
Record Service := MkService {
  enabled : bool; reason : string; store : option Store; processor : Processor; admission : diagnostics }.

Definition maxAdmissionFailures : Z := 2 ^ 53 - 1.

Definition no_failures : diagnostics := MkDiagnostics 0 "" 0.

Definition with_store (s : Store) (v : Service) : Service :=
  MkService (enabled v) (reason v) (Some s) (processor v) (admission v).

Definition service_available (v : Service) : bool :=
  match store v with Some s => String.eqb (reason v) "" && Available s | None => false end.

(** A guarded request. *)
Definition serve (rt : route) (r : Request) (id : option string) (now : Z) (saved : bool) (v : Service) : Service * response :=
  match guard r (service_available v), store v with
  | None, Some s => let '(s, resp) := handle rt (Body r) id now saved s in (with_store s v, resp)
  | None, None => (v, Abort 503 "notifications unavailable")
  | Some refusal, _ => (v, refusal)
  end.

(** The order of the loop over subscriptions, and whether a state is saved. *)
Variable order : diskState -> list (string * storedSubscription).
Variable disk : Store -> bool.
#[local] Existing Instance durable.

Definition close_store (s : Store) : Store :=
  if closed s then s else MkStore (data s) true (failed s) ((λ _, true) <$> active s).

(** [platform] and [subject] say whether both are supported; [opened] is what
    [OpenStore] returns. *)
Definition NewService (on platform subject : bool) (opened : option Store) (id : option string) (now : Z) : Service :=
  let off why st p := MkService on why st p no_failures in
  if negb on then off "Web Push is disabled" None NewProcessor
  else if negb platform then off "Persistent Web Push requires Linux or macOS" None NewProcessor
  else if negb subject then off "Web Push contact configuration is invalid" None NewProcessor
  else match opened with
       | None => off "Persistent Web Push storage is unavailable" None NewProcessor
       | Some s =>
           match Reset (H := durable order disk) id "startup" false now (NewProcessor, s) with
           | ((p, s), None) => off "" (Some s) p
           | ((p, s), Some _) => off "Persistent Web Push storage is unavailable" (Some (close_store s)) p
           end
       end.

Definition with_processed (ps : Processor * Store) (v : Service) : Service :=
  MkService (enabled v) (reason v) (Some ps.2) ps.1 (admission v).

Definition service_reset (id : option string) (source : string) (conn : bool) (now : Z) (v : Service) : Service :=
  match store v with
  | Some s => if service_available v
              then with_processed (fst (Reset (H := durable order disk) id source conn now (processor v, s))) v else v
  | None => v
  end.

Definition count_failure (e : push_error) (now : Z) (d : diagnostics) : diagnostics :=
  MkDiagnostics (if FailureCount d <? maxAdmissionFailures then FailureCount d + 1 else FailureCount d)
    (match e with errCapacity => "queue_full" | _ => "processing_error" end) (unix_milli now).

Definition service_observe (ob : Observation) (now : Z) (v : Service) : Service :=
  match store v with
  | Some s =>
      if service_available v then
        let '(ps, err) := Observe sha256 (H := durable order disk) ob now (processor v, s) in
        let v := with_processed ps v in
        match err with
        | Some e => MkService (enabled v) (reason v) (store v) (processor v) (count_failure e now (admission v))
        | None => v
        end
      else v
  | None => v
  end.

Definition service_close (v : Service) : Service :=
  match store v with Some s => with_store (close_store s) v | None => v end.

(** What happens to a service: requests, telemetry, the changes that the
    dispatcher makes, and its end. *)
Inductive event : Type :=
| Served (rt : route) (r : Request) (id : option string) (now : Z) (saved : bool)
| Observed (ob : Observation) (now : Z)
| WasReset (id : option string) (source : string) (conn : bool) (now : Z)
| Swept (now : Z) (saved : bool)
| Finished (item : delivery) (status : Z) (transient : bool) (now : Z) (saved : bool)
| Closed.

Definition on_store (change : diskState -> outcome) (saved : bool) (v : Service) : Service :=
  match store v with Some s => with_store (fst (mutate change saved s)) v | None => v end.

Definition step (e : event) (v : Service) : Service * option response :=
  match e with
  | Served rt r id now saved => let '(v, resp) := serve rt r id now saved v in (v, Some resp)
  | Observed ob now => (service_observe ob now v, None)
  | WasReset id source conn now => (service_reset id source conn now v, None)
  | Swept now saved => (on_store (pending_change now) saved v, None)
  | Finished item status transient now saved => (on_store (finish item status transient now) saved v, None)
  | Closed => (service_close v, None)
  end.

(** The responses along a run, with their times. *)
Fixpoint responses (es : list event) (v : Service) : list (Z * response) :=
  match es with
  | [] => []
  | e :: es' =>
      let '(v', resp) := step e v in
      match e, resp with Served _ _ _ now _, Some resp => (now, resp) :: responses es' v' | _, _ => responses es' v' end
  end.
End routes.

(** ** What the processor leaves alone *)

(** A property of the store that admitting an event keeps is kept by whole
    observations. *)
Section kept.
Context {S : Type} `{EventStore S} (sha256 : string -> string) (P : S -> Prop).
Hypothesis enqueue_kept : ∀ payload e prime s, P s -> P (fst (store_enqueue payload e prime s)).

Lemma each_kept {A} (f : A -> Processor * S -> (Processor * S) * option push_error) l st :
  (∀ x st, P st.2 -> P (fst (f x st)).2) -> P st.2 -> P (fst (each f l st)).2.
Proof.
  intros Hf. revert st. induction l as [|x l IH]; intros st Hs; [done|]. cbn [each].
  specialize (Hf x st Hs). destruct (f x st) as [st' [err|]]; [done|by apply IH].
Qed.

Lemma native_kept prime now n st : P st.2 -> P (fst (observe_native sha256 prime now n st)).2.
Proof.
  destruct st as [p s]. intros Hs. cbn [snd] in Hs. unfold observe_native. case_match; [done|].
  match goal with |- context [store_enqueue ?a ?b ?c s] => pose proof (enqueue_kept a b c s Hs); destruct (store_enqueue a b c s) as [s' [err|]] end; done.
Qed.

Lemma sample_kept retained now x st : P st.2 -> P (fst (observe_sample sha256 retained now x st)).2.
Proof.
  destruct st as [p s]. intros Hs. cbn [snd] in Hs. unfold observe_sample. repeat (case_match; [done|]).
  destruct (Value x); [|done]. repeat case_match; try done.
  match goal with E : store_enqueue ?a ?b ?c s = _ |- _ => pose proof (enqueue_kept a b c s Hs) as K; rewrite E in K; exact K end.
Qed.

Lemma observation_kept ob now st : P st.2 -> P (fst (Observe sha256 ob now st)).2.
Proof.
  intros Hs. unfold Observe. destruct (negb _); [done|].
  assert (Hn : P (fst (observe_natives sha256 ob now st)).2).
  { unfold observe_natives. destruct (Notifications ob) as [ns|]; [|done].
    pose proof (each_kept (observe_native sha256 (priming ob now st.1) now) ns st (native_kept _ _) Hs) as K.
    by destruct (each _ ns st) as [[p s] [err|]]. }
  destruct (observe_natives sha256 ob now st) as [st' [err|]]; [done|]. unfold observe_samples.
  pose proof (each_kept (observe_sample sha256 (Retained ob) now) (Samples ob) st' (sample_kept _ _) Hn) as K.
  by destruct (each _ (Samples ob) st') as [[p s] [err|]].
Qed.
End kept.

(** ** What an answer says *)

Lemma mutate_none change saved s s' : mutate change saved s = (s', None) ->
  Available s = true ∧ Available s' = true ∧
  (change (data s) = Unchanged ∧ s' = s ∨ change (data s) = Changed (data s')).
Proof.
  unfold mutate, Available. destruct (closed s) eqn:C, (failed s) eqn:F; try done. cbn [orb].
  destruct (change (data s)) eqn:E; [done| |].
  - intros [= <-]. rewrite C, F. auto.
  - destruct saved; [|done]. cbn [negb]. intros [= <-]. cbn. auto.
Qed.

Lemma mutate_some change saved s s' e : mutate change saved s = (s', Some e) -> data s' = data s.
Proof. unfold mutate. repeat case_match; intros ?; by simplify_eq/=. Qed.

Section answers.
Variable Parse : string -> option PushTransport.URL.
Variable RawQuery : PushTransport.URL -> string.
Variable ParseMediaType : string -> option string.
Variable on_curve : list Z -> bool.
Variables subscriptionID sha256 : string -> string.
Variable order : diskState -> list (string * storedSubscription).
Variable disk : Store -> bool.
Abbreviation serve := (serve Parse RawQuery ParseMediaType on_curve subscriptionID sha256).
Abbreviation handle := (handle Parse on_curve subscriptionID sha256).
Abbreviation guard := (guard Parse RawQuery ParseMediaType).
Abbreviation readEndpoint := (readEndpoint Parse).
Abbreviation SubscriptionStatus := (SubscriptionStatus subscriptionID).
Abbreviation step := (step Parse RawQuery ParseMediaType on_curve subscriptionID sha256 order disk).
Abbreviation responses := (responses Parse RawQuery ParseMediaType on_curve subscriptionID sha256 order disk).

Definition recent (now : Z) (l : list Z) : list Z := List.filter (λ at_, now - at_ <? 60000) l.

Definition refusals : list Z := [400; 403; 404; 409; 413; 429; 503].

(** What a response says of the stored state before and after. *)
Definition truthful (resp : response) (body : received) (id : option string) (now : Z) (d d' : diskState) : Prop :=
  match resp with
  | Abort status _ => d' = d ∧ status ∈ refusals
  | Status registered prefs => d' = d ∧ ∃ e, readEndpoint body = inr e ∧ SubscriptionStatus e d = (prefs, registered)
  | Registered prefs =>
      ∃ sub, readJSON read_registration body = inr (Some sub, Some prefs) ∧
        is_Some (canonicalSubscription Parse on_curve sub) ∧
        SubscriptionStatus (PushTransport.Endpoint sub) d' = (prefs, true) ∧ Tests d' = Tests d ∧
        ∀ item, item ∈ Queue d' -> SubscriptionID item = subscriptionID (PushTransport.Endpoint sub) ->
          allows prefs (Kind (ItemPayload item)) = true
  | Removed =>
      ∃ e, readEndpoint body = inr e ∧ SubscriptionStatus e d' = (DefaultPreferences, false) ∧ Tests d' = Tests d ∧
        (is_Some (Subscriptions d !! subscriptionID e) -> ∀ item, item ∈ Queue d' -> SubscriptionID item ≠ subscriptionID e)
  | QueuedTest =>
      ∃ e i, readEndpoint body = inr e ∧ id = Some i ∧ is_Some (Subscriptions d !! subscriptionID e) ∧
        (length (recent (unix_milli now) (Tests d)) < 10)%nat ∧
        Tests d' = recent (unix_milli now) (Tests d) ++ [unix_milli now] ∧
        Queue d' = Queue d ++
          [new_delivery (payload_of sha256 "test" "system" i "Test notification" "Web Push is working for this browser." now now)
             "" (subscriptionID e)]
  end.

Lemma reply_refuses e d body id now : truthful (replyError e) body id now d d.
Proof. destruct e as [|[]|]; simpl; split; try done; unfold refusals; set_solver. Qed.

Lemma canonical_endpoint sub c : canonicalSubscription Parse on_curve sub = Some c -> PushTransport.Endpoint c = PushTransport.Endpoint sub.
Proof. by intros (p & a & _ & _ & _ & _ & -> & _)%canonical_inv. Qed.

Lemma register_truthful body sub c prefs id now d d' :
  readJSON read_registration body = inr (Some sub, Some prefs) -> canonicalSubscription Parse on_curve sub = Some c ->
  register subscriptionID (stored_form c) prefs d = Changed d' -> truthful (Registered prefs) body id now d d'.
Proof.
  intros Hb Hc Hr. exists sub. split; [done|]. split; [by exists c|]. rewrite <- (canonical_endpoint _ _ Hc).
  assert (∃ last, d' = set_queue (List.filter (λ item, negb (String.eqb (SubscriptionID item) (subscriptionID (PushTransport.Endpoint c))) ||
                                  allows prefs (Kind (ItemPayload item))) (Queue d))
            (DiskState (Epoch d) (<[subscriptionID (PushTransport.Endpoint c) := Stored (stored_form c) prefs last]> (Subscriptions d))
               (Dedupe d) (Queue d) (Tests d))) as [last ->].
  { unfold register in Hr. cbn [stored_form Endpoint] in Hr. repeat case_match; try done; injection Hr as <-; eauto. }
  split; [|split; [done|]].
  - unfold PushRoutes.SubscriptionStatus. cbn. rewrite lookup_insert_eq. cbn. by rewrite String.eqb_refl.
  - intros item Hi Hs. cbn in Hi. apply list_elem_of_In, filter_In in Hi as [_ Hi]. rewrite Hs, String.eqb_refl in Hi. exact Hi.
Qed.

Lemma remove_truthful body e id now d d' :
  readEndpoint body = inr e -> (remove subscriptionID e d = Changed d' ∨ remove subscriptionID e d = Unchanged ∧ d' = d) ->
  truthful Removed body id now d d'.
Proof.
  intros Hb Hr. exists e. split; [done|]. unfold remove in Hr. unfold PushRoutes.SubscriptionStatus.
  destruct (Subscriptions d !! subscriptionID e) eqn:E.
  - destruct Hr as [[= <-]|[? _]]; [|done]. cbn. rewrite lookup_delete_eq. split; [done|]. split; [done|]. intros _ item Hi Hs.
    apply list_elem_of_In, filter_In in Hi as [_ Hi]. by rewrite Hs, String.eqb_refl in Hi.
  - destruct Hr as [?|[_ ->]]; [done|]. rewrite E. split; [done|]. split; [done|]. by intros [? ?].
Qed.

Lemma test_truthful body e i now d d' :
  readEndpoint body = inr e ->
  queueTest subscriptionID (payload_of sha256 "test" "system" i "Test notification" "Web Push is working for this browser." now now)
    e (unix_milli now) d = Changed d' ->
  truthful QueuedTest body (Some i) now d d'.
Proof.
  intros Hb Hq. exists e, i. split; [done|]. split; [done|]. unfold queueTest in Hq.
  destruct (Subscriptions d !! subscriptionID e); [|done]. case_match; [done|]. case_match eqn:L; [done|]. injection Hq as <-.
  apply orb_false_iff in L as [L%Nat.leb_gt _]. split; [by eexists|]. split; [done|]. by split.
Qed.

Lemma read_refuses {A} (read : gval -> option A) body r id now d :
  readJSON read body = inl r -> truthful r body id now d d.
Proof. unfold readJSON. intros ?. repeat case_match; simplify_eq; split; try done; unfold refusals; set_solver. Qed.

Lemma endpoint_refuses body r id now d : readEndpoint body = inl r -> truthful r body id now d d.
Proof.
  unfold PushRoutes.readEndpoint. destruct (readJSON _ _) eqn:R; [intros [= <-]; by eapply read_refuses|].
  case_match; [done|]. intros [= <-]. apply (reply_refuses InvalidEndpoint).
Qed.

(** An answer that follows a change of the store. *)
Lemma answered_truthful ok change saved s body id now :
  (change (data s) = Unchanged -> truthful ok body id now (data s) (data s)) ->
  (∀ d', change (data s) = Changed d' -> truthful ok body id now (data s) d') ->
  let r := answered ok (stored (mutate change saved s)) in truthful r.2 body id now (data s) (data r.1).
Proof.
  intros Hu Hc. unfold answered, stored. destruct (mutate change saved s) as [s1 [err|]] eqn:M; cbn [fst snd fmap option_fmap option_map].
  - rewrite (mutate_some _ _ _ _ _ M). apply reply_refuses.
  - destruct (mutate_none _ _ _ _ M) as (_ & _ & [[U ->]|U]); auto.
Qed.

Lemma handle_truthful rt body id now saved s :
  let r := handle rt body id now saved s in truthful r.2 body id now (data s) (data r.1).
Proof.
  destruct rt; cbn [PushRoutes.handle]; unfold with_endpoint, serve_registration.
  - destruct (readEndpoint body) as [r|e] eqn:R; [by apply endpoint_refuses|].
    destruct (SubscriptionStatus e (data s)) as [p reg] eqn:E. split; [done|]. by exists e.
  - destruct (readJSON read_registration body) as [r|[[sub|] [prefs|]]] eqn:R;
      [by eapply read_refuses| |apply (reply_refuses InvalidEndpoint)..].
    unfold Register. destruct (canonicalSubscription _ _ _) as [c|] eqn:C; [|apply reply_refuses].
    apply answered_truthful; [|intros d'; by eapply register_truthful].
    unfold register. by repeat case_match.
  - destruct (readEndpoint body) as [r|e] eqn:R; [by apply endpoint_refuses|].
    apply answered_truthful; intros; eapply remove_truthful; eauto.
  - destruct (readEndpoint body) as [r|e] eqn:R; [by apply endpoint_refuses|].
    destruct id as [i|]; [|apply (reply_refuses OtherError)].
    apply answered_truthful; [|intros d'; by eapply test_truthful].
    unfold queueTest. by repeat case_match.
Qed.

Lemma guard_through r available : guard r available = None ->
  same_https_origin Parse RawQuery r = true ∧ is_json ParseMediaType r = true ∧ available = true.
Proof.
  unfold PushRoutes.guard. destruct (same_https_origin _ _ _), (is_json _ _), available; done.
Qed.
(** C31: What the API answers is true of the stored state: a registration is shown
    with its preferences and nothing that they exclude stays queued, a removed
    one is not shown and nothing of it stays queued, a test is queued, and a
    refused request changes nothing.  Anything but a refusal needs a request in
    JSON from the dashboard's own HTTPS origin and an available service. *)
Theorem answers_truthful (rt : route) (r : Request) (id : option string) (now : Z) (saved : bool) (v : Service) :
  let '(v', resp) := serve rt r id now saved v in
  match store v, store v' with
  | Some s, Some s' => truthful resp (Body r) id now (data s) (data s')
  | None, None => True
  | _, _ => False
  end ∧
  (status_code resp ∈ refusals ∨
   same_https_origin Parse RawQuery r = true ∧ is_json ParseMediaType r = true ∧ service_available v = true).
Proof.
  unfold PushRoutes.serve. destruct (guard r (service_available v)) as [refusal|] eqn:G.
  - assert (R : ∃ st m, refusal = Abort st m ∧ st ∈ refusals).
    { revert G. unfold PushRoutes.guard. repeat case_match; intros [= <-]; eexists _, _; (split; [done|]); unfold refusals; set_solver. }
    destruct R as (st & m & -> & R). split; [by case_match|by left].
  - destruct (guard_through _ _ G) as (O & J & Av). destruct (store v) as [s|] eqn:E; [|by unfold service_available in Av; rewrite E in Av].
    pose proof (handle_truthful rt (Body r) id now saved s) as T. destruct (handle rt (Body r) id now saved s) as [s' resp].
    simpl in *. split; [done|by right].
Qed.

(** ** The rate of tests *)

Lemma recent_app now l l' : recent now (l ++ l') = recent now l ++ recent now l'.
Proof. apply List.filter_app. Qed.

Lemma recent_recent now now' l : now <= now' -> recent now' (recent now l) = recent now' l.
Proof.
  intros Hn. induction l as [|a l IH]; [done|]. unfold recent in *. cbn [List.filter].
  destruct (Z.ltb_spec (now - a) 60000); cbn [List.filter]; [by rewrite IH|].
  by rewrite (proj2 (Z.ltb_ge (now' - a) 60000)) by lia.
Qed.

(** At every later time no more accepted tests are recent than the store
    remembers. *)
Definition remembers (t : Z) (accepted tests : list Z) : Prop :=
  ∀ now, t <= now -> (length (recent now accepted) <= length (recent now tests))%nat.

Lemma remembers_later t t' accepted tests : t <= t' -> remembers t accepted tests -> remembers t' accepted tests.
Proof. intros Ht R now Hn. apply R. lia. Qed.

(** The accepted tests in order: the first of eleven is a minute before the
    last. *)
Definition spaced (l : list Z) : Prop := ∀ i a b, l !! i = Some a -> l !! (i + 10)%nat = Some b -> 60000 <= b - a.

Lemma ordered_lookup l i k a x : StronglySorted Z.le l -> l !! i = Some a -> l !! (i + k)%nat = Some x -> a <= x.
Proof.
  revert i. induction l as [|y l IH]; intros i O Ha Hx; [done|]. apply StronglySorted_cons in O as [Hy O].
  destruct i; simpl in *; [|by eapply IH]. injection Ha as <-. destruct k; simpl in Hx; [injection Hx as <-; lia|].
  rewrite Forall_forall in Hy. apply Hy. by apply list_elem_of_lookup_2 in Hx.
Qed.

Lemma spaced_snoc l now :
  spaced l -> StronglySorted Z.le (l ++ [now]) -> (length (recent now l) < 10)%nat -> spaced (l ++ [now]).
Proof.
  intros S O R i a b Ha Hb. destruct (decide (i + 10 < length l)%nat) as [Hlt|Hge].
  - rewrite lookup_app_l in Ha by lia. rewrite lookup_app_l in Hb by lia. by eapply S.
  - pose proof (lookup_lt_Some _ _ _ Hb) as Hl. rewrite length_app in Hl. cbn in Hl.
    assert (Hi : (i + 10 = length l)%nat) by lia. rewrite Hi, list_lookup_middle in Hb by done. injection Hb as <-.
    rewrite lookup_app_l in Ha by lia. apply Znot_gt_le. intros Hc.
    assert (L : recent now (drop i l) = drop i l).
    { apply forallb_filter_id, forallb_forall. intros x Hx%list_elem_of_In. apply Z.ltb_lt.
      enough (a <= x) by lia. apply list_elem_of_lookup in Hx as [k Hx]. rewrite lookup_drop in Hx. apply StronglySorted_app_1_l in O. by eapply ordered_lookup. }
    apply (f_equal length) in L. rewrite length_drop in L.
    assert (length (recent now (drop i l)) <= length (recent now l))%nat; [|lia].
    rewrite <- (take_drop i l) at 2. rewrite recent_app, length_app. lia.
Qed.
(** ** Runs *)

Definition tests_of (v : Service) : option (list Z) := Tests ∘ data <$> store v.

Lemma mutate_tests change saved s :
  (∀ d d', change d = Changed d' -> Tests d' = Tests d) -> Tests (data (fst (mutate change saved s))) = Tests (data s).
Proof. intros Hc. unfold mutate. repeat case_match; simpl; eauto. Qed.

Lemma reset_tests e d d' : resetEpoch e d = Changed d' -> Tests d' = Tests d.
Proof. by intros [= <-]. Qed.

Lemma enqueue_tests payload e prime ord s saved : Tests (data (fst (Enqueue payload e prime ord saved s))) = Tests (data s).
Proof.
  unfold Enqueue. repeat (case_match; [done|]). apply mutate_tests. intros d d'. unfold enqueue.
  repeat case_match; intros ?; by simplify_eq/=.
Qed.

Lemma swept_tests now d d' : pending_change now d = Changed d' -> Tests d' = Tests d.
Proof. unfold pending_change. case_match; [done|]. by intros [= <-]. Qed.

Lemma finished_tests item status transient now d d' : finish item status transient now d = Changed d' -> Tests d' = Tests d.
Proof. unfold finish. case_match; [done|]. by intros [= <-]. Qed.

Lemma reset_service_tests id src conn now p s :
  Tests (data (fst (Reset (H := durable order disk) id src conn now (p, s))).2) = Tests (data s).
Proof.
  unfold Reset. destruct id as [e|]; [|done]. cbn [snd]. pose proof (mutate_tests (resetEpoch e) (disk s) s (reset_tests e)) as M.
  unfold store_reset, durable in *. by destruct (mutate _ _ _) as [s' [err|]].
Qed.

Lemma observe_tests ob now p s :
  Tests (data (fst (Observe sha256 (H := durable order disk) ob now (p, s))).2) = Tests (data s).
Proof.
  apply (observation_kept (H := durable order disk) sha256 (λ s', Tests (data s') = Tests (data s))); [|done].
  intros payload e prime s0 H0. unfold store_enqueue, durable. by rewrite enqueue_tests.
Qed.

Lemma on_store_tests change saved v :
  (∀ d d', change d = Changed d' -> Tests d' = Tests d) -> tests_of (on_store change saved v) = tests_of v.
Proof.
  intros Hc. unfold on_store, tests_of. destruct (store v) as [s|] eqn:E; [|by rewrite E]. cbn.
  f_equal. by apply mutate_tests.
Qed.

(** A request counts a test exactly when it is accepted; nothing else touches
    the times of the tests. *)
Lemma serve_tests rt r id now saved v :
  let '(v', resp) := serve rt r id now saved v in
  match resp with
  | QueuedTest => ∃ l, tests_of v = Some l ∧ (length (recent (unix_milli now) l) < 10)%nat ∧
      tests_of v' = Some (recent (unix_milli now) l ++ [unix_milli now])
  | _ => tests_of v' = tests_of v
  end.
Proof.
  unfold PushRoutes.serve. destruct (guard r (service_available v)) as [refusal|] eqn:G.
  - revert G. unfold PushRoutes.guard. by repeat case_match; intros [= <-].
  - destruct (store v) as [s|] eqn:E; [|done]. unfold tests_of. rewrite E.
    pose proof (handle_truthful rt (Body r) id now saved s) as T. destruct (handle rt (Body r) id now saved s) as [s' resp].
    cbn [fst snd] in T. cbn [store with_store fmap option_fmap option_map compose]. destruct resp; cbn [truthful] in T.
    + by destruct T as [-> _].
    + by destruct T as [-> _].
    + by destruct T as (? & _ & _ & _ & -> & _).
    + by destruct T as (? & _ & _ & -> & _).
    + destruct T as (? & ? & _ & _ & _ & L & -> & _). by eexists.
Qed.

Lemma other_tests e v : (∀ rt r id now saved, e ≠ Served rt r id now saved) -> tests_of (fst (step e v)) = tests_of v.
Proof.
  intros He. destruct e as [| | |now saved|item status transient now saved|]; [by edestruct He| | | | |]; cbn.
  - unfold service_observe. destruct (store v) as [s|] eqn:E; [|done]. destruct (service_available v); [|done].
    pose proof (observe_tests ob now (processor v) s) as T. destruct (Observe _ _ _ _) as [ps err].
    unfold tests_of. rewrite E. cbn in *. destruct err; cbn; by rewrite T.
  - unfold service_reset. destruct (store v) as [s|] eqn:E; [|done]. destruct (service_available v); [|done].
    unfold tests_of, with_processed. rewrite E. cbn. by rewrite reset_service_tests.
  - apply on_store_tests, swept_tests.
  - apply on_store_tests, finished_tests.
  - unfold service_close, tests_of, with_store, close_store. destruct (store v) as [s|] eqn:E; [|by rewrite E].
    cbn. by destruct (closed s).
Qed.
(** The times of the requests of a run, and of its accepted tests, in
    milliseconds. *)
Definition request_times (es : list event) : list Z :=
  omap (λ e, match e with Served _ _ _ now _ => Some (unix_milli now) | _ => None end) es.

Definition accepted_tests (rs : list (Z * response)) : list Z :=
  omap (λ e, match e.2 with QueuedTest => Some (unix_milli e.1) | _ => None end) rs.

(** The accepted tests so far, in order, are not after [t], and the store
    remembers the recent ones. *)
Record tallied (t : Z) (accepted : list Z) (v : Service) : Prop := {
  tallied_sorted : StronglySorted Z.le accepted;
  tallied_past : Forall (λ a, a <= t) accepted;
  tallied_spaced : spaced accepted;
  tallied_remembered : ∀ l, tests_of v = Some l -> remembers t accepted l
}.

Lemma tallied_same t t' accepted v v' : t <= t' -> tests_of v' = tests_of v -> tallied t accepted v -> tallied t' accepted v'.
Proof.
  intros Ht E [S F G R]. split; [done| |done|].
  - eapply Forall_impl; [exact F|]. intros a Ha. cbn in Ha. lia.
  - intros l Hl. rewrite E in Hl. by apply (remembers_later t); [|apply R].
Qed.

Lemma tallied_next t t' accepted v v' l :
  t <= t' -> tests_of v = Some l -> (length (recent t' l) < 10)%nat -> tests_of v' = Some (recent t' l ++ [t']) ->
  tallied t accepted v -> tallied t' (accepted ++ [t']) v'.
Proof.
  intros Ht E L E' [S F G R]. specialize (R l E). rewrite Forall_forall in F.
  assert (O : StronglySorted Z.le (accepted ++ [t'])).
  { apply StronglySorted_app_2; [|done|by repeat constructor]. intros a b Ha ->%list_elem_of_singleton. specialize (F a Ha). cbn in F. lia. }
  split; [done| | |].
  - apply Forall_app. split; [|by repeat constructor]. apply Forall_forall. intros a Ha. specialize (F a Ha). cbn in F. lia.
  - apply spaced_snoc; [done|done|]. specialize (R t' Ht). lia.
  - intros l' Hl. rewrite E' in Hl. injection Hl as <-. intros now Hn. rewrite !recent_app, !length_app, recent_recent by done.
    specialize (R now ltac:(lia)). lia.
Qed.

Lemma run_spaced es v t accepted :
  StronglySorted Z.le (t :: request_times es) -> tallied t accepted v ->
  spaced (accepted ++ accepted_tests (responses es v)).
Proof.
  revert v t accepted. induction es as [|e es IH]; intros v t accepted O T; [cbn; rewrite app_nil_r; by apply T|].
  apply StronglySorted_cons in O as [Ht O].
  assert (D : (∃ rt r id now saved, e = Served rt r id now saved) ∨ (∀ rt r id now saved, e ≠ Served rt r id now saved))
    by (destruct e; [left; by eexists _, _, _, _, _|by right..]).
  destruct D as [(rt & r & id & now & saved & ->)|Hno].
  - cbn in Ht, O. apply Forall_cons in Ht as [Hn _]. cbn [PushRoutes.responses PushRoutes.step].
    pose proof (serve_tests rt r id now saved v) as S. destruct (serve rt r id now saved v) as [v' resp].
    destruct resp; cbn [accepted_tests omap list_omap snd fst]; try (apply (IH v' (unix_milli now)); [done|eapply tallied_same; [exact Hn|exact S|exact T]]).
    destruct S as (l & E & L & E'). change (spaced (accepted ++ [unix_milli now] ++ accepted_tests (responses es v'))).
    rewrite app_assoc. apply (IH v' (unix_milli now)); [done|exact (tallied_next t _ accepted v v' l Hn E L E' T)].
  - assert (E : tests_of (fst (step e v)) = tests_of v) by by apply other_tests.
    assert (Er : responses (e :: es) v = responses es (fst (step e v))).
    { cbn. destruct (step e v) as [v' o]. destruct e; try done. by edestruct Hno. }
    rewrite Er. apply (IH _ t); [|by eapply tallied_same].
    destruct e; try (apply StronglySorted_cons; by split). by edestruct Hno.
Qed.

(** C30: However requests, telemetry, the dispatcher and failures of the disk
    interleave, at most ten tests are accepted in any minute: the eleventh after
    a test comes at least sixty seconds later, as long as the clock does not go
    back. *)
Theorem tests_rate_limited (es : list event) (v : Service) (i : nat) (a b : Z) :
  StronglySorted Z.le (request_times es) ->
  accepted_tests (responses es v) !! i = Some a -> accepted_tests (responses es v) !! (i + 10)%nat = Some b ->
  60000 <= b - a.
Proof.
  intros O. destruct (request_times es) as [|t ts] eqn:E.
  - assert (N : accepted_tests (responses es v) = []); [|by rewrite N].
    clear O i a b. revert v E. induction es as [|e es IH]; intros v E; [done|].
    destruct e; try discriminate E; cbn; apply IH; exact E.
  - apply (run_spaced es v t []).
    + rewrite E. apply StronglySorted_cons. split; [|done]. apply StronglySorted_cons in O as [F _]. by constructor.
    + split; [by constructor|by constructor|by intros ? ? ?|]. intros l _ now _. cbn. lia.
Qed.
(** A key of the right alphabet but not a key is answered as an outage: the
    errors of [validateSubscription] about keys are not the one that the API
    turns into a bad request. *)
Theorem bad_key_is_unavailable (sub : PushTransport.Subscription) (prefs : Preferences) (saved : bool) (s : Store) p a :
  decode_key (PushTransport.P256dh sub) = Some p -> decode_key (PushTransport.Auth sub) = Some a ->
  is_Some (validateEndpoint Parse (PushTransport.Endpoint sub)) -> canonicalSubscription Parse on_curve sub = None ->
  answered (Registered prefs) (Register Parse on_curve subscriptionID sub prefs saved s) =
  (s, Abort 503 "notifications unavailable").
Proof.
  intros Hp Ha [u Hu] Hc. unfold Register, answered, subscription_error. by rewrite Hc, Hp, Ha, Hu.
Qed.

(** The page can read the count of failed observations exactly. *)
Theorem failures_stay_exact (es : list event) (on platform subject : bool) (opened : option Store) (id : option string) (now : Z) :
  let v := foldl (λ v e, fst (step e v)) (NewService order disk on platform subject opened id now) es in
  0 <= FailureCount (admission v) <= maxAdmissionFailures.
Proof.
  cbn zeta. apply (foldl_inv (λ v, 0 <= FailureCount (admission v) <= maxAdmissionFailures)).
  - intros v e B. destruct e; cbn.
    + unfold PushRoutes.serve. destruct (guard _ _), (store v); try done. by destruct (handle _ _ _ _ _ _).
    + unfold service_observe. destruct (store v); [|done]. destruct (service_available v); [|done].
      destruct (Observe _ _ _ _) as [ps [err|]]; [|done]. cbn.
      destruct (Z.ltb_spec (FailureCount (admission v)) maxAdmissionFailures); lia.
    + unfold service_reset. destruct (store v); [|done]. by destruct (service_available v).
    + unfold on_store. by destruct (store v).
    + unfold on_store. by destruct (store v).
    + unfold service_close. by destruct (store v).
  - unfold NewService. repeat case_match; cbn; unfold maxAdmissionFailures; lia.
Qed.
End answers.

(** ** Concrete runs *)

Definition page_origin : string := "https://dash.local".
Definition page_parse (s : string) : option PushTransport.URL :=
  if String.eqb s page_origin then Some (PushTransport.MkURL "https" "" false "dash.local" "" "") else plain_parse s.
Definition plain_query (_ : PushTransport.URL) : string := "".
Definition plain_media (s : string) : option string := Some s.
Definition any_order (d : diskState) : list (string * storedSubscription) := map_to_list (Subscriptions d).
Definition good_disk (_ : Store) : bool := true.

Definition browser (n : Z) : string := "https://fcm.googleapis.com/" +:+ pretty n.
Definition page_request (body : gval) : Request :=
  MkRequest page_origin "same-origin" "application/json" "dash.local" (JSON body).
Definition registration (n : Z) : gval :=
  let s := PushTransport.sample_subscription "" in
  GObject [("subscription", GObject [("endpoint", GString (browser n)); ("expirationTime", GNil);
             ("keys", GObject [("p256dh", GString (PushTransport.P256dh s)); ("auth", GString (PushTransport.Auth s))])]);
           ("preferences", GObject [("native", GBool true); ("ev", GBool false); ("water", GBool true); ("lowBattery", GBool true)])].

(** Ten browsers register, each asks for a test within ten seconds, and the
    first asks again after a minute, after another attempt too early. *)
Definition at_ms (ms : Z) : Z := (1700000000000 + ms) * 1000000.
Definition register_event (n : Z) : event := Served RegisterRoute (page_request (registration n)) None (at_ms 0) true.
Definition test_event (n ms : Z) : event :=
  Served TestRoute (page_request (GObject [("endpoint", GString (browser n))])) (Some (pretty ms)) (at_ms ms) true.
Definition browsers : list Z := [0; 1; 2; 3; 4; 5; 6; 7; 8; 9].
Definition test_run : list event :=
  (register_event <$> browsers) ++ ((λ n, test_event n (n * 1000)) <$> browsers) ++ [test_event 0 59000; test_event 0 60000].
Definition fresh_service : Service :=
  NewService any_order good_disk true true true (Some (MkStore empty_state false false ∅)) (Some "e1") (at_ms 0).
Definition test_responses : list (Z * response) :=
  responses page_parse plain_query plain_media any_point id id any_order good_disk test_run fresh_service.

Example test_statuses : (status_code ∘ snd <$> test_responses) =
  repeat 200 10 ++ repeat 202 10 ++ [429; 202].
Proof. by vm_compute. Qed.

(** A witness for [tests_rate_limited]. *)
Lemma tests_rate_limited_witness :
  accepted_tests test_responses !! 0%nat = Some 1700000000000 ∧
  accepted_tests test_responses !! 10%nat = Some 1700000060000 ∧ 60000 <= 1700000060000 - 1700000000000.
Proof.
  split; [by vm_compute|]. split; [by vm_compute|].
  apply (tests_rate_limited page_parse plain_query plain_media any_point id id any_order good_disk test_run fresh_service 0).
  - apply Sorted.Sorted_StronglySorted; [intros x y z; lia|]. vm_compute. repeat constructor; discriminate.
  - by vm_compute.
  - by vm_compute.
Defined.

(** A witness for [bad_key_is_unavailable]: an empty key. *)
Lemma bad_key_is_unavailable_witness :
  let sub := PushTransport.MkSubscription (browser 0) "" "" in
  answered (Registered DefaultPreferences)
    (Register page_parse any_point id sub DefaultPreferences true (MkStore empty_state false false ∅)) =
  (MkStore empty_state false false ∅, Abort 503 "notifications unavailable").
Proof.
  apply (bad_key_is_unavailable page_parse any_point id _ _ _ _ [] []); [by vm_compute|by vm_compute| |by vm_compute].
  vm_compute. by eexists.
Defined.
