(* ===== verification/Settings.v ===== *)
(** * The settings of the dashboard

    [internal/settings/settings.go]: the settings that can be edited at run
    time, their validation, the file they are written to, and what an
    administrator sees of them.  The file is the object that its JSON holds. *)

From Stdlib Require Import ZArith QArith Qround Ascii String Lia.
From stdpp Require Import base list option strings gmap fin_maps.
From S2P Require Import Prelude Float64 JsValue Utf8 ControllerCommands JsonFields.

#[local] Open Scope string_scope.
#[local] Open Scope list_scope.
#[local] Open Scope Z_scope.

(** ** Keys and types *)

Inductive setting_type : Type := TString | TBool | TInt.

Definition shown_sections : list string :=
  ["show_ev"; "show_washer"; "show_dryer"; "show_dishwasher"; "show_home_section"; "show_ha_covers"; "show_ha_media";
   "show_ha_scenes"; "show_ha_weather"; "show_daily_stats"; "show_header_toggles"; "show_batteries";
   "show_solar_production"; "show_active_loads"; "show_ha_sensors"; "show_ha_numbers"].

Definition allowed : list (string * setting_type) :=
  ("camera_topic", TString) :: ((λ k, (k, TBool)) <$> shown_sections) ++
  [("mqtt_host", TString); ("mqtt_port", TInt); ("ha_url", TString); ("ha_token", TString)].

Definition SecretKeys : list string := ["ha_token"].

Definition port_ok (v : gval) : bool :=
  match v with
  | GInt n => (1 <=? n) && (n <=? 65535)
  | GFloat (F64.Fin q) => F64.is_integer q && Qle_bool 1 q && Qle_bool q 65535
  | _ => false
  end.

Definition typeOK (key : string) (v : gval) : bool :=
  match assoc key allowed with
  | Some TString => match v with GString _ => true | _ => false end
  | Some TInt => port_ok v
  | Some TBool => match v with GBool _ => true | _ => false end
  | None => false
  end.

(** ** State *)

(** What the environment and the command line determine at the start. *)
Record environment := Env { cameraEnv : string; envHost : string; envPort : Z }.

Abbreviation settings := (gmap string gval).

(** [file] is [None] while there is none that holds an object. *)
Record Settings := MkSettings { env : environment; current : settings; file : option settings }.

Definition defaults (e : environment) : settings :=
  <["camera_topic" := GString (cameraEnv e)]> (<["mqtt_host" := GString (envHost e)]>
    (<["mqtt_port" := GInt (envPort e)]> (<["ha_url" := GString ""]> (<["ha_token" := GString ""]>
      (list_to_map ((λ k, (k, GBool true)) <$> shown_sections)))))).

(** The stored values that are allowed replace the defaults. *)
Definition load (stored : settings) (start : settings) : settings :=
  foldl (λ cur k, match stored !! k with
                  | Some v => if typeOK k v then <[k := v]> cur else cur
                  | None => cur
                  end) start allowed.*1.

Definition Init (e : environment) (stored : option settings) : Settings :=
  MkSettings e (match stored with Some m => load m (defaults e) | None => defaults e end) stored.

(** ** Changes *)

Inductive settings_error : Type := errUnknown (key : string) | errType (key : string) | errStorage.

(** What writing comes to: nothing was replaced, or the file was, and its
    directory flushed or not. *)
Inductive write_result : Type := NotReplaced | Replaced (flushed : bool).

(** The first offence, in the order of iteration. *)
Fixpoint check_patch (patch : list (string * gval)) : option settings_error :=
  match patch with
  | [] => None
  | (k, v) :: rest =>
      match assoc k allowed with
      | None => Some (errUnknown k)
      | Some _ => if typeOK k v then check_patch rest else Some (errType k)
      end
  end.

(** The mask of a secret stands for the secret itself. *)
Definition is_mask (k : string) (v : gval) : bool :=
  String.eqb k "ha_token" && match v with GString s => String.eqb s "***" | _ => false end.

Definition merged (patch : list (string * gval)) (cur : settings) : settings :=
  foldl (λ next e, if is_mask e.1 e.2 then next else <[e.1 := e.2]> next) cur patch.

(** What a value is after it was written and read. *)
Definition reread (m : settings) : settings := any_of <$> m.

Definition Apply (patch : list (string * gval)) (w : write_result) (s : Settings) : Settings * option settings_error :=
  match check_patch patch with
  | Some err => (s, Some err)
  | None =>
      let next := merged patch (current s) in
      if negb (forallb (λ e, encodable e.2) (map_to_list next)) then (s, Some errStorage)
      else match w with
           | NotReplaced => (s, Some errStorage)
           | Replaced flushed =>
               (MkSettings (env s) next (Some (reread next)), if flushed then None else Some errStorage)
           end
  end.

(** ** What is shown and used *)

Definition secret_shown (v : option gval) : gval :=
  match v with Some (GString s) => if String.eqb s "" then GString "" else GString "***" | _ => GString "" end.

Definition Masked (s : Settings) : settings := foldl (λ out k, <[k := secret_shown (out !! k)]> out) (current s) SecretKeys.

(** The default that an override is compared with. *)
Definition env_default (e : environment) (key : string) : option gval :=
  if String.eqb key "mqtt_host" then Some (GString (envHost e))
  else if String.eqb key "mqtt_port" then Some (GInt (envPort e)) else None.

(** [v == def]: values of different dynamic types differ. *)
Definition same_value (v def : gval) : bool :=
  match v, def with
  | GString a, GString b => String.eqb a b
  | GInt a, GInt b => a =? b
  | GFloat a, GFloat b => F64.eqb a b
  | GBool a, GBool b => Bool.eqb a b
  | GNil, GNil => true
  | _, _ => false
  end.

Definition connection_keys : list string := ["mqtt_host"; "mqtt_port"; "ha_url"; "ha_token"].

Definition override (s : Settings) (key : string) : option gval :=
  match current s !! key with
  | None => None
  | Some v =>
      if same_value v (GString "") || same_value v GNil then None
      else match env_default (env s) key with
           | Some def => if same_value v def then None else Some v
           | None => Some v
           end
  end.

Definition Overrides (s : Settings) : settings :=
  foldl (λ out k, match override s k with Some v => <[k := v]> out | None => out end) ∅ connection_keys.

(** The broker that [main] connects to after the overrides. *)
Definition int_of (v : gval) : option Z :=
  match v with GFloat (F64.Fin q) => Some (F64.Qtrunc q) | GInt n => Some n | _ => None end.

Definition broker (s : Settings) : string * Z :=
  (match Overrides s !! "mqtt_host" with Some (GString h) => h | _ => envHost (env s) end,
   match Overrides s !! "mqtt_port" ≫= int_of with Some p => p | None => envPort (env s) end).

(** ** Facts *)

Definition declared (k : string) : Prop := k ∈ allowed.*1.

Lemma typeOK_declared k v : typeOK k v = true -> declared k.
Proof. unfold typeOK. intros H. apply assoc_is_Some. destruct (assoc k allowed); [by eexists|done]. Qed.

Definition well_formed (m : settings) : Prop :=
  ∀ k, match m !! k with Some v => typeOK k v = true | None => ¬ declared k end.

(** Loading one key or all of them. *)
Definition loaded (m start : settings) (k : string) : option gval :=
  match m !! k with Some v => if typeOK k v then Some v else start !! k | None => start !! k end.

Lemma load_lookup m start k : load m start !! k = loaded m start k.
Proof.
  unfold load. assert (G : ∀ l start, foldl (λ cur k, match m !! k with
      | Some v => if typeOK k v then <[k := v]> cur else cur | None => cur end) start l !! k =
      if decide (k ∈ l) then loaded m start k else start !! k).
  { induction l as [|x l IH]; intros st; cbn [foldl]; [by rewrite decide_False by apply not_elem_of_nil|].
    rewrite IH. unfold loaded. destruct (decide (k = x)) as [->|Hne].
    - rewrite (decide_True (P := x ∈ x :: l)) by by left.
      destruct (m !! x) as [v|] eqn:E; [destruct (typeOK x v) eqn:T|]; case_decide; rewrite ?lookup_insert_eq; done.
    - assert (S : match m !! x with Some v => if typeOK x v then <[x := v]> st else st | None => st end !! k = st !! k).
      { destruct (m !! x); [|done]. destruct (typeOK x g); [|done]. by rewrite lookup_insert_ne. }
      rewrite S. destruct (decide (k ∈ l)) as [Hl|Hl].
      + by rewrite decide_True by (by right).
      + rewrite decide_False; [done|]. rewrite elem_of_cons. tauto. }
  rewrite G. case_decide as D; [done|]. unfold loaded. destruct (m !! k) as [v|]; [|done].
  destruct (typeOK k v) eqn:T; [|done]. by apply typeOK_declared in T.
Qed.

Lemma defaults_well_formed e : port_ok (GInt (envPort e)) = true -> well_formed (defaults e).
Proof.
  intros Hp k. unfold defaults.
  destruct (decide (k = "camera_topic")) as [->|H1]; [by rewrite lookup_insert_eq|rewrite lookup_insert_ne by done].
  destruct (decide (k = "mqtt_host")) as [->|H2]; [by rewrite lookup_insert_eq|rewrite lookup_insert_ne by done].
  destruct (decide (k = "mqtt_port")) as [->|H3]; [by rewrite lookup_insert_eq|rewrite lookup_insert_ne by done].
  destruct (decide (k = "ha_url")) as [->|H4]; [by rewrite lookup_insert_eq|rewrite lookup_insert_ne by done].
  destruct (decide (k = "ha_token")) as [->|H5]; [by rewrite lookup_insert_eq|rewrite lookup_insert_ne by done].
  destruct (list_to_map _ !! k) as [v|] eqn:E.
  - apply elem_of_list_to_map_2, list_elem_of_fmap in E as (x & [= -> ->] & Hx).
    revert x Hx H1 H2 H3 H4 H5. apply (Forall_forall (λ x, _ -> _ -> _ -> _ -> _ -> _)).
    repeat constructor; intros; reflexivity.
  - apply not_elem_of_list_to_map_2 in E. intros D. unfold declared, allowed in D.
    rewrite fmap_cons, fmap_app, elem_of_cons, elem_of_app in D. destruct D as [D|[D|D]]; [done|..].
    + apply E. rewrite <- list_fmap_compose in *. exact D.
    + cbn in D. rewrite !elem_of_cons, elem_of_nil in D. cbn in D. tauto.
Qed.

Lemma port_reread n : 1 <= n <= 65535 -> any_of (GInt n) = GFloat (F64.Fin (inject_Z n)).
Proof. intros H. cbn. by rewrite F64.of_Z_exact by lia. Qed.

Lemma typeOK_reread k v : typeOK k v = true -> typeOK k (any_of v) = true.
Proof.
  unfold typeOK. destruct (assoc k allowed) as [[]|]; destruct v; try done. cbn [port_ok]. intros H.
  apply andb_true_iff in H as [H1 H2]. apply Z.leb_le in H1, H2. rewrite port_reread by done. cbn [port_ok].
  rewrite !andb_true_iff. split; [split|].
  - apply Qeq_bool_iff. by rewrite Qfloor_Z.
  - apply Qle_bool_iff. change 1%Q with (inject_Z 1). by rewrite <- Zle_Qle.
  - apply Qle_bool_iff. change 65535%Q with (inject_Z 65535). by rewrite <- Zle_Qle.
Qed.

Lemma typeOK_encodable k v : typeOK k v = true -> encodable v = true.
Proof. unfold typeOK. by destruct (assoc k allowed) as [[]|]; destruct v as [| |[]| | | | | |]. Qed.

Lemma check_patch_None patch k v : check_patch patch = None -> (k, v) ∈ patch -> typeOK k v = true.
Proof.
  induction patch as [|[k' v'] patch IH]; cbn [check_patch]; intros H Hin; [by apply elem_of_nil in Hin|].
  destruct (assoc k' allowed); [|done]. destruct (typeOK k' v') eqn:T; [|done].
  apply elem_of_cons in Hin as [[= -> ->]|Hin]; [done|by apply IH].
Qed.

Lemma check_patch_Some patch : (∀ k v, (k, v) ∈ patch -> typeOK k v = true) -> check_patch patch = None.
Proof.
  induction patch as [|[k v] patch IH]; intros H; cbn [check_patch]; [done|].
  rewrite (H k v) by by left. pose proof (typeOK_declared k v (H k v ltac:(by left))) as D.
  apply assoc_is_Some in D as [t ->]. apply IH. intros k' v' Hin. apply H. by right.
Qed.

Lemma merged_lookup patch cur k :
  NoDup patch.*1 ->
  merged patch cur !! k = match assoc k patch with
                          | Some v => if is_mask k v then cur !! k else Some v
                          | None => cur !! k
                          end.
Proof.
  unfold merged. revert cur. induction patch as [|[k' v'] patch IH]; intros cur Hnd; [done|].
  csimpl in Hnd. apply NoDup_cons in Hnd as [Hk Hnd]. cbn [foldl fst snd assoc]. rewrite IH by done.
  destruct (String.eqb_spec k k') as [->|Hne].
  - apply assoc_None in Hk as ->. destruct (is_mask k' v'); [done|]. by rewrite lookup_insert_eq.
  - assert (E : (if is_mask k' v' then cur else <[k' := v']> cur) !! k = cur !! k).
    { destruct (is_mask k' v'); [done|]. by rewrite lookup_insert_ne. }
    by rewrite E.
Qed.

Lemma merged_well_formed patch cur :
  check_patch patch = None -> well_formed cur -> well_formed (merged patch cur).
Proof.
  unfold merged. revert cur. induction patch as [|[k v] patch IH]; intros cur Hc Hw; [done|]. cbn [foldl fst snd].
  pose proof (check_patch_None _ k v Hc ltac:(by left)) as T.
  assert (Hc' : check_patch patch = None)
    by (apply check_patch_Some; intros k' v' Hin; eapply check_patch_None; [exact Hc|by right]).
  apply IH; [done|]. destruct (is_mask k v); [done|]. intros k'. destruct (decide (k = k')) as [<-|Hne].
  - by rewrite lookup_insert_eq.
  - rewrite lookup_insert_ne by done. apply Hw.
Qed.

Lemma well_formed_encodable m : well_formed m -> forallb (λ e, encodable e.2) (map_to_list m) = true.
Proof.
  intros Hw. apply forallb_forall. intros [k v] Hin. apply list_elem_of_In, elem_of_map_to_list in Hin.
  specialize (Hw k). rewrite Hin in Hw. by eapply typeOK_encodable.
Qed.

Lemma defaults_declared e k : is_Some (defaults e !! k) -> declared k.
Proof.
  assert (K : ∀ x v (m : settings), is_Some (<[x := v]> m !! k) -> k = x ∨ is_Some (m !! k)).
  { intros x w m H. destruct (decide (k = x)) as [->|Hne]; [by left|right]. by rewrite lookup_insert_ne in H. }
  assert (A : Forall declared ["camera_topic"; "mqtt_host"; "mqtt_port"; "ha_url"; "ha_token"]).
  { unfold declared. apply (bool_decide_unpack _). vm_compute. exact I. }
  intros H. unfold defaults in H. repeat (apply Forall_cons in A as [? A]; apply K in H as [->|H]; [done|]).
  destruct H as [w H]. apply elem_of_list_to_map_2, list_elem_of_fmap in H as (x & [= -> ->] & Hx).
  unfold declared, allowed. rewrite fmap_cons, fmap_app, elem_of_cons, elem_of_app. right. left.
  apply list_elem_of_fmap. exists (x, TBool). split; [done|]. apply list_elem_of_fmap. by exists x.
Qed.

(** What a later process reads, whatever its environment. *)
Lemma reread_load m e' : well_formed m -> load (reread m) (defaults e') = reread m.
Proof.
  intros Hw. apply map_eq. intros k. rewrite load_lookup. unfold loaded, reread. rewrite lookup_fmap.
  specialize (Hw k). destruct (m !! k) as [v|] eqn:E; cbn [fmap option_fmap option_map].
  - by rewrite typeOK_reread.
  - destruct (defaults e' !! k) as [v|] eqn:D; [|done]. exfalso. apply Hw, (defaults_declared e'). by rewrite D.
Qed.

(** ** The properties *)

Definition request : Type := list (string * gval) * write_result.
Definition serve (s : Settings) (r : request) : Settings := fst (Apply (fst r) (snd r) s).

Lemma init_well_formed e stored : port_ok (GInt (envPort e)) = true -> well_formed (current (Init e stored)).
Proof.
  intros Hp. pose proof (defaults_well_formed e Hp) as D. destruct stored as [m|]; cbn [Init current]; [|done].
  intros k. rewrite load_lookup. unfold loaded. specialize (D k). destruct (m !! k) as [v|]; [|done].
  destruct (typeOK k v) eqn:T; done.
Qed.

Lemma apply_well_formed patch w s : well_formed (current s) -> well_formed (current (fst (Apply patch w s))).
Proof.
  intros Hw. unfold Apply. destruct (check_patch patch) eqn:C; [done|]. destruct (negb _); [done|].
  destruct w; [done|]. cbn [fst current]. by apply merged_well_formed.
Qed.

(** Whatever the file held at the start and whatever patches arrive, writable or
    not, the settings are exactly the declared ones, each of its type. *)
Theorem settings_stay_typed e stored rs k :
  port_ok (GInt (envPort e)) = true ->
  match current (foldl serve (Init e stored) rs) !! k with
  | Some v => typeOK k v = true
  | None => ¬ k ∈ allowed.*1
  end.
Proof.
  intros Hp. assert (G : ∀ rs s, well_formed (current s) -> well_formed (current (foldl serve s rs))).
  { clear. induction rs as [|r rs IH]; intros s Hs; [done|]. cbn [foldl]. by apply IH, apply_well_formed. }
  exact (G rs _ (init_well_formed e stored Hp) k).
Qed.


Lemma masked_lookup s k :
  Masked s !! k = if decide (k = "ha_token") then Some (secret_shown (current s !! k)) else current s !! k.
Proof.
  unfold Masked, SecretKeys. cbn [foldl]. destruct (decide (k = "ha_token")) as [->|D].
  - by rewrite lookup_insert_eq.
  - by rewrite lookup_insert_ne.
Qed.

Lemma token_string s v : well_formed (current s) -> current s !! "ha_token" = Some v -> ∃ t, v = GString t.
Proof. intros Hw E. specialize (Hw "ha_token"). rewrite E in Hw. destruct v; try done. by eexists. Qed.


Lemma merged_keeps patch cur k : (∀ v, ¬ (k, v) ∈ patch) -> merged patch cur !! k = cur !! k.
Proof.
  unfold merged. revert cur. induction patch as [|[x w] patch IH]; intros cur Hp; [done|]. cbn [foldl fst snd].
  rewrite IH by (intros v Hin; apply (Hp v); by right). destruct (is_mask x w); [done|].
  rewrite lookup_insert_ne; [done|]. intros ->. apply (Hp w). by left.
Qed.

Lemma overrides_lookup s k : Overrides s !! k = if decide (k ∈ connection_keys) then override s k else None.
Proof.
  unfold Overrides. assert (G : ∀ l (out : settings), foldl (λ out k, match override s k with Some v => <[k := v]> out | None => out end) out l !! k =
    if decide (k ∈ l) then match override s k with Some v => Some v | None => out !! k end else out !! k).
  { induction l as [|x l IH]; intros out; cbn [foldl]; [by rewrite decide_False by apply not_elem_of_nil|].
    rewrite IH. destruct (decide (k = x)) as [->|Hne].
    - rewrite (decide_True (P := x ∈ x :: l)) by by left.
      destruct (override s x); case_decide; rewrite ?lookup_insert_eq; done.
    - assert (E : match override s x with Some v => <[x := v]> out | None => out end !! k = out !! k).
      { destruct (override s x); [|done]. by rewrite lookup_insert_ne. }
      rewrite E. destruct (decide (k ∈ l)) as [Hl|Hl]; [by rewrite decide_True by (by right)|].
      rewrite decide_False; [done|]. rewrite elem_of_cons. tauto. }
  rewrite G. case_decide; [by destruct (override s k)|done].
Qed.

(** The broker of a process that reads a host and a port from the file. *)
Lemma stored_broker s host port :
  current s !! "mqtt_host" = Some (GString host) -> host ≠ "" ->
  current s !! "mqtt_port" = Some (GFloat (F64.Fin (inject_Z port))) -> broker s = (host, port).
Proof.
  intros Hh Hne Hp. unfold broker. rewrite !overrides_lookup, !decide_True by (apply (bool_decide_unpack _); by vm_compute).
  unfold override. rewrite Hh, Hp. cbn [same_value orb]. rewrite (proj2 (String.eqb_neq host "") Hne). cbn [orb].
  change (env_default (env s) "mqtt_host") with (Some (GString (envHost (env s)))).
  change (env_default (env s) "mqtt_port") with (Some (GInt (envPort (env s)))). cbn [same_value mbind option_bind int_of].
  f_equal; [by destruct (String.eqb_spec host (envHost (env s))) as [->|]|].
  unfold F64.Qtrunc. rewrite Qfloor_Z. unfold Qceiling. rewrite <- inject_Z_opp, Qfloor_Z. destruct (Qle_bool _ _); lia.
Qed.

(** Saving any setting pins the broker: the file holds the defaults of the
    process that saved, and a later process connects to them, whatever its
    environment says by then. *)
Theorem saved_defaults_pin_broker e e' patch s' err flushed :
  (∀ k v, (k, v) ∈ patch -> typeOK k v = true ∧ k ≠ "mqtt_host" ∧ k ≠ "mqtt_port") ->
  1 <= envPort e <= 65535 -> envHost e ≠ "" -> valid_utf8 (envHost e) = true ->
  Apply patch (Replaced flushed) (Init e None) = (s', err) ->
  broker (Init e' (file s')) = (envHost e, envPort e).
Proof.
  intros Hp Hport Hhost Hutf H.
  assert (Hw : well_formed (defaults e)).
  { apply defaults_well_formed. unfold port_ok. by rewrite andb_true_iff, !Z.leb_le. }
  assert (Hc : check_patch patch = None) by (apply check_patch_Some; intros; by eapply Hp).
  unfold Apply in H. rewrite Hc, well_formed_encodable in H by (by apply merged_well_formed). cbn [negb] in H.
  injection H as <- _. cbn [file]. set (next := merged patch _).
  assert (E : current (Init e' (Some (reread next))) = reread next).
  { cbn [Init current]. apply reread_load. by apply merged_well_formed. }
  clear Hw.
  assert (K : ∀ k, k ∈ ["mqtt_host"; "mqtt_port"] -> next !! k = defaults e !! k).
  { intros k Hk. apply merged_keeps. intros v Hin. destruct (Hp k v Hin) as (_ & N1 & N2).
    apply elem_of_cons in Hk as [E1|E2%list_elem_of_singleton]; [exact (N1 E1)|exact (N2 E2)]. }
  apply stored_broker; [|done|]; rewrite E; unfold reread; rewrite lookup_fmap, K by (apply (bool_decide_unpack _); vm_compute; exact I); unfold defaults.
  - rewrite lookup_insert_ne, lookup_insert_eq by done. cbn. unfold coerce. by rewrite encode_runes.
  - rewrite !lookup_insert_ne, lookup_insert_eq by done. cbn [fmap option_fmap option_map]. by rewrite port_reread.
Qed.

(** ** Concrete settings *)

Definition home : environment := Env "" "192.168.1.5" 1883.
Definition moved : environment := Env "" "192.168.1.9" 1884.
Definition hide_ev : list (string * gval) := [("show_ev", GBool false)].
Definition with_token : list (string * gval) := [("ha_token", GString "secret"); ("mqtt_port", GFloat (F64.of_Z 1885))].
Definition saved (patch : list (string * gval)) (s : Settings) : Settings := fst (Apply patch (Replaced true) s).

Lemma home_port : port_ok (GInt (envPort home)) = true.
Proof. reflexivity. Qed.

Lemma settings_stay_typed_witness :
  match current (foldl serve (Init home None) [(hide_ev, Replaced true); (with_token, NotReplaced); (with_token, Replaced false)])
          !! "mqtt_port" with
  | Some v => typeOK "mqtt_port" v = true
  | None => ¬ "mqtt_port" ∈ allowed.*1
  end.
Proof. apply (settings_stay_typed home). reflexivity. Defined.



Lemma saved_defaults_pin_broker_witness :
  broker (Init moved (file (saved hide_ev (Init home None)))) = ("192.168.1.5", 1883).
Proof.
  apply (saved_defaults_pin_broker home moved hide_ev (saved hide_ev (Init home None)) None true).
  - intros k v Hin. apply list_elem_of_singleton in Hin as [= -> ->]. done.
  - cbn. lia.
  - done.
  - reflexivity.
  - vm_compute. reflexivity.
Defined.

(** A saved port is an override even where it equals the environment's: the
    numbers of JSON are compared with an integer as values of another type. *)
Example equal_port_is_override :
  Overrides (Init home (file (saved hide_ev (Init home None)))) !! "mqtt_port" = Some (GFloat (F64.of_Z 1883)).
Proof. vm_compute. reflexivity. Qed.
