(* ===== verification/WaterControl.v ===== *)
(** * Commands to the water devices

    [internal/mqtt/water.go]: when the pump or the valve may be switched, and
    what is then published.  A command takes several looks at a client that goes
    on receiving messages in between; the last look and the publication are one
    critical section. *)

From Stdlib Require Import ZArith Ascii String Lia.
From stdpp Require Import base list option strings gmap fin_maps.
From S2P Require Import Prelude Float64 JsValue Utf8 PushPayload ControllerCommands NativeLeaves Notifications JsonFields StateFields CerboLeaves CerboOverlay OverlayState DirectTelemetry.

#[local] Open Scope string_scope.
#[local] Open Scope list_scope.
#[local] Open Scope Z_scope.

(** ** The handlers *)

(** A look at the client: its state, its sources, and the counters that a source
    switch and a new session advance. *)
Record Link := MkLink {
  client : OverlayState.Client;
  gatewayMode : bool;
  gatewayConnected : bool;
  gatewayPublish : bool;
  connectionOpen : bool;
  generation : Z;
  session : Z
}.

Definition water_device (which : string) : bool := String.eqb which "pump" || String.eqb which "valve".

Definition water_instance (which : string) (o : CerboOptions) : Z :=
  if String.eqb which "valve" then ValveInstance o else PumpInstance o.

(** [GatewayCapabilities[name]]. *)
Definition capable (name : string) (st : StateFields.State) : bool :=
  match field "gateway_capabilities" st with
  | FMap (Some m) => match assoc name m with Some v => bool_of v | None => false end
  | _ => false
  end.

(** The looks at the gateway, at the state, and at the connection. *)
Definition CanControlWaterDevice (which : string) (s1 s2 s3 : Link) (now : Z) : bool :=
  let c := client s2 in
  water_device which &&
  (available (state c) (water_key which) && waterControlReady which now c) &&
  (0 <=? water_instance which (options c)) &&
  (if gatewayMode s1 then gatewayConnected s1 && gatewayPublish s1 && capable "water_mode" (state c)
   else connectionOpen s3 && validPortal (portalID c)).

Inductive water_error : Type :=
  errMode | errDevice | errUnavailable | errSourceChanged | errGateway | errStale | errDisconnected.

Inductive water_result : Type :=
| Refused (e : water_error)
| GatewayCommand (instance mode : Z)
| Published (topic body : string).

Definition command_body (mode : Z) : string := "{" +:+ json_field "value" (dec mode) +:+ "}".

(** [SetWaterMode] up to the publication: three looks for the check, one at each
    counter, one at the configuration with the lock of the gateway held, which
    keeps sources and counters as they are, and the critical section. *)
Definition SetWaterMode (which : string) (mode : Z) (s1 s2 s3 s4 s5 s6 s7 : Link) (checked now : Z) : water_result :=
  if (mode <? 0) || (2 <? mode) then Refused errMode
  else if negb (water_device which) then Refused errDevice
  else if negb (CanControlWaterDevice which s1 s2 s3 checked) then Refused errUnavailable
  else if negb (generation s4 =? generation s6) || negb (session s5 =? session s6) then Refused errSourceChanged
  else
    let instance := water_instance which (options (client s6)) in
    if gatewayMode s6 then
      if negb (gatewayConnected s6) || negb (gatewayPublish s6) then Refused errGateway
      else GatewayCommand instance mode
    else if negb (waterControlReady which now (client s7)) then Refused errStale
    else if negb (connectionOpen s7) then Refused errDisconnected
    else Published ("W/" +:+ portalID (client s6) +:+ "/pump/" +:+ dec instance +:+ "/Mode") (command_body mode).

(** ** The observations behind a command *)

(** The receipt of the last message about the Mode of an instance, when it was a
    live one, since the source was last switched. *)
Definition mode_topic (inst : Z) (topic : string) : bool :=
  match split_on "/" topic with
  | [_; _; kind; instance; leaf] => String.eqb kind "pump" && String.eqb leaf "Mode" && String.eqb instance (dec inst)
  | _ => false
  end.

Definition mode_receipt (inst : Z) (last : option Z) (e : event) : option Z :=
  match e with
  | DeviceMessage topic _ retained now => if mode_topic inst topic then if retained then None else Some now else last
  | SourceSwitched => None
  | _ => last
  end.

Section water.
Variable iterate : gmap string leaves -> list string.
Variable overflow : F64.num -> Z.
Variable version : string.
Abbreviation step := (step iterate overflow version).

(** A part of the client that no message of a device, reduction or merge of a
    frame changes. *)
Section kept.
Context {A : Type} (part : OverlayState.Client -> A).
Hypothesis state_kept : ∀ st c, part (with_state st c) = part c.
Hypothesis leaves_kept : ∀ all c, part (with_leaves all c) = part c.
Hypothesis owned_kept : ∀ keys c, part (with_owned keys c) = part c.
Hypothesis seen_kept : ∀ t c, part (with_seen t c) = part c.
Hypothesis ess_kept : ∀ mode at_ c, part (with_ess mode at_ c) = part c.

Lemma init_kept c : part (initCerboMaps c) = part c.
Proof. unfold initCerboMaps. by destruct (availability _). Qed.

Lemma apply_kept c c' : applyCerboOverlays iterate overflow c = Some c' -> part c' = part c.
Proof.
  unfold applyCerboOverlays. destruct (each _ _ _) as [st1|]; [|done]. cbn [mbind option_bind].
  destruct (each _ _ st1) as [st2|]; [|done]. cbn [mbind option_bind]. intros [= <-].
  by rewrite state_kept, owned_kept, init_kept.
Qed.

Lemma handle_kept topic p now c c' b :
  handleCerboDevice iterate overflow topic p now c = Some (c', b) -> part c' = part c.
Proof.
  unfold handleCerboDevice. destruct (split_on "/" topic) as [|p0 [|portal [|kind [|instance rest]]]]; try (by intros [= <- _]).
  destruct (_ || _ || _ || _); [by intros [= <- _]|]. pose proof (init_kept c) as I.
  set (c0 := initCerboMaps c) in *. clearbody c0.
  assert (K : ∀ c1, part c1 = part c -> (c2 ← applyCerboOverlays iterate overflow c1; Some (c2, true)) = Some (c', b) -> part c' = part c).
  { intros c1 H1 H. destruct (applyCerboOverlays _ _ c1) as [c2|] eqn:E; [|done]. injection H as <- _.
    apply apply_kept in E. congruence. }
  destruct p as [| |o]; [apply K|by intros [= <- _]|].
  - by rewrite ?seen_kept, ?leaves_kept.
  - destruct rest as [|r rest]; [by intros [= <- _]|].
    destruct (assoc "value" o) as [v|]; [|by intros [= <- _]]. destruct (accepted_value _ v) as [v'|]; [|by intros [= <- _]].
    apply K. destruct v'; by rewrite ?seen_kept, ?leaves_kept, ?owned_kept.
Qed.

Lemma observe_kept data r now c : part (observeESSMode data r now c) = part c.
Proof. unfold observeESSMode. repeat case_match; by rewrite ?ess_kept. Qed.

Lemma merge_kept data c c' : mergeDaemonState iterate overflow version data c = Some c' -> part c' = part c.
Proof.
  unfold mergeDaemonState. destruct (foldl _ _ data) as [st clean]. destruct (each _ _ st) as [st1|]; [|done].
  cbn [mbind option_bind]. destruct (if bool_decide _ then _ else _) as [st2|]; [|done]. cbn [mbind option_bind].
  intros H%apply_kept. by rewrite H, state_kept, init_kept.
Qed.
End kept.

(** What an event other than a message of a device or a switch leaves alone. *)
Definition receipts (c : OverlayState.Client) : gmap string Z * CerboOptions := (waterModeObserved c, options c).
Definition same_receipts (c c' : OverlayState.Client) : Prop := receipts c' = receipts c.

Lemma same_receipts_trans c1 c2 c3 : same_receipts c1 c2 -> same_receipts c2 c3 -> same_receipts c1 c3.
Proof. unfold same_receipts. congruence. Qed.

Lemma receipts_inv c c' : same_receipts c c' -> waterModeObserved c' = waterModeObserved c ∧ options c' = options c.
Proof. by intros [= -> ->]. Qed.

Lemma init_receipts c : same_receipts c (initCerboMaps c).
Proof. by apply (init_kept receipts). Qed.

Lemma apply_receipts c c' : applyCerboOverlays iterate overflow c = Some c' -> same_receipts c c'.
Proof. by apply (apply_kept receipts). Qed.

Lemma handle_receipts topic p now c c' b :
  handleCerboDevice iterate overflow topic p now c = Some (c', b) -> same_receipts c c'.
Proof. by apply (handle_kept receipts). Qed.

Lemma observe_receipts data r now c : same_receipts c (observeESSMode data r now c).
Proof. by apply (observe_kept receipts). Qed.

Lemma merge_receipts data c c' : mergeDaemonState iterate overflow version data c = Some c' -> same_receipts c c'.
Proof. by apply (merge_kept receipts). Qed.

Lemma frame_receipts data r now c c' :
  applyControllerState iterate overflow version data r now c = Some c' -> same_receipts c c'.
Proof.
  unfold applyControllerState. set (c0 := with_controller _ _ c).
  destruct (mergeDaemonState _ _ _ _ _) as [c1|] eqn:E; [|done]. cbn [mbind option_bind]. intros [= <-].
  apply merge_receipts in E. eapply same_receipts_trans; [|exact E].
  eapply same_receipts_trans; [|apply observe_receipts]. done.
Qed.

Lemma expiry_receipts now c c' b : expireOptionalTelemetry now c = Some (c', b) -> same_receipts c c'.
Proof.
  unfold expireOptionalTelemetry. pose proof (init_receipts c) as I. set (c0 := initCerboMaps c) in *. clearbody c0.
  destruct (controllerLastSeen c0); [|by intros [= <- _]]. destruct (_ || _); [|by intros [= <- _]].
  destruct (if bool_decide _ then _ else _) as [st|]; [|done]. cbn [mbind option_bind]. intros [= <- _]. exact I.
Qed.

Lemma source_receipts c c' : clearOptionalTelemetry c = Some c' -> same_receipts c c'.
Proof.
  unfold clearOptionalTelemetry. pose proof (init_receipts (with_ess None None c)) as I.
  set (c0 := initCerboMaps _) in *. clearbody c0. destruct (each _ _ _) as [st|]; [|done]. cbn [mbind option_bind].
  intros [= <-]. exact I.
Qed.

Lemma lost_receipts c c' : invalidateCerbo c = Some c' -> same_receipts c c'.
Proof. intros (st & _ & ->)%invalidate_inv. exact (init_receipts c). Qed.

Lemma observe_key_lookup key k instance inst b r now c t :
  waterModeObserved (observe_water_key key instance inst b r now c) !! k = Some t ->
  if decide (k = key ∧ instance = dec inst) then r = false ∧ t = now else waterModeObserved c !! k = Some t.
Proof.
  unfold observe_water_key. destruct (String.eqb_spec instance (dec inst)) as [->|Hne]; cbn [negb].
  - cbn [waterModeObserved with_water]. destruct (decide (k = key ∧ _)) as [[-> _]|Hk].
    + destruct (b && negb r && _) eqn:E; [|by rewrite lookup_delete_eq]. rewrite lookup_insert_eq. intros [= ->].
      apply andb_true_iff in E as [E _]. apply andb_true_iff in E as [_ E]. by destruct r.
    + assert (k ≠ key) by tauto. case_match; rewrite ?lookup_insert_ne, lookup_delete_ne by done; done.
  - intros H. rewrite decide_False by tauto. exact H.
Qed.

Lemma observe_key_options key instance inst b r now c : options (observe_water_key key instance inst b r now c) = options c.
Proof. unfold observe_water_key. by destruct (negb _). Qed.

Lemma update_lookup topic b r now c which t :
  water_device which = true ->
  waterModeObserved (updateWaterModeObservation (split_on "/" topic) b r now c) !! water_key which = Some t ->
  if mode_topic (water_instance which (options c)) topic then r = false ∧ t = now
  else waterModeObserved c !! water_key which = Some t.
Proof.
  intros Hw. unfold updateWaterModeObservation, mode_topic.
  destruct (split_on "/" topic) as [|p0 [|p1 [|kind [|instance [|leaf [|]]]]]]; try done.
  destruct (String.eqb kind "pump" && String.eqb leaf "Mode"); [|done]. cbn [andb].
  intros H. apply observe_key_lookup in H. rewrite ?observe_key_options in H.
  unfold water_device in Hw. apply orb_true_iff in Hw as [->%String.eqb_eq| ->%String.eqb_eq].
  - change (water_key "pump") with "pump_mode" in *. change (water_instance "pump" (options c)) with (PumpInstance (options c)).
    rewrite decide_False in H by (intros [? _]; done). apply observe_key_lookup in H.
    destruct (String.eqb_spec instance (dec (PumpInstance (options c)))); case_decide; tauto.
  - change (water_key "valve") with "water_valve_mode" in *.
    change (water_instance "valve" (options c)) with (ValveInstance (options c)).
    destruct (String.eqb_spec instance (dec (ValveInstance (options c)))); case_decide; try tauto.
    apply observe_key_lookup in H. by rewrite decide_False in H by (intros [? _]; done).
Qed.

Lemma update_options parts b r now c : options (updateWaterModeObservation parts b r now c) = options c.
Proof.
  unfold updateWaterModeObservation. destruct parts as [|? [|? [|kind [|instance [|leaf [|]]]]]]; try done.
  destruct (_ && _); [|done]. by rewrite !observe_key_options.
Qed.

(** The receipts of a client tell of messages in its history. *)
Definition receipts_true (last : Z -> option Z) (c : OverlayState.Client) : Prop :=
  ∀ which t, water_device which = true -> waterModeObserved c !! water_key which = Some t ->
    last (water_instance which (options c)) = Some t.

Lemma step_receipts e c c' last :
  step e c = Some c' -> receipts_true last c ->
  options c' = options c ∧ receipts_true (λ inst, mode_receipt inst (last inst) e) c'.
Proof.
  assert (K : same_receipts c c' -> (∀ inst l, mode_receipt inst l e = l) -> receipts_true last c ->
    options c' = options c ∧ receipts_true (λ inst, mode_receipt inst (last inst) e) c').
  { intros [Ew Eo]%receipts_inv He R. split; [done|]. intros which t Hw H. rewrite He, Eo. apply R; [done|]. by rewrite <- Ew. }
  destruct e as [topic p r now|data r now|portal|now| | | |]; intros H R.
  - apply fst_Some in H as [b H]. unfold applyCerboDevice in H.
    destruct (handleCerboDevice _ _ _ _ _ _) as [[c1 b1]|] eqn:E; [|done]. injection H as <- _.
    apply handle_receipts, receipts_inv in E as [Ew Eo]. split; [by rewrite update_options|]. intros which t Hw H.
    rewrite update_options, Eo. apply update_lookup in H; [|done]. rewrite Eo, Ew in H. cbn [mode_receipt].
    destruct (mode_topic _ topic); [by destruct H as [-> ->]|by apply R].
  - apply K; [by eapply frame_receipts|done|exact R].
  - injection H as <-. apply K; [|done|exact R]. unfold acceptPortal. by destruct (_ && _).
  - apply fst_Some in H as [b H]. apply K; [by eapply expiry_receipts|done|exact R].
  - apply K; [|done|exact R]. exact (apply_receipts (with_leaves ∅ c) c' H).
  - apply K; [by apply lost_receipts|done|exact R].
  - apply K; [by apply source_receipts|done|exact R].
  - cbn [OverlayState.step] in H. unfold switch_source in H.
    destruct (clearOptionalTelemetry _) as [c1|] eqn:E; [|done]. injection H as <-.
    apply source_receipts, receipts_inv in E as [_ Eo]. split; [exact Eo|]. intros which t Hw H.
    cbn [waterModeObserved with_water] in H. by rewrite lookup_empty in H.
Qed.

Definition last_mode (es : list event) (inst : Z) : option Z := foldl (mode_receipt inst) None es.

Lemma run_receipts es o portal c :
  run_steps step es (NewClient o portal) = Some c -> options c = o ∧ receipts_true (last_mode es) c.
Proof.
  assert (G : ∀ es last c0 c, run_steps step es c0 = Some c -> receipts_true last c0 ->
    options c = options c0 ∧ receipts_true (λ inst, foldl (mode_receipt inst) (last inst) es) c).
  { clear. induction es as [|e es IH]; intros last c0 c H R; cbn [run_steps] in H; [by injection H as <-|].
    destruct (step e c0) as [c1|] eqn:E; [|done]. destruct (step_receipts _ _ _ _ E R) as [Eo R1].
    destruct (IH _ _ _ H R1) as [Eo' R']. split; [congruence|exact R']. }
  pose proof (receipts_inv _ _ (init_receipts (MkClient ∅ ∅ initial_state o portal None None None None None ∅))) as [Ew Eo].
  change (initCerboMaps _) with (NewClient o portal) in Ew, Eo.
  intros H. destruct (G es (λ _, None) _ _ H) as [E R]; [|split; [by rewrite E|exact R]].
  intros which t _ Ht. rewrite Ew in Ht. cbn [waterModeObserved] in Ht. by rewrite lookup_empty in Ht.
Qed.

(** C17: A command that goes out over MQTT names the configured instance and a mode
    from 0 to 2, leaves on an open connection of the session and source that it
    was checked for, and rests on a live reading: the last message about this
    very Mode since the source was last switched was not retained and came at
    most thirty seconds before. *)
Theorem water_command_sound which mode s1 s2 s3 s4 s5 s6 s7 checked now topic body es0 es o portal :
  run_steps step es0 (NewClient o portal) = Some (client s2) -> options (client s6) = o ->
  run_steps step es (NewClient o portal) = Some (client s7) ->
  SetWaterMode which mode s1 s2 s3 s4 s5 s6 s7 checked now = Published topic body ->
  0 <= mode <= 2 ∧ 0 <= water_instance which o ∧
  topic = "W/" +:+ portalID (client s6) +:+ "/pump/" +:+ dec (water_instance which o) +:+ "/Mode" ∧
  body = command_body mode ∧
  gatewayMode s6 = false ∧ connectionOpen s7 = true ∧ generation s4 = generation s6 ∧ session s5 = session s6 ∧
  ∃ t, last_mode es (water_instance which o) = Some t ∧ 0 <= now - t <= 30000 ∧
       available (state (client s7)) (water_key which) = true.
Proof.
  intros H2 H6 H7 H. apply run_receipts in H2 as [O2 _]. apply run_receipts in H7 as [O7 R]. unfold SetWaterMode in H.
  destruct (_ || _) eqn:Em in H; [done|]. destruct (water_device which) eqn:Ew; [|done].
  destruct (CanControlWaterDevice _ _ _ _ _) eqn:Ec; [|done]. cbn [negb] in H.
  destruct (_ || _) eqn:Eg in H; [done|]. destruct (gatewayMode s6); [by case_match|].
  destruct (waterControlReady which now (client s7)) eqn:Er; [|done]. cbn [negb] in H.
  destruct (connectionOpen s7) eqn:Eo; [|done]. cbn [negb] in H. injection H as <- <-. rewrite H6.
  apply orb_false_iff in Em as [E1 E2]. apply orb_false_iff in Eg as [E3 E4].
  apply negb_false_iff, Z.eqb_eq in E3, E4. apply Z.ltb_ge in E1, E2.
  unfold CanControlWaterDevice in Ec. rewrite O2 in Ec. apply andb_true_iff in Ec as [Ec _].
  apply andb_true_iff in Ec as [_ Ei]. apply Z.leb_le in Ei.
  repeat (split; [first [done|lia]|]). unfold waterControlReady, within_30s in Er.
  apply andb_true_iff in Er as [Ea Et]. destruct (waterModeObserved (client s7) !! water_key which) as [t|] eqn:Eobs; [|done].
  exists t. specialize (R which t Ew Eobs). rewrite O7 in R. split; [exact R|].
  apply andb_true_iff in Et as [Et1 Et2]. apply Z.leb_le in Et1, Et2. done.
Qed.
End water.

(** ** A concrete command *)

Definition by_map (ds : gmap string leaves) : list string := (map_to_list ds).*1.
Definition no_overflow (_ : F64.num) : Z := 0.
Definition pump_options : CerboOptions := MkOptions 0 2 3 (-1) (-1).
Definition mode_message (r : bool) (now : Z) : event :=
  DeviceMessage "N/portal/pump/2/Mode" (Fields [("value", GInt 1)]) r now.
Definition pump_history : list event := [mode_message true 0; mode_message false 60000].
Definition pump_client : OverlayState.Client :=
  default (NewClient pump_options "portal")
    (run_steps (OverlayState.step by_map no_overflow "1.0.0") pump_history (NewClient pump_options "portal")).
Definition pump_link : Link := MkLink pump_client false false false true 4 7.

Lemma water_command_sound_witness :
  last_mode pump_history 2 = Some 60000 ∧
  ∃ t, last_mode pump_history (water_instance "pump" pump_options) = Some t ∧ 0 <= 75000 - t <= 30000 ∧
       available (state pump_client) (water_key "pump") = true.
Proof.
  split; [vm_compute; reflexivity|].
  apply (water_command_sound by_map no_overflow "1.0.0" "pump" 2 pump_link pump_link pump_link pump_link pump_link pump_link
    pump_link 70000 75000 "W/portal/pump/2/Mode" (command_body 2) pump_history pump_history pump_options "portal").
  - vm_compute. reflexivity.
  - vm_compute. reflexivity.
  - vm_compute. reflexivity.
  - vm_compute. reflexivity.
Defined.
