(* ===== verification/HomeAssistant.v ===== *)
(** * The Home Assistant client

    [internal/homeassistant]: which fields and entities Home Assistant owns, what
    a poll reads and commits, the rich display, and the service calls with the
    observation that they need.  The configuration never changes after startup;
    a poll commits its observations in one critical section, so a client runs
    through commits and replaced overlays in any order. *)

From Stdlib Require Import ZArith QArith Ascii String Lia.
From stdpp Require Import base list option strings gmap fin_maps.
From S2P Require Import Prelude Float64 JsValue ControllerCommands NativeLeaves JsonFields CerboLeaves OverlayState.

#[local] Open Scope string_scope.
#[local] Open Scope list_scope.
#[local] Open Scope Z_scope.

(** ** Ownership *)

Definition mqtt_owned : list string :=
  ["ha_controls_available"; "ha_observed_at"; "setpoint_override"; "setpoint_override_observed_at";
   "setpoint_override_controls_available"; "electricity_tariff_observed_at"; "electricity_tariff_controls_available";
   "grid_l1_available"; "grid_l2_available"; "grid_l3_available"; "grid_backup"; "grid_using_backup";
   "grid_backup_observed_at"; "g1"; "g2"; "g3"; "gt"; "t1"; "t2"; "t3"; "tt"; "bv"; "bc"; "bp";
   "battery_soc"; "battery_voltage"; "battery_current"; "battery_power"; "battery_socs"; "batteries";
   "solar_total"; "pv_total"; "mppt_total"; "mppt_data"; "mppt_individual"; "mppt_chargers";
   "pv_inverter_total"; "pv_inverter_individual"; "pv_inverter_powers"; "pv_inverters";
   "loads"; "load_names"; "setpoint"; "inverter_state";
   "ev_power"; "ev_charging_kw"; "car_soc"; "car_charging_power"; "ev_charging_power";
   "ev_present"; "evcharger_present"; "water_level"; "water_valve"; "pump_switch";
   "water_pump_mode"; "pump_mode"; "water_valve_mode"; "discovered_water_ev";
   "booleans"; "features"; "inverter_available"; "controller_controls_available"; "ess_mode"; "ess_mode_observed_at";
   "ess_mode_controls_available"; "dry_run"; "daily_stats"; "solar_forecast";
   "limits"; "loop_interval"; "filtered_gt"; "dvcc_limits"; "perf"; "ui_config";
   "version"; "uptime"; "grid_control_valid"; "grid_control_reason"].

Definition IsMQTTOwnedKey (key : string) : bool := IsControlFlag key || existsb (String.eqb key) mqtt_owned.

Definition haOwnsField (key entity : string) : bool := negb (IsMQTTOwnedKey key) && negb (IsControlFlag entity).

(** ** Configuration *)

Record Button := MkButton { ButtonID : string; Label : string; Entity : string; StateKey : string; Order : Z }.

(** An entry of the configured switches. *)
Record EntityConfig := MkEntityConfig {
  EntityKey : string; EntityName : string; EntityLabel : string; EntityOrder : Z; EntityEnabled : option bool }.

Record FilteredEntityConfig := MkFiltered {
  Covers : list string; MediaPlayers : list string; Scenes : list string; Numbers : list string;
  Sensors : list string; Weather : string }.

Definition by_order (l : list Button) : list Button := stable_sort (λ x y, Order y <? Order x) l.

Fixpoint replace_char (c d : ascii) (s : string) : string :=
  match s with "" => "" | String a s' => String (if Ascii.eqb a c then d else a) (replace_char c d s') end.

(** The rest of the client's configuration: [configured] is what
    [validateConfig] found. *)
Record Config := MkConfig {
  configured : bool;
  directMode : bool;
  booleanEntities : gmap string string;
  switchEntities : list Button;
  applianceEntities : gmap string string;
  sensorEntities : gmap string string;
  filteredEntities : option FilteredEntityConfig
}.

Section conversion.
(** [strings.ToUpper], which needs the tables of Unicode; labels are only
    displayed. *)
Variable ToUpper : string -> string.

Definition generateDefaultLabel (stateKey : string) : string :=
  replace_char "_" " " (ToUpper (TrimPrefix "home_" stateKey)).

Definition switch_button (e : EntityConfig) : option Button :=
  if negb (default true (EntityEnabled e)) || String.eqb (EntityName e) "" || negb (haOwnsField (EntityKey e) (EntityName e))
  then None
  else Some (MkButton (replace_char "_" "-" (EntityKey e))
               (if String.eqb (EntityLabel e) "" then generateDefaultLabel (EntityKey e) else EntityLabel e)
               (EntityName e) (EntityKey e) (EntityOrder e)).

Definition convertConfigSwitchEntities (entities : list EntityConfig) : list Button :=
  by_order (omap switch_button entities).
End conversion.

Definition IsDirectMode (c : Config) : bool := configured c && directMode c.

Definition IsToggleAllowed (c : Config) (entityID : string) : bool :=
  configured c && negb (String.eqb entityID "") &&
  (existsb (λ e, String.eqb e.2 entityID && haOwnsField e.1 e.2) (map_to_list (booleanEntities c)) ||
   existsb (λ b, String.eqb (Entity b) entityID && haOwnsField (StateKey b) (Entity b)) (switchEntities c)).

(** ** Values of entities *)

Record EntityState := MkEntity { EntityID : string; EntityValue : string; Attributes : option (list (string * gval)) }.

Definition parseFiniteNumber (raw : string) : option F64.num := ParseFloat raw ≫= finite.

Definition isOn (s : string) : bool := existsb (String.eqb (ToLower s)) ["on"; "true"; "yes"; "1"].

Definition homeSwitchState (raw : string) : gval :=
  let s := ToLower (TrimSpace raw) in
  if existsb (String.eqb s) ["on"; "true"; "yes"; "1"] then GBool true
  else if existsb (String.eqb s) ["off"; "false"; "no"; "0"] then GBool false
  else GNil.

Definition maxInt : Z := 2 ^ 63 - 1.
Definition maxSafeSeconds : Z := 2 ^ 53 - 1.

Definition only_digits (s : string) : bool :=
  forallb (λ c, match digit_val c with Some _ => true | None => false end) (list_ascii_of_string s).

(** One component of a duration; [first] for the leftmost. *)
Definition add_component (first : bool) (total : Z) (part : string) : option Z :=
  match Atoi part with
  | Some unit =>
      if negb (only_digits part) || (unit <? 0) || (negb first && (60 <=? unit)) || (Z.quot (maxInt - unit) 60 <? total)
      then None else Some (total * 60 + unit)
  | None => None
  end.

Fixpoint add_components (first : bool) (total : Z) (parts : list string) : option Z :=
  match parts with
  | [] => Some total
  | part :: parts' => total' ← add_component first total part; add_components false total' parts'
  end.

Definition parseStateToSeconds (raw : string) : Z :=
  let raw := TrimSpace raw in
  let number :=
    match parseFiniteNumber raw with
    | Some (F64.Fin q as x) =>
        if F64.leb (F64.of_Z 0) x && F64.leb x (F64.of_Z maxSafeSeconds) && F64.leb x (F64.of_Z maxInt)
        then Some (F64.Qtrunc q) else None
    | _ => None
    end in
  match number with
  | Some z => z
  | None =>
      let parts := split_on ":" raw in
      if negb (Nat.eqb (length parts) 2) && negb (Nat.eqb (length parts) 3) then 0
      else match add_components true 0 parts with
           | Some total => if maxSafeSeconds <? total then 0 else total
           | None => 0
           end
  end.

(** [strings.Split(entity, ".")[0]]. *)
Definition domain_of (entityID : string) : string := hd "" (split_on "." entityID).

Definition parseApplianceField (stateKey entityID raw : string) : gval :=
  let domain := domain_of entityID in
  if existsb (String.eqb domain) ["binary_sensor"; "switch"; "light"; "input_boolean"] then GBool (isOn raw)
  else if String.eqb domain "sensor" && is_suffix "_power" stateKey then
    match parseFiniteNumber raw with
    | None => GBool (isOn raw)
    | Some val => GBool (F64.ltb (F64.of_Z 1) val)
    end
  else GInt (parseStateToSeconds raw).

(** ** The rich display *)

Definition attribute (doc : EntityState) (key : string) : gval := at_key (Attributes doc) key.

Definition friendlyName (doc : EntityState) : string :=
  match attribute doc "friendly_name" with
  | GString name => if String.eqb name "" then EntityID doc else name
  | _ => EntityID doc
  end.

Definition attrString (doc : EntityState) (key : string) : string := as_string (attribute doc key).

Definition attrFloat (doc : EntityState) (key : string) : option F64.num :=
  match attribute doc key with
  | GFloat x => finite x
  | GInt z => Some (F64.of_Z z)
  | GString s => parseFiniteNumber s
  | _ => None
  end.

Definition f64_zero : F64.num := F64.of_Z 0.

(** The value where the source drops the flag of a failed lookup. *)
Definition or_zero (o : option F64.num) : F64.num := default f64_zero o.

Definition has_attribute (doc : EntityState) (key : string) : bool :=
  match Attributes doc ≫= assoc key with Some _ => true | None => false end.

(** [None] when the bounds are not valid. *)
Definition numberBounds (doc : EntityState) : option (F64.num * F64.num) :=
  let minimum := attrFloat doc "min" in
  let maximum := attrFloat doc "max" in
  if (has_attribute doc "min" && bool_decide (minimum = None)) || (has_attribute doc "max" && bool_decide (maximum = None))
  then None
  else
    let lo := or_zero minimum in
    let hi := if F64.eqb lo f64_zero && F64.eqb (or_zero maximum) f64_zero then F64.of_Z 100 else or_zero maximum in
    if F64.leb lo hi then Some (lo, hi) else None.

Definition filteredEmpty (f : option FilteredEntityConfig) : bool :=
  match f with
  | None => true
  | Some f =>
      Nat.eqb (length (Covers f)) 0 && Nat.eqb (length (MediaPlayers f)) 0 && Nat.eqb (length (Scenes f)) 0 &&
      Nat.eqb (length (Numbers f)) 0 && Nat.eqb (length (Sensors f)) 0 && String.eqb (Weather f) ""
  end.

Definition add_ids (out ids : list string) : list string :=
  foldl (λ out id, if String.eqb id "" || existsb (String.eqb id) out then out else out ++ [id]) out ids.

Definition filteredAll (f : FilteredEntityConfig) : list string :=
  let out := add_ids (add_ids (add_ids (add_ids (add_ids [] (Covers f)) (MediaPlayers f)) (Scenes f)) (Numbers f)) (Sensors f) in
  if negb (String.eqb (Weather f) "") && negb (existsb (String.eqb (Weather f)) out) then out ++ [Weather f] else out.

Section display.
Variable overflow : F64.num -> Z.

Definition sensor_display (doc : EntityState) : gval :=
  GObject [("entity_id", GString (EntityID doc)); ("name", GString (friendlyName doc)); ("state", GString (EntityValue doc));
           ("unit", GString (attrString doc "unit_of_measurement"))].

Definition number_display (doc : EntityState) : option gval :=
  value ← (match attrFloat doc "state" with Some x => Some x | None => parseFiniteNumber (EntityValue doc) end);
  if existsb (String.eqb (EntityValue doc)) ["unavailable"; "unknown"] then None
  else
    bounds ← numberBounds doc;
    let step := or_zero (attrFloat doc "step") in
    Some (GObject [("entity_id", GString (EntityID doc)); ("name", GString (friendlyName doc)); ("value", GFloat value);
                   ("min", GFloat bounds.1); ("max", GFloat bounds.2);
                   ("step", GFloat (if F64.eqb step f64_zero then F64.of_Z 1 else step));
                   ("unit", GString (attrString doc "unit_of_measurement"))]).

Definition cover_display (doc : EntityState) : gval :=
  let pos := match attrFloat doc "current_position" with
             | Some x => x
             | None => if String.eqb (EntityValue doc) "open" then F64.of_Z 100 else f64_zero
             end in
  GObject [("entity_id", GString (EntityID doc)); ("name", GString (friendlyName doc)); ("position", GInt (go_int overflow pos))].

Definition player_display (doc : EntityState) : gval :=
  GObject [("entity_id", GString (EntityID doc)); ("name", GString (friendlyName doc)); ("state", GString (EntityValue doc))].

Definition scene_display (doc : EntityState) : gval :=
  GObject [("entity_id", GString (EntityID doc)); ("name", GString (friendlyName doc))].

Definition weather_display (doc : EntityState) : gval :=
  GObject [("entity_id", GString (EntityID doc)); ("name", GString (friendlyName doc)); ("state", GString (EntityValue doc));
           ("temperature", GFloat (or_zero (attrFloat doc "temperature"))); ("unit", GString (attrString doc "temperature_unit"));
           ("forecast", if has_attribute doc "forecast" then attribute doc "forecast" else GSlice [])].

(** [BuildFilteredDisplays] with a configuration; the entity without a name has
    no document. *)
Definition BuildFilteredDisplays (docs : gmap string EntityState) (cfg : FilteredEntityConfig) : gval :=
  let get id := if String.eqb id "" then None else docs !! id in
  let each (f : EntityState -> option gval) ids := GSlice (omap (λ id, get id ≫= f) ids) in
  GObject [("sensors", each (λ d, Some (sensor_display d)) (Sensors cfg));
           ("numbers", each number_display (Numbers cfg));
           ("covers", each (λ d, Some (cover_display d)) (Covers cfg));
           ("media_players", each (λ d, Some (player_display d)) (MediaPlayers cfg));
           ("scenes", each (λ d, Some (scene_display d)) (Scenes cfg));
           ("weather", default GNil (weather_display <$> get (Weather cfg)))].
End display.

(** ** Polling *)

Record Overlay := MkOverlay {
  Booleans : gmap string bool; HADirectConnected : bool; AdditionalFields : gmap string gval }.

(** Times are nanoseconds of the monotonic clock. *)
Record Client := MkClient {
  config : Config;
  overlay : Overlay;
  observedAt : option Z;
  entityObserved : gmap string Z;
  numberRanges : gmap string (F64.num * F64.num)
}.

Definition new_client (c : Config) : Client := MkClient c (MkOverlay ∅ true ∅) None ∅ ∅.

Definition ReplaceOverlay (data : Overlay) (c : Client) : Client :=
  MkClient (config c) data (observedAt c) (entityObserved c) (numberRanges c).

(** The segments of a path that [newAPIRequest] accepts. *)
Definition segment_ok (segment : string) : bool :=
  negb (existsb (String.eqb segment) [""; "."; ".."]) &&
  forallb (λ c, negb (Ascii.eqb c "/" || Ascii.eqb c "\")) (list_ascii_of_string segment).

(** What the requests of a poll are answered: the document of the [n]-th
    request and the time when it is there. *)
Record answers := MkAnswers { document : nat -> string -> option EntityState; clock : nat -> Z }.

Record poll := MkPoll { requests : nat; observed : gmap string Z; hadResponse : bool }.

Section polling.
Variable iterate : gmap string string -> list (string * string).
Variable overflow : F64.num -> Z.

(** A reading that counts as an observation. *)
Definition observable (entityID : string) (doc : EntityState) : bool :=
  negb (String.eqb (EntityValue doc) "") && negb (String.eqb (EntityValue doc) "unavailable") &&
  (negb (String.eqb (EntityValue doc) "unknown") || String.prefix "scene." entityID || String.prefix "button." entityID).

Section poll.
Variable env : answers.

Definition getEntityDoc (n : nat) (entityID : string) : option EntityState :=
  if segment_ok entityID then document env n entityID else None.

Definition fetchDoc (entityID : string) (p : poll) : option EntityState * poll :=
  let n := requests p in
  match getEntityDoc n entityID with
  | None => (None, MkPoll (S n) (observed p) (hadResponse p))
  | Some doc =>
      (Some doc, MkPoll (S n) (if observable entityID doc then <[entityID := clock env n]> (observed p) else observed p) true)
  end.

(** A loop that skips the fields of other owners. *)
Definition fetch_field {B} (store : B -> string -> option EntityState -> B) (acc : B * poll) (e : string * string) : B * poll :=
  if haOwnsField e.1 e.2 then
    let '(doc, p) := fetchDoc e.2 acc.2 in (store acc.1 e.1 doc, p)
  else acc.

Definition store_boolean (m : gmap string bool) (key : string) (doc : option EntityState) : gmap string bool :=
  match doc with
  | Some doc => match homeSwitchState (EntityValue doc) with GBool b => <[key := b]> m | _ => m end
  | None => m
  end.
Definition store_switch (m : gmap string gval) (key : string) (doc : option EntityState) : gmap string gval :=
  <[key := match doc with Some doc => homeSwitchState (EntityValue doc) | None => GNil end]> m.
Definition store_sensor (m : gmap string gval) (key : string) (doc : option EntityState) : gmap string gval :=
  match doc with
  | Some doc => <[key := match parseFiniteNumber (EntityValue doc) with Some x => GFloat x | None => GNil end]> m
  | None => m
  end.

(** The loop over appliances, whose values depend on the entity, too. *)
Definition fetch_appliance (acc : gmap string gval * poll) (e : string * string) : gmap string gval * poll :=
  fetch_field (λ m key doc, match doc with
                            | Some doc => <[key := parseApplianceField key e.2 (EntityValue doc)]> m
                            | None => m
                            end) acc e.

Definition fetch_display (acc : gmap string EntityState * poll) (id : string) : gmap string EntityState * poll :=
  let '(doc, p) := fetchDoc id acc.2 in
  (match doc, observed p !! id with Some doc, Some _ => <[id := doc]> acc.1 | _, _ => acc.1 end, p).

Definition number_range (docs : gmap string EntityState) (m : gmap string (F64.num * F64.num)) (id : string)
    : gmap string (F64.num * F64.num) :=
  match docs !! id ≫= numberBounds with Some b => <[id := b]> m | None => m end.

(** What a poll has read before it is committed. *)
Definition poll_fields (c : Config) : gmap string bool * gmap string gval * poll :=
  let '(booleans, p) := foldl (fetch_field store_boolean) (∅, MkPoll 0 ∅ false) (iterate (booleanEntities c)) in
  let '(fields, p) := foldl (fetch_field store_switch) (∅, p) ((λ b, (StateKey b, Entity b)) <$> switchEntities c) in
  let '(fields, p) := foldl (fetch_field store_sensor) (fields, p) (iterate (sensorEntities c)) in
  let '(fields, p) := foldl fetch_appliance (fields, p) (iterate (applianceEntities c)) in
  (booleans, fields, p).

Definition poll_display (c : Config) (p : poll) : gmap string EntityState * poll :=
  match filteredEntities c with
  | Some f => if filteredEmpty (Some f) then (∅, p) else foldl fetch_display (∅, p) (filteredAll f)
  | None => (∅, p)
  end.

Definition display_fields (c : Config) (docs : gmap string EntityState) (fields : gmap string gval) : gmap string gval :=
  match filteredEntities c with
  | Some f => if filteredEmpty (Some f) then fields else <["ha_filtered" := BuildFilteredDisplays overflow docs f]> fields
  | None => fields
  end.

Definition display_ranges (c : Config) (docs : gmap string EntityState) : gmap string (F64.num * F64.num) :=
  match filteredEntities c with
  | Some f => if filteredEmpty (Some f) then ∅ else foldl (number_range docs) ∅ (Numbers f)
  | None => ∅
  end.

(** [FetchStatesOnce] outside of the direct mode, and in it: the overlay that is
    returned and the client after the commit. *)
Definition FetchStatesOnce (cl : Client) : Overlay * Client :=
  let c := config cl in
  if negb (IsDirectMode c) then (MkOverlay ∅ false ∅, cl)
  else
    let '(booleans, fields, p) := poll_fields c in
    let '(docs, p) := poll_display c p in
    let result := MkOverlay booleans (hadResponse p) (display_fields c docs fields) in
    let kept := overlay cl in
    (result,
     MkClient c
       (if hadResponse p then kept else MkOverlay (Booleans kept) false (AdditionalFields kept))
       (if hadResponse p then Some (clock env (requests p)) else None)
       (observed p) (display_ranges c docs)).
End poll.

(** ** Service calls *)

Inductive ha_error : Type :=
  errDirect | errEntity | errNumber | errPosition | errNotAllowed | errNotConfigured | errDomain | errButton
| errMarshal | errSegment | errRange | errStale.

(** A request that is sent; its body is an object. *)
Record Request := MkRequest { Domain : string; Service : string; Body : list (string * gval) }.

Definition outcome : Type := (ha_error + Request)%type.

Definition actionNumber (v : gval) : option F64.num :=
  match v with GFloat x => finite x | GInt z => finite (F64.of_Z z) | _ => None end.

Definition within_30s (at_ : option Z) (now : Z) : bool :=
  match at_ with Some t => (0 <=? now - t) && (now - t <=? 30 * 10 ^ 9) | None => false end.

Definition validateServiceObservation (domain service entity : string) (fields : list (string * gval)) (now : Z)
    (c : Client) : option ha_error :=
  let in_range :=
    match actionNumber (at_key (Some fields) "value"), numberRanges c !! entity with
    | Some v, Some b => negb (F64.ltb v b.1) && negb (F64.ltb b.2 v)
    | _, _ => false
    end in
  if String.eqb service "set_value" && (String.eqb domain "number" || String.eqb domain "input_number") && negb in_range
  then Some errRange
  else if negb (IsDirectMode (config c)) || negb (within_30s (entityObserved c !! entity) now) then Some errStale
  else None.

Definition callServiceData (domain service entityID : string) (fields : list (string * gval)) (now : Z) (c : Client)
    : outcome :=
  let body := set_props [("entity_id", GString entityID)] fields in
  if negb (encodable (GObject body)) then inl errMarshal
  else if negb (configured (config c)) then inl errNotConfigured
  else if negb (segment_ok domain && segment_ok service) then inl errSegment
  else match validateServiceObservation domain service entityID fields now c with
       | Some e => inl e
       | None => inr (MkRequest domain service body)
       end.

Definition ToggleEntity (entityID : string) (now : Z) (c : Client) : outcome :=
  if negb (configured (config c)) then inl errNotConfigured
  else
    let domain := domain_of entityID in
    if existsb (String.eqb domain) ["input_boolean"; "switch"; "light"]
    then callServiceData domain "toggle" entityID [] now c
    else inl errDomain.

Definition PressButton (entityID : string) (now : Z) (c : Client) : outcome :=
  if negb (configured (config c)) then inl errNotConfigured
  else if negb (String.prefix "button." entityID) then inl errButton
  else callServiceData "button" "press" entityID [] now c.

Definition media_service (mp_action : gval) : string :=
  let a := as_string mp_action in
  if String.eqb a "play" then "media_play" else if String.eqb a "pause" then "media_pause"
  else if String.eqb a "stop" then "media_stop" else "".

(** Whether the entity is allowed, the service and its fields. *)
Definition action_service (f : FilteredEntityConfig) (action entity : string) (payload : list (string * gval))
    : ha_error + bool * string * list (string * gval) :=
  let domain := domain_of entity in
  let listed ids := existsb (String.eqb entity) ids in
  if String.eqb action "number_set" then
    match actionNumber (at_key (Some payload) "value") with
    | Some v => inr ((String.eqb domain "number" || String.eqb domain "input_number") && listed (Numbers f), "set_value",
                     [("value", GFloat v)])
    | None => inl errNumber
    end
  else if String.eqb action "set_cover_position" then
    match actionNumber (at_key (Some payload) "position") with
    | Some (F64.Fin q) =>
        if F64.ltb (F64.Fin q) f64_zero || F64.ltb (F64.of_Z 100) (F64.Fin q) || negb (F64.is_integer q) then inl errPosition
        else inr (String.eqb domain "cover" && listed (Covers f), "set_cover_position", [("position", GInt (F64.Qtrunc q))])
    | _ => inl errPosition
    end
  else if String.eqb action "media_player" then
    inr (String.eqb domain "media_player" && listed (MediaPlayers f), media_service (at_key (Some payload) "mp_action"), [])
  else if String.eqb action "scene_activate" then
    inr (String.eqb domain "scene" && listed (Scenes f), "turn_on", [])
  else inr (false, "", []).

Definition PerformAction (action entity : string) (payload : list (string * gval)) (now : Z) (c : Client) : outcome :=
  match filteredEntities (config c) with
  | Some f =>
      if negb (IsDirectMode (config c)) then inl errDirect
      else if String.eqb entity "" || IsControlFlag entity then inl errEntity
      else match action_service f action entity payload with
           | inl e => inl e
           | inr (allowed, service, fields) =>
               if negb allowed || String.eqb service "" then inl errNotAllowed
               else callServiceData (domain_of entity) service entity fields now c
           end
  | None => inl errDirect
  end.

Definition GetManagedKeys (c : Config) : list string :=
  let owned m := fst <$> List.filter (λ e, haOwnsField e.1 e.2) (iterate m) in
  owned (booleanEntities c) ++
  (StateKey <$> List.filter (λ b, haOwnsField (StateKey b) (Entity b)) (switchEntities c)) ++
  owned (applianceEntities c) ++ owned (sensorEntities c).

Definition ControlsAvailable (now : Z) (c : Client) : bool :=
  IsDirectMode (config c) && within_30s (observedAt c) now.

(** ** Runs *)

Inductive event : Type :=
| Polled (env : answers)
| Replaced (data : Overlay).

Definition step (c : Client) (e : event) : Client :=
  match e with Polled env => snd (FetchStatesOnce env c) | Replaced data => ReplaceOverlay data c end.

Definition run (es : list event) (cfg : Config) : Client := foldl step (new_client cfg) es.
End polling.

(** ** What a poll reads *)

(** The entities that the operator selected, for fields of Home Assistant. *)
Definition configured_entity (c : Config) (e : string) : Prop :=
  (∃ key, haOwnsField key e = true ∧
     (booleanEntities c !! key = Some e ∨ sensorEntities c !! key = Some e ∨ applianceEntities c !! key = Some e ∨
      ∃ b, b ∈ switchEntities c ∧ StateKey b = key ∧ Entity b = e)) ∨
  ∃ f, filteredEntities c = Some f ∧ e ∈ Covers f ++ MediaPlayers f ++ Scenes f ++ Numbers f ++ Sensors f ++ [Weather f].

(** A poll read the document of an entity. *)
Definition document_read (env : answers) (e : string) (doc : EntityState) : Prop := ∃ n, getEntityDoc env n e = Some doc.

(** What counts as an observation of the poll was read at that time. *)
Definition observation (env : answers) (e : string) (t : Z) : Prop :=
  ∃ n doc, getEntityDoc env n e = Some doc ∧ observable e doc = true ∧ clock env n = t.

Definition readings (env : answers) (Q : string -> Prop) (m : gmap string Z) : Prop :=
  ∀ e t, m !! e = Some t -> Q e ∧ observation env e t.

Lemma add_ids_elem ids out x : x ∈ add_ids out ids -> x ∈ out ∨ x ∈ ids.
Proof.
  unfold add_ids. intros H. assert (K : ∀ y, y ∈ foldl (λ out id, if String.eqb id "" || existsb (String.eqb id) out then out else out ++ [id]) out ids -> y ∈ out ∨ y ∈ ids).
  { apply (foldl_inv (λ o, ∀ y, y ∈ o -> y ∈ out ∨ y ∈ ids)); [|by left]. intros a z Hz IH y. case_match; [apply IH|].
    rewrite elem_of_app, list_elem_of_singleton. intros [?| ->]; [by apply IH|by right]. }
  by apply K.
Qed.

Lemma filteredAll_elem f x :
  x ∈ filteredAll f -> x ∈ Covers f ++ MediaPlayers f ++ Scenes f ++ Numbers f ++ Sensors f ++ [Weather f].
Proof.
  unfold filteredAll. set (out := add_ids _ _). intros H.
  assert (x ∈ out ∨ x = Weather f) as [Hx| ->].
  { case_match; [|by left]. apply elem_of_app in H as [?|?%list_elem_of_singleton]; auto. }
  - subst out. repeat (apply add_ids_elem in Hx as [Hx|Hx]); [by apply elem_of_nil in Hx|set_solver..].
  - set_solver.
Qed.

Section facts.
Variable iterate : gmap string string -> list (string * string).
Variable overflow : F64.num -> Z.
Hypothesis iterate_perm : ∀ m, iterate m ≡ₚ map_to_list m.
Abbreviation FetchStatesOnce := (FetchStatesOnce iterate overflow).
Abbreviation run := (run iterate overflow).
Abbreviation step := (step iterate overflow).

Section poll.
Variable env : answers.
Variable c : Config.
Let Q := configured_entity c.

Lemma fetchDoc_readings e p : Q e -> readings env Q (observed p) -> readings env Q (observed (fetchDoc env e p).2).
Proof.
  intros He H. unfold fetchDoc. destruct (getEntityDoc env (requests p) e) as [doc|] eqn:E; [|exact H]. simpl.
  destruct (observable e doc) eqn:O; [|exact H]. intros e' t [[<- <-]|[_ Ht]]%lookup_insert_Some; [|by apply H].
  split; [done|]. by exists (requests p), doc.
Qed.

Lemma fetchDoc_doc e p doc p' : fetchDoc env e p = (Some doc, p') -> document_read env e doc.
Proof.
  unfold fetchDoc. destruct (getEntityDoc env (requests p) e) as [d|] eqn:E; [|done]. intros [= -> _]. by exists (requests p).
Qed.

Lemma fetch_field_readings {B} (store : B -> string -> option EntityState -> B) acc (x : string * string) :
  (haOwnsField x.1 x.2 = true -> Q x.2) -> readings env Q (observed acc.2) ->
  readings env Q (observed (fetch_field env store acc x).2).
Proof.
  intros Hx H. unfold fetch_field. destruct (haOwnsField _ _) eqn:O; [|exact H].
  pose proof (fetchDoc_readings x.2 acc.2 (Hx eq_refl) H) as R. by destruct (fetchDoc env x.2 acc.2).
Qed.

Lemma fetch_loop {B} (store : B -> string -> option EntityState -> B) l acc :
  (∀ x, x ∈ l -> haOwnsField x.1 x.2 = true -> Q x.2) -> readings env Q (observed acc.2) ->
  readings env Q (observed (foldl (fetch_field env store) acc l).2).
Proof.
  intros Hl. apply (foldl_inv (λ a, readings env Q (observed a.2))). intros a x Hx. apply fetch_field_readings. by apply Hl.
Qed.

(** Keys outside of the fields that are polled stay as they are. *)
Lemma fetch_keys {V} (store : gmap string V -> string -> option EntityState -> gmap string V) l acc key :
  (∀ m k doc, k ≠ key -> store m k doc !! key = m !! key) -> IsMQTTOwnedKey key = true ->
  (foldl (fetch_field env store) acc l).1 !! key = acc.1 !! key.
Proof.
  intros Hs Hk. apply (foldl_inv (λ a, a.1 !! key = acc.1 !! key)); [|done]. intros a x _ IH. unfold fetch_field.
  destruct (haOwnsField x.1 x.2) eqn:O; [|exact IH]. destruct (fetchDoc env x.2 a.2) as [doc p]. simpl. rewrite Hs; [exact IH|].
  intros <-. unfold haOwnsField in O. by rewrite Hk in O.
Qed.

Lemma polled_map m (x : string * string) : x ∈ iterate m -> m !! x.1 = Some x.2.
Proof. rewrite (iterate_perm m). destruct x. by rewrite elem_of_map_to_list. Qed.

Lemma poll_fields_readings b fields p : poll_fields iterate env c = (b, fields, p) -> readings env Q (observed p).
Proof.
  unfold poll_fields. destruct (foldl _ _ (iterate (booleanEntities c))) as [b0 p0] eqn:E0.
  destruct (foldl _ _ (_ <$> switchEntities c)) as [f1 p1] eqn:E1.
  destruct (foldl _ _ (iterate (sensorEntities c))) as [f2 p2] eqn:E2.
  destruct (foldl _ _ (iterate (applianceEntities c))) as [f3 p3] eqn:E3. intros [= _ _ <-].
  change p3 with (f3, p3).2. rewrite <- E3. apply (foldl_inv (λ a, readings env Q (observed a.2))).
  { intros a x Hx. apply fetch_field_readings. intros O. left. exists x.1. split; [done|]. right. right. left. by apply polled_map. }
  change (f2, p2).2 with (f2, p2).2. rewrite <- E2. apply fetch_loop.
  { intros x Hx O. left. exists x.1. split; [done|]. right. left. by apply polled_map. }
  rewrite <- E1. apply fetch_loop.
  { intros x Hx O. apply list_elem_of_fmap in Hx as (bt & -> & Hb). left. exists (StateKey bt). split; [done|].
    right. right. right. by exists bt. }
  simpl. change p0 with (b0, p0).2. rewrite <- E0. apply fetch_loop; [|done].
  intros x Hx O. left. exists x.1. split; [done|]. left. by apply polled_map.
Qed.

Lemma poll_display_readings p docs p' :
  readings env Q (observed p) -> poll_display env c p = (docs, p') ->
  readings env Q (observed p') ∧
  (∀ id doc, docs !! id = Some doc -> document_read env id doc ∧ is_Some (observed p' !! id)).
Proof.
  intros H. unfold poll_display. destruct (filteredEntities c) as [f|] eqn:F; [|by intros [= <- <-]].
  destruct (filteredEmpty (Some f)); [by intros [= <- <-]|]. intros E.
  assert (K : readings env Q (observed (docs, p').2) ∧
              ∀ id doc, (docs, p').1 !! id = Some doc -> document_read env id doc ∧ is_Some (observed (docs, p').2 !! id)).
  { rewrite <- E. apply (foldl_inv (λ a, readings env Q (observed a.2) ∧
      ∀ id doc, a.1 !! id = Some doc -> document_read env id doc ∧ is_Some (observed a.2 !! id))); [|done].
    intros a id Hid [R D]. unfold fetch_display.
    assert (He : Q id) by (right; exists f; split; [done|by apply filteredAll_elem]).
    pose proof (fetchDoc_readings id a.2 He R) as R'. destruct (fetchDoc env id a.2) as [doc q] eqn:Ed. simpl in *. split; [done|].
    assert (G : ∀ i, is_Some (observed a.2 !! i) -> is_Some (observed q !! i)).
    { unfold fetchDoc in Ed. destruct (getEntityDoc _ _ _); injection Ed as _ <-; [|done]. simpl. intros i Hi.
      destruct (observable id e); [|done]. rewrite lookup_insert_is_Some. destruct (decide (id = i)); auto. }
    assert (D' : ∀ i d, a.1 !! i = Some d -> document_read env i d ∧ is_Some (observed q !! i))
      by (intros i d Hd; destruct (D i d Hd); auto).
    destruct doc as [doc|]; [|done]. destruct (observed q !! id) as [t|] eqn:O; [|done].
    intros i d [[<- <-]|[_ Hd]]%lookup_insert_Some; [|by apply D']. split; [by eapply fetchDoc_doc|by exists t]. }
  exact K.
Qed.

Lemma ranges_read docs id b :
  display_ranges c docs !! id = Some b -> ∃ doc, docs !! id = Some doc ∧ numberBounds doc = Some b.
Proof.
  unfold display_ranges. destruct (filteredEntities c) as [f|]; [|done]. destruct (filteredEmpty _); [done|].
  assert (K : ∀ id b, foldl (number_range docs) ∅ (Numbers f) !! id = Some b -> ∃ doc, docs !! id = Some doc ∧ numberBounds doc = Some b).
  { apply (foldl_inv (λ m, ∀ id b, m !! id = Some b -> ∃ doc, docs !! id = Some doc ∧ numberBounds doc = Some b)); [|done].
    intros m x _ IH i b'. unfold number_range. destruct (docs !! x) as [doc|] eqn:D; [|apply IH]. simpl.
    destruct (numberBounds doc) as [b1|] eqn:B; [|apply IH]. intros [[<- <-]|[_ H]]%lookup_insert_Some; [by exists doc|by apply IH]. }
  apply K.
Qed.
End poll.

(** What a client knows comes from one poll. *)
Definition from_poll (env : answers) (cl : Client) : Prop :=
  readings env (configured_entity (config cl)) (entityObserved cl) ∧
  ∀ id b, numberRanges cl !! id = Some b -> ∃ doc, document_read env id doc ∧ numberBounds doc = Some b.

Lemma commit_from_poll env cl :
  IsDirectMode (config cl) = true ->
  config (FetchStatesOnce env cl).2 = config cl ∧ from_poll env (FetchStatesOnce env cl).2.
Proof.
  intros Hd. unfold HomeAssistant.FetchStatesOnce. rewrite Hd. cbn [negb].
  destruct (poll_fields _ _ _) as [[b fields] p] eqn:E1. destruct (poll_display _ _ _) as [docs p'] eqn:E2.
  split; [done|]. pose proof (poll_fields_readings _ _ _ _ _ E1) as R.
  destruct (poll_display_readings _ _ _ _ _ R E2) as [R' D]. split; [exact R'|]. simpl.
  intros id bounds (doc & Hdoc & Hb)%ranges_read. exists doc. split; [|done]. by apply D.
Qed.

(** The last poll of a run. *)
Definition last_poll (es : list event) : option answers :=
  foldl (λ last e, match e with Polled env => Some env | Replaced _ => last end) None es.

Lemma run_snoc es e cfg : run (es ++ [e]) cfg = step (run es cfg) e.
Proof. unfold HomeAssistant.run. by rewrite foldl_app. Qed.

Lemma run_from_poll cfg es :
  config (run es cfg) = cfg ∧
  (IsDirectMode cfg = true ->
   match last_poll es with
   | Some env => from_poll env (run es cfg)
   | None => entityObserved (run es cfg) = ∅
   end).
Proof.
  induction es as [|e es [IHc IH]] using rev_ind; [done|]. rewrite run_snoc.
  unfold last_poll. rewrite foldl_app. fold (last_poll es). simpl. destruct e as [env|data]; simpl.
  - destruct (IsDirectMode cfg) eqn:Hd.
    + destruct (commit_from_poll env (run es cfg)) as [Ec F]; [by rewrite IHc|]. split; [by rewrite Ec|done].
    + unfold HomeAssistant.FetchStatesOnce. rewrite IHc, Hd. done.
  - split; [done|]. intros Hd. specialize (IH Hd). destruct (last_poll es); [|done]. exact IH.
Qed.

(** ** Service calls need a current observation *)

Inductive call : Type := Perform (action : string) (payload : list (string * gval)) | Toggle | Press.

Definition service_call (op : call) (entity : string) (now : Z) (cl : Client) : outcome :=
  match op with
  | Perform action payload => PerformAction action entity payload now cl
  | Toggle => ToggleEntity entity now cl
  | Press => PressButton entity now cl
  end.

Lemma within_30s_spec at_ now : within_30s at_ now = true -> ∃ t, at_ = Some t ∧ 0 <= now - t <= 30 * 10 ^ 9.
Proof. unfold within_30s. destruct at_ as [t|]; [|done]. intros H. bool_hyps. by exists t. Qed.

Lemma call_sent domain service entity fields now cl r :
  callServiceData domain service entity fields now cl = inr r ->
  r = MkRequest domain service (set_props [("entity_id", GString entity)] fields) ∧
  IsDirectMode (config cl) = true ∧
  (∃ t, entityObserved cl !! entity = Some t ∧ 0 <= now - t <= 30 * 10 ^ 9) ∧
  (service = "set_value" -> domain = "number" ∨ domain = "input_number" ->
   ∃ v b, actionNumber (at_key (Some fields) "value") = Some v ∧ numberRanges cl !! entity = Some b ∧
          F64.ltb v b.1 = false ∧ F64.ltb b.2 v = false).
Proof.
  unfold callServiceData. destruct (negb (encodable _)); [done|]. destruct (negb (configured _)); [done|].
  destruct (negb (_ && _)); [done|]. unfold validateServiceObservation.
  destruct (String.eqb service "set_value" && _ && _) eqn:Er; [done|]. destruct (negb (IsDirectMode _) || _) eqn:Es; [done|].
  intros [= <-]. bool_hyps. split; [done|]. split; [done|]. split.
  - by apply within_30s_spec.
  - intros -> Hdom. assert (Hd : String.eqb domain "number" || String.eqb domain "input_number" = true)
      by (destruct Hdom as [-> | ->]; reflexivity).
    rewrite Hd in Er. simpl in Er. apply negb_false_iff in Er.
    destruct (actionNumber _) as [v|]; [|done]. destruct (numberRanges cl !! entity) as [b|]; [|done].
    bool_hyps. by exists v, b.
Qed.

(** What [PerformAction] allows. *)
Lemma action_allowed f action entity payload service fields :
  action_service f action entity payload = inr (true, service, fields) ->
  entity ∈ Covers f ++ MediaPlayers f ++ Scenes f ++ Numbers f ∧
  assoc "entity_id" (set_props [("entity_id", GString entity)] fields) = Some (GString entity) ∧
  (service = "set_value" -> (domain_of entity = "number" ∨ domain_of entity = "input_number") ∧
                            ∃ v, actionNumber (GFloat v) = Some v ∧ fields = [("value", GFloat v)]).
Proof.
  clear iterate_perm iterate overflow. unfold action_service. intros H.
  destruct (String.eqb action "number_set").
  { destruct (actionNumber _) as [v|] eqn:A; [|done]. injection H as Ha <- <-. bool_hyps.
    match goal with H : existsb _ _ = true |- _ => apply existsb_eqb in H end.
    split; [set_solver|]. split; [done|]. intros _. split.
    - match goal with H : (_ || _)%bool = true |- _ => apply orb_true_iff in H as [?%String.eqb_eq|?%String.eqb_eq] end; auto.
    - exists v. split; [|done]. unfold actionNumber in *. destruct (at_key _ _) as [| |x|z| | | | |]; try done.
      + by destruct x; simplify_eq/=.
      + by destruct (F64.of_Z z); simplify_eq/=. }
  destruct (String.eqb action "set_cover_position").
  { destruct (actionNumber _) as [[| | |q]|]; try done. destruct (_ || _ || _); [done|]. injection H as Ha <- <-. bool_hyps.
    match goal with H : existsb _ _ = true |- _ => apply existsb_eqb in H end. split; [set_solver|]. by split. }
  destruct (String.eqb action "media_player").
  { injection H as Ha <- <-. bool_hyps. match goal with H : existsb _ _ = true |- _ => apply existsb_eqb in H end.
    split; [set_solver|]. split; [done|]. unfold media_service. by repeat case_match. }
  destruct (String.eqb action "scene_activate"); [|done].
  injection H as Ha <- <-. bool_hyps. match goal with H : existsb _ _ = true |- _ => apply existsb_eqb in H end.
  split; [set_solver|]. by split.
Qed.

Lemma button_domain e : String.prefix "button." e = true -> domain_of e = "button".
Proof.
  intros ->%prefix_split. change (String.length "button.") with 7%nat. generalize (drop_string 7 e). intros t.
  unfold domain_of. change ("button." +:+ t) with ("button" +:+ String "." t). by rewrite split_on_app.
Qed.

Lemma service_call_form op entity now cl r :
  service_call op entity now cl = inr r ->
  ∃ service fields, callServiceData (domain_of entity) service entity fields now cl = inr r ∧
    assoc "entity_id" (set_props [("entity_id", GString entity)] fields) = Some (GString entity) ∧
    (service = "set_value" -> (domain_of entity = "number" ∨ domain_of entity = "input_number") ∧
                              ∃ v, actionNumber (GFloat v) = Some v ∧ fields = [("value", GFloat v)]) ∧
    (∀ action payload, op = Perform action payload -> IsControlFlag entity = false).
Proof.
  intros H. destruct op as [action payload| |]; simpl in H.
  - unfold PerformAction in H. destruct (filteredEntities _) as [flt|]; [|done].
    destruct (negb (IsDirectMode _)); [done|]. destruct (_ || _) eqn:E; [done|]. bool_hyps.
    destruct (action_service _ _ _ _) as [e|[[[] service] fields]] eqn:A; try done.
    destruct (negb true || _); [done|]. apply action_allowed in A as (_ & A1 & A2). by exists service, fields.
  - unfold ToggleEntity in H. destruct (negb _); [done|]. destruct (existsb _ _); [|done].
    by exists "toggle", [].
  - unfold PressButton in H. destruct (negb _); [done|]. destruct (String.prefix _ _) eqn:P; [|done]. cbn [negb] in H.
    rewrite <- (button_domain _ P) in H. by exists "press", [].
Qed.

(** The entity of a request was observed by the last poll. *)
Lemma sent_observed cfg es domain service entity fields now r :
  callServiceData domain service entity fields now (run es cfg) = inr r ->
  IsDirectMode cfg = true ∧ configured_entity cfg entity ∧
  ∃ env, last_poll es = Some env ∧ from_poll env (run es cfg) ∧ ∃ t, observation env entity t ∧ 0 <= now - t <= 30 * 10 ^ 9.
Proof.
  destruct (run_from_poll cfg es) as [Ec F]. intros (-> & Hd & (t & Ht & Hage) & _)%call_sent. rewrite Ec in Hd. specialize (F Hd).
  destruct (last_poll es) as [env|]; [|by rewrite F in Ht]. destruct F as [R N]. destruct (R entity t Ht) as [HQ Ho].
  rewrite Ec in HQ. split; [done|]. split; [done|]. exists env. split; [done|]. split; [by split|]. by exists t.
Qed.

(** C18: A request to Home Assistant names an entity that the operator configured, in
    the direct mode, and the last poll observed this entity at most thirty
    seconds before.  A number is within the bounds that the same poll read.
    Actions of the rich display never concern a flag of the controller. *)
Theorem service_call_sound (cfg : Config) (es : list event) (op : call) (entity : string) (now : Z) (r : Request) :
  service_call op entity now (run es cfg) = inr r ->
  IsDirectMode cfg = true ∧ configured_entity cfg entity ∧ Domain r = domain_of entity ∧
  assoc "entity_id" (Body r) = Some (GString entity) ∧
  ∃ env, last_poll es = Some env ∧
    (∃ t, observation env entity t ∧ 0 <= now - t <= 30 * 10 ^ 9) ∧
    (Service r = "set_value" ->
     ∃ doc v b, document_read env entity doc ∧ numberBounds doc = Some b ∧
       assoc "value" (Body r) = Some (GFloat v) ∧ F64.ltb v b.1 = false ∧ F64.ltb b.2 v = false) ∧
    (∀ action payload, op = Perform action payload -> IsControlFlag entity = false).
Proof.
  intros (service & fields & Hcall & Hbody & Hnum & Hflag)%service_call_form.
  destruct (sent_observed _ _ _ _ _ _ _ _ Hcall) as (Hd & HQ & env & El & [R N] & Ho).
  apply call_sent in Hcall as (-> & _ & _ & Hrange). repeat (split; [done|]).
  exists env. split; [done|]. split; [done|]. split; [|done]. simpl. intros Hs.
  destruct (Hnum Hs) as (Hdom & v & Hv & Ef). subst fields.
  destruct (Hrange Hs Hdom) as (v' & b & Hv' & Hb & Hlo & Hhi).
  change (at_key (Some [("value", GFloat v)]) "value") with (GFloat v) in Hv'. rewrite Hv in Hv'. injection Hv' as <-.
  destruct (N _ _ Hb) as (doc & Hdoc & Hbounds). by exists doc, v, b.
Qed.

(** Toggles are allowed for configured entities outside of the controller's. *)
Lemma toggle_allowed_owned c e :
  IsToggleAllowed c e = true -> configured_entity c e ∧ IsControlFlag e = false.
Proof.
  unfold IsToggleAllowed. intros H. bool_hyps.
  assert (K : ∀ key x, haOwnsField key x = true -> IsControlFlag x = false)
    by (unfold haOwnsField; intros; by bool_hyps).
  match goal with H : (_ || _)%bool = true |- _ => apply orb_true_iff in H as [H|H]; apply existsb_exists in H as (x & Hx & Hb) end.
  - destruct x as [key x]. bool_hyps. simpl in *. subst x. split; [|by eapply K].
    left. exists key. split; [done|]. left. by apply elem_of_map_to_list, list_elem_of_In.
  - bool_hyps. subst e. split; [|by eapply K]. left. exists (StateKey x). split; [done|]. do 3 right.
    exists x. by apply list_elem_of_In in Hx.
Qed.

(** ** The overlay *)

(** A poll's overlay has no field that MQTT owns. *)
Theorem overlay_not_mqtt (env : answers) (cl cl' : Client) (o : Overlay) (key : string) :
  FetchStatesOnce env cl = (o, cl') -> IsMQTTOwnedKey key = true ->
  Booleans o !! key = None ∧ AdditionalFields o !! key = None.
Proof.
  unfold HomeAssistant.FetchStatesOnce. destruct (negb _); [by intros [= <- _]|].
  destruct (poll_fields _ _ _) as [[b fields] p] eqn:E1. destruct (poll_display _ _ _) as [docs p'] eqn:E2.
  intros [= <- _] Hk. simpl. unfold poll_fields in E1.
  destruct (foldl _ _ (iterate (booleanEntities _))) as [b0 p0] eqn:F0.
  destruct (foldl _ _ (_ <$> switchEntities _)) as [f1 p1] eqn:F1.
  destruct (foldl _ _ (iterate (sensorEntities _))) as [f2 p2] eqn:F2.
  destruct (foldl _ _ (iterate (applianceEntities _))) as [f3 p3] eqn:F3. injection E1 as -> -> ->.
  assert (B : b !! key = None).
  { change b with (b, p0).1. rewrite <- F0. rewrite fetch_keys; [done| |done]. intros m k doc Hne. unfold store_boolean.
    repeat case_match; try done. by rewrite lookup_insert_ne. }
  split; [exact B|].
  assert (F : fields !! key = None).
  { change fields with (fields, p).1. rewrite <- F3. apply (foldl_inv (λ a, a.1 !! key = None)).
    { intros a x _ IH. unfold fetch_appliance, fetch_field. destruct (haOwnsField _ _) eqn:O; [|done].
      destruct (fetchDoc _ _ _) as [[doc|] q]; [|done]. simpl. rewrite lookup_insert_ne; [done|]. intros E.
      unfold haOwnsField in O. by rewrite E, Hk in O. }
    rewrite <- F2. rewrite fetch_keys; [|intros m k doc Hne; unfold store_sensor; destruct doc; [by rewrite lookup_insert_ne|done]|done].
    simpl. change f1 with (f1, p1).1. rewrite <- F1.
    rewrite fetch_keys; [done| |done]. intros m k doc Hne. unfold store_switch. by rewrite lookup_insert_ne. }
  unfold display_fields. destruct (filteredEntities _) as [f|]; [|exact F]. destruct (filteredEmpty _); [exact F|].
  rewrite lookup_insert_ne; [exact F|]. intros <-. vm_compute in Hk. discriminate.
Qed.

(** The numbers that the display of an overlay offers. *)
Definition shown_numbers (o : Overlay) : list (list (string * gval)) :=
  match AdditionalFields o !! "ha_filtered" with
  | Some (GObject d) => match assoc "numbers" d with Some (GSlice ns) => omap as_object ns | _ => [] end
  | _ => []
  end.

Lemma number_shown (docs : gmap string EntityState) (cfg : FilteredEntityConfig) (n : list (string * gval)) :
  n ∈ omap as_object (omap (λ id, (if String.eqb id "" then None else docs !! id) ≫= number_display) (Numbers cfg)) ->
  ∃ id doc b, id ∈ Numbers cfg ∧ docs !! id = Some doc ∧ numberBounds doc = Some b ∧
    assoc "entity_id" n = Some (GString (EntityID doc)) ∧ assoc "min" n = Some (GFloat b.1) ∧ assoc "max" n = Some (GFloat b.2).
Proof.
  intros (g & Hg & Hn)%list_elem_of_omap. apply list_elem_of_omap in Hg as (id & Hid & Hd).
  destruct (String.eqb id ""); [done|]. destruct (docs !! id) as [doc|] eqn:D; [|done]. simpl in Hd.
  unfold number_display in Hd. destruct (match attrFloat doc "state" with Some x => Some x | None => _ end); [|done]. simpl in Hd.
  destruct (_ || _); [done|]. destruct (numberBounds doc) as [b|] eqn:B; [|done]. simpl in Hd. injection Hd as <-.
  simpl in Hn. injection Hn as <-. by exists id, doc, b.
Qed.

Lemma range_recorded c f (docs : gmap string EntityState) id doc b :
  filteredEntities c = Some f -> filteredEmpty (Some f) = false -> id ∈ Numbers f -> docs !! id = Some doc ->
  numberBounds doc = Some b -> display_ranges c docs !! id = Some b.
Proof.
  intros Ef En Hid Hd Hb. unfold display_ranges. rewrite Ef, En.
  assert (K : ∀ l m, (id ∈ l ∨ m !! id = Some b) -> foldl (number_range docs) m l !! id = Some b).
  { intros l. induction l as [|x l IH]; intros m [H|H]; simpl; [by apply elem_of_nil in H|exact H|apply IH..].
    - apply elem_of_cons in H as [->|H]; [right|by left]. unfold number_range. rewrite Hd. simpl. rewrite Hb. by rewrite lookup_insert_eq.
    - right. unfold number_range. destruct (docs !! x ≫= numberBounds) as [b'|] eqn:E; [|exact H].
      destruct (decide (x = id)) as [->|Hne]; [|by rewrite lookup_insert_ne]. rewrite Hd in E. simpl in E.
      rewrite lookup_insert_eq. congruence. }
  apply K. by left.
Qed.

Lemma set_value_accepted cl f id v b t now :
  filteredEntities (config cl) = Some f -> IsDirectMode (config cl) = true -> IsControlFlag id = false ->
  domain_of id = "number" ∨ domain_of id = "input_number" -> id ∈ Numbers f ->
  numberRanges cl !! id = Some b -> F64.ltb (F64.Fin v) b.1 = false -> F64.ltb b.2 (F64.Fin v) = false ->
  entityObserved cl !! id = Some t -> 0 <= now - t <= 30 * 10 ^ 9 ->
  PerformAction "number_set" id [("value", GFloat (F64.Fin v))] now cl =
  inr (MkRequest (domain_of id) "set_value" [("entity_id", GString id); ("value", GFloat (F64.Fin v))]).
Proof.
  intros Ef Hd Hflag Hdom Hin Hb Hlo Hhi Ht Hage. unfold PerformAction. rewrite Ef, Hd, Hflag. cbn [negb orb].
  assert (Hempty : String.eqb id "" = false) by (destruct id; [by destruct Hdom|done]). rewrite Hempty. cbn [orb].
  unfold action_service. change (String.eqb "number_set" "number_set") with true.
  change (at_key (Some [("value", GFloat (F64.Fin v))]) "value") with (GFloat (F64.Fin v)). cbn [actionNumber finite].
  rewrite (proj2 (existsb_eqb id (Numbers f)) Hin).
  assert (Hor : String.eqb (domain_of id) "number" || String.eqb (domain_of id) "input_number" = true)
    by (destruct Hdom as [-> | ->]; reflexivity).
  rewrite Hor. cbn [andb negb orb]. change (String.eqb "set_value" "") with false. cbn iota.
  unfold callServiceData. change (encodable _) with true.
  assert (Hc : configured (config cl) = true) by (by apply andb_true_iff in Hd as [? _]). rewrite Hc. cbn [negb].
  assert (Hseg : segment_ok (domain_of id) && segment_ok "set_value" = true) by (destruct Hdom as [-> | ->]; reflexivity).
  rewrite Hseg. cbn [negb]. unfold validateServiceObservation.
  change (at_key (Some [("value", GFloat (F64.Fin v))]) "value") with (GFloat (F64.Fin v)). cbn [actionNumber finite].
  rewrite Hb, Hlo, Hhi, Hor, Hd, Ht. change (String.eqb "set_value" "set_value") with true. cbn [negb andb orb].
  unfold within_30s. by rewrite (proj2 (Z.leb_le 0 (now - t))), (proj2 (Z.leb_le (now - t) _)) by lia.
Qed.

End facts.

(** ** Durations *)

Lemma components_nonneg parts first total t :
  0 <= total -> add_components first total parts = Some t -> 0 <= t.
Proof.
  revert first total. induction parts as [|part parts IH]; intros first total Ht H; [by injection H as <-|].
  simpl in H. destruct (add_component first total part) as [t'|] eqn:E; [|done]. apply (IH false t'); [|exact H].
  unfold add_component in E. destruct (Atoi part) as [u|]; [|done]. destruct (_ || _ || _ || _) eqn:G; [done|].
  injection E as <-. bool_hyps. lia.
Qed.

Lemma trunc_bounds q : F64.leb (F64.of_Z 0) (F64.Fin q) = true -> F64.leb (F64.Fin q) (F64.of_Z maxSafeSeconds) = true ->
  0 <= F64.Qtrunc q <= maxSafeSeconds.
Proof.
  change (F64.of_Z 0) with (F64.Fin 0). assert (E : F64.of_Z maxSafeSeconds = F64.Fin (inject_Z maxSafeSeconds)) by reflexivity.
  rewrite E. unfold F64.leb, F64.ltb, F64.eqb, F64.Qtrunc. intros H1 H2.
  assert (0 <= q)%Q as Hq.
  { apply orb_true_iff in H1 as [H1|H1]; [|apply Qeq_bool_eq in H1; rewrite <- H1; apply Qle_refl].
    apply negb_true_iff in H1. apply Qlt_le_weak, Qnot_le_lt. intros C%Qle_bool_iff. congruence. }
  assert (q <= inject_Z maxSafeSeconds)%Q as Hq'.
  { apply orb_true_iff in H2 as [H2|H2]; [|apply Qeq_bool_eq in H2; rewrite H2; apply Qle_refl].
    apply negb_true_iff in H2. apply Qlt_le_weak, Qnot_le_lt. intros C%Qle_bool_iff. congruence. }
  rewrite (proj2 (Qle_bool_iff 0 q) Hq). split.
  - change 0 with (Qround.Qfloor 0). by apply Qround.Qfloor_resp_le.
  - rewrite <- (Qround.Qfloor_Z maxSafeSeconds). by apply Qround.Qfloor_resp_le.
Qed.

(** Whatever text an appliance reports as its duration, the seconds are an
    integer that JavaScript represents exactly, and not negative. *)
Theorem seconds_bounded (raw : string) : 0 <= parseStateToSeconds raw <= maxSafeSeconds.
Proof.
  unfold parseStateToSeconds.
  destruct (parseFiniteNumber (TrimSpace raw)) as [x|];
    [destruct x as [| | |q]; [| | |destruct (F64.leb (F64.of_Z 0) _ && _ && _) eqn:E; [bool_hyps; by apply trunc_bounds|]]|].
  all: destruct (negb _ && negb _); [done|]; destruct (add_components _ _ _) as [total|] eqn:A; [|done];
    apply components_nonneg in A; [|done]; destruct (maxSafeSeconds <? total) eqn:L; bool_hyps; done || lia.
Qed.

Example durations : parseStateToSeconds <$> ["01:02:03"; "2:30"; "1:60"; " 90.9 "; "-5"; "1e300"; "9007199254740992:00"; "+1:00"]
  = [3723; 150; 0; 90; 0; 0; 0; 0].
Proof. vm_compute. reflexivity. Qed.

(** ** A concrete client *)

Definition sample_display : FilteredEntityConfig := MkFiltered ["cover.garage"] [] [] ["number.limit"] [] "".
Definition sample_config : Config :=
  MkConfig true true {["lamp" := "switch.lamp"]} [] ∅ ∅ (Some sample_display).
Definition limit_doc : EntityState :=
  MkEntity "number.limit" "40" (Some [("min", GFloat (F64.of_Z 10)); ("max", GFloat (F64.of_Z 60))]).
Definition sample_answers : answers :=
  MkAnswers (λ _ e, if String.eqb e "number.limit" then Some limit_doc
                    else if String.eqb e "switch.lamp" then Some (MkEntity e "on" None) else None)
            (λ n, Z.of_nat n * 10 ^ 9).
Definition no_overflow (_ : F64.num) : Z := 0.
Definition polled : Overlay * Client := FetchStatesOnce map_to_list no_overflow sample_answers (new_client sample_config).
Definition set_limit (v : Z) : call := Perform "number_set" [("value", GFloat (F64.of_Z v))].

Lemma map_to_list_perm (m : gmap string string) : map_to_list m ≡ₚ map_to_list m.
Proof. reflexivity. Qed.

Definition limit_request : Request :=
  MkRequest "number" "set_value" [("entity_id", GString "number.limit"); ("value", GFloat (F64.Fin 50))].

Example outside_range :
  service_call (set_limit 70) "number.limit" 0 (run map_to_list no_overflow [Polled sample_answers] sample_config) = inl errRange ∧
  service_call Toggle "switch.lamp" (40 * 10 ^ 9) (run map_to_list no_overflow [Polled sample_answers] sample_config) = inl errStale.
Proof. vm_compute. done. Qed.

Lemma service_call_sound_witness :
  IsDirectMode sample_config = true ∧ configured_entity sample_config "number.limit" ∧
  Domain limit_request = domain_of "number.limit" ∧
  assoc "entity_id" (Body limit_request) = Some (GString "number.limit") ∧
  ∃ env, last_poll [Polled sample_answers] = Some env ∧
    (∃ t, observation env "number.limit" t ∧ 0 <= 20 * 10 ^ 9 - t <= 30 * 10 ^ 9) ∧
    (Service limit_request = "set_value" ->
     ∃ doc v b, document_read env "number.limit" doc ∧ numberBounds doc = Some b ∧
       assoc "value" (Body limit_request) = Some (GFloat v) ∧ F64.ltb v b.1 = false ∧ F64.ltb b.2 v = false) ∧
    (∀ action payload, set_limit 50 = Perform action payload -> IsControlFlag "number.limit" = false).
Proof.
  apply (service_call_sound map_to_list no_overflow map_to_list_perm sample_config [Polled sample_answers] (set_limit 50)
           "number.limit" (20 * 10 ^ 9) limit_request).
  vm_compute. reflexivity.
Defined.

Lemma overlay_not_mqtt_witness : Booleans (fst polled) !! "no_feed" = None ∧ AdditionalFields (fst polled) !! "no_feed" = None.
Proof.
  apply (overlay_not_mqtt map_to_list no_overflow sample_answers (new_client sample_config) (snd polled) (fst polled)).
  - apply surjective_pairing.
  - reflexivity.
Defined.

Definition limit_shown : list (string * gval) := hd [] (shown_numbers (fst polled)).

