(* ===== verification/Configuration.v ===== *)
(** * The configuration

    [internal/config/config.go] and [connection_policy.go]: the switches that
    [config.yaml] names and the buttons that [internal/homeassistant] makes of
    them, the poll interval, which transports are configured, and the source
    that [main] starts with.  YAML itself is parsed by its library: a mapping is
    the list of its keys in the order of the file, and the values that decoding
    it into a Go map yields. *)

From Stdlib Require Import ZArith QArith Qround Ascii String Sorted Lia.
From stdpp Require Import base list option strings gmap fin_maps.
From S2P Require Import Prelude Float64 JsValue Format ControllerCommands NativeLeaves JsonFields CerboLeaves OverlayState HomeAssistant.

#[local] Open Scope string_scope.
#[local] Open Scope list_scope.
#[local] Open Scope Z_scope.

(** ** Switches *)

Section switches.
Variable ToUpper : string -> string.
(** What converting a float64 out of range to an int gives. *)
Variable overflow : F64.num -> Z.

Definition defaultLabel (key : string) : string := replace_char "_" " " (TrimPrefix "HOME_" (ToUpper key)).

(** [int(ord)] of a float64. *)
Definition int_of_float (x : F64.num) : Z :=
  match x with
  | F64.Fin q => let z := F64.Qtrunc q in if (- 2 ^ 63 <=? z) && (z <? 2 ^ 63) then z else overflow x
  | _ => overflow x
  end.

Definition order_of (v : gval) : Z := match v with GInt z => z | GFloat x => int_of_float x | _ => 0 end.

Definition nonempty (v : gval) : option string :=
  match v with GString s => if String.eqb s "" then None else Some s | _ => None end.

(** The body of the loop: the entity, the label if one is given, and the order;
    [None] for a disabled one. *)
Definition switch_fields (key : string) (value : gval) : option (string * option string * Z) :=
  match value with
  | GString s => Some (s, Some (defaultLabel key), 0)
  | GSlice l =>
      Some (match l with v :: _ => as_string v | [] => "" end,
            match l with _ :: v :: _ => nonempty v | _ => None end, 0)
  | GObject _ =>
      let field := at_key (as_object value) in
      match field "enabled" with
      | GBool false => None
      | _ =>
          Some (as_string (field "entity"),
                match nonempty (field "label"), nonempty (field "short") with
                | Some l, _ => Some l
                | None, Some l => Some l
                | None, None => nonempty (field "name")
                end,
                order_of (field "order"))
      end
  | _ => Some ("", None, 0)
  end.

Definition convert_entry (key : string) (value : gval) : option EntityConfig :=
  '(entity, label, order) ← switch_fields key value;
  let entity := TrimSpace entity in
  if String.eqb entity "" || String.eqb (TrimSpace key) "" then None
  else Some (MkEntityConfig key entity
               (match label with Some l => if String.eqb l "" then defaultLabel key else l | None => defaultLabel key end) order None).

(** The keys of a Go map in order. *)
Definition convertMapToEntitySlice (input : gmap string gval) : list EntityConfig :=
  omap (λ e, convert_entry e.1 e.2) (by_key (map_to_list input)).

(** One key of the mapping, in the order of the file. *)
Definition take_key (acc : list EntityConfig * gmap string gval) (key : string) : list EntityConfig * gmap string gval :=
  match acc.2 !! key with
  | Some value => (acc.1 ++ convertMapToEntitySlice {[key := value]}, delete key acc.2)
  | None => acc
  end.

(** A mapping with its decoded values; [None] where the node is no mapping or
    does not decode. *)
Definition switchEntitiesFromYAML (keys : list string) (values : gmap string gval) : list EntityConfig :=
  let '(result, rest) := foldl take_key ([], values) keys in
  result ++ convertMapToEntitySlice rest.

Definition convert_boolean (key : string) (value : gval) : string :=
  match value with
  | GString s => s
  | GObject _ => as_string (at_key (as_object value) "entity")
  | _ => ""
  end.

(** The entities of [convertMapToBooleanEntitySlice] and
    [convertConfigBooleanEntities]; the buttons are not modelled. *)
Definition boolean_entities (input : gmap string gval) : gmap string string := map_imap (λ k v, Some (convert_boolean k v)) input.

(** ** Buttons in the order of the file *)

Definition button_of (values : gmap string gval) (key : string) : option Button :=
  value ← values !! key; e ← convert_entry key value; switch_button ToUpper e.

Definition ranked (n : Z) (b : Button) : bool := Order b =? n.

Lemma by_order_stable n l : List.filter (ranked n) (by_order l) = List.filter (ranked n) l.
Proof.
  unfold by_order. pose proof (stable_sort_stable (λ x y, Order y <? Order x) (λ _, True) (λ b, inject_Z (- Order b))) as S.
  specialize (S ltac:(intros x y _ _; apply eq_true_iff_eq; rewrite negb_true_iff, <- not_true_iff_false, Qle_bool_iff, Z.ltb_lt, <- Zle_Qle; lia)).
  specialize (S (inject_Z (- n)) l ltac:(by apply Forall_forall)).
  assert (E : ∀ k, List.filter (weighs (λ b, inject_Z (- Order b)) (inject_Z (- n))) k = List.filter (ranked n) k).
  { intros k. apply List.filter_ext. intros b. unfold weighs, ranked. apply eq_true_iff_eq.
    rewrite Qeq_bool_iff, Z.eqb_eq, inject_Z_injective. lia. }
  by rewrite !E in S.
Qed.

Lemma single_slice key value : convertMapToEntitySlice {[key := value]} = match convert_entry key value with Some e => [e] | None => [] end.
Proof.
  unfold convertMapToEntitySlice. rewrite map_to_list_singleton. cbn. by case_match.
Qed.

Lemma take_keys keys values acc :
  NoDup keys ->
  let r := foldl take_key (acc, values) keys in
  r.1 = acc ++ omap (λ k, values !! k ≫= convert_entry k) keys ∧
  ∀ k, r.2 !! k = if decide (k ∈ keys) then None else values !! k.
Proof.
  revert acc values. induction keys as [|key keys IH]; intros acc values N.
  - cbn. split; [by rewrite app_nil_r|]. intros k. by rewrite decide_False by apply not_elem_of_nil.
  - apply NoDup_cons in N as [Hk N]. cbn [foldl omap list_omap]. unfold take_key at 2 4. cbn [fst snd].
    destruct (values !! key) as [value|] eqn:E; cbn [mbind option_bind].
    + destruct (IH (acc ++ convertMapToEntitySlice {[key := value]}) (delete key values) N) as [-> R]. split.
      * rewrite single_slice, <- app_assoc. f_equal.
        assert (Eo : omap (λ k, delete key values !! k ≫= convert_entry k) keys = omap (λ k, values !! k ≫= convert_entry k) keys).
        { clear -Hk. induction keys as [|k keys IH]; [done|]. apply not_elem_of_cons in Hk as [Hne Hk]. cbn.
          rewrite lookup_delete_ne by done. by rewrite IH. }
        rewrite Eo. by destruct (convert_entry key value).
      * intros k. rewrite R. destruct (decide (k = key)) as [->|Hne].
        -- rewrite lookup_delete_eq. repeat case_decide; set_solver.
        -- rewrite lookup_delete_ne by done. repeat case_decide; set_solver.
    + destruct (IH acc values N) as [-> R]. split; [done|]. intros k. rewrite R.
      destruct (decide (k = key)) as [->|Hne]; repeat case_decide; set_solver.
Qed.

(** Without merge keys, every entry of the file is taken in its place. *)
Lemma entities_in_file_order keys values :
  NoDup keys -> (∀ k, is_Some (values !! k) -> k ∈ keys) ->
  switchEntitiesFromYAML keys values = omap (λ k, values !! k ≫= convert_entry k) keys.
Proof.
  intros N Hd. unfold switchEntitiesFromYAML. destruct (take_keys keys values [] N) as [E R].
  destruct (foldl take_key ([], values) keys) as [result rest]. cbn in *. subst result.
  assert (rest = ∅) as ->; [|by rewrite app_nil_r].
  apply map_eq. intros k. rewrite R, lookup_empty. case_decide; [done|].
  destruct (values !! k) eqn:Ek; [|done]. exfalso. naive_solver.
Qed.

Lemma omap_omap {A B C} (f : A -> option B) (g : B -> option C) (l : list A) : omap g (omap f l) = omap (λ x, f x ≫= g) l.
Proof. induction l as [|x l IH]; [done|]. cbn. destruct (f x); cbn; [destruct (g _)|]; by rewrite IH. Qed.

(** The buttons of the page are those of the file: ranked by their order, equal
    ranks as they are declared; a disabled entry, one without an entity and one
    that would take a field of MQTT or a flag of the controller have none. *)
Theorem buttons_in_file_order (keys : list string) (values : gmap string gval) :
  NoDup keys -> (∀ k, is_Some (values !! k) -> k ∈ keys) ->
  let buttons := convertConfigSwitchEntities ToUpper (switchEntitiesFromYAML keys values) in
  StronglySorted (λ x y, Order x <= Order y) buttons ∧
  (∀ n, List.filter (ranked n) buttons = List.filter (ranked n) (omap (button_of values) keys)) ∧
  Forall (λ b, haOwnsField (StateKey b) (Entity b) = true ∧ Entity b ≠ "" ∧
               ∃ value, values !! StateKey b = Some value ∧ at_key (as_object value) "enabled" ≠ GBool false) buttons.
Proof.
  intros N Hd. cbn zeta. rewrite (entities_in_file_order keys values N Hd). unfold convertConfigSwitchEntities.
  rewrite omap_omap.
  assert (E : omap (λ k, (values !! k ≫= convert_entry k) ≫= switch_button ToUpper) keys = omap (button_of values) keys).
  { clear. induction keys as [|k keys IH]; [done|]. cbn. rewrite IH. unfold button_of. by destruct (values !! k). }
  rewrite E. split; [|split].
  - unfold by_order. apply (stable_sort_sorted _ (λ _, True)).
    + intros x y z. lia.
    + intros x y _ _ L. bool_hyps. lia.
    + intros x y _ _ L. bool_hyps. lia.
    + by apply Forall_forall.
  - intros n. apply by_order_stable.
  - unfold by_order. rewrite stable_sort_perm. apply Forall_forall. intros b (key & _ & Hb)%list_elem_of_omap.
    unfold button_of in Hb. destruct (values !! key) as [value|] eqn:Ev; [|done]. cbn in Hb.
    destruct (convert_entry key value) as [e|] eqn:Ee; [|done]. cbn in Hb. unfold switch_button in Hb.
    destruct (_ || _ || _) eqn:G; [done|]. injection Hb as <-. bool_hyps. cbn.
    unfold convert_entry in Ee. destruct (switch_fields key value) as [[[entity label] order]|] eqn:F; [|done]. cbn in Ee.
    destruct (_ || _); [done|]. injection Ee as <-. cbn in *. split; [done|]. split; [done|].
    exists value. split; [done|]. intros Hf. destruct value; try discriminate Hf. cbn in F, Hf. by rewrite Hf in F.
Qed.
End switches.

(** ** The poll interval *)

Definition nanoseconds (v : F64.num) : F64.num := F64.mul v (F64.of_Z 1000000000).

Definition pollOrDefault (v : F64.num) : F64.num :=
  let ns := nanoseconds v in
  if F64.is_nan ns || F64.ltb ns (F64.of_Z 1) || F64.leb (F64.of_Z (2 ^ 63 - 1)) ns then F64.of_Z 12 else v.

(** [time.Duration] of the interval, where the conversion is defined. *)
Definition pollInterval (v : F64.num) : option Z :=
  match nanoseconds v with
  | F64.Fin q => let z := F64.Qtrunc q in if (- 2 ^ 63 <=? z) && (z <? 2 ^ 63) then Some z else None
  | _ => None
  end.

Lemma trunc_between (q : Q) (hi : Z) : (1 <= q)%Q -> (q < inject_Z hi)%Q -> 1 <= F64.Qtrunc q < hi.
Proof.
  intros H1 H2. unfold F64.Qtrunc. assert (0 <= q)%Q as Hle by (eapply Qle_trans; [|exact H1]; discriminate).
  rewrite (proj2 (Qle_bool_iff 0 q) Hle). split.
  - change 1 with (Qfloor 1). by apply Qfloor_resp_le.
  - rewrite Zlt_Qlt. eapply Qle_lt_trans; [apply Qfloor_le|done].
Qed.

(** Whatever number the file names, the ticker of the poller gets a positive
    duration: it never panics. *)
Theorem poll_interval_positive (v : F64.num) : ∃ n, pollInterval (pollOrDefault v) = Some n ∧ 1 <= n < 2 ^ 63.
Proof.
  unfold pollOrDefault. destruct (_ || _) eqn:G.
  - exists 12000000000. split; [by vm_compute|lia].
  - assert (E1 : F64.of_Z 1 = F64.Fin 1) by (vm_compute; reflexivity).
    assert (E2 : F64.of_Z (2 ^ 63 - 1) = F64.Fin (inject_Z (2 ^ 63))) by (vm_compute; reflexivity).
    rewrite E1, E2 in G. clear E1 E2. unfold pollInterval, F64.leb in *.
    destruct (nanoseconds v) as [| | |q]; cbn [F64.is_nan F64.ltb F64.eqb orb] in G; [discriminate G..|]. bool_hyps.
    assert (1 <= q)%Q by (by apply Qle_bool_iff).
    assert (q <= inject_Z (2 ^ 63))%Q as Hle by (by apply Qle_bool_iff).
    assert (q < inject_Z (2 ^ 63))%Q.
    { apply Qle_lteq in Hle as [?|Eq]; [done|]. exfalso. symmetry in Eq. apply Qeq_bool_iff in Eq. congruence. }
    pose proof (trunc_between q (2 ^ 63) ltac:(done) ltac:(done)) as [L U]. exists (F64.Qtrunc q). split; [|done].
    by rewrite (proj2 (Z.leb_le _ _)), (proj2 (Z.ltb_lt _ _)) by lia.
Qed.

(** ** The source at startup *)

Inductive DataSource : Type := SourceMQTT | SourceIGW | SourceNone.

Definition ChooseStartupSource (mqttConfigured igwConfigured mqttReachable : bool) : DataSource :=
  if mqttConfigured && igwConfigured then if mqttReachable then SourceMQTT else SourceIGW
  else if mqttConfigured then SourceMQTT
  else if igwConfigured then SourceIGW
  else SourceNone.

Record Gateway := MkGateway {
  Enabled : bool; GatewayURL : string; AccessClientID : string; AccessClientSecret : string; APIToken : string }.

Definition MQTTConfigured (host : string) : bool := negb (String.eqb (TrimSpace host) "").

Definition GatewayConfigured (g : Gateway) : bool :=
  let given s := negb (String.eqb (TrimSpace s) "") in
  Enabled g && given (GatewayURL g) && Bool.eqb (given (AccessClientID g)) (given (AccessClientSecret g)) &&
  (given (APIToken g) || given (AccessClientID g)).

(** The ten attempts to connect; [startMQTT n] is the [n]-th. *)
Definition broker_reachable (startMQTT : nat -> bool) : bool := existsb startMQTT (seq 1 10).

(** The source that [main] starts with; [None] where it exits. *)
Definition startup (host : string) (g : Gateway) (startMQTT : nat -> bool) : option DataSource :=
  let mqttReachable := MQTTConfigured host && broker_reachable startMQTT in
  if MQTTConfigured host && negb mqttReachable && negb (GatewayConfigured g) then None
  else Some (ChooseStartupSource (MQTTConfigured host) (GatewayConfigured g) mqttReachable).

(** The dashboard starts on MQTT only after a connection, on a gateway only when
    it is configured and no attempt at a configured broker succeeded, without a
    source only when none is configured, and it gives up only where nothing is
    left to try. *)
Theorem startup_source_available (host : string) (g : Gateway) (startMQTT : nat -> bool) :
  let connected := ∃ n, (1 <= n <= 10)%nat ∧ startMQTT n = true in
  match startup host g startMQTT with
  | Some SourceMQTT => MQTTConfigured host = true ∧ connected
  | Some SourceIGW => GatewayConfigured g = true ∧ (MQTTConfigured host = true -> ¬ connected)
  | Some SourceNone => MQTTConfigured host = false ∧ GatewayConfigured g = false
  | None => MQTTConfigured host = true ∧ GatewayConfigured g = false ∧ ¬ connected
  end.
Proof.
  assert (R : broker_reachable startMQTT = true ↔ ∃ n, (1 <= n <= 10)%nat ∧ startMQTT n = true).
  { unfold broker_reachable. rewrite existsb_exists. setoid_rewrite in_seq. split; intros (n & Hn & H); exists n; (split; [lia|done]). }
  revert R. generalize (∃ n, (1 <= n <= 10)%nat ∧ startMQTT n = true). cbn zeta. unfold startup, ChooseStartupSource.
  destruct (MQTTConfigured host), (GatewayConfigured g), (broker_reachable startMQTT); cbn; intros connected []; naive_solver.
Qed.

(** ** A file *)

Definition plain_upper (s : string) : string := string_of_list_ascii (Format.upper_char <$> list_ascii_of_string s).
Definition no_conversion (_ : F64.num) : Z := 0.
Definition sample_keys : list string := ["home_pump"; "g1"; "home_lamp"; "home_off"; "home_fan"].
Definition sample_values : gmap string gval :=
  list_to_map [("home_pump", GObject [("entity", GString " switch.pump "); ("order", GInt 1)]);
               ("g1", GString "switch.grid"); ("home_lamp", GSlice [GString "light.lamp"; GString "Lamp"]);
               ("home_off", GObject [("entity", GString "switch.off"); ("enabled", GBool false)]);
               ("home_fan", GString "switch.fan")].
Definition sample_buttons : list Button :=
  convertConfigSwitchEntities plain_upper (switchEntitiesFromYAML plain_upper no_conversion sample_keys sample_values).

Example buttons_of_file : sample_buttons =
  [MkButton "home-lamp" "Lamp" "light.lamp" "home_lamp" 0; MkButton "home-fan" "FAN" "switch.fan" "home_fan" 0;
   MkButton "home-pump" "PUMP" "switch.pump" "home_pump" 1].
Proof. by vm_compute. Qed.

(** A witness for [buttons_in_file_order]. *)
Lemma buttons_in_file_order_witness :
  NoDup sample_keys ∧ StronglySorted (λ x y, Order x <= Order y) sample_buttons.
Proof.
  assert (N : NoDup sample_keys) by (by apply (bool_decide_unpack _)).
  split; [exact N|]. apply (buttons_in_file_order plain_upper no_conversion sample_keys sample_values); [exact N|].
  intros k [v Hk]. apply elem_of_list_to_map_2 in Hk. unfold sample_keys. set_solver.
Defined.
