(* ===== verification/GatewayCommands.v ===== *)
(** * Commands that are posted to a gateway

    [internal/gateway/commands.go] and the decisions of [PostCommand] in
    [client.go]: which commands exist, what their bodies must be, and which
    snapshot allows them; with the validation of
    [internal/state/controller_commands.go] and [ess_mode.go].  The waiting and
    the requests around these decisions are in [GatewayLifecycle]. *)

From Stdlib Require Import ZArith QArith Ascii String Lia.
From stdpp Require Import base list option strings.
From S2P Require Import Prelude Float64 JsValue SwEvents Utf8 PushPayload ControllerCommands NativeLeaves JsonFields OverlayState.

#[local] Open Scope string_scope.
#[local] Open Scope list_scope.
#[local] Open Scope Z_scope.

(** ** Encoding *)

(** The text of a value as [encoding/json] writes it, with or without escaping
    HTML: its numbers are those of JavaScript, the keys of a map are sorted. *)
Section text.
Variable html : bool.

Fixpoint json_text (v : gval) : string :=
  match v with
  | GNil => "null"
  | GBool b => if b then "true" else "false"
  | GFloat x => num_to_string x
  | GInt z | GInt32 z => dec z
  | GNumber text => if String.eqb text "" then "0" else text
  | GString s => json_string html s
  | GSlice l => "[" +:+ JsValue.join "," (List.map json_text l) +:+ "]"
  | GObject o =>
      "{" +:+ JsValue.join "," (List.map (λ e, json_string html (fst e) +:+ ":" +:+ snd e)
                                 (by_key (List.map (λ e, (fst e, json_text (snd e))) o))) +:+ "}"
  end.
End text.

Definition EncodeControllerCommand (payload : gval) : option string :=
  if encodable payload then Some (json_text false payload) else None.

(** ** Validation *)

Definition tariff_bytes : nat := Z.to_nat 100000.

(** [ValidateTariff]: [true] for no error. *)
Definition ValidateTariff (payload : gval) : bool :=
  match payload with
  | GObject m =>
      Nat.eqb (length m) 3 && ValidRequestID (as_string (at_key (Some m) "request_id")) &&
      hex64 (as_string (at_key (Some m) "revision")) &&
      match assoc "plan" m with Some GNil | Some (GObject _) => true | _ => false end &&
      match EncodeControllerCommand payload with
      | Some encoded => Nat.leb (String.length encoded) tariff_bytes
      | None => false
      end
  | _ => false
  end.

Definition ess_modes : list string :=
  ["off"; "on"; "optimized_with_battery_life"; "optimized_without_battery_life"; "keep_batteries_charged"; "external_control"].

(** [ValidateESSSelection]. *)
Definition ValidateESSSelection (payload : gval) : bool :=
  match payload with
  | GObject m =>
      Nat.eqb (length m) 2 && existsb (String.eqb (as_string (at_key (Some m) "mode"))) ess_modes &&
      ValidRequestID (as_string (at_key (Some m) "request_id"))
  | _ => false
  end.

(** What the readiness of a command depends on: the fields of the controller,
    those of the ESS mode, and the availability of telemetry. *)
Record State := MkState {
  controller : ControllerCommands.State;
  SelectionSupported : bool;
  ESSModeObservedAt : option F64.num;
  DryRun : option bool;
  TelemetryAvailable : string -> bool
}.

Definition inverter_available (st : State) : bool := default false (InverterAvailable (controller st)).

(** [ESSSelectionReady] of a state; the age is the one of [ObservationFresh]. *)
Definition ESSSelectionReady (st : State) (now : Z) : bool :=
  SelectionSupported st && negb (default true (DryRun st)) && inverter_available st &&
  ObservationFresh (ESSModeObservedAt st) now.

(** ** The commands *)

Definition whitelistedCommands : list string :=
  ["toggle"; "water_mode"; "dry_run"; "ess_mode"; "set_ess_mode"; "setpoint_override"; "electricity_tariff";
   "silence_alarm"; "acknowledge_all_notifications"].

Definition IsWhitelistedCommand (name : string) : bool := existsb (String.eqb name) whitelistedCommands.

Definition MapDashboardAction (action : string) : option string :=
  if existsb (String.eqb action)
       ["setpoint_override"; "electricity_tariff"; "water_mode"; "silence_alarm"; "acknowledge_all_notifications";
        "toggle"; "dry_run"; "ess_mode"; "set_ess_mode"]
  then Some action
  else if existsb (String.eqb action) ["dismiss_banner"; "acknowledge_victron_banner"]
  then Some "acknowledge_all_notifications"
  else None.

Definition commandInteger (v : gval) : option Z :=
  match v with
  | GInt n => Some n
  | GFloat (F64.Fin q) =>
      if F64.is_integer q && Qle_bool 0 q && Qle_bool q (inject_Z MaxInt32) then Some (Qround.Qfloor q) else None
  | _ => None
  end.

Definition normalizeToggleCommand (o : list (string * gval)) : option gval :=
  match at_key (Some o) "entity" with
  | GString entity =>
      if negb (IsControlFlag entity) || negb (Nat.eqb (length o) 2) then None
      else
        enabled ← ControlBool (at_key (Some o) "state");
        Some (GObject [("entity", GString (TrimPrefix "input_boolean." (TrimSpace entity)));
                       ("state", GString (if (enabled : bool) then "on" else "off"))])
  | _ => None
  end.

(** A body as it is posted; [None] is an error. *)
Definition normalizeControllerCommand (name : string) (body : gval) : option gval :=
  if String.eqb name "setpoint_override" then if ValidateOverride body then Some body else None
  else if String.eqb name "electricity_tariff" then if ValidateTariff body then Some body else None
  else if String.eqb name "set_ess_mode" then if ValidateESSSelection body then Some body else None
  else if negb (existsb (String.eqb name) ["toggle"; "dry_run"; "ess_mode"; "water_mode"]) then Some body
  else
    o ← as_object body;
    if String.eqb name "water_mode" then
      instance ← commandInteger (at_key (Some o) "instance");
      mode ← commandInteger (at_key (Some o) "mode");
      if Nat.eqb (length o) 2 && (0 <=? instance) && (0 <=? mode) && (mode <=? 2)
      then Some (GObject [("instance", GInt instance); ("mode", GInt mode)]) else None
    else if String.eqb name "toggle" then normalizeToggleCommand o
    else if String.eqb name "dry_run" then
      match at_key (Some o) "value" with
      | GBool _ => if Nat.eqb (length o) 1 then Some body else None
      | _ => None
      end
    else if Nat.eqb (length o) 0 then Some body else None.

(** ** Posting *)

Record Instances := MkInstances { Pump : Z; Valve : Z }.

Definition commandReady (o : Instances) (st : State) (name : string) (body : gval) (now : Z) : bool :=
  if String.eqb name "set_ess_mode" then ESSSelectionReady st now
  else if String.eqb name "setpoint_override" || String.eqb name "electricity_tariff"
  then ControllerCommandReady (Some (controller st)) name body now
  else if String.eqb name "water_mode" then
    match commandInteger (at_key (as_object body) "instance") with
    | Some instance =>
        (instance =? Pump o) && TelemetryAvailable st "pump_mode" ||
        (instance =? Valve o) && TelemetryAvailable st "water_valve_mode"
    | None => false
    end
  else inverter_available st.

(** A snapshot: its capabilities, and the state it maps to. *)
Record Snapshot := MkSnapshot { Capabilities : list (string * bool); Mapped : State }.

Definition has_capability (snap : Snapshot) (name : string) : bool := default false (assoc name (Capabilities snap)).

Definition checked_commands : list string :=
  ["set_ess_mode"; "setpoint_override"; "electricity_tariff"; "toggle"; "dry_run"; "ess_mode"; "water_mode"].

(** [validateCommandSnapshot] with the snapshot that was fetched, if one was. *)
Definition validateCommandSnapshot (o : Instances) (name : string) (body : gval) (snap : option Snapshot) (now : Z) : bool :=
  if negb (existsb (String.eqb name) checked_commands) then true
  else match snap with
       | Some snap => has_capability snap name && commandReady o (Mapped snap) name body now
       | None => false
       end.

(** The path and the body of the request that [PostCommand] sends. *)
Definition PostCommand (o : Instances) (name : string) (body : gval) (snap : option Snapshot) (now : Z)
    : option (string * string) :=
  if negb (IsWhitelistedCommand name) then None
  else
    body ← normalizeControllerCommand name body;
    if negb (validateCommandSnapshot o name body snap now) then None
    else
      payload ← EncodeControllerCommand body;
      Some ("/v1/commands/" +:+ name, if String.eqb payload "" || String.eqb payload "null" then "{}" else payload).

(** The publisher that [main] installs; a nil payload becomes an empty object. *)
Definition publish_to_gateway (o : Instances) (action : string) (payload : gval) (snap : option Snapshot) (now : Z)
    : option (string * string) :=
  name ← MapDashboardAction action;
  PostCommand o name (match payload with GNil => GObject [] | _ => payload end) snap now.

(** ** What is posted *)

(** The bodies that the controller documents, command by command. *)
Inductive proper : string -> gval -> Prop :=
| proper_toggle flag (on : bool) : flag ∈ control_flags ->
    proper "toggle" (GObject [("entity", GString flag); ("state", GString (if on then "on" else "off"))])
| proper_water instance mode : 0 <= instance -> 0 <= mode <= 2 ->
    proper "water_mode" (GObject [("instance", GInt instance); ("mode", GInt mode)])
| proper_dry_run b : proper "dry_run" (GObject [("value", GBool b)])
| proper_ess_mode : proper "ess_mode" (GObject [])
| proper_selection body : ValidateESSSelection body = true -> proper "set_ess_mode" body
| proper_override body : ValidateOverride body = true -> proper "setpoint_override" body
| proper_tariff body : ValidateTariff body = true -> proper "electricity_tariff" body
| proper_silence body : proper "silence_alarm" body
| proper_acknowledge body : proper "acknowledge_all_notifications" body.

Lemma flag_canonical entity : IsControlFlag entity = true -> TrimPrefix "input_boolean." (TrimSpace entity) ∈ control_flags.
Proof. unfold IsControlFlag. intros (f & Hf & ->%String.eqb_eq)%existsb_exists. by apply list_elem_of_In. Qed.

(** A flag is its own canonical form. *)
Lemma flag_fixed flag : flag ∈ control_flags -> IsControlFlag flag = true ∧ TrimPrefix "input_boolean." (TrimSpace flag) = flag.
Proof.
  unfold control_flags. intros H.
  repeat (apply elem_of_cons in H as [-> |H]; [split; reflexivity|]). by apply elem_of_nil in H.
Qed.

Lemma switch_text (b : bool) : ControlBool (GString (if b then "on" else "off")) = Some b.
Proof. by destruct b. Qed.

Lemma whitelisted_cases (P : string -> Prop) name :
  IsWhitelistedCommand name = true -> Forall P whitelistedCommands -> P name.
Proof.
  unfold IsWhitelistedCommand. intros (x & Hx & ->%String.eqb_eq)%existsb_exists H. rewrite List.Forall_forall in H. by apply H.
Qed.

Lemma one_member (o : list (string * gval)) k v : length o = 1%nat -> assoc k o = Some v -> o = [(k, v)].
Proof.
  destruct o as [|[k' v'] [|]]; try done. intros _. simpl. destruct (String.eqb_spec k k') as [->|]; [by intros [= ->]|done].
Qed.

Lemma at_key_found o key v : at_key (Some o) key = v -> v ≠ GNil -> assoc key o = Some v.
Proof. unfold at_key. simpl. destruct (assoc key o); simpl; [by intros ->|by intros <-]. Qed.

Lemma normalized_proper name body body' :
  IsWhitelistedCommand name = true -> normalizeControllerCommand name body = Some body' -> proper name body'.
Proof.
  intros Hw. revert body'. apply (whitelisted_cases (λ name, ∀ body', normalizeControllerCommand name body = Some body' -> proper name body'));
    [exact Hw|]. unfold whitelistedCommands.
  repeat apply List.Forall_cons; try apply List.Forall_nil; intros body'; unfold normalizeControllerCommand; cbn -[ValidateOverride ValidateTariff ValidateESSSelection at_key Z.leb].
  - destruct (as_object body) as [o|]; [|done]. cbn -[at_key]. unfold normalizeToggleCommand.
    destruct (at_key (Some o) "entity") as [| | | | | |e| |]; try done.
    destruct (IsControlFlag e) eqn:F; [|done]. destruct (Nat.eqb (length o) 2); [|done]. cbn [negb orb].
    destruct (ControlBool _) as [b|]; [|done]. intros [= <-]. apply proper_toggle. by apply flag_canonical.
  - destruct (as_object body) as [o|]; [|done]. cbn -[at_key Z.leb].
    destruct (commandInteger (at_key (Some o) "instance")) as [i|]; [|done]. cbn -[at_key Z.leb].
    destruct (commandInteger (at_key (Some o) "mode")) as [m|]; [|done]. cbn -[Z.leb].
    destruct (Nat.eqb (length o) 2 && _ && _ && _) eqn:G; [|done]. intros [= <-]. bool_hyps. by apply proper_water.
  - destruct (as_object body) as [o|] eqn:O; [|done]. cbn -[at_key].
    destruct (at_key (Some o) "value") as [|b| | | | | | |] eqn:V; try done. destruct (Nat.eqb_spec (length o) 1); [|done].
    intros [= <-]. apply at_key_found in V; [|done]. apply one_member in V; [|done].
    destruct body; try done. injection O as ->. subst o. apply proper_dry_run.
  - destruct (as_object body) as [[|]|] eqn:O; try done. intros [= <-]. destruct body; try done. injection O as ->. apply proper_ess_mode.
  - destruct (ValidateESSSelection body) eqn:V; [|done]. intros [= <-]. by apply proper_selection.
  - destruct (ValidateOverride body) eqn:V; [|done]. intros [= <-]. by apply proper_override.
  - destruct (ValidateTariff body) eqn:V; [|done]. intros [= <-]. by apply proper_tariff.
  - intros _. apply proper_silence.
  - intros _. apply proper_acknowledge.
Qed.

(** A proper body is its own normal form. *)
Lemma proper_normal name body : proper name body -> normalizeControllerCommand name body = Some body.
Proof.
  intros H. destruct H as [flag on Hf|i m Hi Hm|b| |b V|b V|b V|b|b]; unfold normalizeControllerCommand;
    cbn -[ValidateOverride ValidateTariff ValidateESSSelection normalizeToggleCommand Z.leb];
    rewrite ?V; try done.
  - unfold normalizeToggleCommand. cbn -[IsControlFlag TrimPrefix TrimSpace ControlBool].
    destruct (flag_fixed flag Hf) as [E1 E2]. change (at_key _ "entity") with (GString flag). cbn iota.
    rewrite E1, E2. change (at_key _ "state") with (GString (if on then "on" else "off")). rewrite switch_text. by destruct on.
  - rewrite (proj2 (Z.leb_le 0 i)), (proj2 (Z.leb_le 0 m)), (proj2 (Z.leb_le m 2)) by lia. done.
Qed.

(** Normalising a command a second time changes nothing. *)
Theorem normalize_idempotent (name : string) (body body' : gval) :
  IsWhitelistedCommand name = true -> normalizeControllerCommand name body = Some body' ->
  normalizeControllerCommand name body' = Some body'.
Proof. intros Hw H. eapply proper_normal, normalized_proper; done. Qed.

Lemma mapped_whitelisted action name : MapDashboardAction action = Some name -> IsWhitelistedCommand name = true.
Proof.
  unfold MapDashboardAction. destruct (existsb _ _) eqn:E; [intros [= <-]|].
  - apply existsb_exists in E as (x & Hx & ->%String.eqb_eq). unfold IsWhitelistedCommand. apply existsb_exists.
    exists x. split; [|apply String.eqb_refl]. unfold whitelistedCommands. cbn [In] in Hx |- *. tauto.
  - case_match; intros [= <-]. reflexivity.
Qed.

(** What a snapshot must show for a command. *)
Definition backed (o : Instances) (name : string) (body : gval) (snap : option Snapshot) (now : Z) : Prop :=
  ∃ s, snap = Some s ∧ has_capability s name = true ∧
    (name ≠ "water_mode" -> inverter_available (Mapped s) = true) ∧
    (name = "set_ess_mode" -> SelectionSupported (Mapped s) = true ∧ DryRun (Mapped s) = Some false ∧
                              ObservationFresh (ESSModeObservedAt (Mapped s)) now = true) ∧
    (name = "setpoint_override" -> ObservationFresh (SetpointOverrideObservedAt (controller (Mapped s))) now = true) ∧
    (name = "electricity_tariff" ->
       ∃ rev, equals_string (at_key (as_object body) "revision") rev = true ∧
              at_key (as_object (at_key (Some (UIConfig (controller (Mapped s)))) "electricity_tariff_status")) "revision" = GString rev) ∧
    (name = "water_mode" -> ∃ i m, body = GObject [("instance", GInt i); ("mode", GInt m)] ∧ (i = Pump o ∨ i = Valve o)).

Lemma ready_inverter st name body now : ControllerCommandReady (Some st) name body now = true -> default false (InverterAvailable st) = true.
Proof. unfold ControllerCommandReady. by destruct (default false (InverterAvailable st)). Qed.

Lemma tariff_revision body st now :
  ValidateTariff body = true -> ControllerCommandReady (Some st) "electricity_tariff" body now = true ->
  ∃ rev, equals_string (at_key (as_object body) "revision") rev = true ∧
         at_key (as_object (at_key (Some (UIConfig st)) "electricity_tariff_status")) "revision" = GString rev.
Proof.
  intros V H. unfold ControllerCommandReady in H. destruct (default false _); [|done]. cbn [negb] in H.
  change (String.eqb "electricity_tariff" "setpoint_override") with false in H.
  change (String.eqb "electricity_tariff" "electricity_tariff") with true in H. cbn iota zeta in H.
  destruct body as [| | | | | | | |m]; try done. bool_hyps.
  set (r := at_key (as_object (at_key _ "electricity_tariff_status")) "revision") in *.
  exists (as_string r). split; [done|]. by destruct r.
Qed.

Lemma validated_backed o name body snap now :
  proper name body -> name ∈ checked_commands -> validateCommandSnapshot o name body snap now = true -> backed o name body snap now.
Proof.
  intros P Hc H. unfold validateCommandSnapshot in H.
  replace (existsb (String.eqb name) checked_commands) with true in H
    by (symmetry; apply existsb_exists; exists name; split; [by apply list_elem_of_In|apply String.eqb_refl]).
  cbn [negb] in H. destruct snap as [s|]; [|done]. apply andb_true_iff in H as [Hcap Hready]. exists s. split; [done|]. split; [done|].
  destruct P as [flag on Hf|i m Hi Hm|b| |b V|b V|b V|b|b]; try (by repeat (apply elem_of_cons in Hc as [?|Hc]; [done|]); apply elem_of_nil in Hc);
    unfold commandReady in Hready; cbn -[commandInteger ControllerCommandReady at_key] in Hready.
  - repeat split; try done. intros _. exists i, m. split; [done|].
    change (commandInteger _) with (Some i) in Hready. cbn iota in Hready. bool_cases; auto.
  - unfold ESSSelectionReady in Hready. bool_hyps. split; [done|]. split; [|by repeat split]. intros _. split; [done|].
    split; [|done]. by destruct (DryRun (Mapped s)) as [[]|].
  - pose proof (ready_inverter _ _ _ _ Hready) as Hi. repeat split; try done. intros _.
    unfold ControllerCommandReady in Hready. rewrite Hi in Hready. simpl in Hready. by destruct (SetpointOverride _).
  - pose proof (ready_inverter _ _ _ _ Hready) as Hi. repeat split; try done. intros _. by eapply tariff_revision.
Qed.


(** ** Concrete commands *)

Definition sample_state : State :=
  MkState (ControllerCommands.MkState (Some true) (Some (Status None None None)) (Some (unix_seconds 1000)) [] None)
    true (Some (unix_seconds 1000)) (Some false) (λ key, String.eqb key "pump_mode").
Definition sample_snapshot : Snapshot := MkSnapshot [("toggle", true); ("setpoint_override", true); ("water_mode", true)] sample_state.
Definition sample_instances : Instances := MkInstances 1 2.
Definition sample_override : gval := GObject [("value", GNumber "-500"); ("request_id", GString "r-1")].

Example posted_samples :
  publish_to_gateway sample_instances "toggle"
    (GObject [("entity", GString " input_boolean.no_feed"); ("state", GString "ON")]) (Some sample_snapshot) 20000
  = Some ("/v1/commands/toggle",
          "{" +:+ json_field "entity" (json_string false "no_feed") +:+ "," +:+ json_field "state" (json_string false "on") +:+ "}") ∧
  publish_to_gateway sample_instances "dismiss_banner" GNil None 0 = Some ("/v1/commands/acknowledge_all_notifications", "{}") ∧
  publish_to_gateway sample_instances "toggle" (GObject [("entity", GString "no_feed")]) (Some sample_snapshot) 20000 = None ∧
  publish_to_gateway sample_instances "water_mode"
    (GObject [("instance", GInt 2); ("mode", GInt 1)]) (Some sample_snapshot) 20000 = None ∧
  publish_to_gateway sample_instances "setpoint_override" sample_override (Some sample_snapshot) 31001 = None.
Proof. vm_compute. done. Qed.

Lemma normalize_idempotent_witness :
  normalizeControllerCommand "water_mode" (GObject [("mode", GFloat (F64.Fin 2)); ("instance", GFloat (F64.Fin 1))])
  = Some (GObject [("instance", GInt 1); ("mode", GInt 2)]) ∧
  normalizeControllerCommand "water_mode" (GObject [("instance", GInt 1); ("mode", GInt 2)])
  = Some (GObject [("instance", GInt 1); ("mode", GInt 2)]).
Proof.
  split; [vm_compute; reflexivity|].
  apply (normalize_idempotent "water_mode" (GObject [("mode", GFloat (F64.Fin 2)); ("instance", GFloat (F64.Fin 1))])).
  - reflexivity.
  - vm_compute. reflexivity.
Defined.

Definition override_text : string :=
  "{" +:+ json_field "request_id" (json_string false "r-1") +:+ "," +:+ json_field "value" "-500" +:+ "}".

