(* ===== verification/MqttCommands.v ===== *)
(** * Commands that are published over MQTT

    [PublishCommand], [publishCerboAlarmCommand] and [commandTelemetryReady] of
    [internal/mqtt/client.go], with [CanControlInverter] of [controller.go],
    [CanSelectESSMode] of [ess_mode.go] and the checks of
    [publishControllerCommand] in [controller_commands.go].  As in
    [WaterControl] a command takes several looks at a client that goes on
    receiving messages; the last look and the publication are one critical
    section. *)

From Stdlib Require Import ZArith QArith Ascii String Lia.
From stdpp Require Import base list option strings gmap fin_maps.
From S2P Require Import Prelude Float64 JsValue Utf8 PushPayload ControllerCommands NativeLeaves Notifications JsonFields StateFields CerboLeaves CerboOverlay OverlayState DirectTelemetry WaterControl GatewayCommands.

#[local] Open Scope string_scope.
#[local] Open Scope list_scope.
#[local] Open Scope Z_scope.

(** ** Readiness *)

Definition bool_pointer (v : goval) : option bool := match v with FPtr (Some v) => Some (bool_of v) | _ => None end.
Definition float_pointer (v : goval) : option F64.num := match v with FPtr (Some (FFloat x)) => Some x | _ => None end.
Definition int_pointer (v : option goval) : option Z := match v with Some (FPtr (Some (FInt z))) => Some z | _ => None end.
Definition text_pointer (v : option goval) : option string := match v with Some (FPtr (Some (FString s))) => Some s | _ => None end.

(** The fields of the dashboard's state that commands depend on. *)
Definition controller_state (st : StateFields.State) : ControllerCommands.State :=
  ControllerCommands.MkState
    (bool_pointer (field "inverter_available" st))
    (match field "setpoint_override" st with
     | FPtr (Some (FStruct fs)) =>
         Some (Status (int_pointer (assoc "value" fs)) (text_pointer (assoc "last_error" fs)) (text_pointer (assoc "request_id" fs)))
     | _ => None
     end)
    (float_pointer (field "setpoint_override_observed_at" st))
    (omap (λ e, match e.2 with FAny v => Some (e.1, v) | _ => None end) (ui_entries st))
    (float_pointer (field "electricity_tariff_observed_at" st)).

Definition command_state (st : StateFields.State) : GatewayCommands.State :=
  GatewayCommands.MkState (controller_state st)
    (match field "ess_mode" st with FStruct fs => match assoc "selection_supported" fs with Some v => bool_of v | None => false end | _ => false end)
    (float_pointer (field "ess_mode_observed_at" st)) (bool_pointer (field "dry_run" st)) (available st).

(** [IsConnected]. *)
Definition IsConnected (s : Link) : bool := if gatewayMode s then gatewayConnected s else connectionOpen s.

(** The looks at the connection, the source and the state, which has expired what
    is too old. *)
Definition CanControlInverter (s1 s2 : Link) (now : Z) : bool := IsConnected s1 && controllerControlReady now (client s2).

Definition CanSelectESSMode (s1 s2 s3 : Link) (now : Z) : bool :=
  IsConnected s1 && ESSSelectionReady (command_state (state (client s3))) now &&
  (negb (gatewayMode s2) || capable "set_ess_mode" (state (client s3))).

Definition CanControllerCommand (name : string) (payload : gval) (s1 s2 s3 : Link) (now : Z) : bool :=
  IsConnected s1 && ControllerCommandReady (Some (controller_state (state (client s3)))) name payload now &&
  (negb (gatewayMode s2) || capable name (state (client s3))).

Definition genericControllerAction (action : string) : bool :=
  existsb (String.eqb action) ["toggle"; "dry_run"; "ess_mode"; "setpoint"; "limits"; "loop_interval"].

Definition commandTelemetryReady (action : string) (now : Z) (c : OverlayState.Client) : bool :=
  if genericControllerAction action then controllerControlReady now c
  else if String.eqb action "set_ess_mode" then ESSSelectionReady (command_state (state c)) now
  else true.

(** ** Publishing *)

Inductive publish_error : Type :=
  errInvalid | errNotReady | errSourceChanged | errEncoding | errSourceUnavailable | errAlarmSource | errPortal | errNotConnected.

Inductive publication : Type :=
| NotSent (e : publish_error)
| ToGateway (action : string) (payload : gval)
| Sent (topic body : string).

Definition alarm_actions : list string :=
  ["acknowledge_all_notifications"; "silence_alarm"; "dismiss_banner"; "acknowledge_victron_banner"].

(** The sources are still those whose counters a command read when it began. *)
Definition same_source (begun : Z * Z) (s : Link) : bool := (begun.1 =? generation s) && (begun.2 =? session s).

(** [publishCerboAlarmCommand] up to the publication, at one look. *)
Definition publishCerboAlarmCommand (action : string) (begun : Z * Z) (s : Link) : publication :=
  let portal := portalID (client s) in
  if gatewayMode s || negb (same_source begun s) then NotSent errAlarmSource
  else if negb (validPortal portal) then NotSent errPortal
  else if negb (connectionOpen s) then NotSent errNotConnected
  else if String.eqb action "silence_alarm"
  then Sent ("W/" +:+ portal +:+ "/vebus/0/Alarm") ("{" +:+ json_field "SilenceAlarm" (json_string false "1") +:+ "}")
  else Sent ("W/" +:+ portal +:+ "/platform/0/Notifications/AcknowledgeAll") ("{" +:+ json_field "value" "1" +:+ "}").

Definition command_topic (action : string) : string := "inverter/cmd/" +:+ action.

Definition encodeMQTTCommandPayload (payload : gval) : option string :=
  match payload with GNil => Some "{}" | _ => if encodable payload then Some (json_text true payload) else None end.

(** Overrides and tariffs: [begun] are the counters of the sources, the readiness
    is checked at [s1] to [s3], the gateway looked for at [s4], the last look is [s5]; the
    lock of the gateway is held from [s4] on. *)
Definition publishControllerCommand (name : string) (payload : gval) (begun : Z * Z) (s1 s2 s3 s4 s5 : Link)
    (checked now : Z) : publication :=
  let valid := if String.eqb name "setpoint_override" then ValidateOverride payload else ValidateTariff payload in
  if negb valid then NotSent errInvalid
  else if negb (CanControllerCommand name payload s1 s2 s3 checked) then NotSent errNotReady
  else if negb (same_source begun s4) then NotSent errSourceChanged
  else if gatewayPublish s4 then ToGateway name payload
  else match EncodeControllerCommand payload with
       | None => NotSent errEncoding
       | Some encoded =>
           if negb (ControllerCommandReady (Some (controller_state (state (client s5)))) name payload now) ||
              gatewayMode s4 || negb (connectionOpen s5)
           then NotSent errSourceUnavailable
           else Sent (command_topic name) encoded
       end.

(** The other commands: [begun] are the counters of the sources, an ESS mode is
    checked at [s1] to [s3], the gateway is looked for at [s4], the last look is [s5]. *)
Definition publish_generic (action : string) (payload : gval) (begun : Z * Z) (s1 s2 s3 s4 s5 : Link)
    (checked now : Z) : publication :=
  if String.eqb action "set_ess_mode" && negb (ValidateESSSelection payload) then NotSent errInvalid
  else if String.eqb action "set_ess_mode" && negb (CanSelectESSMode s1 s2 s3 checked) then NotSent errNotReady
  else if negb (same_source begun s4) then NotSent errSourceChanged
  else if gatewayPublish s4 then ToGateway action payload
  else if existsb (String.eqb action) alarm_actions then publishCerboAlarmCommand action begun s5
  else match encodeMQTTCommandPayload payload with
       | None => NotSent errEncoding
       | Some message =>
           if negb (same_source begun s5) || gatewayMode s5 || negb (connectionOpen s5) then NotSent errSourceUnavailable
           else if negb (commandTelemetryReady action now (client s5)) then NotSent errNotReady
           else Sent (command_topic action) message
       end.

Definition PublishCommand (action : string) (payload : gval) (begun : Z * Z) (s1 s2 s3 s4 s5 : Link)
    (checked now : Z) : publication :=
  if existsb (String.eqb action) ["setpoint_override"; "electricity_tariff"]
  then publishControllerCommand action payload begun s1 s2 s3 s4 s5 checked now
  else publish_generic action payload begun s1 s2 s3 s4 s5 checked now.

(** ** The frames behind a command *)

(** The receipt of the last frame of the controller, when it was a live one, since
    the source was last switched. *)
Definition frame_receipt (last : option Z) (e : event) : option Z :=
  match e with
  | ControllerFrame _ retained now => if retained then None else Some now
  | GatewayLost | SourceSwitched => None
  | _ => last
  end.

Definition last_frame (es : list event) : option Z := foldl frame_receipt None es.

Section frames.
Variable iterate : gmap string leaves -> list string.
Variable overflow : F64.num -> Z.
Variable version : string.
Abbreviation step := (step iterate overflow version).

(** What a client takes for live was live. *)
Definition live_true (last : option Z) (c : OverlayState.Client) : Prop :=
  ∀ t, controllerLiveAt c = Some t -> last = Some t.

Lemma update_live parts b r now c : controllerLiveAt (updateWaterModeObservation parts b r now c) = controllerLiveAt c.
Proof.
  unfold updateWaterModeObservation, observe_water_key. repeat case_match; done.
Qed.

Lemma step_live e c c' last : step e c = Some c' -> live_true last c -> live_true (frame_receipt last e) c'.
Proof.
  assert (K : controllerLiveAt c' = controllerLiveAt c -> frame_receipt last e = last -> live_true last c ->
              live_true (frame_receipt last e) c') by (intros E -> L t; rewrite E; apply L).
  destruct e as [topic p r now|data r now|portal|now| | | |]; intros H L.
  - apply fst_Some in H as [b H]. unfold applyCerboDevice in H.
    destruct (handleCerboDevice _ _ _ _ _ _) as [[c1 b1]|] eqn:E; [|done]. injection H as <- _.
    apply (handle_kept _ _ controllerLiveAt) in E; [|done..]. apply K; [by rewrite update_live|done|exact L].
  - cbn [OverlayState.step] in H. unfold applyControllerState in H. set (c0 := with_controller _ _ c) in H.
    destruct (mergeDaemonState _ _ _ _ _) as [c1|] eqn:E; [|done]. cbn [mbind option_bind] in H. injection H as <-.
    apply (merge_kept _ _ _ controllerLiveAt) in E; [|done..]. rewrite (observe_kept controllerLiveAt) in E by done.
    intros t. cbn [controllerLiveAt with_state]. rewrite E. subst c0. cbn. by destruct r.
  - injection H as <-. apply K; [|done|exact L]. unfold acceptPortal. by destruct (_ && _).
  - apply fst_Some in H as [b H]. unfold expireOptionalTelemetry in H.
    pose proof (init_kept controllerLiveAt ltac:(done) c) as I. set (c0 := initCerboMaps c) in *. clearbody c0.
    destruct (controllerLastSeen c0); [|injection H as <- _; by apply K].
    destruct (_ || _); [|injection H as <- _; by apply K].
    destruct (if bool_decide _ then _ else _) as [st|]; [|done]. cbn [mbind option_bind] in H. injection H as <- _.
    by intros t.
  - apply K; [|done|exact L]. cbn [OverlayState.step] in H. unfold reset_inventory in H.
    by apply (apply_kept _ _ controllerLiveAt) in H.
  - apply K; [|done|exact L]. apply invalidate_inv in H as (st & _ & ->).
    exact (init_kept controllerLiveAt ltac:(done) c).
  - cbn [OverlayState.step] in H. unfold clearOptionalTelemetry in H. destruct (each _ _ _) as [st|]; [|done].
    cbn [mbind option_bind] in H. injection H as <-. by intros t.
  - cbn [OverlayState.step] in H. unfold switch_source, clearOptionalTelemetry in H. destruct (each _ _ _) as [st|]; [|done].
    cbn [mbind option_bind] in H. injection H as <-. by intros t.
Qed.

Lemma run_live es o portal c : run_steps step es (NewClient o portal) = Some c -> live_true (last_frame es) c.
Proof.
  assert (G : ∀ es last c0 c, run_steps step es c0 = Some c -> live_true last c0 -> live_true (foldl frame_receipt last es) c).
  { clear. induction es as [|e es IH]; intros last c0 c H R; cbn [run_steps] in H; [by injection H as <-|].
    destruct (step e c0) as [c1|] eqn:E; [|done]. exact (IH _ _ _ H (step_live _ _ _ _ E R)). }
  intros H. apply (G es None _ _ H). intros t.
  pose proof (init_kept controllerLiveAt ltac:(done) (MkClient ∅ ∅ initial_state o portal None None None None None ∅)) as E.
  change (initCerboMaps _) with (NewClient o portal) in E. by rewrite E.
Qed.

Lemma control_ready_live es o portal c now :
  run_steps step es (NewClient o portal) = Some c -> controllerControlReady now c = true ->
  ∃ t, last_frame es = Some t ∧ 0 <= now - t <= 30000.
Proof.
  intros H%run_live. unfold controllerControlReady, within_30s. destruct (field _ _) as [| | | | | |[v|]| | |]; try done.
  intros [_ E]%andb_true_iff. destruct (controllerLiveAt c) as [t|] eqn:L; [|done]. bool_hyps.
  exists t. split; [by apply H|lia].
Qed.

(** C8: A command that goes out over MQTT leaves on an open connection, with no
    gateway in use and from the sources that it began with.  A command to the
    controller has its topic, and when it is generic the last frame of the
    controller since the source was last switched was live and came at most
    thirty seconds before; an ESS mode, an override or a tariff is valid and the
    state shows it ready at that moment.  An alarm is acknowledged at a valid
    portal. *)
Theorem command_publication_sound action payload begun s1 s2 s3 s4 s5 checked now topic body es o portal :
  run_steps step es (NewClient o portal) = Some (client s5) ->
  PublishCommand action payload begun s1 s2 s3 s4 s5 checked now = Sent topic body ->
  connectionOpen s5 = true ∧ gatewayPublish s4 = false ∧ same_source begun s4 = true ∧
  (action ∈ alarm_actions ∧ gatewayMode s5 = false ∧ same_source begun s5 = true ∧ validPortal (portalID (client s5)) = true ∧
   String.prefix ("W/" +:+ portalID (client s5) +:+ "/") topic = true ∨
   topic = command_topic action ∧
   (gatewayMode s4 = false ∨ gatewayMode s5 = false ∧ same_source begun s5 = true) ∧
   (genericControllerAction action = true -> ∃ t, last_frame es = Some t ∧ 0 <= now - t <= 30000) ∧
   (action = "set_ess_mode" ->
    ValidateESSSelection payload = true ∧ ESSSelectionReady (command_state (state (client s5))) now = true) ∧
   (action = "setpoint_override" ∨ action = "electricity_tariff" ->
    (if String.eqb action "setpoint_override" then ValidateOverride payload else ValidateTariff payload) = true ∧
    ControllerCommandReady (Some (controller_state (state (client s5)))) action payload now = true)).
Proof.
  intros Hrun. unfold PublishCommand. destruct (existsb (String.eqb action) [_; _]) eqn:C.
  - unfold publishControllerCommand.
    destruct (if String.eqb action "setpoint_override" then _ else _) eqn:V; [|done]. cbn [negb].
    destruct (CanControllerCommand _ _ _ _ _ _); [|done]. destruct (same_source begun s4); [|done]. cbn [negb].
    destruct (gatewayPublish s4); [done|]. destruct (EncodeControllerCommand payload); [|done].
    destruct (_ || _ || _) eqn:G; [done|]. intros [= <- _]. bool_hyps. repeat (split; [done|]). right.
    split; [done|]. split; [by left|]. split; [|split; [|done]].
    + intros Hg. exfalso. apply existsb_exists in C as (x & [<-|[<-|[]]] & ->%String.eqb_eq); discriminate Hg.
    + intros ->. discriminate C.
  - unfold publish_generic.
    destruct (String.eqb action "set_ess_mode" && negb (ValidateESSSelection payload)) eqn:V; [done|].
    destruct (String.eqb action "set_ess_mode" && negb (CanSelectESSMode _ _ _ _)); [done|].
    destruct (same_source begun s4); [|done]. cbn [negb]. destruct (gatewayPublish s4); [done|].
    destruct (existsb (String.eqb action) alarm_actions) eqn:Al.
    + unfold publishCerboAlarmCommand. destruct (_ || _) eqn:E1; [done|]. destruct (validPortal _) eqn:P; [|done]. cbn [negb].
      destruct (connectionOpen s5); [|done]. cbn [negb]. bool_hyps. intros Hs. repeat (split; [done|]). left.
      split; [by apply existsb_eqb|]. repeat (split; [done|]). set (portal' := portalID (client s5)) in *.
      assert (A : ∀ rest, String.prefix ("W/" +:+ portal' +:+ "/") ("W/" +:+ portal' +:+ "/" +:+ rest) = true)
        by (intros rest; rewrite <- !append_assoc; apply prefix_append).
      destruct (String.eqb action "silence_alarm"); injection Hs as <- _; apply A.
    + destruct (encodeMQTTCommandPayload payload); [|done]. destruct (_ || _ || _) eqn:E1; [done|].
      destruct (commandTelemetryReady action now (client s5)) eqn:R; [|done]. intros [= <- _]. bool_hyps.
      repeat (split; [done|]). right. split; [done|]. split; [by right|]. unfold commandTelemetryReady in R. split; [|split].
      * intros Hg. rewrite Hg in R. by eapply control_ready_live.
      * intros ->. simpl in V. split; [by destruct (ValidateESSSelection payload)|exact R].
      * intros Ha. exfalso. by destruct Ha as [-> | ->].
Qed.
End frames.

(** ** A concrete command *)

Definition frame (r : bool) (now : Z) : event := ControllerFrame [("dry_run", GBool false)] r now.
Definition frame_history : list event := [frame false 0; frame true 50000; frame false 60000].
Definition frame_client : OverlayState.Client :=
  default (NewClient pump_options "portal")
    (run_steps (OverlayState.step by_map no_overflow "1.0.0") frame_history (NewClient pump_options "portal")).
Definition frame_link : Link := MkLink frame_client false false false true 4 7.
Definition attempt (action : string) (payload : gval) (now : Z) : publication :=
  PublishCommand action payload (4, 7) frame_link frame_link frame_link frame_link frame_link now now.

Example commands_sent :
  attempt "ess_mode" (GObject []) 75000 = Sent "inverter/cmd/ess_mode" "{}" ∧
  attempt "ess_mode" (GObject []) 90001 = NotSent errNotReady ∧
  attempt "press" (GObject [("entity", GString "a<b")]) 90001
  = Sent "inverter/cmd/press" ("{" +:+ json_field "entity" (json_string true "a<b") +:+ "}") ∧
  attempt "dismiss_banner" GNil 0 = Sent "W/portal/platform/0/Notifications/AcknowledgeAll" ("{" +:+ json_field "value" "1" +:+ "}") ∧
  attempt "setpoint_override" (GObject [("value", GNil); ("request_id", GString "r")]) 75000 = NotSent errNotReady.
Proof. vm_compute. done. Qed.

Lemma command_publication_sound_witness :
  last_frame frame_history = Some 60000 ∧ connectionOpen frame_link = true ∧ gatewayPublish frame_link = false ∧
  same_source (4, 7) frame_link = true ∧
  ("ess_mode" ∈ alarm_actions ∧ gatewayMode frame_link = false ∧ same_source (4, 7) frame_link = true ∧
   validPortal (portalID (client frame_link)) = true ∧
   String.prefix ("W/" +:+ portalID (client frame_link) +:+ "/") "inverter/cmd/ess_mode" = true ∨
   "inverter/cmd/ess_mode" = command_topic "ess_mode" ∧
   (gatewayMode frame_link = false ∨ gatewayMode frame_link = false ∧ same_source (4, 7) frame_link = true) ∧
   (genericControllerAction "ess_mode" = true -> ∃ t, last_frame frame_history = Some t ∧ 0 <= 75000 - t <= 30000) ∧
   ("ess_mode" = "set_ess_mode" ->
    ValidateESSSelection (GObject []) = true ∧ ESSSelectionReady (command_state (state (client frame_link))) 75000 = true) ∧
   ("ess_mode" = "setpoint_override" ∨ "ess_mode" = "electricity_tariff" ->
    (if String.eqb "ess_mode" "setpoint_override" then ValidateOverride (GObject []) else ValidateTariff (GObject [])) = true ∧
    ControllerCommandReady (Some (controller_state (state (client frame_link)))) "ess_mode" (GObject []) 75000 = true)).
Proof.
  split; [vm_compute; reflexivity|].
  apply (command_publication_sound by_map no_overflow "1.0.0" "ess_mode" (GObject []) (4, 7) frame_link frame_link frame_link
    frame_link frame_link 75000 75000 "inverter/cmd/ess_mode" "{}" frame_history pump_options "portal").
  - vm_compute. reflexivity.
  - vm_compute. reflexivity.
Defined.
