(* ===== verification/Dispatch.v ===== *)
(** * Messages of the page

    [handleMessage] of [internal/websocket/handler.go] with [controller.go] and
    [ess_selection.go]: which component a message of the page goes to.  Other
    goroutines run between any two calls, so a handler is a tree of calls whose
    answers are arbitrary.  The clients are those of [main], which implement the
    optional interfaces; without a configuration there is no Home Assistant. *)

From Stdlib Require Import ZArith QArith Ascii String Lia.
From stdpp Require Import base list option strings gmap.
From S2P Require Import Prelude Float64 JsValue ControllerCommands NativeLeaves JsonFields OverlayState HomeAssistant GatewayCommands.

#[local] Open Scope string_scope.
#[local] Open Scope list_scope.
#[local] Open Scope Z_scope.

(** ** Programs that call other components *)

Section programs.
Context {call : Type} (answer : call -> Type).

Inductive prog (A : Type) : Type :=
| Ret (a : A)
| Call (c : call) (k : answer c -> prog A).
#[local] Arguments Ret {A} a.
#[local] Arguments Call {A} c k.

(** A call and its answer. *)
Definition exchange : Type := {c : call & answer c}.

(** The calls of a run, the last one first, and the result; the environment may
    answer each call as it likes. *)
Fixpoint run_prog {A} (env : nat -> ∀ c, answer c) (past : list exchange) (p : prog A) : list exchange * A :=
  match p with
  | Ret a => (past, a)
  | Call c k => let a := env (length past) c in run_prog env (existT c a :: past) (k a)
  end.

(** Every call satisfies [P] after the calls made before it, and the result [Q],
    whatever the answers are. *)
Fixpoint always {A} (P : list exchange -> call -> Prop) (Q : list exchange -> A -> Prop) (past : list exchange) (p : prog A) : Prop :=
  match p with
  | Ret a => Q past a
  | Call c k => P past c ∧ ∀ a, always P Q (existT c a :: past) (k a)
  end.

Lemma always_run {A} P (Q : list exchange -> A -> Prop) (p : prog A) env past :
  always P Q past p ->
  ∃ calls, fst (run_prog env past p) = calls ++ past ∧ Q (calls ++ past) (snd (run_prog env past p)) ∧
    ∀ later c a earlier, calls = later ++ existT c a :: earlier -> P (earlier ++ past) c.
Proof.
  revert past. induction p as [a|c k IH]; simpl; intros past Hp.
  - exists []. split; [done|]. split; [exact Hp|]. by intros [].
  - destruct Hp as [Hc Hk]. destruct (IH _ _ (Hk (env (length past) c))) as (calls & E & HQ & HP).
    exists (calls ++ [existT c (env (length past) c)]). rewrite <- app_assoc. split; [exact E|]. split; [exact HQ|].
    intros later c' a' earlier Heq.
    destruct earlier as [|e earlier _] using rev_ind.
    + apply app_inj_tail in Heq as [-> [= <- _]]. exact Hc.
    + rewrite app_comm_cons, app_assoc in Heq. apply app_inj_tail in Heq as [-> <-]. rewrite <- app_assoc. simpl.
      by eapply HP.
Qed.
End programs.
#[global] Arguments exchange {call} answer.
#[global] Arguments Ret {call answer A} a.
#[global] Arguments Call {call answer A} c k.
#[global] Arguments run_prog {call answer A} env past p.
#[global] Arguments always {call answer A} P Q past p.

(** ** Home Assistant as the handler sees it *)

(** The configuration's promise: a toggle is never allowed for a flag of the
    controller. *)
Class HomeClient (H : Type) := {
  direct_mode : H -> bool;
  toggle_allowed : H -> string -> bool;
  allowed_not_flag : ∀ h e, toggle_allowed h e = true -> IsControlFlag e = false
}.

#[export, refine] Instance home_client : HomeClient HomeAssistant.Config := {
  direct_mode := IsDirectMode;
  toggle_allowed := IsToggleAllowed
}.
Proof. intros h e H. exact (proj2 (toggle_allowed_owned h e H)). Defined.

(** ** Messages and calls *)

Record Message := MkMessage {
  MState : gval; Action : string; RequestID : string; Revision : string; Plan : gval; Target : string; MID : string;
  Value : gval; Position : gval; MPAction : string; Which : string; Mode : gval;
  Min : F64.num; Max : F64.num; Interval : F64.num; Settings : option (list (string * gval))
}.

Definition empty_message (action : string) : Message :=
  MkMessage GNil action "" "" GNil "" "" GNil GNil "" "" GNil f64_zero f64_zero f64_zero None.

(** What a handler reads of the dashboard's state. *)
Record Flags := MkFlags { FlagValues : list (string * gval); FlagDryRun : option bool }.

Inductive call : Type :=
| AskController                                          (* CanControlInverter *)
| AskState                                               (* GetState *)
| AskCommand (name : string) (payload : gval)            (* CanControllerCommand *)
| AskESS                                                 (* CanSelectESSMode *)
| Publish (action : string) (payload : gval)             (* PublishCommand *)
| SetWater (which : string) (mode : Z)                   (* SetWaterMode *)
| HAPerform (action entity : string) (payload : list (string * gval))
| HAToggle (entity : string)
| HAPress (entity : string)
| HAFetch                                                (* FetchStatesOnce *)
| HAReplace (o : Overlay)
| HAOverlay
| Broadcast (o : Overlay)
| Apply (settings : list (string * gval)).

(** [true] is a call without error; a fetch without error gives an overlay. *)
Definition answer (c : call) : Type :=
  match c with
  | AskController | AskCommand _ _ | AskESS | Publish _ _ | SetWater _ _ | HAPerform _ _ _ | HAToggle _ | HAPress _
  | Broadcast _ | Apply _ => bool
  | AskState => option Flags
  | HAFetch => option Overlay
  | HAOverlay => Overlay
  | HAReplace _ => unit
  end.

Inductive result : Type := Accepted | Refused (text : string) | Failed.

Abbreviation handler := (prog answer result).
Abbreviation ask := (Call (answer := answer) (A := result)).

Definition refuse (text : string) : handler := Ret (Refused text).
Definition outcome_of (ok : bool) : handler := Ret (if ok then Accepted else Failed).

(** [return client.Method(...)]. *)
Definition finally (c : call) (k : answer c -> bool) : handler := Call c (λ a, outcome_of (k a)).
Definition publish (action : string) (payload : list (string * gval)) : handler :=
  finally (Publish action (GObject payload)) (λ ok, ok).

Definition requireController (next : handler) : handler :=
  ask AskController (λ ok, if ok then next else refuse "inverter-control state or transport is unavailable").

Definition overlay_zero : Overlay := MkOverlay ∅ false ∅.

(** ** The handlers *)

Definition flag_text (value : bool) : string := if value then "on" else "off".

Definition handleControllerToggle (entity : string) (requested : gval) : handler :=
  requireController
    (let entity := TrimPrefix "input_boolean." (TrimSpace entity) in
     if negb (IsControlFlag entity) then refuse "unknown inverter-control flag"
     else
       let set (value : option bool) : handler :=
         match value with
         | Some value => publish "toggle" [("entity", GString entity); ("state", GString (flag_text value))]
         | None => refuse "control flag state is unknown or invalid"
         end in
       match requested with
       | GNil => ask AskState (λ st, set (current ← st; negb <$> ControlBool (at_key (Some (FlagValues current)) entity)))
       | _ => set (ControlBool requested)
       end).

Definition handleDryRun (requested : gval) : handler :=
  requireController
    (match requested with
     | GNil =>
         ask AskState (λ st, match st ≫= FlagDryRun with
                              | Some b => publish "dry_run" [("value", GBool (negb b))]
                              | None => refuse "dry_run state is unknown"
                              end)
     | GBool b => publish "dry_run" [("value", GBool b)]
     | _ => refuse "dry_run value must be boolean"
     end).

Section home.
Context {H : Type} `{HomeClient H}.
Variable ha : option H.

(** [haClient != nil && haClient.IsDirectMode()]. *)
Definition direct : bool := match ha with Some h => direct_mode h | None => false end.
Definition allowed (entityID : string) : bool := match ha with Some h => toggle_allowed h entityID | None => false end.

Definition has_dot (entityID : string) : bool := existsb (λ c, Ascii.eqb c ".") (list_ascii_of_string entityID).

Definition handlePress (entityID : string) : handler :=
  if String.eqb entityID "" then refuse "entity ID required for press"
  else if has_dot entityID && negb direct then refuse "home entity is not configured for direct Home Assistant control"
  else if direct then
    if negb (allowed entityID) || negb (String.prefix "button." entityID)
    then refuse "button is not configured for direct Home Assistant control"
    else finally (HAPress entityID) (λ ok, ok)
  else publish "press" [("entity", GString entityID)].

(** [BroadcastState] with the overlay of the client, its error ignored. *)
Definition with_overlay (next : Overlay -> handler) : handler :=
  match ha with Some _ => ask HAOverlay next | None => next overlay_zero end.

Definition handleToggle (entityID : string) : handler :=
  if String.eqb entityID "" then refuse "entity ID required for toggle"
  else if IsControlFlag entityID then handleControllerToggle entityID GNil
  else if has_dot entityID && (negb direct || negb (allowed entityID))
  then refuse "home entity is not configured for direct Home Assistant control"
  else if String.prefix "button." entityID then handlePress entityID
  else if direct && allowed entityID then
    ask (HAToggle entityID) (λ ok,
      if negb ok then Ret Failed
      else ask HAFetch (λ fetched,
        match fetched with
        | None => Ret Failed
        | Some overlay =>
            if HADirectConnected overlay
            then ask (HAReplace overlay) (λ _, ask (Broadcast overlay) (λ _, Ret Accepted))
            else Ret Accepted
        end))
  else with_overlay (λ overlay, ask (Broadcast overlay) (λ _, publish "toggle" [("entity", GString entityID)])).

(** The mode of a water message; [None] for a value of another type or range. *)
Definition water_mode (mode : gval) : option Z :=
  match mode with
  | GInt m => if (m <? 0) || (2 <? m) then None else Some m
  | GFloat x => List.find (λ m, F64.eqb x (F64.of_Z m)) [0; 1; 2]
  | _ => None
  end.

Definition handle_rich (msg : Message) : handler :=
  if negb direct then refuse "direct Home Assistant controls are not enabled"
  else
    ask (HAPerform (Action msg) (Target msg)
            [("value", Value msg); ("position", Position msg); ("mp_action", GString (MPAction msg))]) (λ ok,
      if negb ok then Ret Failed
      else ask HAFetch (λ fetched,
        match fetched with
        | Some overlay => if HADirectConnected overlay then ask (HAReplace overlay) (λ _, Ret Accepted) else Ret Accepted
        | None => Ret Accepted
        end)).

(** Overrides and tariffs. *)
Definition handle_controller_command (name : string) (payload : gval) (valid : bool) (text : string) : handler :=
  if negb valid then refuse text
  else ask (AskCommand name payload) (λ ready,
         if ready then finally (Publish name payload) (λ ok, ok)
         else refuse "wait for live supported controller telemetry").

Definition override_payload (msg : Message) : gval :=
  GObject [("value", Value msg); ("request_id", GString (RequestID msg))].
Definition tariff_payload (msg : Message) : gval :=
  GObject [("plan", Plan msg); ("revision", GString (Revision msg)); ("request_id", GString (RequestID msg))].
Definition selection_payload (msg : Message) : gval :=
  GObject [("mode", Mode msg); ("request_id", GString (RequestID msg))].

Definition handle_selection (msg : Message) : handler :=
  if negb (ValidateESSSelection (selection_payload msg)) then refuse "invalid ESS mode selection"
  else requireController
         (ask AskESS (λ ready,
            if ready then finally (Publish "set_ess_mode" (selection_payload msg)) (λ ok, ok)
            else refuse "wait for live supported ESS telemetry with dry run disabled")).

Definition banner_payload (msg : Message) : list (string * gval) :=
  if negb (String.eqb (MID msg) "") then [("id", GString (MID msg))]
  else if negb (String.eqb (Target msg) "") then [("id", GString (Target msg))]
  else [].

Definition default_interval : F64.num := F64.round (33 # 100).

Definition handleMessage (msg : Message) : handler :=
  let names l := existsb (String.eqb (Action msg)) l in
  if names ["water_mode"] then
    if negb (existsb (String.eqb (Which msg)) ["pump"; "valve"]) then refuse "water device must be pump or valve"
    else match water_mode (Mode msg) with
         | Some m => finally (SetWater (Which msg) m) (λ ok, ok)
         | None => refuse "water mode must be integer 0, 1 or 2"
         end
  else if names ["number_set"; "set_cover_position"; "media_player"; "scene_activate"] then handle_rich msg
  else if names ["toggle"] then
    if IsControlFlag (Target msg) then handleControllerToggle (Target msg) (MState msg) else handleToggle (Target msg)
  else if names ["press"] then handlePress (Target msg)
  else if names ["setpoint"] then publish "setpoint" [("value", Value msg)]
  else if names ["dry_run"] then handleDryRun (Value msg)
  else if names ["limits"] then publish "limits" [("min", GFloat (Min msg)); ("max", GFloat (Max msg))]
  else if names ["set_setpoint_override"] then
    handle_controller_command "setpoint_override" (override_payload msg) (ValidateOverride (override_payload msg))
      "invalid override command"
  else if names ["electricity_tariff"] then
    handle_controller_command "electricity_tariff" (tariff_payload msg) (ValidateTariff (tariff_payload msg))
      "invalid tariff command"
  else if names ["set_ess_mode"] then handle_selection msg
  else if names ["ess_mode"] then requireController (publish "ess_mode" [])
  else if names ["loop_interval"] then
    publish "loop_interval" [("interval", GFloat (if F64.eqb (Interval msg) f64_zero then default_interval else Interval msg))]
  else if names ["set_settings"] then
    match Settings msg with
    | None => refuse "settings required"
    | Some settings =>
        ask (Apply settings) (λ ok,
          if negb ok then Ret Failed else with_overlay (λ overlay, finally (Broadcast overlay) (λ ok, ok)))
    end
  else if names ["acknowledge_all_notifications"; "silence_alarm"; "dismiss_banner"; "acknowledge_victron_banner"] then
    publish (Action msg) (banner_payload msg)
  else refuse ("unknown action: " +:+ Action msg).
End home.

(** ** Decoding and answering *)

(** What [UnmarshalJSON] demands of a decoded message and of its members: an
    envelope of an explicit command has no other members than its own. *)
Definition envelope_ok (fields : list (string * gval)) (m : Message) : bool :=
  let has key := match assoc key fields with Some _ => true | None => false end in
  (String.eqb (RequestID m) "" || ValidRequestID (RequestID m)) &&
  (if existsb (String.eqb (Action m)) ["set_ess_mode"; "set_setpoint_override"; "electricity_tariff"] then
     let tariff := String.eqb (Action m) "electricity_tariff" in
     let key := if tariff then "plan" else if String.eqb (Action m) "set_setpoint_override" then "value" else "mode" in
     negb (tariff && negb (has "revision")) && Nat.eqb (length fields) (if tariff then 4 else 3) &&
     has key && has "request_id"
   else true).

Inductive reply : Type := CommandResult (action id : string) | CommandError (action id : string).

(** What [HandleWebSocket] writes back for a message. *)
Definition reply_to (msg : Message) (r : result) : option reply :=
  if ValidRequestID (RequestID msg) then
    Some (match r with Accepted => CommandResult | _ => CommandError end (Action msg) (RequestID msg))
  else None.

(** ** Where commands go *)

Abbreviation made := (exchange answer).

Definition is_command (c : call) : bool :=
  match c with
  | Publish _ _ | SetWater _ _ | HAPerform _ _ _ | HAToggle _ | HAPress _ | Apply _ => true
  | _ => false
  end.

Definition quiet (past : list made) : Prop := ∀ m, m ∈ past -> is_command (projT1 m) = false.
Definition answered (past : list made) (c : call) (a : answer c) : Prop := existT c a ∈ past.

(** Whether a command returned without error. *)
Definition succeeded (m : made) : bool :=
  let 'existT c a := m in
  match c return answer c -> bool with
  | Publish _ _ | SetWater _ _ | HAPerform _ _ _ | HAToggle _ | HAPress _ | Apply _ => λ ok, ok
  | _ => λ _, false
  end a.

(** The commands for the controller and for the banners, and what was asked
    before. *)
Inductive published (past : list made) : string -> gval -> Prop :=
| publish_flag flag value : flag ∈ control_flags -> answered past AskController true ->
    published past "toggle" (GObject [("entity", GString flag); ("state", GString (flag_text value))])
| publish_legacy e : IsControlFlag e = false -> has_dot e = false ->
    published past "toggle" (GObject [("entity", GString e)])
| publish_press e : has_dot e = false -> published past "press" (GObject [("entity", GString e)])
| publish_dry_run b : answered past AskController true -> published past "dry_run" (GObject [("value", GBool b)])
| publish_ess_mode : answered past AskController true -> published past "ess_mode" (GObject [])
| publish_selection p : ValidateESSSelection p = true -> answered past AskController true -> answered past AskESS true ->
    published past "set_ess_mode" p
| publish_override p : ValidateOverride p = true -> answered past (AskCommand "setpoint_override" p) true ->
    published past "setpoint_override" p
| publish_tariff p : ValidateTariff p = true -> answered past (AskCommand "electricity_tariff" p) true ->
    published past "electricity_tariff" p
| publish_setpoint v : published past "setpoint" (GObject [("value", v)])
| publish_limits lo hi : published past "limits" (GObject [("min", GFloat lo); ("max", GFloat hi)])
| publish_interval x : published past "loop_interval" (GObject [("interval", GFloat x)])
| publish_banner action p :
    action ∈ ["acknowledge_all_notifications"; "silence_alarm"; "dismiss_banner"; "acknowledge_victron_banner"] ->
    published past action (GObject p).

Lemma quiet_nil : quiet [].
Proof. by intros m ?%elem_of_nil. Qed.

Lemma quiet_cons past c a : quiet past -> is_command c = false -> quiet (existT c a :: past).
Proof. intros Q Hc m [->|Hm]%elem_of_cons; [exact Hc|by apply Q]. Qed.

Lemma loud past c a : is_command c = true -> ¬ quiet (existT c a :: past).
Proof. intros Hc Q. specialize (Q (existT c a) ltac:(by left)). simpl in Q. congruence. Qed.

Lemma answered_here past c a : answered (existT c a :: past) c a.
Proof. by left. Qed.

Lemma answered_later past c a m : answered past c a -> answered (m :: past) c a.
Proof. by right. Qed.

Create HintDb dispatch.
#[local] Hint Resolve quiet_nil quiet_cons answered_here answered_later : dispatch.

Section owners.
Context {H : Type} `{HomeClient H}.
Variable ha : option H.

(** What a call may be after the calls before it. *)
Definition authorised (past : list made) (c : call) : Prop :=
  (is_command c = true -> quiet past) ∧
  match c with
  | Publish action payload => published past action payload
  | SetWater which mode => which ∈ ["pump"; "valve"] ∧ 0 <= mode <= 2
  | HAPerform action _ _ => direct ha = true ∧ action ∈ ["number_set"; "set_cover_position"; "media_player"; "scene_activate"]
  | HAToggle e | HAPress e => direct ha = true ∧ allowed ha e = true ∧ IsControlFlag e = false
  | HAReplace o => HADirectConnected o = true
  | _ => True
  end.

(** What the result says of the calls. *)
Definition truthful (past : list made) (r : result) : Prop :=
  match r with
  | Accepted => ∃ m, m ∈ past ∧ succeeded m = true
  | Refused _ => quiet past
  | Failed => ¬ quiet past
  end.

Abbreviation fine := (always authorised truthful).

Lemma fine_refuse past text : quiet past -> fine past (refuse text).
Proof. done. Qed.

Lemma fine_publish past action payload :
  quiet past -> published past action payload -> fine past (finally (Publish action payload) (λ ok, ok)).
Proof.
  intros Q P. split; [by split|]. intros []; simpl; [exists (existT (Publish action payload) true)|by apply loud].
  split; [by left|done].
Qed.

Lemma fine_require past next :
  quiet past -> (∀ past', quiet past' -> answered past' AskController true -> fine past' next) ->
  fine past (requireController next).
Proof.
  intros Q Hn. split; [by split|]. intros []; [|apply fine_refuse; auto with dispatch]. apply Hn; auto with dispatch.
Qed.

Lemma allowed_flag e : allowed ha e = true -> IsControlFlag e = false.
Proof. unfold allowed. destruct ha as [h|]; [apply allowed_not_flag|done]. Qed.

#[local] Hint Resolve fine_refuse fine_publish : dispatch.

Lemma fine_flag past entity requested :
  quiet past -> IsControlFlag entity = true -> fine past (handleControllerToggle entity requested).
Proof.
  intros Q F. apply fine_require; [done|]. intros past' Q' A. cbv zeta.
  pose proof (flag_canonical _ F) as Hf. rewrite (proj1 (flag_fixed _ Hf)). cbn [negb].
  assert (S : ∀ past'' value, quiet past'' -> answered past'' AskController true ->
    fine past'' (match value with
                 | Some value => publish "toggle" [("entity", GString (TrimPrefix "input_boolean." (TrimSpace entity)));
                                                   ("state", GString (flag_text value))]
                 | None => refuse "control flag state is unknown or invalid"
                 end)).
  { intros p [v|] Qp Ap; [|by apply fine_refuse]. apply fine_publish; [done|]. by apply publish_flag. }
  destruct requested; try by apply S. split; [by split|]. intros st. apply S; auto with dispatch.
Qed.

Lemma fine_dry_run past requested : quiet past -> fine past (handleDryRun requested).
Proof.
  intros Q. apply fine_require; [done|]. intros past' Q' A.
  destruct requested as [|b| | | | | | |]; try by apply fine_refuse.
  - split; [by split|]. intros st. destruct (st ≫= FlagDryRun) as [b|]; [|apply fine_refuse; auto with dispatch].
    apply fine_publish; [auto with dispatch|]. apply publish_dry_run. auto with dispatch.
  - apply fine_publish; [done|]. by apply publish_dry_run.
Qed.

Lemma fine_press past e : quiet past -> fine past (handlePress ha e).
Proof.
  intros Q. unfold handlePress. destruct (String.eqb e ""); [by apply fine_refuse|].
  destruct (has_dot e && negb (direct ha)) eqn:D; [by apply fine_refuse|].
  destruct (direct ha) eqn:Hd.
  - destruct (negb (allowed ha e) || _) eqn:A; [by apply fine_refuse|]. bool_hyps.
    split; [split; [done|by split; [|split; [|apply allowed_flag]]]|]. intros []; [|by apply loud].
    exists (existT (HAPress e) true). split; [by left|done].
  - rewrite andb_true_r in D. apply fine_publish; [done|]. by apply publish_press.
Qed.

Lemma fine_overlay past next : quiet past -> (∀ past' o, quiet past' -> fine past' (next o)) -> fine past (with_overlay ha next).
Proof. intros Q Hn. unfold with_overlay. destruct ha; [split; [by split|]; intros o; apply Hn; auto with dispatch|by apply Hn]. Qed.

(** After a command the overlay is refreshed without another command. *)
Lemma done_command past m : m ∈ past -> succeeded m = true -> truthful past Accepted.
Proof. intros Hm Hs. by exists m. Qed.

Lemma fine_toggle past e : quiet past -> fine past (handleToggle ha e).
Proof.
  intros Q. unfold handleToggle. destruct (String.eqb e ""); [by apply fine_refuse|].
  destruct (IsControlFlag e) eqn:F; [by apply fine_flag|].
  destruct (has_dot e && _) eqn:D; [by apply fine_refuse|].
  destruct (String.prefix "button." e); [by apply fine_press|].
  destruct (direct ha && allowed ha e) eqn:A.
  - bool_hyps. split; [by split|]. intros []; [|by apply loud]. simpl. split; [by split|]. intros [o|].
    + destruct (HADirectConnected o) eqn:C; simpl; [|eapply done_command; [right; left|done]].
      split; [by split|]. intros u. split; [by split|]. intros b. eapply done_command; [do 3 right; left|done].
    + simpl. intros Q'. apply (loud past (HAToggle e) true); [done|]. intros m Hm. apply Q'. by right.
  - apply fine_overlay; [done|]. intros past' o Q'. split; [by split|]. intros ok. apply fine_publish; [auto with dispatch|].
    apply publish_legacy; [done|]. destruct (has_dot e); [|done]. destruct (direct ha), (allowed ha e); done.
Qed.

Lemma fine_rich past msg :
  quiet past -> Action msg ∈ ["number_set"; "set_cover_position"; "media_player"; "scene_activate"] -> fine past (handle_rich ha msg).
Proof.
  intros Q Ha. unfold handle_rich. destruct (direct ha) eqn:D; [|by apply fine_refuse]. cbn [negb].
  split; [by split|]. intros []; [|by apply loud]. simpl. split; [by split|]. intros [o|].
  - destruct (HADirectConnected o) eqn:C; simpl; [|eapply done_command; [right; left|done]].
    split; [by split|]. intros u. eapply done_command; [do 2 right; left|done].
  - eapply done_command; [right; left|done].
Qed.

Lemma fine_controller_command past name payload valid text :
  quiet past -> (valid = true -> ∀ past', answered past' (AskCommand name payload) true -> published past' name payload) ->
  fine past (handle_controller_command name payload valid text).
Proof.
  intros Q P. unfold handle_controller_command. destruct valid; [|by apply fine_refuse]. cbn [negb].
  split; [by split|]. intros []; [|apply fine_refuse; auto with dispatch].
  apply fine_publish; [auto with dispatch|]. apply P; auto with dispatch.
Qed.

Lemma fine_selection past msg : quiet past -> fine past (handle_selection msg).
Proof.
  intros Q. unfold handle_selection. destruct (ValidateESSSelection _) eqn:V; [|by apply fine_refuse]. cbn [negb].
  apply fine_require; [done|]. intros past' Q' A. split; [by split|].
  intros []; [|apply fine_refuse; auto with dispatch]. apply fine_publish; [auto with dispatch|].
  apply publish_selection; auto with dispatch.
Qed.

Lemma water_mode_range v m : water_mode v = Some m -> 0 <= m <= 2.
Proof.
  unfold water_mode. destruct v as [| |x|z| | | | |]; try done.
  - intros Hm%List.find_some. destruct Hm as [Hm _]. simpl in Hm. lia.
  - destruct (_ || _) eqn:E; [done|]. intros [= <-]. bool_hyps. lia.
Qed.

Lemma fine_message msg : fine [] (handleMessage ha msg).
Proof.
  pose proof quiet_nil as Q. unfold handleMessage. cbv zeta.
  destruct (existsb _ ["water_mode"]).
  { destruct (existsb _ ["pump"; "valve"]) eqn:W; [|by apply fine_refuse]. cbn [negb].
    destruct (water_mode (Mode msg)) as [m|] eqn:M; [|by apply fine_refuse].
    split; [split; [done|split; [by apply existsb_eqb|by eapply water_mode_range]]|]. intros []; [|by apply loud].
    by eapply done_command; [left|]. }
  destruct (existsb _ ["number_set"; "set_cover_position"; "media_player"; "scene_activate"]) eqn:R.
  { apply fine_rich; [done|by apply existsb_eqb]. }
  destruct (existsb _ ["toggle"]).
  { destruct (IsControlFlag (Target msg)) eqn:F; [by apply fine_flag|by apply fine_toggle]. }
  destruct (existsb _ ["press"]); [by apply fine_press|].
  destruct (existsb _ ["setpoint"]); [apply fine_publish; [done|constructor]|].
  destruct (existsb _ ["dry_run"]); [by apply fine_dry_run|].
  destruct (existsb _ ["limits"]); [apply fine_publish; [done|constructor]|].
  destruct (existsb _ ["set_setpoint_override"]).
  { apply fine_controller_command; [done|]. intros V past' A. by apply publish_override. }
  destruct (existsb _ ["electricity_tariff"]).
  { apply fine_controller_command; [done|]. intros V past' A. by apply publish_tariff. }
  destruct (existsb _ ["set_ess_mode"]); [by apply fine_selection|].
  destruct (existsb _ ["ess_mode"]).
  { apply fine_require; [done|]. intros past' Q' A. apply fine_publish; [done|]. by apply publish_ess_mode. }
  destruct (existsb _ ["loop_interval"]); [apply fine_publish; [done|constructor]|].
  destruct (existsb _ ["set_settings"]).
  { destruct (Settings msg) as [settings|]; [|by apply fine_refuse]. split; [by split|]. intros []; [|by apply loud]. simpl.
    assert (D : ∀ past' o, (∃ m, m ∈ past' ∧ succeeded m = true ∧ is_command (projT1 m) = true) ->
              fine past' (finally (Broadcast o) (λ ok, ok))).
    { intros past' o (m & Hm & Hs & Hc). split; [by split|]. intros []; [by eapply done_command; [right|]|].
      intros Q'. pose proof (Q' m (list_elem_of_further _ _ _ Hm)) as E. exact (Bool.diff_true_false (eq_trans (eq_sym Hc) E)). }
    unfold with_overlay. set (m0 := existT (Apply settings) true : made). destruct ha; [split; [by split|]; intros o|];
      apply D; exists m0; (split; [first [by left|by right; left]|done]). }
  destruct (existsb _ ["acknowledge_all_notifications"; _; _; _]) eqn:B; [|by apply fine_refuse].
  apply fine_publish; [done|]. apply publish_banner. by apply existsb_eqb.
Qed.

(** A message, however the other components answer: the calls and the result. *)
Definition handled (env : nat -> ∀ c, answer c) (msg : Message) : list made * result :=
  run_prog env [] (handleMessage ha msg).

Lemma commands_authorised env msg later c (a : answer c) earlier :
  fst (handled env msg) = later ++ existT c a :: earlier -> authorised earlier c.
Proof.
  intros E. destruct (always_run answer _ _ _ env [] (fine_message msg)) as (calls & Ec & _ & HP).
  unfold handled in E. rewrite E, app_nil_r in Ec. subst calls. specialize (HP later c a earlier eq_refl).
  by rewrite app_nil_r in HP.
Qed.


(** What the page is told: an accepted message caused a command that returned
    without error, a refused one caused none, and a failed one caused one. *)
Theorem results_truthful env (msg : Message) : truthful (fst (handled env msg)) (snd (handled env msg)).
Proof.
  destruct (always_run answer _ _ _ env [] (fine_message msg)) as (calls & Ec & HQ & _). unfold handled.
  rewrite Ec. by rewrite app_nil_r in HQ |- *.
Qed.
End owners.

(** ** The gateway takes what the page sends *)

Lemma published_gateway past action payload name :
  published past action payload -> MapDashboardAction action = Some name ->
  proper name payload ∨ name = "toggle" ∧ ∃ e, payload = GObject [("entity", GString e)] ∧ IsControlFlag e = false.
Proof.
  intros P M.
  destruct P as [flag v Hf Ha|e Fe De|e De|b Ha|Ha|p V Ha He|p V Ha|p V Ha|v|lo hi|x|action p Hin]; try discriminate M;
    try (injection M as <-; left; by constructor).
  - injection M as <-. right. split; [done|]. by exists e.
  - left. repeat (apply elem_of_cons in Hin as [->|Hin]; [injection M as <-; constructor|]). by apply elem_of_nil in Hin.
Qed.

(** C28: When a gateway is in use, the body of every command of the page that the
    gateway knows passes its checks unchanged, except a toggle of an entity that
    is no flag of the controller, which is refused. *)
Theorem page_commands_fit_gateway {H} `{HomeClient H} (ha : option H) env (msg : Message) later action payload
    (ok : bool) earlier name :
  fst (handled ha env msg) = later ++ existT (Publish action payload) ok :: earlier ->
  MapDashboardAction action = Some name ->
  normalizeControllerCommand name payload = Some payload ∨
  normalizeControllerCommand name payload = None ∧ name = "toggle" ∧
  ∃ e, payload = GObject [("entity", GString e)] ∧ IsControlFlag e = false.
Proof.
  intros E M. destruct (commands_authorised ha env msg later _ _ earlier E) as [_ P].
  destruct (published_gateway _ _ _ _ P M) as [Hp|(-> & e & -> & F)]; [left; by apply proper_normal|].
  right. split; [|split; [done|by exists e]]. unfold normalizeControllerCommand. cbn -[normalizeToggleCommand].
  unfold normalizeToggleCommand. change (at_key _ "entity") with (GString e). cbn iota. by rewrite F.
Qed.

(** ** With the client of Home Assistant *)

Definition service_of (c : call) : option (HomeAssistant.call * string) :=
  match c with
  | HAPerform action entity payload => Some (Perform action payload, entity)
  | HAToggle entity => Some (Toggle, entity)
  | HAPress entity => Some (Press, entity)
  | _ => None
  end.


(** A request that a message of the page makes Home Assistant's client send
    names an entity of the operator's configuration that is no flag of the
    controller and that the last poll observed at most thirty seconds before. *)
Theorem page_requests_sound (iterate : gmap string string -> list (string * string)) overflow
    (cfg : HomeAssistant.Config) (es : list HomeAssistant.event) env (msg : Message) c (a : answer c) op entity (now : Z) r :
  (∀ m, iterate m ≡ₚ map_to_list m) ->
  existT c a ∈ fst (handled (Some cfg) env msg) -> service_of c = Some (op, entity) ->
  service_call op entity now (HomeAssistant.run iterate overflow es cfg) = inr r ->
  IsControlFlag entity = false ∧ configured_entity cfg entity ∧ assoc "entity_id" (Body r) = Some (GString entity) ∧
  ∃ env t, last_poll es = Some env ∧ observation env entity t ∧ 0 <= now - t <= 30 * 10 ^ 9.
Proof.
  intros Hi Hm Hc Hr. apply list_elem_of_split in Hm as (later & earlier & E).
  destruct (commands_authorised (Some cfg) env msg later c a earlier E) as [_ P].
  apply service_call_form in Hr as (service & fields & Hcall & Hbody & _ & Hflag).
  pose proof Hcall as Ho. apply (sent_observed iterate overflow Hi) in Ho as (_ & HQ & env' & El & _ & t & Ho & Hage).
  apply call_sent in Hcall as (-> & _). split; [|split; [done|split; [done|by exists env', t]]].
  destruct c; try discriminate Hc; injection Hc as <- <-; [by eapply Hflag|by destruct P as (_ & _ & ?)..].
Qed.

(** ** Concrete messages *)

(** An environment in which everything succeeds. *)
Definition willing (_ : nat) (c : call) : answer c :=
  match c return answer c with
  | AskController | AskCommand _ _ | AskESS | Publish _ _ | SetWater _ _ | HAPerform _ _ _ | HAToggle _ | HAPress _
  | Broadcast _ | Apply _ => true
  | AskState => Some (MkFlags [("no_feed", GBool true)] (Some false))
  | HAFetch => Some (MkOverlay ∅ true ∅)
  | HAOverlay => overlay_zero
  | HAReplace _ => tt
  end.

Definition toggle_message (entity : string) : Message :=
  MkMessage GNil "toggle" "req-1" "" GNil entity "" GNil GNil "" "" GNil f64_zero f64_zero f64_zero None.
Definition flag_payload : gval := GObject [("entity", GString "no_feed"); ("state", GString "off")].

Example messages :
  snd (handled (Some sample_config) willing (toggle_message "input_boolean.no_feed")) = Accepted ∧
  projT1 <$> fst (handled (Some sample_config) willing (toggle_message "input_boolean.no_feed"))
  = [Publish "toggle" flag_payload; AskState; AskController] ∧
  projT1 <$> fst (handled (Some sample_config) willing (toggle_message "switch.lamp"))
  = [Broadcast (MkOverlay ∅ true ∅); HAReplace (MkOverlay ∅ true ∅); HAFetch; HAToggle "switch.lamp"] ∧
  snd (handled (Some sample_config) willing (toggle_message "switch.other"))
  = Refused "home entity is not configured for direct Home Assistant control" ∧
  reply_to (toggle_message "switch.other") (Refused "") = Some (CommandError "toggle" "req-1").
Proof. vm_compute. done. Qed.

Definition flag_calls : list made :=
  [@existT call answer AskState (Some (MkFlags [("no_feed", GBool true)] (Some false))); @existT call answer AskController true].


Lemma page_commands_fit_gateway_witness :
  normalizeControllerCommand "toggle" flag_payload = Some flag_payload ∨
  normalizeControllerCommand "toggle" flag_payload = None ∧ "toggle" = "toggle" ∧
  ∃ e, flag_payload = GObject [("entity", GString e)] ∧ IsControlFlag e = false.
Proof.
  apply (page_commands_fit_gateway (Some sample_config) willing (toggle_message "input_boolean.no_feed") [] "toggle" flag_payload
           true flag_calls).
  - vm_compute. reflexivity.
  - reflexivity.
Defined.

Definition lamp_request : Request := MkRequest "switch" "toggle" [("entity_id", GString "switch.lamp")].

Lemma page_requests_sound_witness :
  IsControlFlag "switch.lamp" = false ∧ configured_entity sample_config "switch.lamp" ∧
  assoc "entity_id" (Body lamp_request) = Some (GString "switch.lamp") ∧
  ∃ env t, last_poll [Polled sample_answers] = Some env ∧ observation env "switch.lamp" t ∧ 0 <= 20 * 10 ^ 9 - t <= 30 * 10 ^ 9.
Proof.
  apply (page_requests_sound map_to_list no_overflow sample_config [Polled sample_answers] willing (toggle_message "switch.lamp")
           (HAToggle "switch.lamp") true Toggle "switch.lamp" (20 * 10 ^ 9) lamp_request).
  - intros m. reflexivity.
  - vm_compute. do 3 right. left.
  - reflexivity.
  - vm_compute. reflexivity.
Defined.
