(* ===== verification/PagePayload.v ===== *)
(** * What the page is sent

    [buildPayload] of [internal/websocket/handler.go] with [mergeStates],
    [mergeUIConfig] and [mergeHomeButtonStates], and [TransportStatus] of
    [internal/mqtt/transport.go]: how the state of the installation, the values
    of Home Assistant and the server's own fields become one object.  The state
    is the JSON object it is encoded as; the two maps inside the payload that
    the code keeps writing to are components of their own. *)

From Stdlib Require Import ZArith Ascii String Lia.
From stdpp Require Import base list option strings gmap fin_maps.
From S2P Require Import Prelude Float64 JsValue ControllerCommands OverlayState HomeAssistant.

#[local] Open Scope string_scope.
#[local] Open Scope list_scope.
#[local] Open Scope Z_scope.

(** ** The clients *)

Inductive ui_value : Type :=
| UIJson (v : gval)
| UIButtons (l : list Button)
| UISettings (m : gmap string gval).

(** What is asked of Home Assistant's client. *)
Record Home := MkHome {
  HomeDirect : bool;
  ManagedKeys : list string;
  HomeUI : list (string * ui_value);
  BooleanButtons : list Button;
  HomeControls : bool;
  HomeObservedAt : option F64.num
}.

(** [GetUIConfig]. *)
Definition GetUIConfig (c : Config) : list (string * ui_value) :=
  [("home_buttons", UIButtons (if configured c then by_order (switchEntities c) else []))].

(** What is asked of the MQTT client: the JSON object of its state, or of an
    empty one, and the answers to the optional interfaces. *)
Record Commander := MkCommander {
  StateFields : gmap string gval;
  Console : list string;
  Connected : bool;
  Transport : list (string * gval);
  CanControl : bool;
  CanWater : bool;
  CanWaterDevice : string -> bool
}.

(** [TransportStatus]; the receipt of the last native message and its text. *)
Definition TransportStatus (gatewayMode gatewayConnected brokerOpen : bool) (observed : option (Z * string)) (now : Z)
    : list (string * gval) :=
  let mqttConnected := brokerOpen && negb gatewayMode in
  let source := if gatewayMode then "igw" else "mqtt" in
  let connected := if gatewayMode then gatewayConnected else mqttConnected in
  let quality := match observed with
                 | None => "unknown"
                 | Some (at_, _) => if connected && (0 <=? now - at_) && (now - at_ <=? 120 * 10 ^ 9) then "live" else "stale"
                 end in
  [("data_source", GString source); ("mqtt_connected", GBool mqttConnected);
   ("gateway_connected", GBool (gatewayMode && gatewayConnected)); ("native_connected", GBool connected);
   ("telemetry", GObject [("source", GString source); ("observed_at", GString (default "" (snd <$> observed)));
                          ("quality", GString quality); ("timestamp_source", GString "local_receipt")])].

(** ** Merging *)

Record Payload := MkPayload { Fields : gmap string gval; Flags : gmap string gval; UI : gmap string ui_value }.

Definition put (key : string) (v : gval) (m : gmap string gval) : gmap string gval := <[key := v]> m.

(** The members of a decoded object. *)
Definition members (v : option gval) : gmap string gval :=
  match v with Some (GObject o) => list_to_map o | _ => ∅ end.

Section payload.
(** The order of the loops over maps. *)
Variable iterate : ∀ V, gmap string V -> list (string * V).

Definition add_boolean (m : gmap string gval) (e : string * bool) : gmap string gval :=
  if IsMQTTOwnedKey e.1 then m else put e.1 (GBool e.2) m.

Definition add_field (m : gmap string gval) (e : string * gval) : gmap string gval :=
  match e.2 with GNil => m | v => if IsMQTTOwnedKey e.1 then m else put e.1 v m end.

Definition reset_key (m : gmap string gval * gmap string gval) (key : string) : gmap string gval * gmap string gval :=
  if IsMQTTOwnedKey key then m
  else (put key (GBool false) m.1, match m.2 !! key with Some _ => put key (GBool false) m.2 | None => m.2 end).

(** [mergeStates]: the fields and the flags. *)
Definition mergeStates (mqtt : gmap string gval) (o : Overlay) (managedKeys : list string)
    : gmap string gval * gmap string gval :=
  let merged := put "ha_direct_connected" (GBool (HADirectConnected o)) mqtt in
  let booleans := members (mqtt !! "booleans") in
  if HADirectConnected o then
    (foldl add_field merged (iterate _ (AdditionalFields o)), foldl add_boolean booleans (iterate _ (Booleans o)))
  else foldl reset_key (merged, booleans) managedKeys.

Definition mergeUIConfig (controller : option gval) (ha : option Home) : gmap string ui_value :=
  let uiConfig := <["home_buttons" := UIButtons []]> (UIJson <$> members controller) in
  match ha with
  | None => uiConfig
  | Some h =>
      let uiConfig := foldl (λ m e, <[e.1 := e.2]> m) uiConfig (HomeUI h) in
      match BooleanButtons h with [] => uiConfig | l => <["boolean_buttons" := UIButtons l]> uiConfig end
  end.

Definition button_state (o : Overlay) (direct : bool) (flags : gmap string gval) (b : Button) : gmap string gval :=
  if IsMQTTOwnedKey (StateKey b) then flags
  else
    let flags := put (StateKey b) GNil flags in
    if direct && HADirectConnected o then
      match AdditionalFields o !! StateKey b with
      | Some (GBool v) => put (StateKey b) (GBool v) flags
      | _ => flags
      end
    else flags.

Definition mergeHomeButtonStates (uiConfig : gmap string ui_value) (o : Overlay) (direct : bool) (flags : gmap string gval)
    : gmap string gval :=
  match uiConfig !! "home_buttons" with
  | Some (UIButtons buttons) => foldl (button_state o direct) flags buttons
  | _ => flags
  end.

Definition home_direct (ha : option Home) : bool := match ha with Some h => HomeDirect h | None => false end.

(** The members that the server writes after merging, in its order. *)
Definition server_fields (c : Commander) (ha : option Home) (version latest : string) : list (string * gval) :=
  let lines := if (20 <? length (Console c))%nat then drop (length (Console c) - 20) (Console c) else Console c in
  [("ha_controls_available", GBool (match ha with Some h => HomeControls h | None => false end));
   ("ha_observed_at", match ha with Some h => match HomeObservedAt h with Some x => GFloat x | None => GNil end | None => GNil end);
   ("dashboard_version", GString version); ("latest_version", GString latest); ("mqtt_connected", GBool (Connected c))] ++
  Transport c ++
  [("controller_controls_available", GBool (CanControl c)); ("water_controls_available", GBool (CanWater c));
   ("water_pump_controls_available", GBool (CanWaterDevice c "pump"));
   ("water_valve_controls_available", GBool (CanWaterDevice c "valve")); ("console", GSlice (GString <$> lines))].

(** The overlay that [buildPayload] uses, and the managed keys. *)
Definition used_overlay (ha : option Home) (o : Overlay) : Overlay := if home_direct ha then o else MkOverlay ∅ false ∅.
Definition used_keys (ha : option Home) : list string :=
  match ha with Some h => if HomeDirect h then ManagedKeys h else [] | None => [] end.

Definition buildPayload (c : Commander) (ha : option Home) (o : Overlay) (masked : gmap string gval) (version latest : string)
    : Payload :=
  let o := used_overlay ha o in
  let '(payload, booleans) := mergeStates (StateFields c) o (used_keys ha) in
  let uiConfig := mergeUIConfig (payload !! "ui_config") ha in
  let booleans := mergeHomeButtonStates uiConfig o (home_direct ha) booleans in
  let payload := foldl (λ m e, put e.1 e.2 m) payload (server_fields c ha version latest) in
  MkPayload (delete "booleans" (delete "ui_config" payload)) booleans (<["settings" := UISettings masked]> uiConfig).

(** ** Ownership *)

Lemma put_ne k key v m : k ≠ key -> put key v m !! k = m !! k.
Proof. intros H. unfold put. by rewrite lookup_insert_ne. Qed.

Lemma owned_ne k key : IsMQTTOwnedKey k = true -> IsMQTTOwnedKey key = false -> k ≠ key.
Proof. intros H1 H2 ->. congruence. Qed.

Lemma fields_owned m l k : IsMQTTOwnedKey k = true -> foldl add_field m l !! k = m !! k.
Proof.
  intros Hk. apply (foldl_inv (λ a, a !! k = m !! k)); [|done]. intros a [key v] _ IH. unfold add_field. simpl.
  destruct v; try exact IH; (destruct (IsMQTTOwnedKey key) eqn:O; [exact IH|]; by rewrite put_ne by (by eapply owned_ne)).
Qed.

Lemma booleans_owned m l k : IsMQTTOwnedKey k = true -> foldl add_boolean m l !! k = m !! k.
Proof.
  intros Hk. apply (foldl_inv (λ a, a !! k = m !! k)); [|done]. intros a [key v] _ IH. unfold add_boolean. simpl.
  destruct (IsMQTTOwnedKey key) eqn:O; [exact IH|]. by rewrite put_ne by (by eapply owned_ne).
Qed.

Lemma reset_owned m l k : IsMQTTOwnedKey k = true ->
  (foldl reset_key m l).1 !! k = m.1 !! k ∧ (foldl reset_key m l).2 !! k = m.2 !! k.
Proof.
  intros Hk. apply (foldl_inv (λ a, a.1 !! k = m.1 !! k ∧ a.2 !! k = m.2 !! k)); [|done]. intros a key _ [I1 I2]. unfold reset_key.
  destruct (IsMQTTOwnedKey key) eqn:O; [done|]. assert (N : k ≠ key) by (by eapply owned_ne). simpl.
  rewrite put_ne by done. split; [done|]. case_match; by rewrite ?put_ne.
Qed.

Lemma merge_owned mqtt o managed k : IsMQTTOwnedKey k = true ->
  (mergeStates mqtt o managed).1 !! k = mqtt !! k ∧ (mergeStates mqtt o managed).2 !! k = members (mqtt !! "booleans") !! k.
Proof.
  intros Hk. assert (N : k ≠ "ha_direct_connected") by (by eapply owned_ne). unfold mergeStates. destruct (HADirectConnected o).
  - simpl. by rewrite fields_owned, booleans_owned, put_ne.
  - destruct (reset_owned (put "ha_direct_connected" (GBool false) mqtt, members (mqtt !! "booleans")) managed k Hk) as [E1 E2].
    rewrite E1, E2. simpl. by rewrite put_ne.
Qed.

Lemma buttons_owned ui o d flags k : IsMQTTOwnedKey k = true -> mergeHomeButtonStates ui o d flags !! k = flags !! k.
Proof.
  intros Hk. unfold mergeHomeButtonStates. case_match; [|done]. case_match; try done.
  apply (foldl_inv (λ a, a !! k = flags !! k)); [|done]. intros a b _ IH. unfold button_state.
  destruct (IsMQTTOwnedKey (StateKey b)) eqn:O; [exact IH|]. assert (N : k ≠ StateKey b) by (by eapply owned_ne).
  repeat case_match; by rewrite ?put_ne.
Qed.

Lemma server_keys_only l (m : gmap string gval) k : k ∉ l.*1 -> foldl (λ m e, put e.1 e.2 m) m l !! k = m !! k.
Proof.
  intros Hk. apply (foldl_inv (λ a, a !! k = m !! k)); [|done]. intros a e He IH. rewrite put_ne; [exact IH|].
  intros ->. apply Hk. by apply list_elem_of_fmap_2.
Qed.

Lemma fields_of c ha o masked version latest k :
  k ∉ (server_fields c ha version latest).*1 -> k ≠ "booleans" -> k ≠ "ui_config" ->
  Fields (buildPayload c ha o masked version latest) !! k =
  (mergeStates (StateFields c) (used_overlay ha o) (used_keys ha)).1 !! k.
Proof.
  intros Hs Hb Hu. unfold buildPayload. destruct (mergeStates _ _ _) as [p b]. cbn [Fields fst].
  rewrite !lookup_delete_ne by done. by rewrite server_keys_only.
Qed.

Lemma flags_of c ha o masked version latest :
  Flags (buildPayload c ha o masked version latest) =
  mergeHomeButtonStates (mergeUIConfig ((mergeStates (StateFields c) (used_overlay ha o) (used_keys ha)).1 !! "ui_config") ha)
    (used_overlay ha o) (home_direct ha) (mergeStates (StateFields c) (used_overlay ha o) (used_keys ha)).2.
Proof. unfold buildPayload. by destruct (mergeStates _ _ _) as [p b]. Qed.

Definition ui_keys : list string := ["home_buttons"; "boolean_buttons"; "settings"].

Lemma ui_of c ha o masked version latest k :
  k ∉ ui_keys -> (∀ h, ha = Some h -> Forall (λ e, e.1 ∈ ui_keys) (HomeUI h)) ->
  UI (buildPayload c ha o masked version latest) !! k = UIJson <$> members (StateFields c !! "ui_config") !! k.
Proof.
  intros Hk Hui. unfold buildPayload.
  destruct (merge_owned (StateFields c) (used_overlay ha o) (used_keys ha) "ui_config" eq_refl) as [E _].
  destruct (mergeStates _ _ _) as [p b]. simpl in *. rewrite E.
  assert (N : ∀ key, key ∈ ui_keys -> k ≠ key) by (intros key Hkey ->; done).
  rewrite lookup_insert_ne by (symmetry; apply N; set_solver). unfold mergeUIConfig.
  set (m := <["home_buttons" := _]> _). assert (M : m !! k = UIJson <$> members (StateFields c !! "ui_config") !! k).
  { subst m. rewrite lookup_insert_ne by (symmetry; apply N; set_solver). by rewrite lookup_fmap. }
  destruct ha as [h|]; [|exact M].
  assert (F : foldl (λ m e, <[e.1 := e.2]> m) m (HomeUI h) !! k = m !! k).
  { apply (foldl_inv (λ a, a !! k = m !! k)); [|done]. intros a e He IH. specialize (Hui h eq_refl). rewrite Forall_forall in Hui.
    rewrite lookup_insert_ne; [exact IH|]. symmetry. apply N. by apply Hui. }
  destruct (BooleanButtons h); [by rewrite F|]. rewrite lookup_insert_ne by (symmetry; apply N; set_solver). by rewrite F.
Qed.

(** C21: Whatever Home Assistant's client answers, the page is sent the state's own
    value of every field that MQTT owns and that the server does not write
    itself, and the controller's own value of each of its flags; the interface's
    configuration is the controller's, but for buttons and settings. *)
Theorem home_cannot_override (c : Commander) (ha : option Home) (o : Overlay) (masked : gmap string gval)
    (version latest k : string) :
  (∀ h, ha = Some h -> Forall (λ e, e.1 ∈ ui_keys) (HomeUI h)) ->
  let payload := buildPayload c ha o masked version latest in
  (IsMQTTOwnedKey k = true -> k ∉ (server_fields c ha version latest).*1 -> k ≠ "booleans" -> k ≠ "ui_config" ->
   Fields payload !! k = StateFields c !! k) ∧
  (IsMQTTOwnedKey k = true -> Flags payload !! k = members (StateFields c !! "booleans") !! k) ∧
  (k ∉ ui_keys -> UI payload !! k = UIJson <$> members (StateFields c !! "ui_config") !! k).
Proof.
  intros Hui payload. pose proof (merge_owned (StateFields c) (used_overlay ha o) (used_keys ha) k) as M. split; [|split].
  - intros Hk Hs Hb Hu. subst payload. rewrite fields_of by done. by apply M.
  - intros Hk. subst payload. rewrite flags_of, buttons_owned by done. by apply M.
  - intros Hk. by apply ui_of.
Qed.

(** ** A lost connection *)

Lemma reset_lookup m l k :
  (foldl reset_key m l).1 !! k =
  if decide (k ∈ l ∧ IsMQTTOwnedKey k = false) then Some (GBool false) else m.1 !! k.
Proof.
  revert m. induction l as [|key l IH]; intros m; cbn [foldl].
  { case_decide as D; [by destruct D as [?%elem_of_nil _]|done]. }
  rewrite IH. clear IH. unfold reset_key. destruct (IsMQTTOwnedKey key) eqn:O; cbn [fst].
  - destruct (decide (k = key)) as [->|Hne]; [by rewrite !decide_False by (intros [_ ?]; congruence)|].
    apply decide_ext. rewrite elem_of_cons. tauto.
  - destruct (decide (k = key)) as [->|Hne].
    + rewrite (decide_True (P := key ∈ key :: l ∧ _)) by (split; [by left|done]). case_decide; [done|apply lookup_insert_eq].
    + rewrite put_ne by done. apply decide_ext. rewrite elem_of_cons. tauto.
Qed.

(** Without Home Assistant, outside of its direct mode, or when its last poll had
    no answer, the page is sent none of its values: a field that it manages is
    false, every other one is the state's own. *)
Theorem lost_home_leaves_nothing (c : Commander) (ha : option Home) (o : Overlay) (masked : gmap string gval)
    (version latest k : string) :
  home_direct ha = false ∨ HADirectConnected o = false ->
  k ∉ (server_fields c ha version latest).*1 -> k ≠ "booleans" -> k ≠ "ui_config" -> k ≠ "ha_direct_connected" ->
  Fields (buildPayload c ha o masked version latest) !! k =
  if decide (k ∈ used_keys ha ∧ IsMQTTOwnedKey k = false) then Some (GBool false) else StateFields c !! k.
Proof.
  intros Hlost Hs Hb Hu Hd. rewrite fields_of by done. unfold mergeStates.
  assert (E : HADirectConnected (used_overlay ha o) = false)
    by (unfold used_overlay; destruct (home_direct ha) eqn:D; [by destruct Hlost|done]).
  rewrite E, reset_lookup. simpl. by rewrite put_ne.
Qed.

(** ** Buttons *)

Lemma button_known o d l flags k v :
  k ∈ StateKey <$> l -> IsMQTTOwnedKey k = false -> foldl (button_state o d) flags l !! k = Some (GBool v) ->
  d = true ∧ HADirectConnected o = true ∧ AdditionalFields o !! k = Some (GBool v).
Proof.
  revert flags. induction l as [|b l IH] using rev_ind; intros flags Hin Ho H; [by apply elem_of_nil in Hin|].
  rewrite foldl_app in H. simpl in H. set (f := foldl _ flags l) in *. unfold button_state, put in H.
  rewrite fmap_app, elem_of_app in Hin. simpl in Hin. rewrite list_elem_of_singleton in Hin.
  destruct (decide (k = StateKey b)) as [->|Hne].
  - rewrite Ho in H. destruct (d && HADirectConnected o) eqn:C; [apply andb_true_iff in C as [C1 C2]|].
    + destruct (AdditionalFields o !! StateKey b) as [w|]; [|by rewrite lookup_insert_eq in H].
      destruct w; by rewrite lookup_insert_eq in H; simplify_eq.
    + by rewrite lookup_insert_eq in H.
  - assert (H' : f !! k = Some (GBool v)).
    { revert H. repeat case_match; by rewrite ?lookup_insert_ne. }
    apply (IH flags); [by destruct Hin|done|exact H'].
Qed.

(** The state that the page is sent for a home button is Home Assistant's, from a
    connected poll in the direct mode; otherwise it is not known. *)
Theorem button_states_known (c : Commander) (h : Home) (o : Overlay) (masked : gmap string gval) (version latest k : string)
    (buttons : list Button) (v : bool) :
  let payload := buildPayload c (Some h) o masked version latest in
  UI payload !! "home_buttons" = Some (UIButtons buttons) -> k ∈ StateKey <$> buttons -> IsMQTTOwnedKey k = false ->
  Flags payload !! k = Some (GBool v) ->
  HomeDirect h = true ∧ HADirectConnected o = true ∧ AdditionalFields o !! k = Some (GBool v).
Proof.
  intros payload Hb Hk Ho. subst payload. rewrite flags_of. revert Hb. unfold buildPayload.
  destruct (mergeStates _ _ _) as [p b]. simpl. rewrite lookup_insert_ne by done. intros Hb.
  unfold mergeHomeButtonStates. rewrite Hb. intros H. apply button_known in H as (D & C & A); [|done..].
  unfold used_overlay in *. simpl in *. by rewrite D in *.
Qed.
End payload.

(** ** A concrete payload *)

Definition lamp_button : Button := MkButton "home-lamp" "LAMP" "switch.lamp" "home_lamp" 1.
Definition sample_home : Home :=
  MkHome true ["home_lamp"] (GetUIConfig (MkConfig true true ∅ [lamp_button] ∅ ∅ None)) [] true None.
Definition sample_commander : Commander :=
  MkCommander {["g1" := GInt 100; "booleans" := GObject [("no_feed", GBool false)]]} [] true
    (TransportStatus false false true None 0) true false (λ _, false).
Definition hostile_overlay (up : bool) : Overlay :=
  MkOverlay {["no_feed" := true]} up {["home_lamp" := GBool true; "g1" := GInt 5; "booleans" := GNil]}.
Definition all_entries V (m : gmap string V) : list (string * V) := map_to_list m.
Definition sample_payload (up : bool) : Payload :=
  buildPayload all_entries sample_commander (Some sample_home) (hostile_overlay up) ∅ "1" "".

Example payload_sample :
  Fields (sample_payload true) !! "g1" = Some (GInt 100) ∧ Flags (sample_payload true) !! "no_feed" = Some (GBool false) ∧
  Flags (sample_payload true) !! "home_lamp" = Some (GBool true) ∧ Flags (sample_payload false) !! "home_lamp" = Some GNil ∧
  Fields (sample_payload false) !! "home_lamp" = Some (GBool false) ∧
  Fields (sample_payload true) !! "native_connected" = Some (GBool true).
Proof. vm_compute. done. Qed.

Lemma home_cannot_override_witness :
  (IsMQTTOwnedKey "g1" = true -> "g1" ∉ (server_fields sample_commander (Some sample_home) "1" "").*1 -> "g1" ≠ "booleans" ->
   "g1" ≠ "ui_config" -> Fields (sample_payload true) !! "g1" = StateFields sample_commander !! "g1") ∧
  (IsMQTTOwnedKey "g1" = true ->
   Flags (sample_payload true) !! "g1" = members (StateFields sample_commander !! "booleans") !! "g1") ∧
  ("g1" ∉ ui_keys -> UI (sample_payload true) !! "g1" = UIJson <$> members (StateFields sample_commander !! "ui_config") !! "g1").
Proof.
  apply (home_cannot_override all_entries sample_commander (Some sample_home) (hostile_overlay true) ∅ "1" "" "g1").
  intros h [= <-]. repeat constructor.
Defined.

Lemma lost_home_leaves_nothing_witness :
  Fields (sample_payload false) !! "home_lamp" =
  if decide ("home_lamp" ∈ used_keys (Some sample_home) ∧ IsMQTTOwnedKey "home_lamp" = false) then Some (GBool false)
  else StateFields sample_commander !! "home_lamp".
Proof.
  apply (lost_home_leaves_nothing all_entries sample_commander (Some sample_home) (hostile_overlay false) ∅ "1" "" "home_lamp");
    [right; reflexivity|apply (bool_decide_unpack _); vm_compute; exact I|discriminate..].
Defined.

Lemma button_states_known_witness :
  HomeDirect sample_home = true ∧ HADirectConnected (hostile_overlay true) = true ∧
  AdditionalFields (hostile_overlay true) !! "home_lamp" = Some (GBool true).
Proof.
  apply (button_states_known all_entries sample_commander sample_home (hostile_overlay true) ∅ "1" "" "home_lamp" [lamp_button] true).
  - vm_compute. reflexivity.
  - left.
  - reflexivity.
  - vm_compute. reflexivity.
Defined.
