(* ===== verification/Access.v ===== *)
(** * Who may ask

    [internal/auth/auth.go] and [origin.go]: the secret of the dashboard and the
    origin of requests; [internal/httpendpoint/url.go] and the credentials of
    Home Assistant's client: which endpoint the server's own requests go to.  The
    parts of a request are what [net/http] parsed; [url.Parse], [URL.String] and
    [strings.EqualFold], which needs the tables of Unicode, are parameters. *)

From Stdlib Require Import ZArith Ascii String Lia.
From stdpp Require Import base list option strings.
From S2P Require Import Prelude JsValue Utf8 NativeLeaves CerboLeaves OverlayState PushTransport.

#[local] Open Scope string_scope.
#[local] Open Scope list_scope.
#[local] Open Scope Z_scope.

(** ** Requests *)

Record Request := MkRequest {
  URLPath : string;
  Authorization : string;
  QueryToken : string;
  SecFetchSite : string;
  Origins : list string;
  HostHeader : string
}.

(** ** The secret *)

Inductive checkResult : Type := checkOK | checkMissing | checkInvalid.

(** The secret that a request gives: the bearer token, or the query's. *)
Definition given (r : Request) : option string :=
  if String.prefix "Bearer " (Authorization r) then Some (TrimSpace (TrimPrefix "Bearer " (Authorization r)))
  else if negb (String.eqb (QueryToken r) "") then Some (QueryToken r)
  else None.

Definition check (r : Request) (secret : string) : checkResult :=
  match given r with
  | None => checkMissing
  | Some t => if String.eqb t secret then checkOK else checkInvalid
  end.

Definition open_paths : list string :=
  ["/notifications-sw.js"; "/manifest.webmanifest"; "/notification-icon.svg"; "/health"; "/metrics"; "/assets"].

Definition open_path (path : string) : bool :=
  existsb (String.eqb path) open_paths || String.prefix "/assets/" path.

(** What [Middleware] does with a request: the next handler, or the status of an
    error. *)
Inductive verdict : Type := Next | Error (status : Z).

Definition Middleware (secret : string) (r : Request) : verdict :=
  if String.eqb secret "" then Next
  else if open_path (URLPath r) then Next
  else match check r secret with
       | checkOK => Next
       | checkMissing => Error 401
       | checkInvalid => Error 403
       end.

(** With a secret configured, a request outside of the open paths gets through
    exactly when the secret it gives is the whole secret: a bearer token goes
    before a token of the query, white space around it does not count. *)
Theorem secret_guards (secret : string) (r : Request) :
  secret ≠ "" -> open_path (URLPath r) = false ->
  Middleware secret r = Next ↔ given r = Some secret.
Proof.
  intros Hs Hp. unfold Middleware. apply String.eqb_neq in Hs. rewrite Hs, Hp. unfold check.
  destruct (given r) as [t|]; [|done]. destruct (String.eqb_spec t secret) as [->|Hne]; [done|].
  split; [done|]. by intros [= ->].
Qed.

(** ** The origin *)

Section origin.
Variable Parse : string -> option URL.
Variable EqualFold : string -> string -> bool.
(** [RawQuery] of a parsed address. *)
Variable RawQuery : URL -> string.

Definition effectivePort (u : URL) : string :=
  if negb (String.eqb (Port u) "") then Port u else if String.eqb (Scheme u) "https" then "443" else "80".

(** A parsed address with nothing but a host. *)
Definition bare (u : URL) : bool :=
  negb (has_user u) && negb (String.eqb (Host u) "") && String.eqb (Path u) "" && String.eqb (RawQuery u) "" &&
  String.eqb (Fragment u) "".

Definition web_scheme (s : string) : bool := String.eqb s "http" || String.eqb s "https".

Definition SameOrigin (r : Request) : bool :=
  if negb (existsb (String.eqb (SecFetchSite r)) [""; "same-origin"; "none"]) then false
  else match Origins r with
       | [] => true
       | [text] =>
           match Parse text with
           | Some origin =>
               if web_scheme (Scheme origin) && bare origin then
                 match Parse (Scheme origin +:+ "://" +:+ HostHeader r) with
                 | Some target =>
                     bare target && EqualFold (Hostname origin) (Hostname target) &&
                     String.eqb (effectivePort origin) (effectivePort target)
                 | None => false
                 end
               else false
           | None => false
           end
       | _ => false
       end.

(** An address as a browser writes an origin. *)
Definition origin_text (scheme host : string) : string := scheme +:+ "://" +:+ host.

(** A host with or without a port, without escapes or delimiters. *)
Definition plain_char (c : ascii) : bool :=
  existsb (λ r : Z * Z, between r.1 r.2 (byte_of c)) [(45, 46); (48, 58); (65, 91); (93, 93); (97, 122)].
Definition plain_host (host : string) : bool := forallb plain_char (list_ascii_of_string host).

(** [url.Parse] of a scheme and such a host takes them apart. *)
Definition parses_origins : Prop :=
  ∀ scheme host u, web_scheme scheme = true -> plain_host host = true -> Parse (origin_text scheme host) = Some u ->
    Scheme u = scheme ∧ Host u = host.

(** A page that a browser loaded from one origin cannot use the dashboard at
    another: a request with an [Origin] header is accepted only when this is the
    one header, and its host and port, or the standard port of its scheme, are
    those of the request's own host. *)
Theorem cross_origin_refused (r : Request) (scheme host : string) (more : list string) :
  parses_origins -> web_scheme scheme = true -> plain_host host = true -> plain_host (HostHeader r) = true ->
  Origins r = origin_text scheme host :: more -> SameOrigin r = true ->
  more = [] ∧ existsb (String.eqb (SecFetchSite r)) [""; "same-origin"; "none"] = true ∧
  EqualFold (fst (split_url_host host)) (fst (split_url_host (HostHeader r))) = true ∧
  (let port h := if negb (String.eqb (snd (split_url_host h)) "") then snd (split_url_host h)
                 else if String.eqb scheme "https" then "443" else "80" in
   port host = port (HostHeader r)).
Proof.
  intros HP Hs Hh Hr Ho H. unfold SameOrigin in H. destruct (negb (existsb _ _)) eqn:Sec; [done|]. apply negb_false_iff in Sec.
  rewrite Ho in H. destruct more as [|]; [|done]. destruct (Parse (origin_text scheme host)) as [u|] eqn:Pu; [|done].
  destruct (web_scheme (Scheme u)); [|done]. destruct (bare u) eqn:Bu; [|done]. cbn [andb] in H.
  destruct (HP scheme host u Hs Hh Pu) as [Es Eh]. rewrite Es in H.
  destruct (Parse (scheme +:+ "://" +:+ HostHeader r)) as [t|] eqn:Pt; [|done]. bool_hyps.
  destruct (HP scheme (HostHeader r) t Hs Hr Pt) as [Et Eht].
  split; [done|]. split; [done|]. unfold Hostname, effectivePort, Port in *. rewrite Eh, Eht in *. split; [done|].
  rewrite Es, Et in *. done.
Qed.
End origin.

(** ** Endpoints *)

Fixpoint trim_slashes (s : string) : string :=
  match s with
  | "" => ""
  | String c s' => match trim_slashes s' with
                   | "" => if Ascii.eqb c "/" then "" else String c ""
                   | t => String c t
                   end
  end.

Section endpoint.
Variable Parse : string -> option URL.
Variable Render : URL -> string.
Variable RawQuery : URL -> string.
Variable ForceQuery : URL -> bool.

Definition Normalize (raw : string) : option string :=
  u ← Parse (TrimSpace raw);
  if negb (web_scheme (Scheme u)) || String.eqb (Hostname u) "" || negb (String.eqb (Opaque u) "") then None
  else if has_user u || negb (String.eqb (RawQuery u) "") || ForceQuery u || contains "#" raw then None
  else
    let port_ok :=
      if negb (String.eqb (Port u) "") then
        match Atoi (Port u) with Some n => (1 <=? n) && (n <=? 65535) | None => false end
      else negb (is_suffix ":" (Host u)) in
    if port_ok then Some (trim_slashes (Render u)) else None.

(** [normalizeURL] of the gateway's client. *)
Definition normalizeURL (raw : string) : option string :=
  endpoint ← Normalize raw; if String.prefix "https://" endpoint then Some endpoint else None.

(** The part of Home Assistant's client that names its target. *)
Record Credentials := MkCredentials { httpURL : string; token : string; configured : bool }.

Definition placeholder_token : string := "REPLACE_WITH_LONG_LIVED_ACCESS_TOKEN".

Definition validateConfig (c : Credentials) : Credentials :=
  if String.eqb (httpURL c) "" || String.eqb (token c) "" || String.eqb (token c) placeholder_token
  then MkCredentials (httpURL c) (token c) false
  else match Normalize (httpURL c) with
       | Some endpoint => MkCredentials endpoint (token c) true
       | None => MkCredentials (httpURL c) (token c) false
       end.

(** The client afterwards, and whether there was no error. *)
Definition OverrideCredentials (rawURL tok : string) (c : Credentials) : Credentials * bool :=
  let trusted :=
    match Normalize rawURL, Normalize (httpURL c) with Some a, Some b => String.eqb a b | _, _ => false end in
  if negb (String.eqb rawURL "") && negb trusted then (c, false)
  else (validateConfig (MkCredentials (httpURL c) (if String.eqb tok "" then token c else tok) (configured c)), true).

(** Settings can replace the token, but they never choose where it is sent: the
    target stays the configured one, in its normal form once it is in use, and
    settings that name another endpoint change nothing. *)
Theorem settings_keep_target (rawURL tok : string) (c c' : Credentials) (ok : bool) :
  OverrideCredentials rawURL tok c = (c', ok) ->
  (httpURL c' = httpURL c ∨ Normalize (httpURL c) = Some (httpURL c')) ∧
  (configured c' = true -> ok = true -> Normalize (httpURL c) = Some (httpURL c') ∧ token c' ≠ "") ∧
  (ok = false -> c' = c) ∧
  (ok = true -> rawURL ≠ "" -> ∃ endpoint, Normalize rawURL = Some endpoint ∧ Normalize (httpURL c) = Some endpoint).
Proof.
  unfold OverrideCredentials. destruct (negb (String.eqb rawURL "") && _) eqn:E.
  { intros [= <- <-]. split; [by left|]. done. }
  intros [= <- <-]. unfold validateConfig. cbn [httpURL token].
  set (t := if String.eqb tok "" then token c else tok).
  destruct (String.eqb (httpURL c) "" || String.eqb t "" || _) eqn:G.
  - split; [by left|]. split; [done|]. split; [done|]. intros _ Hr. apply String.eqb_neq in Hr. rewrite Hr in E. cbn [negb andb] in E.
    destruct (Normalize rawURL) as [a|]; [|done]. destruct (Normalize (httpURL c)) as [b|]; [|done].
    bool_hyps. subst b. by exists a.
  - bool_hyps. destruct (Normalize (httpURL c)) as [b|]; cbn [httpURL token configured].
    + split; [by right|]. split; [done|]. split; [done|]. intros _ Hr. apply String.eqb_neq in Hr. rewrite Hr in E. cbn [negb andb] in E.
      destruct (Normalize rawURL) as [a|]; [|done]. bool_hyps. subst b. by exists a.
    + split; [by left|]. split; [done|]. split; [done|]. intros _ Hr. apply String.eqb_neq in Hr. rewrite Hr in E. cbn [negb andb] in E.
      by destruct (Normalize rawURL).
Qed.
End endpoint.

(** ** Concrete requests *)

Definition page_request (origins : list string) : Request := MkRequest "/api/settings" "Bearer s3cret " "" "" origins "dash.local:8080".

Lemma secret_guards_witness : Middleware "s3cret" (page_request []) = Next ↔ given (page_request []) = Some "s3cret".
Proof. apply (secret_guards "s3cret" (page_request [])); [discriminate|reflexivity]. Defined.

(** A parser of plain origins. *)
Definition plain_origin (text : string) : option URL :=
  if String.prefix "https://" text then Some (MkURL "https" "" false (drop_string 8 text) "" "")
  else if String.prefix "http://" text then Some (MkURL "http" "" false (drop_string 7 text) "" "")
  else None.

Lemma plain_parses : parses_origins plain_origin.
Proof.
  intros scheme host u Hs _ Hu. unfold web_scheme in Hs. apply orb_true_iff in Hs as [->%String.eqb_eq| ->%String.eqb_eq].
  - change (origin_text "http" host) with ("http://" +:+ host) in Hu. unfold plain_origin in Hu.
    change (String.prefix "https://" ("http://" +:+ host)) with false in Hu. rewrite prefix_append in Hu.
    injection Hu as <-. split; [done|]. exact (drop_append "http://" host).
  - change (origin_text "https" host) with ("https://" +:+ host) in Hu. unfold plain_origin in Hu. rewrite prefix_append in Hu.
    injection Hu as <-. split; [done|]. exact (drop_append "https://" host).
Qed.

Example origins :
  SameOrigin plain_origin String.eqb (λ _, "") (page_request ["https://dash.local:8080"]) = true ∧
  SameOrigin plain_origin String.eqb (λ _, "") (page_request ["https://dash.local"]) = false ∧
  SameOrigin plain_origin String.eqb (λ _, "") (page_request ["https://evil.example"]) = false ∧
  SameOrigin plain_origin String.eqb (λ _, "") (page_request []) = true.
Proof. vm_compute. done. Qed.

Lemma cross_origin_refused_witness :
  ([] : list string) = [] ∧ existsb (String.eqb (SecFetchSite (page_request ["http://dash.local:8080"]))) [""; "same-origin"; "none"] = true ∧
  String.eqb (fst (split_url_host "dash.local:8080")) (fst (split_url_host "dash.local:8080")) = true ∧
  (let port h := if negb (String.eqb (snd (split_url_host h)) "") then snd (split_url_host h)
                 else if String.eqb "http" "https" then "443" else "80" in
   port "dash.local:8080" = port "dash.local:8080").
Proof.
  apply (cross_origin_refused plain_origin String.eqb (λ _, "") (page_request ["http://dash.local:8080"]) "http" "dash.local:8080" []
           plain_parses).
  - reflexivity.
  - reflexivity.
  - reflexivity.
  - reflexivity.
  - vm_compute. reflexivity.
Defined.

Definition render_origin (u : URL) : string := Scheme u +:+ "://" +:+ Host u +:+ "/".
Definition no_query (_ : URL) : string := "".
Definition no_force (_ : URL) : bool := false.
Definition home_credentials : Credentials := MkCredentials "http://ha.local:8123" "old" true.

Lemma settings_keep_target_witness :
  let c' := MkCredentials "http://ha.local:8123" "new" true in
  let N := Normalize plain_origin render_origin no_query no_force in
  (httpURL c' = httpURL home_credentials ∨ N (httpURL home_credentials) = Some (httpURL c')) ∧
  (configured c' = true -> true = true -> N (httpURL home_credentials) = Some (httpURL c') ∧ token c' ≠ "") ∧
  (true = false -> c' = home_credentials) ∧
  (true = true -> " http://ha.local:8123" ≠ "" ->
   ∃ endpoint, N " http://ha.local:8123" = Some endpoint ∧ N (httpURL home_credentials) = Some endpoint).
Proof.
  apply (settings_keep_target plain_origin render_origin no_query no_force " http://ha.local:8123" "new" home_credentials).
  vm_compute. reflexivity.
Defined.
