(* ===== verification/GatewayBanners.v ===== *)
(** * Banners from a gateway snapshot

    [internal/gateway/map.go]: [parsePlatformSlots], [toNotification],
    [mapAlarmLeaves] and [mapNotifications], which rebuild from one snapshot the
    banners that [Notifications] maintains message by message, and the theorem
    that the two agree.  Both are compared with one abstract slot: what the
    latest leaves of a slot say. *)

From Stdlib Require Import ZArith Ascii String Lia.
From stdpp Require Import base list option strings gmap fin_maps sorting.
From S2P Require Import Prelude Float64 JsValue Utf8 ControllerCommands NativeLeaves Notifications.

#[local] Open Scope string_scope.
#[local] Open Scope list_scope.
#[local] Open Scope Z_scope.

(** ** Snapshots *)

(** A decoded service map in the order in which the language iterates over it. *)
Definition leafMap : Type := list (string * gval).

(** The assignment of one leaf in [parsePlatformSlots]: a nil value only makes
    the slot known. *)
Definition assign_leaf (field : string) (raw : gval) (ps : platformSlotState) : platformSlotState :=
  if String.eqb field "DateTime" then set_dateTime (NotificationTime raw) ps
  else if String.eqb field "Type" then
    match NativeNotificationLevel raw with
    | Some level => with_type level true (negb (is_text raw)) ps
    | None => ps
    end
  else if String.eqb field "Acknowledged" then
    match NativeNotificationBool raw with Some b => with_flags (active ps) b ps | None => ps end
  else if String.eqb field "Active" then
    match NativeNotificationBool raw with Some b => with_flags (Some b) (acknowledged ps) ps | None => ps end
  else match raw with GString str => set_text field (TrimSpace str) ps | _ => ps end.

(** The leaves that count. *)
Definition slot_leaf (e : string * gval) : option platformNotificationUpdate :=
  '(i, s, field) ← ParsePlatformNotificationKey e.1;
  if ValidPlatformNotificationValue field e.2 then Some (MkUpdate i s field e.2) else None.

Definition assign (u : platformNotificationUpdate) (byKey : gmap string platformSlotState)
  : gmap string platformSlotState :=
  let key := slot_key (u_inst u) (u_slot u) in
  <[key := assign_leaf (u_field u) (u_value u) (default (new_slot (u_inst u) (u_slot u)) (byKey !! key))]> byKey.

Definition byKey_of (m : leafMap) : gmap string platformSlotState :=
  foldl (λ byKey u, assign u byKey) ∅ (omap slot_leaf m).

Definition after_slot (a b : platformSlotState) : bool :=
  (inst b <? inst a) || ((inst a =? inst b) && (slot b <? slot a)).

Section gateway.
Variable iterate : gmap string platformSlotState -> list platformSlotState.

(** [parsePlatformSlots]: the slots in order, and whether there was a leaf. *)
Definition parsePlatformSlots (m : leafMap) : list platformSlotState * bool :=
  (stable_sort after_slot (iterate (byKey_of m)), negb (Nat.eqb (length (omap slot_leaf m)) 0)).

(** ** Alarms *)

(** [strconv.Atoi] succeeds. *)
Definition Atoi_ok (s : string) : bool :=
  let '(neg, s1) := take_sign s in
  let '(m, n, rest) := take_digits s1 0 0 in
  (0 <? n) && String.eqb rest "" && (m <? 2 ^ 63 + (if neg then 1 else 0)).

(** [prettyAlarmName]: the loop with the text built so far and [current]. *)
Definition flush (acc : string * string) : string * string :=
  let '(b, current) := acc in
  if String.eqb current "" then acc
  else (b +:+ (if String.eqb b "" then "" else " ") +:+ capitalize current, "").

Definition name_step (acc : string * string) (ch : Z) : string * string :=
  if is_upper ch && negb (String.eqb acc.2 "") && lastIsLower acc.2
  then ((flush acc).1, encode_rune ch)
  else if (ch =? 95) || (ch =? 45) || (ch =? 32) then flush acc
  else (acc.1, acc.2 +:+ encode_rune ch).

Definition gateway_prettyAlarmName (name : string) : string := (flush (foldl name_step ("", "") (runes name))).1.

Definition gateway_prettyServiceName (service : string) : string :=
  match cut_at "_" service with
  | (name, Some inst) =>
      if Atoi_ok inst then (if String.eqb name "" then service else capitalize name +:+ " " +:+ inst)
      else capitalize service
  | _ => capitalize service
  end.

(** [nativeAlarmPath]. *)
Definition nativeAlarmPath (key : string) : option (string * string) :=
  match split_on "/" key with
  | instance :: p1 :: (_ :: _ as rest) =>
      if negb (String.eqb p1 "Alarms") || String.eqb instance "" || existsb (String.eqb "") rest then None
      else Some (instance, default "" (last rest))
  | _ => None
  end.

Definition mapAlarmLeaf (svc : string) (e : string * gval) : option Notification :=
  '(i, name) ← nativeAlarmPath e.1;
  v ← NativeNotificationLevel e.2;
  if (v =? 1) || (v =? 2) then
    Some (MkNotification ("victron-" +:+ svc +:+ "/" +:+ e.1) (if v =? 2 then "alarm" else "warning")
            (gateway_prettyServiceName (svc +:+ "_" +:+ i))
            (gateway_prettyAlarmName name +:+ ": " +:+ (if v =? 2 then "Alarm" else "Warning"))
            "victron" "" false)
  else None.
Definition mapAlarmLeaves (svc : string) (m : leafMap) : list Notification := omap (mapAlarmLeaf svc) m.

(** [mapNotifications] on the platform, battery and vebus leaves. *)
Definition mapNotifications (platform battery vebus : leafMap) : list Notification :=
  let '(slots, platformSeen) := parsePlatformSlots platform in
  if platformSeen then omap toNotification slots
  else mapAlarmLeaves "battery" battery ++ mapAlarmLeaves "vebus" vebus.

(** ** One slot, abstractly *)

(** What a banner shows of a slot. *)
Record view := View {
  v_desc : string; v_device : string; v_service : string; v_time : string;
  v_type : option Z; v_known : bool; v_active : option bool; v_ack : bool }.

Definition view_of (ps : platformSlotState) : view :=
  View (description ps) (deviceName ps) (service ps) (dateTime ps)
       (if hasType ps then Some (notifType ps) else None) (pushTypeKnown ps) (active ps) (acknowledged ps).

(** The view of a slot whose leaves have these values. *)
Definition spec_view (look : string -> option gval) : view :=
  let text f := match look f with Some (GString t) => TrimSpace t | _ => "" end in
  let level := look "Type" ≫= NativeNotificationLevel in
  View (text "Description") (text "DeviceName") (text "Service")
       (match look "DateTime" with Some v => NotificationTime v | None => "" end)
       level
       (match level with Some _ => negb (is_text (default GNil (look "Type"))) | None => false end)
       (look "Active" ≫= NativeNotificationBool)
       (default false (look "Acknowledged" ≫= NativeNotificationBool)).

Definition upd (look : string -> option gval) (f : string) (v : gval) : string -> option gval :=
  λ g, if String.eqb g f then Some v else look g.

Lemma view_new i s : view_of (new_slot i s) = spec_view (λ _, None).
Proof. reflexivity. Qed.

Lemma view_banner ps ps' :
  bannerID ps = bannerID ps' -> view_of ps = view_of ps' -> toNotification ps = toNotification ps'.
Proof.
  unfold view_of, toNotification. intros -> [= -> -> -> -> Ht -> _ ->].
  destruct (hasType ps), (hasType ps'); try done. by injection Ht as ->.
Qed.

#[local] Arguments NativeNotificationLevel : simpl never.
#[local] Arguments NativeNotificationBool : simpl never.
#[local] Arguments NotificationTime : simpl never.
#[local] Arguments TrimSpace : simpl never.

Lemma level_valid v : ValidPlatformNotificationValue "Type" v = true -> v ≠ GNil ->
  ∃ l, NativeNotificationLevel v = Some l.
Proof. destruct v; intros H Hn; try done; simpl in H; destruct (NativeNotificationLevel _) eqn:E; try done; eauto. Qed.

Lemma flag_valid f v : f = "Acknowledged" ∨ f = "Active" ->
  ValidPlatformNotificationValue f v = true -> v ≠ GNil -> ∃ b, NativeNotificationBool v = Some b.
Proof.
  intros [-> | ->]; destruct v; intros H Hn; try done; simpl in H; destruct (NativeNotificationBool _) eqn:E; try done; eauto.
Qed.

Lemma text_valid f v : f = "Description" ∨ f = "DeviceName" ∨ f = "Service" ->
  ValidPlatformNotificationValue f v = true -> v ≠ GNil -> ∃ t, v = GString t.
Proof. intros [->|[->| ->]]; destruct v; intros H Hn; try done; eauto. Qed.

(** The eight cases of a field. *)
Lemma field_cases f : existsb (String.eqb f) slot_fields = true ->
  f = "DateTime" ∨ f = "Type" ∨ f = "Silenced" ∨ (f = "Acknowledged" ∨ f = "Active") ∨
  (f = "Description" ∨ f = "DeviceName" ∨ f = "Service").
Proof. intros H. apply existsb_exists in H as (g & Hg & <-%String.eqb_eq). simpl in Hg. intuition. Qed.

(** [setField] on a valid value, and clearing, do what the abstract slot does. *)
Lemma updateField_spec f v ps look :
  existsb (String.eqb f) slot_fields = true -> ValidPlatformNotificationValue f v = true ->
  view_of ps = spec_view look -> view_of (updateField f v ps) = spec_view (upd look f v).
Proof.
  intros Hf Hv Hview. unfold view_of, spec_view in Hview. injection Hview as H1 H2 H3 H4 H5 H6 H7 H8.
  assert (Hnil : v = GNil ∨ v ≠ GNil) by (destruct v; by (left + right)).
  unfold view_of, spec_view, upd. destruct Hnil as [->|Hn].
  - apply field_cases in Hf as [->|[->|[->|[[->| ->]|[->|[->| ->]]]]]]; simpl; by f_equal.
  - replace (updateField f v ps) with (setField f v ps) by (by destruct v).
    apply field_cases in Hf as [->|[->|[->|[Hf|Hf]]]].
    + simpl. by f_equal.
    + destruct (level_valid v Hv Hn) as [l Hl]. unfold setField, setType. simpl. rewrite Hl. simpl. by f_equal.
    + replace (setField "Silenced" v ps) with ps by (by destruct v). simpl. by f_equal.
    + destruct (flag_valid f v Hf Hv Hn) as [b Hb]. unfold setField.
      destruct Hf as [-> | ->]; simpl; rewrite Hb; simpl; by f_equal.
    + destruct (text_valid f v Hf Hv Hn) as [t ->].
      destruct Hf as [->|[->| ->]]; simpl; by f_equal.
Qed.

(** So does an assignment to a field that has no value yet. *)
Lemma assign_leaf_spec f v ps look :
  existsb (String.eqb f) slot_fields = true -> ValidPlatformNotificationValue f v = true ->
  look f = None ->
  view_of ps = spec_view look -> view_of (assign_leaf f v ps) = spec_view (upd look f v).
Proof.
  intros Hf Hv Hlook Hview.
  assert (Hnil : v = GNil ∨ v ≠ GNil) by (destruct v; by (left + right)). destruct Hnil as [->|Hn].
  - assert (Hl : spec_view (upd look f GNil) = spec_view look).
    { apply field_cases in Hf as [->|[->|[->|[[->| ->]|[->|[->| ->]]]]]];
        unfold spec_view, upd; simpl; rewrite ?Hlook; reflexivity. }
    rewrite Hl, <- Hview.
    apply field_cases in Hf as [->|[->|[->|[[->| ->]|[->|[->| ->]]]]]]; try reflexivity.
    unfold view_of, spec_view in *. injection Hview as H1 H2 H3 H4 H5 H6 H7 H8.
    rewrite Hlook in H4. simpl. by f_equal.
  - rewrite <- (updateField_spec f v ps look Hf Hv Hview). f_equal.
    replace (updateField f v ps) with (setField f v ps) by (by destruct v).
    unfold setField, assign_leaf. destruct (String.eqb f "DateTime"); [done|].
    destruct (String.eqb_spec f "Type") as [->|]; [|done]. unfold setType.
    by destruct (level_valid v Hv Hn) as [l ->].
Qed.

(** ** Maps of slots against the latest leaves *)

Definition key_of (u : platformNotificationUpdate) : string := slot_key (u_inst u) (u_slot u).
Definition name_of (u : platformNotificationUpdate) : string * string := (key_of u, u_field u).
#[local] Instance update_valid_dec u :
  Decision (existsb (String.eqb (u_field u)) slot_fields = true ∧
            ValidPlatformNotificationValue (u_field u) (u_value u) = true).
Proof. apply _. Defined.

(** The last value for a field of a slot. *)
Fixpoint latest (us : list platformNotificationUpdate) (key f : string) : option gval :=
  match us with
  | [] => None
  | u :: us' =>
      match latest us' key f with
      | Some v => Some v
      | None => if decide (name_of u = (key, f)) then Some (u_value u) else None
      end
  end.

Lemma latest_snoc us u key f :
  latest (us ++ [u]) key f = if decide (name_of u = (key, f)) then Some (u_value u) else latest us key f.
Proof.
  induction us as [|w us IH]; cbn [app latest]; [by case_decide|]. rewrite IH.
  destruct (decide (name_of u = (key, f))); done.
Qed.

(** The spec is a function of the values only. *)
Lemma spec_view_ext look look' : (∀ f, look f = look' f) -> spec_view look = spec_view look'.
Proof. intros H. unfold spec_view. by rewrite !H. Qed.

Definition matches (m : gmap string platformSlotState) (look : string -> string -> option gval) : Prop :=
  ∀ key, match m !! key with
         | None => ∀ f, look key f = None
         | Some ps => slot_key (inst ps) (slot ps) = key ∧ (∃ f, is_Some (look key f)) ∧
                      view_of ps = spec_view (look key)
         end.

Definition good (u : platformNotificationUpdate) : Prop :=
  existsb (String.eqb (u_field u)) slot_fields = true ∧
  ValidPlatformNotificationValue (u_field u) (u_value u) = true.

Lemma matches_insert m us u ps' :
  matches m (latest us) ->
  let ps := default (new_slot (u_inst u) (u_slot u)) (m !! key_of u) in
  (view_of ps = spec_view (latest us (key_of u)) ->
   view_of ps' = spec_view (upd (latest us (key_of u)) (u_field u) (u_value u))) ->
  slot_key (inst ps') (slot ps') = slot_key (inst ps) (slot ps) ->
  matches (<[key_of u := ps']> m) (latest (us ++ [u])).
Proof.
  intros Hm ps Hview Hkey key. rewrite lookup_insert. destruct (decide (key_of u = key)) as [<-|Hne].
  - specialize (Hm (key_of u)). subst ps. split; [|split].
    + rewrite Hkey. destruct (m !! key_of u); [apply Hm|done].
    + exists (u_field u). rewrite latest_snoc. by rewrite decide_True.
    + rewrite Hview.
      * apply spec_view_ext. intros f. rewrite latest_snoc. unfold upd.
        destruct (String.eqb_spec f (u_field u)) as [->|Hf]; [by rewrite decide_True|].
        rewrite decide_False; [done|]. unfold name_of. congruence.
      * destruct (m !! key_of u); [apply Hm|]. cbn [default]. rewrite view_new.
        apply spec_view_ext. intros f. by rewrite Hm.
  - specialize (Hm key).
    assert (Hl : ∀ f, latest (us ++ [u]) key f = latest us key f).
    { intros f. rewrite latest_snoc, decide_False; [done|]. unfold name_of. congruence. }
    destruct (m !! key) as [p|]; [|intros f; by rewrite Hl].
    destruct Hm as (H1 & (f & H2) & H3). split; [done|]. split; [exists f; by rewrite Hl|].
    rewrite H3. apply spec_view_ext. intros g. by rewrite Hl.
Qed.

(** Message by message. *)
Lemma updates_match us : Forall good us ->
  matches (foldl (λ m u, updated_slots u m) ∅ us) (latest us).
Proof.
  induction us as [|u us IH] using rev_ind; intros Hg; [intros key; cbn [foldl]; by rewrite lookup_empty|].
  apply Forall_app in Hg as [Hg [Hf Hv]%Forall_singleton]. rewrite foldl_app. cbn [foldl]. unfold updated_slots at 1.
  apply (matches_insert _ us u); [by apply IH| |].
  - by apply updateField_spec.
  - match goal with |- context [updateField ?f ?v ?ps] => destruct (updateField_slot f v ps) as [-> ->] end. done.
Qed.

Lemma assign_leaf_slot f v ps : inst (assign_leaf f v ps) = inst ps ∧ slot (assign_leaf f v ps) = slot ps.
Proof. unfold assign_leaf, set_dateTime, set_text. repeat case_match; done. Qed.

Lemma latest_None us key f : (key, f) ∉ (name_of <$> us) -> latest us key f = None.
Proof.
  induction us as [|u us IH]; intros H; [done|]. cbn [latest].
  rewrite IH by (intros Hin; apply H; by right). apply decide_False. intros E. apply H. rewrite <- E. left.
Qed.

(** The leaves of a snapshot, each slot field once. *)
Lemma leaves_match us : Forall good us -> NoDup (name_of <$> us) ->
  matches (foldl (λ byKey u, assign u byKey) ∅ us) (latest us).
Proof.
  induction us as [|u us IH] using rev_ind; intros Hg Hnd; [intros key; cbn [foldl]; by rewrite lookup_empty|].
  apply Forall_app in Hg as [Hg [Hf Hv]%Forall_singleton]. rewrite fmap_app in Hnd.
  apply NoDup_app in Hnd as (Hnd & Hnew & _). rewrite foldl_app. cbn [foldl]. unfold assign at 1.
  apply (matches_insert _ us u); [by apply IH| |].
  - apply assign_leaf_spec; [done|done|]. apply latest_None. intros Hin. apply (Hnew _ Hin). left.
  - match goal with |- context [assign_leaf ?f ?v ?ps] => destruct (assign_leaf_slot f v ps) as [-> ->] end. done.
Qed.

(** Two maps of slots that say the same show the same banners. *)
Lemma matches_banners m m' look look' :
  matches m look -> matches m' look' -> (∀ key f, look key f = look' key f) ->
  toNotification <$> m = toNotification <$> m'.
Proof.
  intros Hm Hm' Hl. apply map_eq. intros key. rewrite !lookup_fmap. specialize (Hm key). specialize (Hm' key).
  destruct (m !! key) as [ps|], (m' !! key) as [ps'|]; cbn [fmap option_fmap].
  - destruct Hm as (H1 & _ & H3), Hm' as (H1' & _ & H3'). apply (f_equal Some), view_banner.
    + unfold bannerID. by rewrite H1, H1'.
    + rewrite H3, H3'. apply spec_view_ext. intros f. apply Hl.
  - destruct Hm as (_ & (f & [v Hf]) & _). rewrite Hl, Hm' in Hf. done.
  - destruct Hm' as (_ & (f & [v Hf]) & _). rewrite <- Hl, Hm in Hf. done.
  - done.
Qed.

Hypothesis iterate_perm : ∀ m, iterate m ≡ₚ (map_to_list m).*2.

Lemma omap_values (m : gmap string platformSlotState) :
  omap toNotification (iterate m) ≡ₚ omap (λ e : string * option Notification, e.2) (map_to_list (toNotification <$> m)).
Proof.
  rewrite (iterate_perm m), map_to_list_fmap. apply Permutation_refl'.
  induction (map_to_list m) as [|[key ps] l IH]; [done|]. simpl.
  destruct (toNotification ps); [by apply (f_equal (cons _))|exact IH].
Qed.

Lemma same_banners m m' : toNotification <$> m = toNotification <$> m' ->
  omap toNotification (iterate m) ≡ₚ omap toNotification (iterate m').
Proof. intros E. by rewrite !omap_values, E. Qed.

(** ** Topics and leaf names *)

Lemma concat_split sep s : String.concat (String sep "") (split_on sep s) = s.
Proof.
  induction s as [|c s IH]; [done|]. cbn [split_on].
  pose proof (split_on_nonempty sep s). destruct (split_on sep s) as [|w ws]; [done|].
  destruct (Ascii.eqb_spec c sep) as [->|].
  - change (String.concat (String sep "") ("" :: w :: ws)) with (String sep (String.concat (String sep "") (w :: ws))).
    by rewrite IH.
  - rewrite <- IH. by destruct ws.
Qed.

(** A text of runes below 128 is its bytes. *)
Lemma first_rune c s : ∃ r rest, runes (String c s) = r :: rest ∧
  (byte_of c < 128 -> r = byte_of c ∧ rest = runes s) ∧ (128 <= byte_of c -> 128 <= r).
Proof.
  unfold runes. cbn [scan]. destruct (Z.ltb_spec (byte_of c) 128) as [H|H].
  { exists (byte_of c), (scan s).*1. split; [done|]. split; [done|lia]. }
  assert (Hbad : ∃ r rest, ((RUNE_ERROR, false) :: scan s).*1 = r :: rest ∧
            (byte_of c < 128 -> r = byte_of c ∧ rest = (scan s).*1) ∧ (128 <= byte_of c -> 128 <= r)).
  { exists RUNE_ERROR, (scan s).*1. split; [done|]. split; [intros; exfalso; lia|]. unfold RUNE_ERROR. lia. }
  destruct (between 194 223 (byte_of c)) eqn:E2; betweens.
  { destruct s as [|c1 s2]; [exact Hbad|]. destruct (is_cont c1) eqn:E; [|exact Hbad].
    unfold is_cont in E. betweens. eexists _, _. split; [reflexivity|]. split; [intros; exfalso; lia|intros _; cbn [fst]; lia]. }
  destruct (between 224 239 (byte_of c)) eqn:E3; betweens.
  { destruct s as [|c1 [|c2 s3]]; [exact Hbad|exact Hbad|].
    destruct (second_of_three _ _ && is_cont c2) eqn:E; [|exact Hbad].
    apply andb_true_iff in E as [E%second_of_three_spec E']. unfold is_cont in E'. betweens.
    eexists _, _. split; [reflexivity|]. split; [intros; exfalso; lia|]. intros _. cbn [fst].
    destruct (Z.eq_dec (byte_of c) 224); lia. }
  destruct (between 240 244 (byte_of c)) eqn:E4; betweens; [|exact Hbad].
  destruct s as [|c1 [|c2 [|c3 s4]]]; [exact Hbad|exact Hbad|exact Hbad|].
  destruct (second_of_four _ _ && is_cont c2 && is_cont c3) eqn:E; [|exact Hbad].
  apply andb_true_iff in E as [[E%second_of_four_spec E']%andb_true_iff E'']. unfold is_cont in E', E''. betweens.
  eexists _, _. split; [reflexivity|]. split; [intros; exfalso; lia|]. intros _. cbn [fst]. destruct (Z.eq_dec (byte_of c) 240); lia.
Qed.

Lemma portal_no_slash portal : validPortal portal = true -> split_on "/" portal = [portal].
Proof.
  unfold validPortal. intros [_ H]%andb_true_iff. induction portal as [|c s IH]; [done|].
  destruct (first_rune c s) as (r & rest & E & Hlo & Hhi). rewrite E in H. cbn [forallb] in H.
  apply andb_true_iff in H as [Hr H].
  assert (Hb : r < 128 ∧ r ≠ 47) by (unfold between in Hr; bool_cases; lia).
  destruct (Z.lt_ge_cases (byte_of c) 128) as [Hc|Hc]; [|specialize (Hhi Hc); lia].
  destruct (Hlo Hc) as [-> ->]. cbn [split_on]. rewrite IH by done.
  destruct (Ascii.eqb_spec c "/") as [->|]; [|done]. by destruct Hb as [_ []].
Qed.

Definition leaf_topic (portal leaf : string) : string := "N/" +:+ portal +:+ "/platform/" +:+ leaf.

Lemma decode_leaf portal leaf v : validPortal portal = true ->
  decodePlatformNotification (leaf_topic portal leaf) (Fields [("value", v)]) = slot_leaf (leaf, v).
Proof.
  intros Hp. unfold decodePlatformNotification, leaf_topic.
  change ("N/" +:+ portal +:+ "/platform/" +:+ leaf)
    with ("N" +:+ String "/" (portal +:+ String "/" ("platform" +:+ String "/" leaf))).
  rewrite !split_on_app, (portal_no_slash portal Hp).
  change (split_on "/" "N") with ["N"]. change (split_on "/" "platform") with ["platform"]. cbn [app].
  pose proof (concat_split "/" leaf) as Hc. unfold slot_leaf, ParsePlatformNotificationKey. cbn [fst snd].
  destruct (split_on "/" leaf) as [|p3 [|p4 [|p5 [|p6 [|p7 ps]]]]] eqn:Es; try done.
  rewrite Hp. cbn [negb orb String.eqb]. destruct (String.eqb_spec p4 "Notifications") as [->|]; [|done].
  change (String "/" "") with "/" in Hc. rewrite Hc, Es. cbn [orb negb String.eqb]. done.
Qed.

(** The slot field that a leaf name means. *)
Definition leaf_name (leaf : string) : option (string * string) :=
  '(i, s, field) ← ParsePlatformNotificationKey leaf; Some (slot_key i s, field).

Lemma slot_leaf_spec e u : slot_leaf e = Some u ->
  leaf_name e.1 = Some (name_of u) ∧ u_value u = e.2 ∧ good u.
Proof.
  unfold slot_leaf, leaf_name, name_of, key_of, good.
  destruct (ParsePlatformNotificationKey e.1) as [[[i s] f]|] eqn:Ep; cbn; [|done].
  destruct (ValidPlatformNotificationValue f e.2) eqn:Ev; [|done]. intros [= <-]. cbn.
  split; [done|]. split; [done|]. split; [|done].
  unfold ParsePlatformNotificationKey in Ep.
  destruct (split_on "/" e.1) as [|p0 [|p1 [|p2 [|p3 []]]]]; try done. destruct (negb _); [done|].
  apply bind_Some in Ep as (? & _ & Ep). apply bind_Some in Ep as (? & _ & Ep).
  destruct (20 <? _); [done|]. destruct (existsb (String.eqb p3) slot_fields) eqn:Ef; [|done]. by simplify_eq.
Qed.

(** Leaves that count, no two of which name the same field. *)
Record proper (l : list (string * gval)) : Prop := {
  proper_leaf e : e ∈ l -> is_Some (slot_leaf e);
  proper_names k k' : k ∈ l.*1 -> k' ∈ l.*1 -> leaf_name k = leaf_name k' -> k = k'
}.

Lemma proper_sub l l' : (∀ e, e ∈ l -> e ∈ l') -> proper l' -> proper l.
Proof.
  intros Hsub [H1 H2]. split; [by intros e He; apply H1, Hsub|].
  assert (Hk : ∀ k, k ∈ l.*1 -> k ∈ l'.*1).
  { intros k Hk. apply list_elem_of_fmap in Hk as (e & -> & He). by apply list_elem_of_fmap_2, Hsub. }
  intros k k' Hin Hin'. by apply H2; apply Hk.
Qed.

Lemma set_props_snoc {V} (l : list (string * V)) e : set_props [] (l ++ [e]) = set_prop e.1 e.2 (set_props [] l).
Proof. unfold set_props. by rewrite foldl_app. Qed.

Lemma set_props_last {V} (l : list (string * V)) e : e ∈ set_props [] l -> e ∈ l.
Proof.
  assert (H : ∀ k v, assoc k (set_props [] l) = Some v -> (k, v) ∈ l).
  { induction l as [|[k1 v1] l IH] using rev_ind; [done|]. intros k v. rewrite set_props_snoc, assoc_set_prop.
    cbn [fst snd]. intros Ha. apply elem_of_app. destruct (String.eqb_spec k k1) as [->|].
    - right. simplify_eq. by left.
    - left. by apply IH. }
  destruct e as [k v]. intros He. apply H, elem_assoc; [|done]. apply set_props_NoDup. by apply NoDup_nil_2.
Qed.

Lemma latest_assoc l key f v : proper l ->
  latest (omap slot_leaf l) key f = Some v ↔
  ∃ k, leaf_name k = Some (key, f) ∧ assoc k (set_props [] l) = Some v.
Proof.
  revert v. induction l as [|[k0 v0] l IH] using rev_ind; intros v Hp.
  { split; [done|]. by intros (k & _ & H). }
  assert (Hl : proper l) by (apply (proper_sub _ _ (λ e He, proj2 (elem_of_app _ _ _) (or_introl He)) Hp)).
  destruct Hp as [H1 H2]. destruct (H1 (k0, v0)) as [u Hu]; [apply elem_of_app; right; by left|].
  destruct (slot_leaf_spec _ _ Hu) as (Hname & Hval & _). cbn [fst snd] in *.
  rewrite omap_app. cbn [omap list_omap]. rewrite Hu, latest_snoc, Hval. setoid_rewrite set_props_snoc.
  cbn [fst snd]. setoid_rewrite assoc_set_prop.
  destruct (decide (name_of u = (key, f))) as [E|E].
  - rewrite E in Hname. split.
    + intros [= <-]. exists k0. by rewrite String.eqb_refl.
    + intros (k & Hk & Ha). destruct (String.eqb_spec k k0) as [->|Hne]; [done|]. destruct Hne.
      apply H2; [| |congruence]; rewrite fmap_app; apply elem_of_app; [left|right; by left].
      apply assoc_elem, set_props_last in Ha. by apply (list_elem_of_fmap_2 fst _ _ Ha).
  - rewrite IH by done. split; intros (k & Hk & Ha); exists k; (split; [done|]).
    + destruct (String.eqb_spec k k0) as [->|]; [congruence|done].
    + destruct (String.eqb_spec k k0) as [->|]; [congruence|done].
Qed.

Lemma latest_snapshot l l' key f : proper l -> l' ≡ₚ set_props [] l ->
  latest (omap slot_leaf l) key f = latest (omap slot_leaf l') key f.
Proof.
  intros Hp HP. assert (Hnd : NoDup (set_props [] l).*1) by (apply set_props_NoDup; by apply NoDup_nil_2).
  assert (Hnd' : NoDup l'.*1) by by rewrite HP.
  assert (Hp' : proper l').
  { apply (proper_sub l' l); [|done]. intros e He. apply set_props_last. by rewrite <- HP. }
  apply option_eq. intros v. rewrite !latest_assoc by done.
  apply exist_proper. intros k. apply and_iff_compat_l.
  rewrite (assoc_set_props k [] l') by done. cbn [assoc].
  rewrite (assoc_perm k (set_props [] l) l') by done. by destruct (assoc k l').
Qed.

Lemma proper_NoDup l : proper l -> NoDup l.*1 -> NoDup (name_of <$> omap slot_leaf l).
Proof.
  induction l as [|[k v] l IH]; intros Hp Hnd; [by apply NoDup_nil_2|].
  cbn [fmap list_fmap] in Hnd. apply NoDup_cons in Hnd as [Hk Hnd].
  assert (Hl : proper l) by (apply (proper_sub _ _ (λ e He, proj2 (elem_of_cons _ _ _) (or_intror He)) Hp)).
  destruct Hp as [H1 H2]. destruct (H1 (k, v)) as [u Hu]; [by left|]. cbn [omap list_omap]. rewrite Hu.
  cbn [fmap list_fmap]. apply NoDup_cons. split; [|by apply IH]. intros Hin.
  apply list_elem_of_fmap in Hin as (u' & E & Hu'). apply list_elem_of_omap in Hu' as ([k' v'] & Hin & Hu').
  apply slot_leaf_spec in Hu as (Hn & _). apply slot_leaf_spec in Hu' as (Hn' & _). cbn [fst] in *.
  apply Hk. assert (Hk' : k' ∈ l.*1) by apply (list_elem_of_fmap_2 fst _ _ Hin).
  replace k with k'; [done|]. apply H2; [by right|by left|congruence].
Qed.

Lemma proper_good l : proper l -> Forall good (omap slot_leaf l).
Proof.
  intros [H1 _]. apply Forall_forall. intros u Hu. apply list_elem_of_omap in Hu as (e & He & Hu).
  by apply slot_leaf_spec in Hu as (_ & _ & Hu).
Qed.

(** ** The two reducers agree *)

Definition leaf_event (portal : string) (c : Client) (e : string * gval) : event :=
  Callback (Platform (leaf_topic portal e.1) (Fields [("value", e.2)])) (pushGeneration c) (mqttSession c).

Lemma leaf_step portal c c0 e : validPortal portal = true -> is_Some (slot_leaf e) ->
  gatewayMode c = false -> pushGeneration c = pushGeneration c0 -> mqttSession c = mqttSession c0 ->
  ∃ u, slot_leaf e = Some u ∧ step iterate c (leaf_event portal c0 e) = apply_update iterate u c.
Proof.
  intros Hp [u Hu] Hg Hpg Hms. exists u. split; [done|]. unfold leaf_event. cbn [step]. unfold apply_message.
  rewrite Hg, Hpg, Hms, !Z.eqb_refl. cbn [negb orb]. rewrite decode_leaf by done. destruct e as [k v]. cbn [fst snd].
  by rewrite Hu.
Qed.

Lemma leaf_run portal c0 l : validPortal portal = true -> gatewayMode c0 = false ->
  (∀ e, e ∈ l -> is_Some (slot_leaf e)) ->
  let c := run iterate (leaf_event portal c0 <$> l) c0 in
  gatewayMode c = false ∧ pushGeneration c = pushGeneration c0 ∧ mqttSession c = mqttSession c0 ∧
  platformSlots c = foldl (λ m u, updated_slots u m) (platformSlots c0) (omap slot_leaf l) ∧
  (l = [] ∨ ∃ prev, notifications c
     = newest (List.filter (λ n, negb (native n)) prev ++ omap toNotification (iterate (platformSlots c)))).
Proof.
  intros Hp Hg. induction l as [|e l IH] using rev_ind; intros Hl.
  { cbn. repeat (split; [done|]). by left. }
  destruct IH as (I1 & I2 & I3 & I4 & _); [intros; apply Hl, elem_of_app; by left|].
  unfold run in *. rewrite fmap_app, foldl_app. cbn [fmap list_fmap foldl].
  set (c := foldl _ c0 _) in *.
  destruct (leaf_step portal c c0 e) as (u & Hu & ->); [done|apply Hl, elem_of_app; right; by left|done..|].
  repeat (split; [done|]). split; [|right; by exists (notifications c)].
  rewrite omap_app, foldl_app, <- I4. cbn [omap list_omap]. by rewrite Hu.
Qed.

Lemma filter_newest kept ns :
  Forall (λ n, native n = true) ns -> (length ns <= maxNotifications)%nat ->
  List.filter native (newest (List.filter (λ n, negb (native n)) kept ++ ns)) = ns.
Proof.
  intros Hns Hl. unfold newest. rewrite length_app, drop_app.
  set (l := List.filter _ kept). replace (_ - length l)%nat with 0%nat by lia. rewrite drop_0, List.filter_app.
  assert (Hk : ∀ k, List.filter native (drop k l) = []).
  { intros k. assert (Hall : Forall (λ n, native n = false) (drop k l)).
    { apply Forall_drop. apply Forall_forall. intros n Hn. apply list_elem_of_In, filter_In in Hn as [_ Hn].
      by apply negb_true_iff in Hn. }
    induction Hall as [|n ns' Hn _ IH]; [done|]. simpl. by rewrite Hn. }
  rewrite Hk. cbn [app]. apply forallb_filter_id, forallb_forall. intros n Hn.
  rewrite Forall_forall in Hns. by apply Hns, list_elem_of_In.
Qed.

(** C11: The banners that the MQTT client maintains message by message are those
    that the gateway rebuilds from one snapshot of the same leaves, whatever
    the order of the messages, the repetitions and the clearings in between,
    and the order in which maps are iterated. *)
Theorem reducers_agree (portal : string) (c : Client) (msgs leaves battery vebus : list (string * gval)) :
  validPortal portal = true -> gatewayMode c = false -> platformSlots c = ∅ ->
  (∀ e, e ∈ msgs -> is_Some (slot_leaf e)) ->
  (∀ k k', k ∈ msgs.*1 -> k' ∈ msgs.*1 -> leaf_name k = leaf_name k' -> k = k') ->
  msgs ≠ [] -> leaves ≡ₚ set_props [] msgs ->
  (length (mapNotifications leaves battery vebus) <= 100)%nat ->
  List.filter native (notifications (run iterate (leaf_event portal c <$> msgs) c))
  ≡ₚ mapNotifications leaves battery vebus.
Proof.
  intros Hp Hg Hs Hl Hn Hne HP Hlen. assert (Hprop : proper msgs) by by split.
  destruct (leaf_run portal c msgs Hp Hg Hl) as (_ & _ & _ & Hslots & [Hnil|[prev Hns]]); [done|].
  set (c' := run _ _ _) in *. rewrite Hns. rewrite Hs in Hslots.
  assert (Hnd : NoDup leaves.*1) by (rewrite HP; apply set_props_NoDup; by apply NoDup_nil_2).
  assert (Hprop' : proper leaves).
  { apply (proper_sub leaves msgs); [|done]. intros e He. apply set_props_last. by rewrite <- HP. }
  assert (Hsame : omap toNotification (iterate (platformSlots c')) ≡ₚ mapNotifications leaves battery vebus).
  { unfold mapNotifications, parsePlatformSlots.
    assert (Hseen : Nat.eqb (length (omap slot_leaf leaves)) 0 = false).
    { apply Nat.eqb_neq. intros H0%nil_length_inv. destruct leaves as [|e leaves'].
      - destruct msgs as [|e msgs' _] using rev_ind; [done|].
        rewrite set_props_snoc in HP. apply Permutation_nil in HP. by destruct (set_props [] msgs') as [|[]];
          simpl in HP; [|destruct (String.eqb _ _)].
      - destruct (proper_leaf _ Hprop' e) as [u Hu]; [by left|]. cbn [omap list_omap] in H0. by rewrite Hu in H0. }
    rewrite Hseen. cbn [negb]. rewrite stable_sort_perm. apply same_banners.
    rewrite Hslots. apply (matches_banners _ _ (latest (omap slot_leaf msgs)) (latest (omap slot_leaf leaves))).
    - by apply updates_match, proper_good.
    - by apply leaves_match; [apply proper_good|apply proper_NoDup].
    - intros key f. by apply latest_snapshot. }
  rewrite filter_newest; [done| |].
  - apply Forall_forall. intros n Hin. apply list_elem_of_omap in Hin as (ps & _ & Hin). by eapply banner_native.
  - by rewrite Hsame.
Qed.
End gateway.

(** ** Names of alarms *)

Lemma append_empty (a b : string) : a +:+ b = "" -> a = "" ∧ b = "".
Proof. destruct a; [by split|done]. Qed.

Lemma capitalize_nonempty w : w ≠ "" -> capitalize w ≠ "".
Proof.
  destruct w as [|c w]; [done|]. intros _ H. cbn [capitalize] in H. apply append_empty in H as [H _].
  unfold upper_byte in H. by repeat case_match.
Qed.

Lemma join_snoc l w : l ≠ [] -> JsValue.join " " (l ++ [w]) = JsValue.join " " l +:+ " " +:+ w.
Proof.
  induction l as [|x l IH]; [done|]. intros _. destruct l as [|y l]; [done|].
  change ((x :: y :: l) ++ [w]) with (x :: ((y :: l) ++ [w])).
  change (JsValue.join " " (x :: ((y :: l) ++ [w]))) with (x +:+ " " +:+ JsValue.join " " ((y :: l) ++ [w])).
  change (JsValue.join " " (x :: y :: l)) with (x +:+ " " +:+ JsValue.join " " (y :: l)).
  rewrite IH by done. by rewrite !append_assoc.
Qed.

(** The text of [prettyAlarmName] so far against the words of [splitCamel]. *)
Definition same_name (acc : list string * string) (acc' : string * string) : Prop :=
  acc'.2 = acc.2 ∧ acc'.1 = JsValue.join " " (capitalize <$> acc.1) ∧ Forall (λ w, w ≠ "") acc.1.

Lemma join_words_empty words : Forall (λ w, w ≠ "") words ->
  JsValue.join " " (capitalize <$> words) = "" -> words = [].
Proof.
  destruct words as [|w words]; [done|]. intros [Hw _]%Forall_cons H. exfalso.
  apply (capitalize_nonempty w Hw). destruct words as [|x words]; [exact H|].
  change (capitalize w +:+ (" " +:+ JsValue.join " " (capitalize <$> x :: words)) = "") in H.
  by apply append_empty in H as [H _].
Qed.

Lemma flush_word words b current : same_name (words, current) (b, current) -> current ≠ "" ->
  same_name (words ++ [current], "") (flush (b, current)).
Proof.
  intros (_ & Hb & Hw) Hc. cbn [fst snd] in *. unfold flush. rewrite (proj2 (String.eqb_neq current "") Hc).
  split; [done|]. cbn [fst snd]. split; [|apply Forall_app; split; [done|by apply Forall_singleton]].
  rewrite fmap_app. cbn [fmap list_fmap]. destruct (String.eqb_spec b "") as [->|Hne].
  - symmetry in Hb. apply join_words_empty in Hb as ->; [|done]. done.
  - rewrite Hb. rewrite join_snoc; [done|]. intros E. destruct words; [by apply Hne; rewrite Hb|discriminate E].
Qed.

Lemma name_steps rs : ∀ words b current, same_name (words, current) (b, current) ->
  same_name (foldl camel_step (words, current) rs) (foldl name_step (b, current) rs).
Proof.
  induction rs as [|r rs IH]; intros words b current H; [done|]. cbn [foldl].
  unfold camel_step at 2, name_step at 2. cbn [fst snd].
  destruct (is_upper r && _ && _) eqn:Eu.
  { assert (Hc : current ≠ "") by (intros ->; rewrite andb_false_r in Eu; done).
    destruct (flush_word words b current H Hc) as (_ & H2 & H3). apply IH. by split. }
  destruct (_ || _).
  - destruct (String.eqb_spec current "") as [->|Hc]; [by apply IH|].
    pose proof (flush_word words b current H Hc) as Hf. destruct (flush (b, current)) as [b' c'].
    destruct Hf as (Hf1 & Hf). cbn [fst snd] in Hf1. subst c'. by apply IH.
  - apply IH. destruct H as (_ & H). by split.
Qed.

(** The two implementations of an alarm's name agree. *)
Lemma alarm_names_agree name : gateway_prettyAlarmName name = prettyAlarmName name.
Proof.
  unfold gateway_prettyAlarmName, prettyAlarmName, splitCamel.
  assert (H : same_name (foldl camel_step ([], "") (runes name)) (foldl name_step ("", "") (runes name))).
  { apply name_steps. by repeat split. }
  destruct (foldl camel_step ([], "") (runes name)) as [words current].
  destruct (foldl name_step ("", "") (runes name)) as [b c']. destruct H as (Hc & H). cbn [fst snd] in Hc. subst c'.
  destruct (String.eqb_spec current "") as [->|Hc]; [apply H|].
  by destruct (flush_word words b current (conj eq_refl H) Hc) as (_ & -> & _).
Qed.

(** ** A concrete snapshot *)

Definition sample_leaves : list (string * gval) := [
  ("0/Notifications/3/Type", GNumber "2"); ("0/Notifications/3/Description", GString "High temperature");
  ("0/Notifications/3/Type", GNumber "0"); ("0/Notifications/4/Acknowledged", GBool true);
  ("0/Notifications/3/DeviceName", GNil)].

Lemma reducers_agree_witness :
  List.filter native
    (notifications (run in_order (leaf_event "c0619ab4a585" NewClient <$> sample_leaves) NewClient))
  ≡ₚ mapNotifications in_order (set_props [] sample_leaves) [] [].
Proof.
  apply (reducers_agree in_order (λ m, Permutation_refl _) "c0619ab4a585" NewClient sample_leaves).
  - reflexivity.
  - reflexivity.
  - reflexivity.
  - intros e He. repeat (apply elem_of_cons in He as [->|He]; [vm_compute; eauto|]). by apply elem_of_nil in He.
  - intros k k' Hk Hk' E. cbn in Hk, Hk'.
    repeat (apply elem_of_cons in Hk as [->|Hk]); try (by apply elem_of_nil in Hk);
      repeat (apply elem_of_cons in Hk' as [->|Hk']); try (by apply elem_of_nil in Hk');
      first [reflexivity | vm_compute in E; discriminate].
  - discriminate.
  - reflexivity.
  - apply Nat.leb_le. vm_compute. reflexivity.
Defined.
